(* ===== verification/_CoqProject ===== *)
-Q . S2P
Prelude.v
KsError.v
Sql.v
SqlSpec.v
Entity.v
TableFrame.v
MlsGroups.v
MlsPending.v
MlsKeys.v
MlsCredentials.v
E2eiEntities.v
ProteusEntities.v
Keystore.v
KeystoreSpec.v
KeystoreWrites.v
Browser.v
BrowserEntity.v
BrowserMap.v
BrowserKeys.v
BrowserMls.v
BrowserProteus.v
BrowserSpec.v
BrowserVersion.v
BrowserCalls.v
BrowserExample.v
CcError.v
Ids.v
Backend.v
GroupStore.v
Proteus.v
ProteusSpec.v
ProteusRefinement.v
ProteusFrame.v
Cryptobox.v
BrowserCryptobox.v
OpenMls.v
CryptoProvider.v
CryptoProviderSpec.v
CryptoProviderExample.v
Pki.v
PkiSpec.v
PkiExample.v
Config.v
CommitDelay.v
Credential.v
Certificates.v
Acme.v
Enrollment.v
EnrollmentSpec.v
ClientOps.v
Conversation.v
Renew.v
Decrypt.v
Central.v
E2eiCentral.v
MemberIdentities.v
Example.v
ConvFrame.v
Durable.v
Coherence.v
ClientFrame.v
CentralFrame.v
CoreCrypto.v
CentralJoin.v
CentralRotate.v
CentralSpec.v
CentralLive.v
DecryptSpec.v
Witness.v
EnrollmentExample.v
CentralExample.v
ProteusExample.v
BrowserCryptoboxExample.v
