(* ===== verification/Prelude.v ===== *)
(** * Verification library for CoreCrypto

    CoreCrypto is Wire's library of end-to-end encryption: a key store ([keystore/src]), on
    SQLite or in a browser, and on top of it ([crypto/src]) the management of MLS conversations,
    which runs the protocol through OpenMLS, the enrollment of clients for certificates, and
    Proteus sessions. This library models the parts of it that keep state and make decisions,
    and proves what they promise.

    ** How the program is modelled

    Bytes are the standard library's [byte], integers [Z] with their width written out where it
    matters, [Result] is [result], and a method with [&mut self] is a function of type
    [stm S E A = S -> result E A * S]: on an error the state that was reached is kept, since
    Rust rolls nothing back. In the crypto crate an error is a [Backend.Stop]: an error value, a
    panic, or a wait on a lock that never ends.

    What is not source of the repository is a parameter: the SQL engine (class [Sql.SqlEngine],
    of which any statement may fail; [healthy] engines do not), IndexedDB, the values of
    JavaScript and AES-GCM ([Browser.IndexedDb], [WasmBindgen], [AesGcm]), OpenMLS (classes
    [OpenMls.OpenMlsTypes] and [OpenMls.OpenMls], with [OpenMls.OpenMlsLaws] for its documented
    behaviour: which tables it leaves alone, that it marks the groups it changes, what a merge
    does to the epoch), the algorithms of RustCrypto ([CryptoProvider.CryptoCrates], with
    [CryptoCratesLaws]), the cache [schnellru] ([GroupStore.Schnellru]), X.509
    ([Credential.X509Lib], and [Pki.X509Crates] for making certificates), the ACME client
    [wire_e2e_identity] ([Acme.Acme]), the protocol [proteus-wasm] ([Proteus.ProteusLib]), files
    ([Cryptobox.Files]), the old database of a browser ([BrowserCryptobox.CryptoboxDb]), JSON
    ([Central.ConfigSerde],
    [Enrollment]'s [EnrollmentSerde]), text codecs ([Ids.IdCodecs]), and the logarithm of [f32]
    ([CommitDelay.F32Ln]; the other operations of [f32] are defined there as IEEE 754 has them).
    [debug_assertions] is a parameter too ([Backend.Provider], [CryptoProvider.CryptoCrates]):
    where an assertion can fail ([push_credential_bundle], the exports of HPKE) a debug build
    panics. The theorems have their laws as hypotheses; [Sql.ref_engine], [Example]
    and the other files of examples have concrete instances in which the laws hold and apply
    the theorems there.

    ** The key store ([keystore/src])

    - [Prelude] (this file): bytes, machine integers, results, computations, lists, sorting.
    - [KsError]: [error.rs].
    - [Sql]: tables, rows, statements with transactions and blob handles, and programs over them;
      [SqlSpec]: what a program does on a healthy engine, and [atomic]: what one does on any
      engine, with every statement able to fail.
    - [Entity]: [entities/mod.rs] (class [EntityBase]), the buffer limits of
      [connection/mod.rs], the layout of a table as a list of entities ([rep]), and the
      interfaces [EntityLaws] and [UpsertLaws] that a kind of entity promises to its clients.
    - [TableFrame]: programs that touch one table only.
    - [MlsGroups], [MlsPending], [MlsKeys], [MlsCredentials], [E2eiEntities]: the entities of
      [entities/platform/generic/mls], each operation statement by statement;
      [ProteusEntities]: those of [generic/proteus].
    - [Keystore]: the [Connection] calls, [mls.rs] (what OpenMLS and the crypto crate store)
      and [proteus.rs]; [KeystoreSpec]: theorems on particular entities; [KeystoreWrites]: every
      call that writes, in a list, with what holds of them all.
    - [Browser]: the storage of a browser ([connection/platform/wasm]) and the encryption of what
      it keeps; [BrowserEntity]: entities there, with the interfaces [WasmCodec] and [WasmLaws];
      [BrowserMap]: a collection is a map; [BrowserKeys], [BrowserMls], [BrowserProteus]: the
      entities of [entities/platform/wasm]; [BrowserSpec], [BrowserVersion], [BrowserCalls]: the
      theorems; [BrowserExample]: a browser in which the laws hold.

    The theorems: a table is a list of entities, [save] replaces or appends, [find] gives the first
    one, [remove] is all or nothing, and of the calls that write what reports an error has committed
    nothing; what OpenMLS stores it reads back, but for a signature keypair, of which the oldest
    under its key is read; the browser's store is a map, whatever fails, and answers as the native
    one does; and what each special entity does, its defects included (a pending group with a
    parent does not come back, a root certificate cannot be replaced, a search with a limit is
    not SQL; the search of a free prekey id ends on any engine; in a browser a credential cannot be
    deleted, a buffered message replaces the one before, a release cannot open what a pre-release
    wrote, and the version number wraps around within the last major version it is meant for).

    ** The cryptographic provider ([mls-provider/src])

    - [CryptoProvider]: [crypto_provider.rs], the random generator behind its lock and every call
      of [OpenMlsCrypto] and [OpenMlsRand]: which algorithm a request gets, the decoding of keys
      and signatures, the errors. [CryptoProviderSpec]: a ciphersuite that is accepted works, with
      its round trips, and of one that is not the signature scheme and the HPKE configuration are
      refused by every operation; in any sequence of calls the random generator is lost by a panic and by nothing else.
    - [Pki]: [pki.rs], key pairs and the certificates they sign; [PkiSpec]: a certificate that is
      signed again keeps its subject and its key and is signed by its new issuer, whose key
      identifier takes the place of the old one, and a generated one has the validity that is asked
      for and exactly the extensions of its kind. The builder of certificates is a parameter; its
      laws say what it puts in of what it is given.
    - [CryptoProviderExample], [PkiExample]: crates in which the laws hold.

    The MLS components below do not use these definitions: to them the provider is part of what
    OpenMLS calls, and [OpenMlsLaws] says what they rely on.

    ** Conversations ([crypto/src/mls])

    - [CcError], [Ids], [Config], [CommitDelay], [Credential]: errors, identifiers,
      configuration, the delay before a commit, credentials and the identities of a client.
    - [Backend]: [MlsCryptoProvider] and the calls it gets; [OpenMls]: the protocol library.
    - [GroupStore]: [group_store.rs], the cache of shared conversations over the key store.
    - [Conversation]: [MlsConversation] and its methods; [Renew] and [Decrypt]: what happens to
      our proposals when somebody else commits, and the reading of a message with all its cases.
    - [ClientOps]: [mls/client], the making and loading of a client with its key packages.
    - [Central]: [MlsCentral], which finds conversations and calls their methods, joins, restores
      and wipes them.

    The theorems are in [DecryptSpec] (epochs, duplicates, own commits, approval of external
    senders, buffered messages), [Durable] (a durable call leaves the id, the group and the parent of
    the conversation in the store as they are in memory; the configuration is not stored),
    [CentralSpec] (in every state that calls lead to, memory and store agree, and the cache cannot
    be seen) and [CentralLive] (which calls can wait for a lock that they hold). Two calls of the
    code can break these promises for a conversation: marking it as a child of itself, and marking
    or rejoining it with a failure half way. A step of a central ([CentralSpec.central_step]) may do
    both; it records the conversations concerned ([Coherence.Exempt]: [own_parents] and [torn]),
    and the theorems are about all the others, and say what is left of the promises for these.
    They rest on [ConvFrame] (a preorder that the basic steps respect is respected by every
    operation), [ClientFrame] and [CentralFrame] (which tables a call writes), [Coherence] (the
    invariant of a central and its steps) and [CentralJoin] (joining keeps it).

    ** End-to-end identity ([crypto/src/e2e_identity])

    - [Certificates]: trust anchors, intermediate certificates and revocation lists.
    - [Acme] and [Enrollment]: the types of the ACME messages and an enrollment with its calls;
      [EnrollmentSpec]: an enrollment implements a state machine, one certificate is asked for
      an account, an enrollment put aside comes back once, its authorizations keep their type.
    - [E2eiCentral]: the calls of [MlsCentral], the rotation of a credential through all
      conversations among them; [CentralRotate]: that it reaches every active conversation of
      the store and no other.
    - [MemberIdentities]: the identities of the members of a conversation.

    ** Proteus ([crypto/src/proteus.rs], [lib.rs])

    - [Proteus]: [ProteusCentral] and its sessions, cached and stored; [ProteusSpec]: an abstract
      machine without cache and tables and a simulation for every call; [ProteusRefinement]: over
      the life of a client its answers are those of the machine, restarts, errors and panics
      included, as long as after a failed encryption, decryption or making of a session no session in
      memory is ahead of the key store, or the sessions are loaded again (which the code leaves to
      its caller);
      [ProteusFrame]: the tables Proteus writes.
    - [Cryptobox]: the migration of a Cryptobox directory, which keeps what is there and takes
      what it can read; [BrowserCryptobox]: that of a database of the browser.
    - [CoreCrypto]: both clients over one key store; Proteus calls do not change the MLS client.

    [Example] holds the instances of the parameters; [Witness], [EnrollmentExample],
    [CentralExample], [ProteusExample], [BrowserExample] and the ends of the key store files apply the
    theorems to concrete states.

    ** Fuel

    The search of a free prekey id is the one loop that is not structural. Its fuel is 65535,
    one for each id and one for the bound, and [KeystoreSpec.get_free_id_spec] shows that it
    never runs out: it ends with a free id or with [NoFreePrekeyId]. That it ends whatever the
    engine answers, and that more fuel changes nothing, is [KeystoreSpec.get_free_id_terminates].

    ** What is not modelled

    - The algorithms of cryptography, the protocols of MLS and Proteus, and the parsing and
      encoding of X.509 and ACME messages: code of other crates, parameters here.
    - Opening, wiping and closing the databases and the providers over them
      ([connection/platform/generic], the keychain of iOS, the database of a browser as a whole):
      I/O, of which the model starts with an open connection.
    - The bindings ([crypto-ffi]), whose calls convert types and call the crypto crate, with the
      getters and serializations that only they use ([MlsRotateBundle::to_bytes], those of the
      bundles of a commit, the getters of clients, credentials and enrollments).
    - The assertions of debug builds about what other code gives: that OpenMLS encrypts application
      messages ([encrypt.rs]), the lengths of the keys and the number of rows of a Proteus identity,
      the result of a deletion in a browser's map.
    - Tools and tests ([interop], [xtask], [keystore-dump], [test_utils]) and the macros of
      [crypto-attributes], which add tests or compute nothing that is kept.
    - The timing of calls that wait for each other's locks: calls of one central are sequences, as
      its [&mut self] makes them. *)

From Stdlib Require Export ZArith Lia.
From Stdlib Require Import Sorting.Sorted.
From stdpp Require Export base tactics option list gmap strings numbers.
From stdpp Require Import options.
From Stdlib.Strings Require Import Byte.

#[export] Set Default Goal Selector "1".

(** ** Bytes

    A Rust [u8] is the standard library's [byte]; [Vec<u8>], [&[u8]] and [Box<[u8]>] are
    [bytes]. *)

Abbreviation bytes := (list Byte.byte).

#[export] Instance byte_eq_dec : EqDecision Byte.byte := Byte.byte_eq_dec.

#[export] Program Instance byte_countable : Countable Byte.byte :=
  inj_countable Byte.to_N Byte.of_N _.
Next Obligation. intros x. apply Byte.of_to_N. Qed.

Definition byte_val (b : Byte.byte) : Z := Z.of_N (Byte.to_N b).

Definition blen (b : bytes) : Z := Z.of_nat (length b).

(** The bytes of an ASCII literal of the source ([b"..."], [.as_bytes()]). *)
Definition ascii_bytes (s : string) : bytes := String.list_byte_of_string s.

(** The byte of a number, modulo 256; [u16::to_le_bytes] and [u16::from_le_bytes]. *)
Definition byte_of (n : Z) : Byte.byte := default Byte.x00 (Byte.of_N (Z.to_N (n mod 256)%Z)).

Definition u16_to_le_bytes (n : Z) : bytes := [byte_of n; byte_of (n / 256)%Z].

Definition u16_from_le_bytes (a b : Byte.byte) : Z := (byte_val a + 256 * byte_val b)%Z.

Lemma byte_val_range b : (0 <= byte_val b < 256)%Z.
Proof.
  unfold byte_val. pose proof (Byte.to_N_bounded b). lia.
Qed.

Lemma byte_val_of n : byte_val (byte_of n) = (n mod 256)%Z.
Proof.
  unfold byte_val, byte_of. pose proof (Z.mod_pos_bound n 256 ltac:(lia)) as Hm.
  destruct (Byte.of_N (Z.to_N (n mod 256)%Z)) as [b|] eqn:Hb.
  - simpl. apply Byte.to_of_N in Hb. rewrite Hb. lia.
  - apply Byte.of_N_None_iff in Hb. lia.
Qed.

Lemma byte_of_val b : byte_of (byte_val b) = b.
Proof.
  unfold byte_of, byte_val. pose proof (Byte.to_N_bounded b) as Hb.
  rewrite Z.mod_small by lia. by rewrite N2Z.id, Byte.of_to_N.
Qed.

Lemma u16_le_bytes_roundtrip n : (0 <= n <= 65535)%Z ->
  u16_from_le_bytes (byte_of n) (byte_of (n / 256)%Z) = n.
Proof.
  intros Hn. unfold u16_from_le_bytes. rewrite !byte_val_of.
  rewrite (Z.mod_small (n / 256)%Z) by (split; [apply Z.div_pos|apply Z.div_lt_upper_bound]; lia).
  pose proof (Z.div_mod n 256 ltac:(lia)). lia.
Qed.

Lemma u16_to_le_bytes_mod n : u16_to_le_bytes n = u16_to_le_bytes (n mod 65536).
Proof.
  unfold u16_to_le_bytes, byte_of.
  assert ((n mod 65536) mod 256 = n mod 256)%Z as ->.
  { apply Z.mod_mod_divide. by exists 256%Z. }
  assert ((n mod 65536) / 256 mod 256 = n / 256 mod 256)%Z as ->; [|done].
  rewrite (Z.div_mod n 65536) at 2 by lia.
  replace (65536 * (n / 65536) + n mod 65536)%Z with (n mod 65536 + (256 * (n / 65536)) * 256)%Z by lia.
  rewrite Z.div_add by lia. replace (256 * (n / 65536))%Z with ((n / 65536) * 256)%Z by lia.
  by rewrite Z.mod_add by lia.
Qed.

(** A boolean test holds of every byte when it does on the list of them. *)
Lemma byte_check (p : Byte.byte -> bool) :
  forallb (fun n => p (byte_of (Z.of_nat n))) (seq 0 256) = true -> forall b, p b = true.
Proof.
  intros Hp b. rewrite forallb_forall in Hp. specialize (Hp (Z.to_nat (byte_val b))).
  pose proof (byte_val_range b). rewrite Z2Nat.id, byte_of_val in Hp by lia.
  apply Hp, in_seq. lia.
Qed.

(** [std::str::from_utf8(..).is_ok()]: a Rust [String] is the [bytes] of its UTF-8 encoding. *)
Definition in_range (lo hi : Z) (b : Byte.byte) : bool :=
  Z.leb lo (byte_val b) && Z.leb (byte_val b) hi.

Fixpoint utf8_valid (s : bytes) : bool :=
  match s with
  | [] => true
  | b :: s1 =>
      if in_range 0 127 b then utf8_valid s1
      else if in_range 194 223 b then
        match s1 with
        | c1 :: s2 => in_range 128 191 c1 && utf8_valid s2
        | _ => false
        end
      else if in_range 224 239 b then
        match s1 with
        | c1 :: c2 :: s3 =>
            in_range (if in_range 224 224 b then 160 else 128)
                     (if in_range 237 237 b then 159 else 191) c1
            && in_range 128 191 c2 && utf8_valid s3
        | _ => false
        end
      else if in_range 240 244 b then
        match s1 with
        | c1 :: c2 :: c3 :: s4 =>
            in_range (if in_range 240 240 b then 144 else 128)
                     (if in_range 244 244 b then 143 else 191) c1
            && in_range 128 191 c2 && in_range 128 191 c3 && utf8_valid s4
        | _ => false
        end
      else false
  end.

(** ** Machine integers: [as i32], [as u32], [saturating_sub] *)

Definition u16_max : Z := 65535.
Definition u32_max : Z := 4294967295.
Definition u64_max : Z := 18446744073709551615.
Definition i32_max : Z := 2147483647.

(** Truncating cast to a signed 32-bit integer. *)
Definition as_i32 (n : Z) : Z :=
  let m := Z.modulo n 4294967296 in
  if Z.leb m i32_max then m else m - 4294967296.

Definition as_u32 (n : Z) : Z := Z.modulo n 4294967296.

Definition saturating_sub (a b : Z) : Z := if Z.leb b a then a - b else 0.

Lemma as_i32_small n : (0 <= n <= i32_max)%Z -> as_i32 n = n.
Proof.
  intros H. unfold as_i32, i32_max in *. rewrite Z.mod_small by lia.
  by destruct (Z.leb_spec n 2147483647); [|lia].
Qed.

Lemma saturating_sub_nonneg a b : (0 <= saturating_sub a b)%Z.
Proof. unfold saturating_sub. destruct (Z.leb_spec b a); lia. Qed.

(** [str::parse] for an unsigned integer of the given maximum: digits, after a [+] perhaps; [None]
    is a [ParseIntError]. *)
Definition digit_of (b : Byte.byte) : option Z :=
  let n := byte_val b in if Z.leb 48 n && Z.leb n 57 then Some (n - 48)%Z else None.

Fixpoint parse_digits (max acc : Z) (s : bytes) : option Z :=
  match s with
  | [] => Some acc
  | b :: s =>
      d ← digit_of b;
      let acc := (acc * 10 + d)%Z in
      if Z.leb acc max then parse_digits max acc s else None
  end.

Definition parse_uint (max : Z) (s : bytes) : option Z :=
  match s with
  | [] => None
  | b :: s' =>
      if Z.eqb (byte_val b) 43 then (match s' with [] => None | _ => parse_digits max 0 s' end)
      else parse_digits max 0 s
  end.

Lemma parse_digits_bound max s : forall acc n,
  (0 <= acc <= max)%Z -> parse_digits max acc s = Some n -> (0 <= n <= max)%Z.
Proof.
  induction s as [|b s IH]; intros acc n Hacc; simpl; [by intros [= <-]|].
  unfold digit_of. destruct (_ && _) eqn:Hd; simpl; [|done].
  apply andb_true_iff in Hd as [Hlo%Z.leb_le Hhi%Z.leb_le].
  destruct (Z.leb_spec (acc * 10 + (byte_val b - 48)) max); [|done].
  apply IH. lia.
Qed.

Lemma parse_uint_bound max s n : (0 <= max)%Z -> parse_uint max s = Some n -> (0 <= n <= max)%Z.
Proof.
  intros Hm. destruct s as [|b s]; simpl; [done|]. destruct (Z.eqb _ _).
  - destruct s as [|b' s]; [done|]. apply parse_digits_bound. lia.
  - intros Hp. eapply (parse_digits_bound max (b :: s) 0); [lia|exact Hp].
Qed.

(** ** Slices *)

(** [slice.split(pred)]: the pieces between the separators; there is always one. *)
Fixpoint split (p : Byte.byte -> bool) (s : bytes) : list bytes :=
  match s with
  | [] => [[]]
  | b :: s =>
      if p b then [] :: split p s
      else match split p s with
           | piece :: rest => (b :: piece) :: rest
           | [] => [[b]]
           end
  end.

(** [slice.splitn(2, pred)] *)
Fixpoint splitn2 (p : Byte.byte -> bool) (s : bytes) : list bytes :=
  match s with
  | [] => [[]]
  | b :: s =>
      if p b then [[]; s]
      else match splitn2 p s with
           | piece :: rest => (b :: piece) :: rest
           | [] => [[b]]
           end
  end.

(** ** Results

    [Result<T, E>] and computations over a state that can fail. On failure the state reached
    so far is kept: that is what makes "an operation that returns an error has changed
    nothing" a statement about the code and not a property of the encoding. *)

Inductive result (E A : Type) : Type :=
  | Ok (a : A)
  | Err (e : E).
Arguments Ok {E A} a.
Arguments Err {E A} e.

#[export] Instance result_eq_dec {E A} `{EqDecision E, EqDecision A} :
  EqDecision (result E A).
Proof. solve_decision. Defined.

#[export] Instance result_ret E : MRet (result E) := fun A a => Ok a.
#[export] Instance result_bind E : MBind (result E) := fun A B f m =>
  match m with Ok a => f a | Err e => Err e end.
#[export] Instance result_fmap E : FMap (result E) := fun A B f m =>
  match m with Ok a => Ok (f a) | Err e => Err e end.

Definition is_ok {E A} (r : result E A) : bool := match r with Ok _ => true | Err _ => false end.

(** [Option::ok_or], [Result::map_err], [Result::ok]. *)
Definition ok_or {E A} (e : E) (o : option A) : result E A :=
  match o with Some a => Ok a | None => Err e end.
Definition map_err {E F A} (f : E -> F) (r : result E A) : result F A :=
  match r with Ok a => Ok a | Err e => Err (f e) end.
Definition res_ok {E A} (r : result E A) : option A :=
  match r with Ok a => Some a | Err _ => None end.

(** [Iterator::try_fold] over a list, stopping at the first error. *)
Fixpoint try_fold {E A B} (f : B -> A -> result E B) (acc : B) (l : list A) : result E B :=
  match l with
  | [] => Ok acc
  | a :: l => match f acc a with Ok acc' => try_fold f acc' l | Err e => Err e end
  end.

(** [iter.map(f).collect::<Result<Vec<_>, _>>()]. *)
Fixpoint try_map {E A B} (f : A -> result E B) (l : list A) : result E (list B) :=
  match l with
  | [] => Ok []
  | a :: l => b ← f a; bs ← try_map f l; Ok (b :: bs)
  end.

Definition stm (S E A : Type) : Type := S -> result E A * S.

#[export] Instance stm_ret S E : MRet (stm S E) := fun A a s => (Ok a, s).
#[export] Instance stm_bind S E : MBind (stm S E) := fun A B f m s =>
  match m s with
  | (Ok a, s') => f a s'
  | (Err e, s') => (Err e, s')
  end.

Definition st_get {S E} : stm S E S := fun s => (Ok s, s).
Definition st_put {S E} (s : S) : stm S E () := fun _ => (Ok (), s).
Definition st_modify {S E} (f : S -> S) : stm S E () := fun s => (Ok (), f s).
Definition st_fail {S E A} (e : E) : stm S E A := fun s => (Err e, s).
Definition st_lift {S E A} (r : result E A) : stm S E A := fun s => (r, s).
(** [call.ok()]: run the call, keep its effects, turn an error into [None]. *)
Definition st_ok {S E F A} (m : stm S E A) : stm S F (option A) := fun s =>
  match m s with (r, s') => (Ok (res_ok r), s') end.
(** [call.map_err(f)]. *)
Definition st_map_err {S E F A} (f : E -> F) (m : stm S E A) : stm S F A := fun s =>
  match m s with (r, s') => (map_err f r, s') end.

Fixpoint st_map {S E A B} (f : A -> stm S E B) (l : list A) : stm S E (list B) :=
  match l with
  | [] => mret []
  | a :: l => b ← f a; bs ← st_map f l; mret (b :: bs)
  end.

Fixpoint st_iter {S E A} (f : A -> stm S E ()) (l : list A) : stm S E () :=
  match l with
  | [] => mret ()
  | a :: l => f a;; st_iter f l
  end.

Section stm_laws.
Context {S E : Type}.

Lemma stm_bind_ret {A B} (a : A) (f : A -> stm S E B) s : (mret a ≫= f) s = f a s.
Proof. done. Qed.

Lemma stm_bind_assoc {A B C} (m : stm S E A) (f : A -> stm S E B) (g : B -> stm S E C) s :
  ((m ≫= f) ≫= g) s = (m ≫= (fun x => f x ≫= g)) s.
Proof. unfold mbind, stm_bind. by destruct (m s) as [[a|e] s']. Qed.

Lemma stm_bind_ok {A B} (m : stm S E A) (f : A -> stm S E B) s a s' :
  m s = (Ok a, s') -> (m ≫= f) s = f a s'.
Proof. unfold mbind, stm_bind. by intros ->. Qed.

Lemma stm_bind_err {A B} (m : stm S E A) (f : A -> stm S E B) s e s' :
  m s = (Err e, s') -> (m ≫= f) s = (Err e, s').
Proof. unfold mbind, stm_bind. by intros ->. Qed.

Lemma stm_bind_inv {A B} (m : stm S E A) (f : A -> stm S E B) s b s'' :
  (m ≫= f) s = (Ok b, s'') -> exists a s', m s = (Ok a, s') /\ f a s' = (Ok b, s'').
Proof.
  unfold mbind, stm_bind. destruct (m s) as [[a|e] s'] eqn:?; [|done]. by eauto.
Qed.
End stm_laws.

(** ** Lists *)

(** The first element that satisfies a boolean test, as SQL and iterators find it. *)
Fixpoint first {A} (p : A -> bool) (l : list A) : option A :=
  match l with
  | [] => None
  | a :: l => if p a then Some a else first p l
  end.

Lemma first_Some {A} (p : A -> bool) l a :
  first p l = Some a -> a ∈ l /\ p a = true.
Proof.
  induction l as [|b l IH]; simpl; [done|].
  destruct (p b) eqn:E; [intros [= ->]|intros H%IH]; set_solver.
Qed.

Lemma first_None {A} (p : A -> bool) l :
  first p l = None <-> (forall a, a ∈ l -> p a = false).
Proof.
  induction l as [|b l IH]; simpl; [set_solver|].
  destruct (p b) eqn:E.
  - split; [done|]. intros H. specialize (H b). rewrite E in H. set_solver.
  - rewrite IH. set_solver.
Qed.

Lemma first_app {A} (p : A -> bool) l k :
  first p (l ++ k) = match first p l with Some a => Some a | None => first p k end.
Proof. induction l as [|b l IH]; simpl; [done|]. by destruct (p b). Qed.

Lemma first_map {A B} (f : A -> B) (p : B -> bool) l :
  first p (f <$> l) = f <$> first (fun a => p (f a)) l.
Proof. induction l as [|b l IH]; simpl; [done|]. by destruct (p (f b)). Qed.

Lemma first_ext {A} (p q : A -> bool) l :
  (forall a, a ∈ l -> p a = q a) -> first p l = first q l.
Proof.
  induction l as [|b l IH]; intros H; simpl; [done|].
  rewrite (H b) by set_solver. rewrite IH; [done|]. set_solver.
Qed.

(** Replace the first element that satisfies [p], or add a new one at the end. *)
Fixpoint replace_first {A} (p : A -> bool) (x : A) (l : list A) : list A :=
  match l with
  | [] => []
  | a :: l => if p a then x :: l else a :: replace_first p x l
  end.

Definition upsert {A} (p : A -> bool) (x : A) (l : list A) : list A :=
  match first p l with Some _ => replace_first p x l | None => l ++ [x] end.

Lemma first_replace_first {A} (p : A -> bool) x l :
  p x = true -> is_Some (first p l) -> first p (replace_first p x l) = Some x.
Proof.
  intros Hx. induction l as [|a l IH]; simpl; [by intros [? [=]]|].
  destruct (p a) eqn:E; simpl; [by rewrite Hx|]. by rewrite E.
Qed.

Lemma first_upsert {A} (p : A -> bool) x l : p x = true -> first p (upsert p x l) = Some x.
Proof.
  intros Hx. unfold upsert. destruct (first p l) as [a|] eqn:E.
  - by apply first_replace_first; [|rewrite E; eauto].
  - rewrite first_app, E. simpl. by rewrite Hx.
Qed.

Lemma first_upsert_other {A} (p q : A -> bool) x l :
  q x = false -> (forall a, p a = true -> q a = false) ->
  first q (upsert p x l) = first q l.
Proof.
  intros Hq Hpq. unfold upsert. destruct (first p l) eqn:E.
  - clear E. induction l as [|b l IH]; simpl; [done|].
    destruct (p b) eqn:Eb; simpl; [by rewrite Hq, (Hpq b)|]. by rewrite IH.
  - rewrite first_app. destruct (first q l); [done|]. simpl. by rewrite Hq.
Qed.

Lemma first_split {A} (p : A -> bool) l x :
  first p l = Some x -> exists l1 l2, l = l1 ++ x :: l2 /\ p x = true /\
    forall y, replace_first p y l = l1 ++ y :: l2.
Proof.
  induction l as [|a l IH]; simpl; [done|]. destruct (p a) eqn:Ea.
  - intros [= ->]. exists [], l. by split_and!.
  - intros (l1 & l2 & -> & Hx & Hr)%IH. exists (a :: l1), l2. split_and!; [done..|].
    intros y. simpl. by rewrite Hr.
Qed.

(** With distinct keys, an element is found by its key. *)
Lemma first_key {A} `{EqDecision K} (key : A -> K) a l :
  NoDup (key <$> l) -> a ∈ l -> first (fun x => bool_decide (key x = key a)) l = Some a.
Proof.
  induction l as [|b l IH]; [by intros _ ?%not_elem_of_nil|].
  rewrite fmap_cons. intros [Hb Hl]%list.NoDup_cons [->|Ha]%elem_of_cons; simpl.
  - by rewrite bool_decide_eq_true_2.
  - rewrite bool_decide_eq_false_2; [by apply IH|]. intros Heq. apply Hb. rewrite Heq.
    by apply list_elem_of_fmap_2.
Qed.

(** What is in a list that an element was put into. *)
Lemma elem_of_upsert {A} (p : A -> bool) (a x : A) l : x ∈ upsert p a l -> x = a \/ x ∈ l.
Proof.
  unfold upsert. destruct (first p l) as [y|] eqn:Hf.
  - destruct (first_split _ _ _ Hf) as (l1 & l2 & -> & _ & ->). set_solver.
  - set_solver.
Qed.

Lemma NoDup_upsert {A} `{EqDecision K} (key : A -> K) e l :
  NoDup (key <$> l) -> NoDup (key <$> upsert (fun a => bool_decide (key a = key e)) e l).
Proof.
  intros Hl. unfold upsert. destruct (first _ l) as [x|] eqn:Hf.
  - destruct (first_split _ _ _ Hf) as (l1 & l2 & -> & Hx%bool_decide_eq_true & ->).
    revert Hl. rewrite !fmap_app, !fmap_cons. by rewrite Hx.
  - rewrite fmap_app. apply list.NoDup_app. split_and!; [done| |apply NoDup_singleton].
    intros i (y & -> & Hy)%list_elem_of_fmap Hi. apply list_elem_of_singleton in Hi.
    rewrite first_None in Hf. specialize (Hf y Hy). by apply bool_decide_eq_false in Hf.
Qed.

Lemma filter_sublist {A} (p : A -> bool) l : sublist (List.filter p l) l.
Proof. induction l as [|a l IH]; [done|]. simpl. destruct (p a); by constructor. Qed.

Lemma first_filter_imp {A} (p q : A -> bool) l :
  (forall a, p a = true -> q a = true) -> first p (List.filter q l) = first p l.
Proof.
  intros Hpq. induction l as [|a l IH]; [done|]. simpl. destruct (p a) eqn:Hp.
  - rewrite (Hpq a Hp). simpl. by rewrite Hp.
  - destruct (q a); simpl; [by rewrite Hp|done].
Qed.

Lemma NoDup_filter_key {A K} (key : A -> K) (p : A -> bool) l :
  NoDup (key <$> l) -> NoDup (key <$> List.filter p l).
Proof. intros Hl. eapply sublist_NoDup; [exact Hl|]. apply fmap_sublist, filter_sublist. Qed.

(** Taking away a key that is there once. *)
Lemma length_filter_key {A} `{EqDecision K} (key : A -> K) id l :
  NoDup (key <$> l) ->
  length (List.filter (fun a => negb (bool_decide (key a = id))) l) =
  (if first (fun a => bool_decide (key a = id)) l then pred (length l) else length l).
Proof.
  induction l as [|a l IH]; [done|]. rewrite fmap_cons. intros [Ha Hl]%list.NoDup_cons. simpl.
  specialize (IH Hl). case_bool_decide as Hid; simpl.
  - subst. rewrite IH. destruct (first _ l) eqn:Hf; [|done]. exfalso. apply Ha.
    apply first_Some in Hf as [Hin Hk%bool_decide_eq_true]. rewrite <-Hk. by apply list_elem_of_fmap_2.
  - rewrite IH. destruct (first _ l) eqn:Hf; [|done]. by destruct l.
Qed.

Lemma replace_first_fmap {A B} (f : A -> B) (p : B -> bool) x l :
  replace_first p (f x) (f <$> l) = f <$> replace_first (fun a => p (f a)) x l.
Proof.
  induction l as [|a l IH]; [done|]. rewrite fmap_cons. cbn [replace_first].
  destruct (p (f a)); rewrite fmap_cons; [done|]. by rewrite IH.
Qed.

Lemma length_replace_first {A} (p : A -> bool) x l :
  length (replace_first p x l) = length l.
Proof. induction l as [|a l IH]; simpl; [done|]. destruct (p a); simpl; auto. Qed.

(** ** Automation *)

Create HintDb cc.
Create Rewrite HintDb cc_len.
#[export] Hint Rewrite @length_app @length_map @length_replicate @length_fmap : cc_len.

(** Case analysis on the innermost match of the goal, keeping the equation. *)
Ltac case_goal :=
  match goal with |- context [match ?x with _ => _ end] => destruct x eqn:? end.

Ltac inv_ok :=
  repeat match goal with
  | H : Ok _ = Ok _ |- _ => injection H as H
  | H : Ok _ = Err _ |- _ => discriminate H
  | H : Err _ = Ok _ |- _ => discriminate H
  | H : (_, _) = (_, _) |- _ => injection H as H
  end; simplify_eq.

(** [slice::sort_by(|a, b| key(a).cmp(key(b)))]: the sort of the standard library is stable. *)
Fixpoint sort_insert {A} (key : A -> Z) (a : A) (l : list A) : list A :=
  match l with
  | [] => [a]
  | b :: l => if Z.leb (key a) (key b) then a :: b :: l else b :: sort_insert key a l
  end.

Fixpoint stable_sort {A} (key : A -> Z) (l : list A) : list A :=
  match l with
  | [] => []
  | a :: l => sort_insert key a (stable_sort key l)
  end.

Section stable_sort.
Context {A : Type} (key : A -> Z).

Lemma sort_insert_perm a l : sort_insert key a l ≡ₚ a :: l.
Proof.
  induction l as [|b l IH]; simpl; [done|]. destruct (Z.leb _ _); [done|].
  rewrite IH. apply Permutation_swap.
Qed.

Lemma stable_sort_perm l : stable_sort key l ≡ₚ l.
Proof. induction l as [|a l IH]; simpl; [done|]. by rewrite sort_insert_perm, IH. Qed.

Definition key_sorted (l : list A) : Prop := StronglySorted (fun a b => Z.le (key a) (key b)) l.

Lemma sort_insert_sorted a l : key_sorted l -> key_sorted (sort_insert key a l).
Proof.
  unfold key_sorted. induction 1 as [|b l Hl IH Hb]; simpl; [repeat constructor|].
  destruct (Z.leb_spec (key a) (key b)).
  - constructor; [by constructor|]. constructor; [done|].
    rewrite list.Forall_forall in *. intros c Hc. specialize (Hb c Hc). lia.
  - constructor; [done|]. apply list.Forall_forall. intros c Hc. rewrite sort_insert_perm in Hc.
    apply elem_of_cons in Hc as [->|Hc]; [lia|]. by eapply list.Forall_forall in Hb.
Qed.

Lemma stable_sort_sorted l : key_sorted (stable_sort key l).
Proof. induction l; simpl; [constructor|]. by apply sort_insert_sorted. Qed.

Lemma sort_insert_filter k a l :
  List.filter (fun x => Z.eqb (key x) k) (sort_insert key a l) =
  (if Z.eqb (key a) k then [a] else []) ++ List.filter (fun x => Z.eqb (key x) k) l.
Proof.
  induction l as [|b l IH]; simpl; [by destruct (Z.eqb (key a) k)|].
  destruct (Z.leb_spec (key a) (key b)); simpl; [by destruct (Z.eqb (key a) k)|].
  rewrite IH. destruct (Z.eqb_spec (key a) k), (Z.eqb_spec (key b) k); try done. lia.
Qed.

(** Elements with equal keys keep their order. *)
Lemma stable_sort_filter k l :
  List.filter (fun x => Z.eqb (key x) k) (stable_sort key l) =
  List.filter (fun x => Z.eqb (key x) k) l.
Proof.
  induction l as [|a l IH]; simpl; [done|]. rewrite sort_insert_filter, IH.
  by destruct (Z.eqb (key a) k).
Qed.

Lemma sort_insert_between a l1 l2 :
  Forall (fun b => key b < key a)%Z l1 -> Forall (fun b => key a <= key b)%Z l2 ->
  sort_insert key a (l1 ++ l2) = l1 ++ a :: l2.
Proof.
  induction 1 as [|b l1 Hb _ IH]; intros H2; simpl.
  - destruct H2 as [|b l2 Hb _]; [done|]. simpl. by rewrite (proj2 (Z.leb_le _ _) Hb).
  - rewrite (proj2 (Z.leb_gt _ _) Hb). f_equal. by apply IH.
Qed.

(** With the keys 1, 2 and 3 the sort lists those of each key, in their order. *)
Lemma stable_sort_123 l :
  Forall (fun a => key a = 1 \/ key a = 2 \/ key a = 3)%Z l ->
  stable_sort key l = List.filter (fun a => Z.eqb (key a) 1) l ++
    List.filter (fun a => Z.eqb (key a) 2) l ++ List.filter (fun a => Z.eqb (key a) 3) l.
Proof.
  assert (forall k l, Forall (fun b => key b = k) (List.filter (fun a => Z.eqb (key a) k) l)) as Hf.
  { intros k l'. apply list.Forall_forall. intros x Hx. apply list_elem_of_In, filter_In in Hx.
    apply Z.eqb_eq, Hx. }
  assert (forall (P Q : A -> Prop) l, (forall a, P a -> Q a) -> Forall P l -> Forall Q l) as Himp.
  { intros P Q l' HPQ HP. eapply list.Forall_impl; eauto. }
  induction 1 as [|a l Ha Hl IH]; [done|]. simpl. rewrite IH.
  destruct Ha as [Ha|[Ha|Ha]]; rewrite Ha; simpl.
  - apply (sort_insert_between a []); [constructor|]. repeat apply list.Forall_app_2;
      (eapply Himp; [|apply Hf]); simpl; intros; lia.
  - rewrite sort_insert_between; [done|..]; [|apply list.Forall_app_2];
      (eapply Himp; [|apply Hf]); simpl; intros; lia.
  - rewrite (app_assoc _ _ (List.filter (fun a => Z.eqb (key a) 3) l)), sort_insert_between, <-app_assoc;
      [done|apply list.Forall_app_2|]; (eapply Himp; [|apply Hf]); simpl; intros; lia.
Qed.
End stable_sort.

(** ** Maps that only grow

    What a fold has put into a map it does not put there again. *)

Lemma fold_grows {K V X} `{Countable K} (f : gmap K V -> X -> gmap K V) files m :
  (forall m e, m ⊆ f m e) -> m ⊆ fold_left f files m.
Proof.
  intros Hf. revert m. induction files as [|e files IH]; intros m; [done|]. simpl. etrans; [apply Hf|apply IH].
Qed.

Lemma fold_again {K V X} `{Countable K} (f : gmap K V -> X -> gmap K V) files m e :
  (forall m e, m ⊆ f m e) -> (forall m m' e, f m e ⊆ m' -> f m' e = m') ->
  e ∈ files -> f (fold_left f files m) e = fold_left f files m.
Proof.
  intros Hg Ha. revert m. induction files as [|e' files IH]; intros m; [by intros ?%not_elem_of_nil|].
  intros [->|Hin]%elem_of_cons; simpl; [|by apply IH].
  apply (Ha m). by apply fold_grows.
Qed.
