(* ===== verification/KsError.v ===== *)
(** * Keystore errors

    [keystore/src/error.rs]: the kinds of missing keys, the keystore's error type and its
    translation to Proteus error codes. *)

From S2P Require Import Prelude.

(** [MissingKeyErrorKind] *)
Inductive MissingKeyErrorKind : Set :=
  | MlsKeyPackageBundle
  | MissingMlsSignatureKeyPair
  | MissingMlsHpkePrivateKey
  | MissingMlsEncryptionKeyPair
  | MissingMlsEpochEncryptionKeyPair
  | MissingMlsPskBundle
  | MissingMlsCredential
  | MlsGroupMissing
  | MlsPendingGroupMissing
  | MlsPendingMessages
  | MissingE2eiEnrollment
  | MissingE2eiRefreshToken
  | MissingE2eiAcmeCA
  | MissingE2eiIntermediateCert
  | MissingE2eiCrl
  | MissingProteusPrekey
  | MissingProteusSession
  | MissingProteusIdentity.

#[export] Instance MissingKeyErrorKind_eq_dec : EqDecision MissingKeyErrorKind.
Proof. solve_decision. Defined.

(** What a [rusqlite::Error] says, as far as the code looks at it: [optional()] tells
    "no rows" from everything else. *)
Inductive SqliteError : Set :=
  | QueryReturnedNoRows
  | ConstraintViolation
  | SqlInputError
  | InvalidColumnType
  | SqliteFailure.

#[export] Instance SqliteError_eq_dec : EqDecision SqliteError.
Proof. solve_decision. Defined.

(** [CryptoKeystoreError], without the variants that only exist for wasm or iOS. Payloads that
    are errors of other crates, and the texts of messages, are left out. *)
Inductive CryptoKeystoreError : Set :=
  | MissingKeyInStore (k : MissingKeyErrorKind)
  | KeyReprError
  | TryFromSliceError
  | LockPoisonError
  | KsImplementationError
  | OutOfKeyPackageBundles
  | IncorrectApiUsage
  | SignatureKeyPairDoesNotBelongToCredential
  | AlreadyExists
  | BlobTooBig
  | KeyStoreValueTransformError
  | IoError
  | TimeError
  | DbError (e : SqliteError)
  | DbMigrationError
  | InvalidKeySize (expected actual : Z)
  | ParseIntError
  | NoFreePrekeyId
  | MlsKeyStoreError
  | HexDecodeError
  | FromUtf8Error
  | NotImplemented
  | TimestampError
  | KsNotFound.

#[export] Instance CryptoKeystoreError_eq_dec : EqDecision CryptoKeystoreError.
Proof. solve_decision. Defined.

(** [CryptoKeystoreResult] *)
Abbreviation KsResult := (result CryptoKeystoreError).

(** The Proteus error kinds [code] can answer ([proteus_traits::ProteusErrorKind]). *)
Inductive ProteusErrorKind : Set :=
  | PreKeyNotFound
  | SessionStateNotFoundForTag
  | ProteusUnknown
  | DecodeError
  | OtherSystemError
  | ProteusIoError
  | InvalidArrayLen.

(** [<CryptoKeystoreError as ProteusErrorCode>::code]; [None] is the [unreachable!()] panic. *)
Definition CryptoKeystoreError_code (e : CryptoKeystoreError) : option ProteusErrorKind :=
  match e with
  | MissingKeyInStore k =>
      match k with
      | MissingProteusPrekey => Some PreKeyNotFound
      | MissingProteusSession => Some SessionStateNotFoundForTag
      | MissingProteusIdentity => Some ProteusUnknown
      | _ => None
      end
  | KeyReprError => Some DecodeError
  | TryFromSliceError => Some DecodeError
  | LockPoisonError => Some OtherSystemError
  | BlobTooBig => Some ProteusIoError
  | KeyStoreValueTransformError => Some DecodeError
  | IoError => Some ProteusIoError
  | DbError _ => Some ProteusIoError
  | DbMigrationError => Some ProteusIoError
  | InvalidKeySize _ _ => Some InvalidArrayLen
  | ParseIntError => Some DecodeError
  | HexDecodeError => Some DecodeError
  | FromUtf8Error => Some DecodeError
  | _ => None
  end.
