(* ===== verification/Sql.v ===== *)
(** * The SQL statements of the keystore and the database engine that runs them

    The generic keystore ([keystore/src/entities/platform/generic]) talks to SQLite through
    [rusqlite]. The statements it embeds are the type [stmt], one constructor per form of
    statement or blob call; a keystore operation is a program ([prog]) over them. The engine
    itself is not code of the repository: it is the class [SqlEngine], a type of connections
    with a function that executes a statement and three documented laws. [sem] is the meaning
    the SQL text has on the tables; the laws say that an engine that reports success has done
    what the statement means, that a statement that fails commits nothing, and that a healthy
    engine (no I/O failure) follows the meaning exactly. Programs are lifted from [sem] to every
    engine once and for all ([exec_prog_healthy], [exec_prog_atomic]). *)

From S2P Require Import Prelude KsError.
Open Scope Z_scope.

(** ** Values, tables and the schema *)

Inductive value : Set :=
  | VNull
  | VInt (z : Z)
  | VText (s : bytes)
  | VBlob (b : bytes).

#[export] Instance value_eq_dec : EqDecision value.
Proof. solve_decision. Defined.

(** What the migrations declare of a column: nothing, [UNIQUE], [DEFAULT CURRENT_TIMESTAMP], or
    [INTEGER PRIMARY KEY CHECK ( id = 0 )] (an alias of the rowid). A timestamp column holds the
    value [unixepoch()] gives for it. *)
Inductive coldecl : Set := ColPlain | ColUnique | ColNow | ColZeroKey.

#[export] Instance coldecl_eq_dec : EqDecision coldecl.
Proof. solve_decision. Defined.

Abbreviation row := (list (string * value)).
Abbreviation rows := (list (Z * row)).

Record table := Table { t_cols : list (string * coldecl); t_rows : rows }.

Abbreviation db := (gmap string table).

Definition assoc {A} (c : string) (l : list (string * A)) : option A :=
  snd <$> first (fun p => String.eqb c p.1) l.

Definition row_get (c : string) (r : row) : value := default VNull (assoc c r).

Definition row_set (c : string) (v : value) (r : row) : row :=
  (fun p => if String.eqb c p.1 then (p.1, v) else p) <$> r.

Definition row_sets (sets : list (string * value)) (r : row) : row :=
  fold_left (fun r p => row_set p.1 p.2 r) sets r.

(** A stored value as the bytes an incremental blob handle reads; [NULL] and integers have no
    handle. *)
Definition value_blob (v : value) : option bytes :=
  match v with VText s => Some s | VBlob b => Some b | _ => None end.

(** SQL equality: [NULL] equals nothing. *)
Definition sql_eq (v w : value) : bool :=
  match v with VNull => false | _ => bool_decide (v = w) end.

(** ** Statements *)

Inductive where_ : Type :=
  | WAll
  | WEq (col : string) (v : value)   (* [WHERE col = ?] *)
  | WRowid (r : Z).                  (* [WHERE rowid = ?] *)

(** The tail of a [SELECT], clause by clause as it is written. *)
Inductive clause : Set :=
  | OrderByRowid (desc : bool)
  | Limit (n : Z)
  | Offset (n : Z).

Record blob_handle := BlobHandle {
  bh_table : string; bh_col : string; bh_row : Z; bh_len : Z }.

Inductive stmt : Type -> Type :=
  | SBegin : stmt ()
  | SCommit : stmt ()
  | SRollback : stmt ()
  | SDrop : stmt ()         (* the destructor of [rusqlite::Transaction] *)
  | SQueryRow (t : string) (cols : list string) (w : where_) (tail : list clause) :
      stmt (option (Z * list value))
  | SQuery (t : string) (cols : list string) (w : where_) (tail : list clause) :
      stmt (list (Z * list value))
  | SCount (t : string) : stmt Z
  | SInsert (t : string) (vals : list (string * value)) : stmt ()
  | SInsertOrReplace (t : string) (vals : list (string * value)) : stmt ()
  | SInsertReturning (t : string) (vals : list (string * value)) (col : string) : stmt value
  | SUpdate (t : string) (sets : list (string * value)) (w : where_) : stmt Z
  | SDelete (t : string) (w : where_) : stmt Z
  | SLastRowid : stmt Z
  | SBlobOpen (t c : string) (r : Z) (read_only : bool) : stmt blob_handle
  | SBlobRead (h : blob_handle) : stmt bytes
  | SBlobWriteAll (h : blob_handle) (data : bytes) : stmt ()
  | SBlobClose (h : blob_handle) : stmt ().

(** The tables as a connection sees them: what is committed, the working copy of an open
    transaction, the last inserted rowid and the clock of the engine. *)
Record view := View {
  v_db : db; v_tx : option db; v_rowid : Z; v_now : Z }.

Definition v_cur (v : view) : db := default (v_db v) (v_tx v).

(** Outside a transaction a statement commits by itself. *)
Definition v_set (d : db) (v : view) : view :=
  match v_tx v with
  | Some _ => View (v_db v) (Some d) (v_rowid v) (v_now v)
  | None => View d None (v_rowid v) (v_now v)
  end.

Definition v_set_rowid (r : Z) (v : view) : view := View (v_db v) (v_tx v) r (v_now v).

Definition where_test (w : where_) (p : Z * row) : bool :=
  match w with
  | WAll => true
  | WEq c v => sql_eq (row_get c p.2) v
  | WRowid r => Z.eqb r p.1
  end.

(** The grammar of a select tail is [ORDER BY e] then [LIMIT n] then [OFFSET m], the last only
    after a limit; any other order is a syntax error. *)
Definition apply_tail {A} (tail : list clause) (l : list A) : option (list A) :=
  let order tail := match tail with OrderByRowid d :: r => (d, r) | r => (false, r) end in
  let '(d, tail) := order tail in
  let l := if d then reverse l else l in
  match tail with
  | [] => Some l
  | [Limit n] => Some (take (Z.to_nat n) l)
  | [Limit n; Offset m] => Some (take (Z.to_nat n) (drop (Z.to_nat m) l))
  | _ => None
  end.

Definition select (cols : list string) (p : Z * row) : Z * list value :=
  (p.1, (fun c => row_get c p.2) <$> cols).

Definition next_rowid (rs : rows) : Z := 1 + fold_right Z.max 0 (fst <$> rs).

Fixpoint nodupb {A} `{EqDecision A} (l : list A) : bool :=
  match l with
  | [] => true
  | a :: l => bool_decide (a ∉ l) && nodupb l
  end.

Definition notnull (v : value) : option value := match v with VNull => None | _ => Some v end.

(** The [UNIQUE] constraints: the non-null values of such a column differ pairwise. *)
Definition unique_ok (cols : list (string * coldecl)) (rs : rows) : bool :=
  forallb (fun c => match c.2 with
                    | ColUnique => nodupb (omap (fun p => notnull (row_get c.1 p.2)) rs)
                    | _ => true
                    end) cols.

(** A new row: the given values, defaults elsewhere. *)
Definition new_row (now : Z) (cols : list (string * coldecl)) (vals : list (string * value)) : row :=
  (fun c => (c.1, match assoc c.1 vals with
                  | Some v => v
                  | None => match c.2 with ColNow => VInt now | _ => VNull end
                  end)) <$> cols.

(** The rowid of a new row: the integer primary key if the table has one ([None]: its [CHECK]
    fails), else one more than the largest. *)
Definition insert_rowid (cols : list (string * coldecl)) (r : row) (rs : rows) : option Z :=
  match first (fun c => bool_decide (c.2 = ColZeroKey)) cols with
  | None => Some (next_rowid rs)
  | Some (c, _) => match row_get c r with VInt 0 => Some 0 | _ => None end
  end.

Definition rowid_free (r : Z) (rs : rows) : bool :=
  forallb (fun p => negb (Z.eqb r p.1)) rs.

Definition map_where (w : where_) (f : row -> row) (rs : rows) : rows :=
  (fun p => if where_test w p then (p.1, f p.2) else p) <$> rs.

Definition count_where (w : where_) (rs : rows) : Z :=
  Z.of_nat (length (List.filter (where_test w) rs)).

Definition delete_where (w : where_) (rs : rows) : rows :=
  List.filter (fun p => negb (where_test w p)) rs.

(** ** The meaning of a statement *)

Abbreviation sm := (stm view CryptoKeystoreError).

Definition sql_fail {A} (e : SqliteError) : sm A := st_fail (DbError e).

Definition get_table (t : string) : sm table := fun v =>
  match v_cur v !! t with
  | Some tb => (Ok tb, v)
  | None => (Err (DbError SqlInputError), v)
  end.

Definition put_table (t : string) (tb : table) : sm () :=
  st_modify (fun v => v_set (<[t := tb]> (v_cur v)) v).

Definition sem_query (t : string) (cols : list string) (w : where_) (tail : list clause) :
    sm (list (Z * list value)) :=
  tb ← get_table t;
  match apply_tail tail (List.filter (where_test w) (t_rows tb)) with
  | Some rs => mret (select cols <$> rs)
  | None => sql_fail SqlInputError
  end.

Definition sem_insert (replace : bool) (t : string) (vals : list (string * value)) : sm () :=
  tb ← get_table t;
  v ← st_get;
  let r := new_row (v_now v) (t_cols tb) vals in
  match insert_rowid (t_cols tb) r (t_rows tb) with
  | None => sql_fail ConstraintViolation
  | Some id =>
      let old := if replace then delete_where (WRowid id) (t_rows tb) else t_rows tb in
      if rowid_free id old && unique_ok (t_cols tb) (old ++ [(id, r)]) then
        put_table t (Table (t_cols tb) (old ++ [(id, r)]));;
        st_modify (v_set_rowid id)
      else sql_fail ConstraintViolation
  end.

Definition sem_update (t : string) (sets : list (string * value)) (w : where_) : sm Z :=
  tb ← get_table t;
  let rs := map_where w (row_sets sets) (t_rows tb) in
  if unique_ok (t_cols tb) rs then
    put_table t (Table (t_cols tb) rs);;
    mret (count_where w (t_rows tb))
  else sql_fail ConstraintViolation.

Definition col_indexed (c : string) (cols : list (string * coldecl)) : bool :=
  match assoc c cols with Some ColUnique | Some ColZeroKey => true | _ => false end.

(** [sqlite3_blob_open]: the row must exist and hold text or a blob in that column; a column of
    an index cannot be opened for writing. *)
Definition sem_blob_open (t c : string) (r : Z) (ro : bool) : sm blob_handle :=
  tb ← get_table t;
  match first (where_test (WRowid r)) (t_rows tb) with
  | None => sql_fail SqliteFailure
  | Some p =>
      match value_blob (row_get c p.2) with
      | None => sql_fail SqliteFailure
      | Some b =>
          if negb ro && col_indexed c (t_cols tb) then sql_fail SqliteFailure
          else mret (BlobHandle t c r (blen b))
      end
  end.

Definition sem_blob_read (h : blob_handle) : sm bytes :=
  tb ← get_table (bh_table h);
  match first (where_test (WRowid (bh_row h))) (t_rows tb) with
  | None => st_fail IoError
  | Some p => st_lift (ok_or IoError (value_blob (row_get (bh_col h) p.2)))
  end.

(** A handle never changes the length of the value: bytes beyond it are not written and
    [write_all] reports an error. *)
Definition sem_blob_write (h : blob_handle) (data : bytes) : sm () :=
  tb ← get_table (bh_table h);
  old ← sem_blob_read h;
  let n := Z.to_nat (bh_len h) in
  put_table (bh_table h)
    (Table (t_cols tb)
       (map_where (WRowid (bh_row h))
          (row_set (bh_col h) (VBlob (take n data ++ drop (length (take n data)) old)))
          (t_rows tb)));;
  if Z.leb (blen data) (bh_len h) then mret () else st_fail IoError.

Definition sem {A} (s : stmt A) : sm A :=
  match s in stmt A return sm A with
  | SBegin => fun v =>
      match v_tx v with
      | None => (Ok (), View (v_db v) (Some (v_db v)) (v_rowid v) (v_now v))
      | Some _ => (Err (DbError SqliteFailure), v)
      end
  | SCommit => fun v =>
      match v_tx v with
      | Some w => (Ok (), View w None (v_rowid v) (v_now v))
      | None => (Err (DbError SqliteFailure), v)
      end
  | SRollback => fun v =>
      match v_tx v with
      | Some _ => (Ok (), View (v_db v) None (v_rowid v) (v_now v))
      | None => (Err (DbError SqliteFailure), v)
      end
  | SDrop => fun v => (Ok (), View (v_db v) None (v_rowid v) (v_now v))
  | SQueryRow t cols w tail => l ← sem_query t cols w tail; mret (head l)
  | SQuery t cols w tail => sem_query t cols w tail
  | SCount t => tb ← get_table t; mret (Z.of_nat (length (t_rows tb)))
  | SInsert t vals => sem_insert false t vals
  | SInsertOrReplace t vals => sem_insert true t vals
  | SInsertReturning t vals col =>
      tb ← get_table t;
      v ← st_get;
      sem_insert false t vals;;
      mret (row_get col (new_row (v_now v) (t_cols tb) vals))
  | SUpdate t sets w => sem_update t sets w
  | SDelete t w =>
      tb ← get_table t;
      put_table t (Table (t_cols tb) (delete_where w (t_rows tb)));;
      mret (count_where w (t_rows tb))
  | SLastRowid => v ← st_get; mret (v_rowid v)
  | SBlobOpen t c r ro => sem_blob_open t c r ro
  | SBlobRead h => sem_blob_read h
  | SBlobWriteAll h data => sem_blob_write h data
  | SBlobClose _ => mret ()
  end.

(** ** Programs over statements *)

Inductive prog (A : Type) : Type :=
  | Ret (r : KsResult A)
  | Step {X} (s : stmt X) (k : KsResult X -> prog A).
Arguments Ret {A} r.
Arguments Step {A X} s k.

Fixpoint prog_then {A B} (p : prog A) (f : KsResult A -> prog B) : prog B :=
  match p with
  | Ret r => f r
  | Step s k => Step s (fun x => prog_then (k x) f)
  end.

#[export] Instance prog_ret : MRet prog := fun A a => Ret (Ok a).
#[export] Instance prog_bind : MBind prog := fun A B f p =>
  prog_then p (fun r => match r with Ok a => f a | Err e => Ret (Err e) end).

Definition pstep {X} (s : stmt X) : prog X := Step s Ret.
Definition pfail {A} (e : CryptoKeystoreError) : prog A := Ret (Err e).
Definition plift {A} (r : KsResult A) : prog A := Ret r.
(** The call's result as a value, error or not. *)
Definition ptry {A} (p : prog A) : prog (KsResult A) := prog_then p (fun r => Ret (Ok r)).
(** [call.ok()] *)
Definition pok {A} (p : prog A) : prog (option A) := prog_then p (fun r => Ret (Ok (res_ok r))).

Fixpoint pmap {A B} (f : A -> prog B) (l : list A) : prog (list B) :=
  match l with
  | [] => mret []
  | a :: l => b ← f a; bs ← pmap f l; mret (b :: bs)
  end.

Fixpoint psum {A} (f : A -> prog Z) (acc : Z) (l : list A) : prog Z :=
  match l with
  | [] => mret acc
  | a :: l => n ← f a; psum f (acc + n)%Z l
  end.

(** [let transaction = conn.transaction()?; ...]: when the block is left, on any path, the
    transaction is dropped, which rolls back what was not committed and ignores errors. *)
Definition with_tx {A} (body : prog A) : prog A :=
  pstep SBegin;;
  prog_then body (fun r => Step SDrop (fun _ => Ret r)).

(** [blob_open], [read_to_end], [close]; and [blob_open], [write_all], [close]. *)
Definition blob_read (t c : string) (r : Z) (ro : bool) : prog bytes :=
  h ← pstep (SBlobOpen t c r ro);
  b ← pstep (SBlobRead h);
  pstep (SBlobClose h);;
  mret b.

Definition blob_write (t c : string) (r : Z) (data : bytes) : prog () :=
  h ← pstep (SBlobOpen t c r false);
  pstep (SBlobWriteAll h data);;
  pstep (SBlobClose h).

(** [query_row(...).optional()?] for a statement that selects the rowid alone. *)
Definition query_rowid (t : string) (w : where_) : prog (option Z) :=
  o ← pstep (SQueryRow t [] w []); mret (option_map fst o).

(** A program run by a given executor of statements. *)
Fixpoint run_with {S A} (ex : forall X, stmt X -> stm S CryptoKeystoreError X) (p : prog A) :
    stm S CryptoKeystoreError A := fun st =>
  match p with
  | Ret r => (r, st)
  | Step s k => let (x, st') := ex _ s st in run_with ex (k x) st'
  end.

Definition run {A} (p : prog A) : sm A := run_with (fun X s => sem s) p.

(** [rusqlite::blob::ZeroBlob(len as i32)] *)
Definition zeroblob (len : Z) : value :=
  VBlob (replicate (Z.to_nat (as_i32 len)) Byte.x00).

(** ** Engines *)

Definition writes {X} (s : stmt X) : bool :=
  match s with
  | SInsert _ _ | SInsertOrReplace _ _ | SInsertReturning _ _ _ | SUpdate _ _ _ | SDelete _ _ | SBlobWriteAll _ _ => true
  | _ => false
  end.

(** [exec_sound]: success means the statement was done. [exec_fail]: a statement that fails,
    inside a transaction if it writes, changes nothing that is committed. [exec_healthy]: short
    of failures of the system, the engine answers what the statement means. *)
Class SqlEngine := {
  conn : Type;
  conn_view : conn -> view;
  healthy : conn -> Prop;
  exec : forall X, stmt X -> stm conn CryptoKeystoreError X;
  exec_sound X (s : stmt X) c a c' :
    exec X s c = (Ok a, c') -> sem s (conn_view c) = (Ok a, conn_view c');
  exec_fail X (s : stmt X) c e c' :
    writes s = false \/ is_Some (v_tx (conn_view c)) ->
    exec X s c = (Err e, c') -> v_db (conn_view c') = v_db (conn_view c);
  exec_healthy X (s : stmt X) c r c' :
    healthy c -> exec X s c = (r, c') ->
    sem s (conn_view c) = (r, conn_view c') /\ healthy c';
}.

Definition exec_prog `{SqlEngine} {A} (p : prog A) : stm conn CryptoKeystoreError A :=
  run_with exec p.

(** ** Laws of programs *)

Lemma run_with_then {S A B} ex (p : prog A) (f : KsResult A -> prog B) (st : S) :
  run_with ex (prog_then p f) st =
  (let (r, st') := run_with ex p st in run_with ex (f r) st').
Proof.
  revert st. induction p as [r|X s k IH]; intros st; simpl; [done|].
  destruct (ex X s st) as [x st']. apply IH.
Qed.

Lemma run_bind {A B} (p : prog A) (f : A -> prog B) v :
  run (p ≫= f) v = (run p ≫= (fun a => run (f a))) v.
Proof.
  unfold run, mbind, prog_bind, stm_bind. rewrite run_with_then.
  by destruct (run_with _ p v) as [[a|e] v'].
Qed.

Lemma run_bind_ok {A B} (p : prog A) (f : A -> prog B) v a v' :
  run p v = (Ok a, v') -> run (p ≫= f) v = run (f a) v'.
Proof. intros H. rewrite run_bind. by rewrite (stm_bind_ok _ _ _ _ _ H). Qed.

Lemma prog_bind_assoc {A B C} (p : prog A) (f : A -> prog B) (g : B -> prog C) v :
  run ((p ≫= f) ≫= g) v = run (p ≫= (fun a => f a ≫= g)) v.
Proof.
  rewrite !run_bind. unfold mbind at 1 3, stm_bind. rewrite run_bind.
  unfold mbind at 1, stm_bind. destruct (run p v) as [[a|e] v']; [|done].
  by rewrite run_bind.
Qed.

Lemma run_bind_err {A B} (p : prog A) (f : A -> prog B) v e v' :
  run p v = (Err e, v') -> run (p ≫= f) v = (Err e, v').
Proof. intros H. rewrite run_bind. by rewrite (stm_bind_err _ _ _ _ _ H). Qed.

Lemma run_step {X} (s : stmt X) v : run (pstep s) v = sem s v.
Proof. unfold run, pstep. simpl. by destruct (sem s v). Qed.

Section engine.
Context `{E : SqlEngine}.

(** On a healthy connection a program does exactly what its statements mean. *)
Lemma exec_prog_healthy {A} (p : prog A) c r c' :
  healthy c -> exec_prog p c = (r, c') ->
  run p (conn_view c) = (r, conn_view c') /\ healthy c'.
Proof.
  unfold exec_prog, run. revert c. induction p as [r0|X s k IH]; intros c Hc; simpl.
  - by intros [= <- <-].
  - destruct (exec X s c) as [x c1] eqn:Hx. intros Hr.
    destruct (exec_healthy _ _ _ _ _ Hc Hx) as [-> Hc1]. by apply IH.
Qed.

Lemma exec_prog_run {A} (p : prog A) c r v' :
  healthy c -> run p (conn_view c) = (r, v') ->
  exists c', exec_prog p c = (r, c') /\ conn_view c' = v' /\ healthy c'.
Proof.
  intros Hc Hr. destruct (exec_prog p c) as [r1 c1] eqn:Hp.
  destruct (exec_prog_healthy _ _ _ _ Hc Hp) as [Hr1 Hc1].
  rewrite Hr in Hr1. simplify_eq. by eauto.
Qed.
End engine.

(** Column values as Rust integers and strings ([Row::get]). *)
Definition get_uint (max : Z) (v : value) : KsResult Z :=
  match v with
  | VInt z => if Z.leb 0 z && Z.leb z max then Ok z else Err (DbError InvalidColumnType)
  | _ => Err (DbError InvalidColumnType)
  end.

#[global] Arguments get_uint : simpl never.

Definition get_text (v : value) : KsResult bytes :=
  match v with VText s => Ok s | _ => Err (DbError InvalidColumnType) end.

Definition get_blob (v : value) : KsResult bytes :=
  match v with VBlob b => Ok b | _ => Err (DbError InvalidColumnType) end.

Lemma sql_eq_blob a b : sql_eq (VBlob a) (VBlob b) = bool_decide (a = b).
Proof. simpl. apply bool_decide_ext. split; [by intros [=]|by intros ->]. Qed.

Lemma sql_eq_text a b : sql_eq (VText a) (VText b) = bool_decide (a = b).
Proof. simpl. apply bool_decide_ext. split; [by intros [=]|by intros ->]. Qed.

Lemma sql_eq_int a b : sql_eq (VInt a) (VInt b) = bool_decide (a = b).
Proof. simpl. apply bool_decide_ext. split; [by intros [=]|by intros ->]. Qed.

(** ** An engine

    The meaning itself, with a schedule of failures: the head of the list says whether the next
    statement fails. It shows that the laws can hold, and serves the concrete examples. *)

Definition ref_exec (X : Type) (s : stmt X) : stm (view * list bool) CryptoKeystoreError X :=
  fun c =>
    match c.2 with
    | true :: fs => (Err (DbError SqliteFailure), (c.1, fs))
    | false :: fs => let (r, v) := sem s c.1 in (r, (v, fs))
    | [] => let (r, v) := sem s c.1 in (r, (v, []))
    end.

Lemma get_table_inv t v r v' : get_table t v = (r, v') -> v' = v.
Proof. unfold get_table. by destruct (v_cur v !! t); intros [= _ <-]. Qed.

Lemma v_db_v_set d v : is_Some (v_tx v) -> v_db (v_set d v) = v_db v.
Proof. unfold v_set. by intros [w ->]. Qed.

Lemma sem_err {X} (s : stmt X) v e v' :
  writes s = false \/ is_Some (v_tx v) -> sem s v = (Err e, v') -> v_db v' = v_db v.
Proof.
  intros Hw. destruct s; simpl in *; try destruct Hw as [Hw|Hw]; try done;
  unfold sem_insert, sem_update, sem_query, sem_blob_open, sem_blob_write, sem_blob_read,
    put_table, get_table, st_lift, st_get, st_modify, st_fail, sql_fail, mbind, stm_bind, mret, stm_ret;
  repeat case_match; intros; unfold st_fail in *; simplify_eq/=; rewrite ?v_db_v_set; done.
Qed.

#[export] Program Instance ref_engine : SqlEngine := {|
  conn := view * list bool;
  conn_view := fst;
  healthy := fun c => c.2 = [];
  exec := ref_exec;
|}.
Next Obligation.
  intros X s [v fs] a [v' fs']. unfold ref_exec. simpl.
  destruct fs as [|[] fs]; [|done|]; destruct (sem s v) as [r w]; by intros [= -> -> _].
Qed.
Next Obligation.
  intros X s [v fs] e [v' fs'] Hw. unfold ref_exec. simpl in *. destruct fs as [|[] fs].
  - destruct (sem s v) as [r w] eqn:Hs. intros [= -> -> _]. by eapply sem_err.
  - by intros [= _ <- _].
  - destruct (sem s v) as [r w] eqn:Hs. intros [= -> -> _]. by eapply sem_err.
Qed.
Next Obligation.
  intros X s [v fs] r [v' fs']. simpl. intros ->. unfold ref_exec. simpl.
  destruct (sem s v) as [r' w]. by intros [= -> -> <-].
Qed.
