(* ===== verification/SqlSpec.v ===== *)
(** * Reasoning about keystore programs

    Two kinds of lemmas. The first group is about every engine, failures included: a program
    that only commits as its last statement has committed nothing when it returns an error
    ([atomic]). The second group evaluates programs on the meaning of the statements, for an
    operation that works on one table inside a transaction ([tv]); the tactic [sql] chains
    them. *)

From S2P Require Import Prelude KsError Sql.
Open Scope Z_scope.

(** ** Atomicity, on every engine *)

Section atomic.
Context `{En : SqlEngine}.

Definition in_tx (c : conn) : Prop := is_Some (v_tx (conn_view c)).
Definition same_db (c c' : conn) : Prop := v_db (conn_view c') = v_db (conn_view c).

(** Never changes what is committed, wherever it runs. *)
Definition reader {A} (p : prog A) : Prop :=
  forall c r c', exec_prog p c = (r, c') -> same_db c c'.
(** Inside a transaction: commits nothing, and stays inside unless it fails. *)
Definition quiet {A} (p : prog A) : Prop :=
  forall c r c', in_tx c -> exec_prog p c = (r, c') ->
    same_db c c' /\ (is_ok r = true -> in_tx c').
(** Inside a transaction: if it fails, nothing is committed. *)
Definition commits {A} (p : prog A) : Prop :=
  forall c e c', in_tx c -> exec_prog p c = (Err e, c') -> same_db c c'.
(** If it fails, what is committed is what was committed before. *)
Definition atomic {A} (p : prog A) : Prop :=
  forall c e c', exec_prog p c = (Err e, c') -> same_db c c'.

Lemma same_db_refl c : same_db c c.
Proof. done. Qed.

Lemma same_db_trans c1 c2 c3 : same_db c1 c2 -> same_db c2 c3 -> same_db c1 c3.
Proof. unfold same_db. congruence. Qed.

Lemma exec_prog_then {A B} (p : prog A) (f : KsResult A -> prog B) c :
  exec_prog (prog_then p f) c = (let (r, c') := exec_prog p c in exec_prog (f r) c').
Proof. apply run_with_then. Qed.

Lemma exec_prog_step {X} (s : stmt X) c : exec_prog (pstep s) c = exec X s c.
Proof. unfold exec_prog, pstep. simpl. by destruct (exec X s c). Qed.

Lemma reader_ret {A} (r : KsResult A) : reader (Ret r).
Proof. by intros c r' c' [= <- <-]. Qed.

Lemma reader_then {A B} (p : prog A) (f : KsResult A -> prog B) :
  reader p -> (forall r, reader (f r)) -> reader (prog_then p f).
Proof.
  intros Hp Hf c r c'. rewrite exec_prog_then. destruct (exec_prog p c) as [x c1] eqn:Hx.
  intros Hr. eapply same_db_trans; [by eapply Hp|by eapply Hf].
Qed.

Lemma reader_bind {A B} (p : prog A) (f : A -> prog B) :
  reader p -> (forall a, reader (f a)) -> reader (p ≫= f).
Proof. intros Hp Hf. apply reader_then; [done|]. intros [a|e]; [done|apply reader_ret]. Qed.

Lemma reader_pok {A} (p : prog A) : reader p -> reader (pok p).
Proof. intros Hp. apply reader_then; [done|]. intros r. apply reader_ret. Qed.

Lemma reader_ptry {A} (p : prog A) : reader p -> reader (ptry p).
Proof. intros Hp. apply reader_then; [done|]. intros r. apply reader_ret. Qed.

Lemma reader_pmap {A B} (f : A -> prog B) l : (forall a, reader (f a)) -> reader (pmap f l).
Proof.
  intros Hf. induction l as [|a l IH]; [apply reader_ret|].
  simpl. repeat (apply reader_bind; [done|intros ?]). apply reader_ret.
Qed.

(** A statement whose success leaves the committed tables alone is a reader. *)
Lemma reader_step {X} (s : stmt X) :
  writes s = false ->
  (forall v a v', sem s v = (Ok a, v') -> v_db v' = v_db v) -> reader (pstep s).
Proof.
  intros Hw Hs c r c'. rewrite exec_prog_step. intros Hx. destruct r as [a|e].
  - apply exec_sound in Hx. by apply Hs in Hx.
  - apply exec_fail in Hx; [done|by left].
Qed.

Lemma quiet_step {X} (s : stmt X) :
  (forall v a v', is_Some (v_tx v) -> sem s v = (Ok a, v') ->
     v_db v' = v_db v /\ is_Some (v_tx v')) -> quiet (pstep s).
Proof.
  intros Hs c r c' Hc. rewrite exec_prog_step. intros Hx. destruct r as [a|e].
  - apply exec_sound in Hx. apply Hs in Hx as [? ?]; [|done]. by split.
  - apply exec_fail in Hx; [by split|by right].
Qed.

Lemma quiet_ret {A} (r : KsResult A) : quiet (Ret r).
Proof. by intros c r' c' Hc [= <- <-]. Qed.

Lemma quiet_bind {A B} (p : prog A) (f : A -> prog B) :
  quiet p -> (forall a, quiet (f a)) -> quiet (p ≫= f).
Proof.
  intros Hp Hf c r c' Hc. unfold mbind, prog_bind. rewrite exec_prog_then.
  destruct (exec_prog p c) as [[a|e] c1] eqn:Hx; destruct (Hp _ _ _ Hc Hx) as [H1 H2].
  - intros Hr. destruct (Hf a _ _ _ (H2 eq_refl) Hr) as [H3 H4].
    split; [by eapply same_db_trans|done].
  - intros [= <- <-]. by split.
Qed.

Lemma quiet_psum {A} (f : A -> prog Z) l acc : (forall a, quiet (f a)) -> quiet (psum f acc l).
Proof.
  intros Hf. revert acc. induction l as [|a l IH]; intros acc; simpl; [apply quiet_ret|].
  by apply quiet_bind.
Qed.

Lemma commits_quiet {A} (p : prog A) : quiet p -> commits p.
Proof. intros Hp c e c' Hc Hx. by destruct (Hp _ _ _ Hc Hx). Qed.

Lemma commits_bind {A B} (p : prog A) (f : A -> prog B) :
  quiet p -> (forall a, commits (f a)) -> commits (p ≫= f).
Proof.
  intros Hp Hf c e c' Hc. unfold mbind, prog_bind. rewrite exec_prog_then.
  destruct (exec_prog p c) as [[a|e'] c1] eqn:Hx; destruct (Hp _ _ _ Hc Hx) as [H1 H2].
  - intros Hr. eapply same_db_trans; [done|]. by eapply Hf; [apply H2|].
  - by intros [= <- <-].
Qed.

(** [transaction.commit()?; Ok(a)] *)
Lemma commits_commit {A} (a : A) : commits (pstep SCommit;; mret a).
Proof.
  intros c e c' Hc. unfold mbind, prog_bind. rewrite exec_prog_then, exec_prog_step.
  destruct (exec () SCommit c) as [[[]|e'] c1] eqn:Hx; [done|].
  intros [= <- <-]. by apply exec_fail in Hx; [|left].
Qed.

(** [transaction.rollback()?; Err(e)] *)
Lemma commits_rollback {A} (r : KsResult A) : commits (pstep SRollback;; Ret r).
Proof.
  intros c e c' Hc. unfold mbind, prog_bind. rewrite exec_prog_then, exec_prog_step.
  destruct (exec () SRollback c) as [[[]|e'] c1] eqn:Hx.
  - intros [= _ <-]. apply exec_sound in Hx. simpl in Hx.
    destruct (v_tx (conn_view c)); [|done]. injection Hx as Hv. unfold same_db. by rewrite <-Hv.
  - intros [= <- <-]. by apply exec_fail in Hx; [|left].
Qed.

Lemma atomic_reader {A} (p : prog A) : reader p -> atomic p.
Proof. by intros Hp c e c' Hx%Hp. Qed.

Lemma atomic_bind {A B} (p : prog A) (f : A -> prog B) :
  reader p -> (forall a, atomic (f a)) -> atomic (p ≫= f).
Proof.
  intros Hp Hf c e c'. unfold mbind, prog_bind. rewrite exec_prog_then.
  destruct (exec_prog p c) as [[a|e'] c1] eqn:Hx; pose proof (Hp _ _ _ Hx).
  - intros Hr. by eapply same_db_trans; [|eapply Hf].
  - by intros [= <- <-].
Qed.

Lemma atomic_then_ret {A B} (p : prog A) (b : A -> B) :
  atomic p -> atomic (p ≫= (fun a => mret (b a))).
Proof.
  intros Hp c e c'. unfold mbind, prog_bind. rewrite exec_prog_then.
  destruct (exec_prog p c) as [[a|e'] c1] eqn:Hx; [done|].
  intros [= <- <-]. by apply Hp in Hx.
Qed.
End atomic.

(** ** Which statements write *)

(** Symbolic inversion of a successful run of the statement monad. *)
Ltac stm_inv H :=
  repeat first
    [ match type of H with
      | _ = (Ok _, _) => idtac
      end;
      match type of H with
      | mbind _ _ _ = _ => apply stm_bind_inv in H as (? & ? & ? & H)
      end
    | progress simplify_eq/= ].

Lemma get_table_ok t v tb v' :
  get_table t v = (Ok tb, v') -> v' = v /\ v_cur v !! t = Some tb.
Proof. unfold get_table. destruct (v_cur v !! t) eqn:?; intros [= <- <-]. by split. Qed.

Lemma put_table_ok t tb v x v' :
  put_table t tb v = (Ok x, v') -> v' = v_set (<[t := tb]> (v_cur v)) v.
Proof. unfold put_table, st_modify. by intros [= <- <-]. Qed.

Lemma v_set_in_tx d v :
  is_Some (v_tx v) -> v_db (v_set d v) = v_db v /\ is_Some (v_tx (v_set d v)).
Proof. unfold v_set. by intros [w ->]. Qed.

(** Statements that read leave the view as it is. *)
Definition reads {X} (s : stmt X) : bool :=
  match s with
  | SQueryRow _ _ _ _ | SQuery _ _ _ _ | SCount _ | SLastRowid
  | SBlobOpen _ _ _ _ | SBlobRead _ | SBlobClose _ => true
  | _ => false
  end.

Definition controls {X} (s : stmt X) : bool :=
  match s with SBegin | SCommit | SRollback | SDrop => true | _ => false end.

Lemma sem_query_view t cols w tail v r v' :
  sem_query t cols w tail v = (r, v') -> v' = v.
Proof.
  unfold sem_query, mbind, stm_bind, get_table.
  destruct (v_cur v !! t); [destruct (apply_tail _ _)|]; by intros [= _ <-].
Qed.

Lemma sem_blob_read_view h v r v' : sem_blob_read h v = (r, v') -> v' = v.
Proof.
  unfold sem_blob_read, mbind, stm_bind, get_table.
  destruct (v_cur v !! _); [destruct (first _ _)|]; by intros [= _ <-].
Qed.

Lemma sem_reads {X} (s : stmt X) v r v' : reads s = true -> sem s v = (r, v') -> v' = v.
Proof.
  destruct s; simpl; try done; intros _.
  - unfold mbind, stm_bind. destruct (sem_query t cols w tail v) as [[l|e] v1] eqn:E;
      apply sem_query_view in E; intros [= _ <-]; done.
  - apply sem_query_view.
  - unfold mbind, stm_bind, get_table. by destruct (v_cur v !! t); intros [= _ <-].
  - by intros [= _ <-].
  - unfold sem_blob_open, mbind, stm_bind, get_table, sql_fail, st_fail, mret, stm_ret.
    repeat case_match; intros; simplify_eq; done.
  - apply sem_blob_read_view.
  - by intros [= _ <-].
Qed.

Lemma sem_insert_in_tx b t vals v x v' :
  is_Some (v_tx v) -> sem_insert b t vals v = (Ok x, v') ->
  v_db v' = v_db v /\ is_Some (v_tx v').
Proof.
  intros Htx. unfold sem_insert. intros H.
  apply stm_bind_inv in H as (tb & v1 & [-> Htb]%get_table_ok & H).
  apply stm_bind_inv in H as (v2 & v3 & Hg & H). injection Hg as <- <-.
  destruct (insert_rowid _ _ _) as [id|]; [|done].
  destruct (_ && _); [|done].
  apply stm_bind_inv in H as (u & v4 & ->%put_table_ok & H).
  injection H as _ <-. simpl. by apply v_set_in_tx.
Qed.

Lemma sem_update_in_tx t sets w v x v' :
  is_Some (v_tx v) -> sem_update t sets w v = (Ok x, v') ->
  v_db v' = v_db v /\ is_Some (v_tx v').
Proof.
  intros Htx. unfold sem_update. intros H.
  apply stm_bind_inv in H as (tb & v1 & [-> Htb]%get_table_ok & H).
  destruct (unique_ok _ _); [|done].
  apply stm_bind_inv in H as (u & v4 & ->%put_table_ok & H).
  injection H as _ <-. by apply v_set_in_tx.
Qed.

Lemma sem_blob_write_in_tx h data v x v' :
  is_Some (v_tx v) -> sem_blob_write h data v = (Ok x, v') ->
  v_db v' = v_db v /\ is_Some (v_tx v').
Proof.
  intros Htx. unfold sem_blob_write. intros H.
  apply stm_bind_inv in H as (tb & v1 & [-> Htb]%get_table_ok & H).
  apply stm_bind_inv in H as (old & v2 & ->%sem_blob_read_view & H).
  apply stm_bind_inv in H as (u & v4 & ->%put_table_ok & H).
  destruct (Z.leb _ _); [|done]. injection H as _ <-. by apply v_set_in_tx.
Qed.

Lemma sem_in_tx {X} (s : stmt X) v a v' :
  controls s = false -> is_Some (v_tx v) -> sem s v = (Ok a, v') ->
  v_db v' = v_db v /\ is_Some (v_tx v').
Proof.
  intros Hs Htx H. destruct (reads s) eqn:Hr.
  { apply sem_reads in H; [by subst|done]. }
  destruct s; try done; simpl in H.
  - by eapply sem_insert_in_tx.
  - by eapply sem_insert_in_tx.
  - apply stm_bind_inv in H as (tb & v1 & [-> Htb]%get_table_ok & H).
    apply stm_bind_inv in H as (v2 & v3 & Hg & H). injection Hg as <- <-.
    apply stm_bind_inv in H as (u & v4 & Hi & H). injection H as _ <-. by eapply sem_insert_in_tx.
  - by eapply sem_update_in_tx.
  - apply stm_bind_inv in H as (tb & v1 & [-> Htb]%get_table_ok & H).
    apply stm_bind_inv in H as (u & v4 & ->%put_table_ok & H).
    injection H as _ <-. by apply v_set_in_tx.
  - by eapply sem_blob_write_in_tx.
Qed.

Section atomic_stmts.
Context `{En : SqlEngine}.

Lemma reader_reads {X} (s : stmt X) : reads s = true -> reader (pstep s).
Proof.
  intros Hs. apply reader_step; [by destruct s|]. by intros v a v' ->%sem_reads.
Qed.

Lemma quiet_stmt {X} (s : stmt X) : controls s = false -> quiet (pstep s).
Proof. intros Hs. apply quiet_step. intros v a v' Hv. by apply sem_in_tx. Qed.

Lemma reader_begin : reader (pstep SBegin).
Proof. apply reader_step; [done|]. intros v a v'. simpl. by destruct (v_tx v); intros H; simplify_eq. Qed.

Lemma same_db_drop c r c' : exec () SDrop c = (r, c') -> same_db c c'.
Proof.
  destruct r as [a|e]; intros Hx; [|by apply exec_fail in Hx; [|left]].
  apply exec_sound in Hx. injection Hx as _ Hv. unfold same_db. by rewrite <-Hv.
Qed.

Lemma exec_with_tx {A} (body : prog A) c :
  exec_prog (with_tx body) c =
  (let (b, c1) := exec () SBegin c in
   match b with
   | Err e => (Err e, c1)
   | Ok _ => let (r, c2) := exec_prog body c1 in (r, snd (exec () SDrop c2))
   end).
Proof.
  unfold with_tx, mbind, prog_bind. rewrite exec_prog_then, exec_prog_step.
  destruct (exec () SBegin c) as [[[]|e] c1]; [|done].
  rewrite exec_prog_then. destruct (exec_prog body c1) as [r c2].
  unfold exec_prog. simpl. by destruct (exec () SDrop c2).
Qed.

Lemma begin_ok c u c' : exec () SBegin c = (Ok u, c') -> same_db c c' /\ in_tx c'.
Proof.
  intros Hx%exec_sound. simpl in Hx. unfold same_db, in_tx.
  destruct (v_tx (conn_view c)); [done|]. injection Hx as _ Hv. by rewrite <-Hv.
Qed.

Lemma atomic_with_tx {A} (body : prog A) : commits body -> atomic (with_tx body).
Proof.
  intros Hb c e c'. rewrite exec_with_tx.
  destruct (exec () SBegin c) as [[u|e'] c1] eqn:H1; [|intros [= <- <-]; by apply exec_fail in H1; [|left]].
  apply begin_ok in H1 as [H1 Htx]. destruct (exec_prog body c1) as [r c2] eqn:H2.
  destruct (exec () SDrop c2) as [d c3] eqn:H3. intros [= -> <-].
  eapply same_db_trans; [done|]. eapply same_db_trans; [by eapply Hb|]. by eapply same_db_drop.
Qed.

Lemma reader_with_tx {A} (body : prog A) : reader body -> reader (with_tx body).
Proof.
  intros Hb c r c'. rewrite exec_with_tx.
  destruct (exec () SBegin c) as [[u|e'] c1] eqn:H1; [|intros [= <- <-]; by apply exec_fail in H1; [|left]].
  apply begin_ok in H1 as [H1 Htx]. destruct (exec_prog body c1) as [r2 c2] eqn:H2.
  destruct (exec () SDrop c2) as [d c3] eqn:H3. intros [= -> <-].
  eapply same_db_trans; [done|]. eapply same_db_trans; [by eapply Hb|]. by eapply same_db_drop.
Qed.

Lemma reader_commits {A} (p : prog A) : reader p -> commits p.
Proof. by intros Hp c e c' _ Hx%Hp. Qed.
End atomic_stmts.

#[export] Hint Resolve reader_ret reader_bind reader_then reader_pok reader_ptry reader_pmap
  reader_with_tx quiet_ret quiet_bind quiet_psum commits_commit commits_rollback atomic_with_tx : cc.

(** Shows that a program is a [reader], [quiet], [commits] or [atomic] by its shape. *)
Ltac solve_atomic :=
  repeat match goal with
  | |- forall _, _ => intros ?
  | |- reader (pstep _) => apply reader_reads; reflexivity
  | |- quiet (pstep _) => apply quiet_stmt; reflexivity
  | |- reader (Ret _) => apply reader_ret
  | |- quiet (Ret _) => apply quiet_ret
  | |- reader (mret _) => apply reader_ret
  | |- quiet (mret _) => apply quiet_ret
  | |- reader (plift _) => apply reader_ret
  | |- quiet (plift _) => apply quiet_ret
  | |- reader (pfail _) => apply reader_ret
  | |- quiet (pfail _) => apply quiet_ret
  | |- reader (with_tx _) => apply reader_with_tx
  | |- atomic (with_tx _) => apply atomic_with_tx
  | |- reader (pok _) => apply reader_pok
  | |- reader (ptry _) => apply reader_ptry
  | |- reader (pmap _ _) => apply reader_pmap
  | |- quiet (psum _ _ _) => apply quiet_psum
  | |- commits (pstep SCommit ≫= (fun _ => mret _)) => apply commits_commit
  | |- commits (pstep SRollback ≫= (fun _ => _)) => apply commits_rollback
  | |- reader (_ ≫= _) => apply reader_bind
  | |- atomic (_ ≫= _) => apply atomic_bind
  | |- atomic (let _ := _ in _) => cbv zeta
  | |- commits (let _ := _ in _) => cbv zeta
  | |- quiet (_ ≫= _) => apply quiet_bind
  | |- commits (_ ≫= _) => apply commits_bind
  | |- commits (mret _) => apply commits_quiet
  | |- commits (pfail _) => apply commits_quiet
  | |- commits (plift _) => apply commits_quiet
  | |- context [match ?x with _ => _ end] => is_var x; destruct x
  | |- context [match ?x with _ => _ end] => destruct x
  end.

(** ** Evaluation inside a transaction on one table *)

Definition tv (v : view) (t : string) (cols : list (string * coldecl)) (rs : rows) (rid : Z) :
    view :=
  View (v_db v) (Some (<[t := Table cols rs]> (v_db v))) rid (v_now v).

(** The connection after the transaction committed. *)
Definition tv_done (v : view) (t : string) (cols : list (string * coldecl)) (rs : rows)
    (rid : Z) : view :=
  View (<[t := Table cols rs]> (v_db v)) None rid (v_now v).

Lemma get_table_tv v t cols rs rid :
  get_table t (tv v t cols rs rid) = (Ok (Table cols rs), tv v t cols rs rid).
Proof. unfold get_table, v_cur. simpl. by rewrite lookup_insert_eq. Qed.

Lemma put_table_tv v t cols rs rid tb :
  put_table t tb (tv v t cols rs rid) = (Ok (), tv v t (t_cols tb) (t_rows tb) rid).
Proof.
  unfold put_table, st_modify, v_set, v_cur, tv. simpl. rewrite insert_insert_eq.
  by destruct tb.
Qed.

Lemma run_with_tx {A} (body : prog A) v t cols rs :
  v_tx v = None -> v_db v !! t = Some (Table cols rs) ->
  run (with_tx body) v =
  (let (r, v') := run body (tv v t cols rs (v_rowid v)) in
   (r, View (v_db v') None (v_rowid v') (v_now v'))).
Proof.
  intros Htx Ht. unfold with_tx. erewrite run_bind_ok; [|rewrite run_step; simpl; by rewrite Htx].
  assert (View (v_db v) (Some (v_db v)) (v_rowid v) (v_now v) = tv v t cols rs (v_rowid v)) as ->.
  { unfold tv. by rewrite insert_id. }
  unfold run. rewrite run_with_then. by destruct (run_with _ body _) as [r v'].
Qed.

Lemma head_filter {A} (p : A -> bool) l : head (List.filter p l) = first p l.
Proof. induction l as [|a l IH]; simpl; [done|]. by destruct (p a). Qed.

Lemma filter_first_nil {A} (p : A -> bool) l : first p l = None -> List.filter p l = [].
Proof. induction l as [|a l IH]; simpl; [done|]. by destruct (p a). Qed.

Section eval.
Context (v : view) (t : string) (cols : list (string * coldecl)).
Implicit Types (rs : rows) (rid : Z).

Lemma sem_query_tv cs w tail rs rid :
  sem_query t cs w tail (tv v t cols rs rid) =
  (match apply_tail tail (List.filter (where_test w) rs) with
   | Some rs' => Ok (select cs <$> rs')
   | None => Err (DbError SqlInputError)
   end, tv v t cols rs rid).
Proof.
  unfold sem_query, mbind, stm_bind. rewrite get_table_tv. simpl.
  by destruct (apply_tail _ _).
Qed.

Lemma query_row_tv cs w rs rid :
  run (pstep (SQueryRow t cs w [])) (tv v t cols rs rid) =
  (Ok (select cs <$> first (where_test w) rs), tv v t cols rs rid).
Proof.
  rewrite run_step. simpl. unfold mbind at 1, stm_bind. rewrite sem_query_tv. simpl.
  rewrite <-head_filter. by destruct (List.filter _ rs).
Qed.

(** [SELECT rowid FROM t ORDER BY rowid ASC LIMIT 1] *)
Lemma query_first_tv cs rs rid :
  run (pstep (SQueryRow t cs WAll [OrderByRowid false; Limit 1])) (tv v t cols rs rid) =
  (Ok (select cs <$> head rs), tv v t cols rs rid).
Proof.
  rewrite run_step. simpl. unfold mbind at 1, stm_bind. rewrite sem_query_tv. simpl.
  destruct rs as [|r rs]; [done|]. simpl. done.
Qed.

Lemma query_tv cs w tail rs rid :
  run (pstep (SQuery t cs w tail)) (tv v t cols rs rid) =
  (match apply_tail tail (List.filter (where_test w) rs) with
   | Some rs' => Ok (select cs <$> rs')
   | None => Err (DbError SqlInputError)
   end, tv v t cols rs rid).
Proof. rewrite run_step. apply sem_query_tv. Qed.

Lemma query_rowid_tv w rs rid :
  run (query_rowid t w) (tv v t cols rs rid) =
  (Ok (fst <$> first (where_test w) rs), tv v t cols rs rid).
Proof.
  unfold query_rowid. erewrite run_bind_ok by apply query_row_tv.
  by destruct (first (where_test w) rs).
Qed.

Lemma insert_tv vals rs rid :
  let r := new_row (v_now v) cols vals in
  first (fun c => bool_decide (c.2 = ColZeroKey)) cols = None ->
  rowid_free (next_rowid rs) rs = true ->
  unique_ok cols (rs ++ [(next_rowid rs, r)]) = true ->
  run (pstep (SInsert t vals)) (tv v t cols rs rid) =
  (Ok (), tv v t cols (rs ++ [(next_rowid rs, r)]) (next_rowid rs)).
Proof.
  intros r Hk Hf Hu. rewrite run_step. simpl. unfold sem_insert.
  rewrite (stm_bind_ok _ _ _ _ _ (get_table_tv _ _ _ _ _)). simpl.
  unfold mbind at 1, stm_bind at 1, st_get. simpl. unfold insert_rowid. rewrite Hk.
  fold r. rewrite Hf, Hu. simpl.
  by rewrite (stm_bind_ok _ _ _ _ _ (put_table_tv _ _ _ _ _ _)).
Qed.

Lemma insert_returning_tv vals col rs rid :
  let r := new_row (v_now v) cols vals in
  first (fun c => bool_decide (c.2 = ColZeroKey)) cols = None ->
  rowid_free (next_rowid rs) rs = true ->
  unique_ok cols (rs ++ [(next_rowid rs, r)]) = true ->
  run (pstep (SInsertReturning t vals col)) (tv v t cols rs rid) =
  (Ok (row_get col r), tv v t cols (rs ++ [(next_rowid rs, r)]) (next_rowid rs)).
Proof.
  intros r Hk Hf Hu. pose proof (insert_tv vals rs rid Hk Hf Hu) as Hi. rewrite run_step in Hi.
  rewrite run_step. simpl in *. rewrite (stm_bind_ok _ _ _ _ _ (get_table_tv _ _ _ _ _)).
  unfold mbind at 1, stm_bind at 1, st_get. simpl. by rewrite (stm_bind_ok _ _ _ _ _ Hi).
Qed.

Lemma update_tv sets w rs rid :
  unique_ok cols (map_where w (row_sets sets) rs) = true ->
  run (pstep (SUpdate t sets w)) (tv v t cols rs rid) =
  (Ok (count_where w rs), tv v t cols (map_where w (row_sets sets) rs) rid).
Proof.
  intros Hu. rewrite run_step. simpl. unfold sem_update.
  rewrite (stm_bind_ok _ _ _ _ _ (get_table_tv _ _ _ _ _)). simpl. rewrite Hu.
  by rewrite (stm_bind_ok _ _ _ _ _ (put_table_tv _ _ _ _ _ _)).
Qed.

Lemma delete_tv w rs rid :
  run (pstep (SDelete t w)) (tv v t cols rs rid) =
  (Ok (count_where w rs), tv v t cols (delete_where w rs) rid).
Proof.
  rewrite run_step. simpl.
  rewrite (stm_bind_ok _ _ _ _ _ (get_table_tv _ _ _ _ _)). simpl.
  by rewrite (stm_bind_ok _ _ _ _ _ (put_table_tv _ _ _ _ _ _)).
Qed.

Lemma last_rowid_tv rs rid :
  run (pstep SLastRowid) (tv v t cols rs rid) = (Ok rid, tv v t cols rs rid).
Proof. done. Qed.

Lemma commit_tv rs rid :
  run (pstep SCommit) (tv v t cols rs rid) = (Ok (), tv_done v t cols rs rid).
Proof. done. Qed.

(** Rows around the row [r]. *)
Definition around (r : Z) (rs1 rs2 : rows) : Prop := r ∉ fst <$> rs1 /\ r ∉ fst <$> rs2.

Lemma first_around r rs1 rw rs2 :
  around r rs1 rs2 -> first (where_test (WRowid r)) (rs1 ++ (r, rw) :: rs2) = Some (r, rw).
Proof.
  intros [H1 _]. rewrite first_app.
  assert (first (where_test (WRowid r)) rs1 = None) as ->.
  { apply first_None. intros [r' rw'] Hin. simpl. apply Z.eqb_neq. intros ->.
    apply H1. apply list_elem_of_fmap. by exists (r', rw'). }
  simpl. by rewrite Z.eqb_refl.
Qed.

Lemma map_where_id r f rs : r ∉ fst <$> rs -> map_where (WRowid r) f rs = rs.
Proof.
  induction rs as [|[r' rw] rs IH]; [done|]. rewrite fmap_cons, not_elem_of_cons. simpl.
  intros [Hne H]. rewrite IH by done. by destruct (Z.eqb_spec r r').
Qed.

Lemma map_where_around r f rs1 rw rs2 :
  around r rs1 rs2 ->
  map_where (WRowid r) f (rs1 ++ (r, rw) :: rs2) = rs1 ++ (r, f rw) :: rs2.
Proof.
  intros [H1 H2]. unfold map_where. rewrite fmap_app, fmap_cons. fold (map_where (WRowid r) f rs1).
  fold (map_where (WRowid r) f rs2). rewrite !map_where_id by done. simpl. by rewrite Z.eqb_refl.
Qed.

Lemma blob_open_tv c r ro rs1 rw rs2 rid b :
  around r rs1 rs2 -> value_blob (row_get c rw) = Some b ->
  ro || negb (col_indexed c cols) = true ->
  run (pstep (SBlobOpen t c r ro)) (tv v t cols (rs1 ++ (r, rw) :: rs2) rid) =
  (Ok (BlobHandle t c r (blen b)), tv v t cols (rs1 ++ (r, rw) :: rs2) rid).
Proof.
  intros Ha Hb Hro. rewrite run_step. simpl. unfold sem_blob_open.
  rewrite (stm_bind_ok _ _ _ _ _ (get_table_tv _ _ _ _ _)). cbn [t_rows t_cols].
  rewrite first_around by done. cbn [snd]. rewrite Hb.
  by destruct ro, (col_indexed c cols).
Qed.

Lemma sem_blob_read_tv c r rs1 rw rs2 rid b n :
  around r rs1 rs2 -> value_blob (row_get c rw) = Some b ->
  sem_blob_read (BlobHandle t c r n) (tv v t cols (rs1 ++ (r, rw) :: rs2) rid) =
  (Ok b, tv v t cols (rs1 ++ (r, rw) :: rs2) rid).
Proof.
  intros Ha Hb. unfold sem_blob_read. cbn [bh_table bh_row bh_col].
  rewrite (stm_bind_ok _ _ _ _ _ (get_table_tv _ _ _ _ _)). cbn [t_rows].
  rewrite first_around by done. cbn [snd]. by rewrite Hb.
Qed.

Lemma blob_read_tv c r ro rs1 rw rs2 rid b :
  around r rs1 rs2 -> value_blob (row_get c rw) = Some b ->
  ro || negb (col_indexed c cols) = true ->
  run (blob_read t c r ro) (tv v t cols (rs1 ++ (r, rw) :: rs2) rid) =
  (Ok b, tv v t cols (rs1 ++ (r, rw) :: rs2) rid).
Proof.
  intros Ha Hb Hro. unfold blob_read. erewrite run_bind_ok by (by apply blob_open_tv).
  erewrite run_bind_ok by (rewrite run_step; by apply sem_blob_read_tv). done.
Qed.

Lemma blob_write_tv c r rs1 rw rs2 rid old data :
  around r rs1 rs2 -> value_blob (row_get c rw) = Some old -> length old = length data ->
  negb (col_indexed c cols) = true ->
  run (blob_write t c r data) (tv v t cols (rs1 ++ (r, rw) :: rs2) rid) =
  (Ok (), tv v t cols (rs1 ++ (r, row_set c (VBlob data) rw) :: rs2) rid).
Proof.
  intros Ha Hb Hl Hix. unfold blob_write. erewrite run_bind_ok by (by apply blob_open_tv).
  assert (run (pstep (SBlobWriteAll (BlobHandle t c r (blen old)) data))
            (tv v t cols (rs1 ++ (r, rw) :: rs2) rid)
          = (Ok (), tv v t cols (rs1 ++ (r, row_set c (VBlob data) rw) :: rs2) rid)) as Hw.
  { rewrite run_step. simpl. unfold sem_blob_write. cbn [bh_table bh_row bh_col bh_len].
    rewrite (stm_bind_ok _ _ _ _ _ (get_table_tv _ _ _ _ _)). cbn [t_rows t_cols].
    rewrite (stm_bind_ok _ _ _ _ _ (sem_blob_read_tv _ _ _ _ _ _ _ _ Ha Hb)).
    rewrite (stm_bind_ok _ _ _ _ _ (put_table_tv _ _ _ _ _ _)). cbn [t_rows t_cols].
    rewrite map_where_around by done. unfold blen. rewrite Nat2Z.id, Hl.
    rewrite take_ge, drop_ge, app_nil_r by lia. by rewrite Z.leb_refl. }
  by rewrite (run_bind_ok _ _ _ _ _ Hw).
Qed.
End eval.

(** ** Rewriting steps *)

Lemma update_rowid_tv v t cols sets r rs1 rw rs2 rid :
  around r rs1 rs2 ->
  unique_ok cols (rs1 ++ (r, row_sets sets rw) :: rs2) = true ->
  exists n, run (pstep (SUpdate t sets (WRowid r))) (tv v t cols (rs1 ++ (r, rw) :: rs2) rid) =
    (Ok n, tv v t cols (rs1 ++ (r, row_sets sets rw) :: rs2) rid).
Proof.
  intros Ha Hu. eexists. rewrite update_tv; rewrite map_where_around by done; done.
Qed.

(** The same update selected by a column, when no other row matches. *)
Lemma update_col_tv v t cols sets c q r rs1 rw rs2 rid :
  (forall p, p ∈ rs1 ++ rs2 -> where_test (WEq c q) p = false) ->
  sql_eq (row_get c rw) q = true ->
  unique_ok cols (rs1 ++ (r, row_sets sets rw) :: rs2) = true ->
  exists n, run (pstep (SUpdate t sets (WEq c q))) (tv v t cols (rs1 ++ (r, rw) :: rs2) rid) =
    (Ok n, tv v t cols (rs1 ++ (r, row_sets sets rw) :: rs2) rid).
Proof.
  intros Ho Hr Hu.
  assert (forall rs, (forall p, p ∈ rs -> where_test (WEq c q) p = false) ->
    map_where (WEq c q) (row_sets sets) rs = rs) as Hid.
  { induction rs as [|p rs IH]; [done|]. intros H. unfold map_where in *. rewrite fmap_cons.
    rewrite IH, (H p) by set_solver. done. }
  assert (map_where (WEq c q) (row_sets sets) (rs1 ++ (r, rw) :: rs2) =
          rs1 ++ (r, row_sets sets rw) :: rs2) as Hm.
  { unfold map_where. rewrite fmap_app, fmap_cons.
    fold (map_where (WEq c q) (row_sets sets) rs1). fold (map_where (WEq c q) (row_sets sets) rs2).
    rewrite !Hid by set_solver. cbn [where_test snd]. by rewrite Hr. }
  eexists. rewrite update_tv; rewrite Hm; done.
Qed.

Lemma length_zeros (d : bytes) :
  (blen d <= i32_max)%Z -> length (replicate (Z.to_nat (as_i32 (blen d))) Byte.x00) = length d.
Proof.
  intros H. unfold blen in *. rewrite length_replicate, as_i32_small by lia. lia.
Qed.

#[export] Hint Resolve length_zeros : cc.


(** One statement of a program in a transaction on one table. Side conditions are the place of
    the row ([around], a hypothesis), the lengths of blobs and facts that compute. *)
Ltac sql_side := first [ done | assumption | reflexivity | (by eauto with cc) ].

Ltac sql_step :=
  lazymatch goal with
  | |- run (?p ≫= _) _ = _ =>
      lazymatch p with
      | plift (Ok _) => rewrite (run_bind_ok p _ _ _ _ eq_refl)
      | mret _ => rewrite (run_bind_ok p _ _ _ _ eq_refl)
      | query_rowid _ _ => erewrite (run_bind_ok p) by apply query_rowid_tv
      | blob_read _ _ _ _ => erewrite (run_bind_ok p) by (apply blob_read_tv; sql_side)
      | blob_write _ _ _ _ => erewrite (run_bind_ok p) by (eapply blob_write_tv; sql_side)
      | pstep SLastRowid => erewrite (run_bind_ok p) by apply last_rowid_tv
      | pstep SCommit => erewrite (run_bind_ok p) by apply commit_tv
      | pstep (SInsert _ _) => erewrite (run_bind_ok p) by (apply insert_tv; sql_side)
      | pstep (SInsertReturning _ _ _) =>
          erewrite (run_bind_ok p) by (apply insert_returning_tv; sql_side)
      | pstep (SQueryRow _ _ _ []) => erewrite (run_bind_ok p) by apply query_row_tv
      | pstep (SBlobOpen _ _ _ _) => erewrite (run_bind_ok p) by (eapply blob_open_tv; sql_side)
      | pstep (SBlobClose _) => rewrite (run_bind_ok p _ _ _ _ eq_refl)
      | pstep (SUpdate _ _ (WRowid _)) =>
          let H := fresh in
          edestruct update_rowid_tv as [? H]; [| |rewrite (run_bind_ok p _ _ _ _ H); clear H];
          [sql_side..|]
      | _ ≫= _ => rewrite prog_bind_assoc
      end
  end.
