(* ===== verification/Entity.v ===== *)
(** * Entities

    [keystore/src/entities/mod.rs] and [check_buffer_size] of [keystore/src/connection/mod.rs]:
    the operations every kind of stored entity has ([EntityBase]), the parameters of a listing
    and the SQL they become, and what a table promises to its clients ([EntityLaws],
    [UpsertLaws]): it is a list of entities in insertion order, looked up by key. *)

From Stdlib Require Import Sorting.Sorted.
From S2P Require Import Prelude KsError Sql SqlSpec.
Open Scope Z_scope.

(** ** [EntityFindParams] *)

Record EntityFindParams := MkFindParams {
  limit : option Z; offset : option Z; reverse_order : bool }.

Definition EntityFindParams_default : EntityFindParams := MkFindParams None None false.

(** [EntityFindParams::to_sql], clause by clause in the order it writes them. *)
Definition EntityFindParams_to_sql (p : EntityFindParams) : list clause :=
  (match limit p with Some n => [Limit n] | None => [] end) ++
  (match offset p with Some n => [Offset n] | None => [] end) ++
  [OrderByRowid (reverse_order p)].

(** ** Blob sizes *)

Definition MAX_BLOB_LEN : Z := 1000000000.

(** [DatabaseConnection::check_buffer_size] *)
Definition check_buffer_size (size : Z) : KsResult () :=
  if Z.ltb i32_max size then Err BlobTooBig
  else if Z.leb MAX_BLOB_LEN size then Err BlobTooBig
  else Ok ().

(** ** [EntityBase] *)

Class EntityBase (E : Type) := {
  AutoGeneratedFields : Type;
  to_missing_key_err_kind : MissingKeyErrorKind;
  save : E -> prog ();
  insert_entity : E -> prog AutoGeneratedFields;
  find_all : EntityFindParams -> prog (list E);
  find_one : bytes -> prog (option E);
  find_many : option (list bytes -> prog (list E));   (* [None]: [unreachable!()] *)
  count : prog Z;
  delete_ids : list bytes -> prog ();
}.
#[global] Hint Mode EntityBase ! : typeclass_instances.
Arguments to_missing_key_err_kind E {_}.
Arguments AutoGeneratedFields E {_}.
Arguments find_all {E _} params.
Arguments find_one {E _} id.
Arguments find_many E {_}.
Arguments count E {_}.
Arguments delete_ids E {_} ids.

(** The default bodies of [insert] and [find_many]. *)
Definition default_insert {E} (e : E) : prog () := pfail NotImplemented.

Fixpoint default_find_many {E} (find_one : bytes -> prog (option E)) (ids : list bytes) :
    prog (list E) :=
  match ids with
  | [] => mret []
  | id :: ids =>
      o ← find_one id;
      rest ← default_find_many find_one ids;
      mret (match o with Some e => e :: rest | None => rest end)
  end.

(** Every listing reads the selected rows one by one. *)
Definition list_rows {E} (t : string) (cs : list string) (w : where_) (tail : list clause)
    (read : Z * list value -> prog E) : prog (list E) :=
  rows ← pstep (SQuery t cs w tail);
  pmap read rows.

(** The selected column of a row selected with one. *)
Definition selected (r : Z * list value) : value := default VNull (head r.2).

(** The body the entities' [delete] share: every id in turn, then commit only if as many rows
    went away as there are ids. *)
Definition delete_all_or_nothing (kind : MissingKeyErrorKind) (t c : string)
    (param : bytes -> KsResult value) (ids : list bytes) : prog () :=
  with_tx (
    updated ← psum (fun id => p ← plift (param id); pstep (SDelete t (WEq c p))) 0 ids;
    if Z.eqb updated (Z.of_nat (length ids)) then
      pstep SCommit;; mret ()
    else
      pstep SRollback;; pfail (MissingKeyInStore kind)).

(** ** The table as a list of entities *)

(** How a table stores entities: its name, its columns, the row of an entity, and what is true
    of every entity in it (integers in range, text that is UTF-8). *)
Record layout (E : Type) := Layout {
  ly_table : string;
  ly_cols : list (string * coldecl);
  ly_row : E -> row;
  ly_ok : E -> Prop }.
Arguments Layout {E} _ _ _ _.
Arguments ly_table {E} _.
Arguments ly_cols {E} _.
Arguments ly_row {E} _ _.
Arguments ly_ok {E} _ _.

Section layout.
Context {E : Type} (ly : layout E).
Implicit Types (k : list (Z * E)) (v : view).

Definition put (p : Z * E) : Z * row := (p.1, ly_row ly p.2).

(** Rowids increase, entities are well formed, the constraints of the columns hold. *)
Definition good_rows (k : list (Z * E)) : Prop :=
  StronglySorted Z.lt (fst <$> k) /\ Forall (fun r => 0 < r) (fst <$> k) /\
  Forall (fun x => ly_ok ly x.2) k /\ unique_ok (ly_cols ly) (put <$> k) = true.

Definition rep_rows (v : view) (k : list (Z * E)) : Prop :=
  v_tx v = None /\
  v_db v !! ly_table ly = Some (Table (ly_cols ly) (put <$> k)) /\
  good_rows k.

(** The table of [v] holds the entities [l], in the order of their rowids. *)
Definition rep (v : view) (l : list E) : Prop :=
  exists k, rep_rows v k /\ l = snd <$> k.

Lemma fst_put k : fst <$> (put <$> k) = fst <$> k.
Proof. by rewrite <-list_fmap_compose. Qed.

Lemma next_rowid_gt (rs : rows) r : r ∈ fst <$> rs -> r < next_rowid rs.
Proof.
  unfold next_rowid. induction rs as [|p rs IH]; [set_solver|].
  rewrite fmap_cons, elem_of_cons. cbn [fold_right]. intros [->|H%IH]; lia.
Qed.

Lemma next_rowid_pos (rs : rows) : 0 < next_rowid rs.
Proof.
  unfold next_rowid.
  assert (0 <= fold_right Z.max 0 (fst <$> rs)); [|lia].
  induction rs as [|p rs IH]; [done|]. rewrite fmap_cons. cbn [fold_right]. lia.
Qed.

Lemma next_rowid_fresh (rs : rows) : next_rowid rs ∉ fst <$> rs.
Proof. intros H%next_rowid_gt. lia. Qed.

Lemma rowid_free_next (rs : rows) : rowid_free (next_rowid rs) rs = true.
Proof.
  apply forallb_forall. intros p Hp. apply negb_true_iff, Z.eqb_neq. intros Heq.
  apply (next_rowid_fresh rs). rewrite Heq. apply list_elem_of_fmap_2.
  by apply list_elem_of_In.
Qed.

Lemma sorted_app_r (l : list Z) r :
  StronglySorted Z.lt l -> (forall x, x ∈ l -> x < r) -> StronglySorted Z.lt (l ++ [r]).
Proof.
  induction l as [|a l IH]; intros Hs Hr; simpl.
  - constructor; constructor.
  - apply StronglySorted_inv in Hs as [Hs Ha]. constructor.
    + apply IH; [done|]. set_solver.
    + apply list.Forall_app. split; [done|]. constructor; [|constructor]. apply Hr. set_solver.
Qed.

Lemma sorted_NoDup (l : list Z) : StronglySorted Z.lt l -> NoDup l.
Proof.
  induction 1 as [|a l Hs IH Ha]; constructor; [|done].
  intros Hin. rewrite list.Forall_forall in Ha. specialize (Ha _ Hin). lia.
Qed.

Lemma around_sorted k1 r e k2 :
  StronglySorted Z.lt (fst <$> (k1 ++ (r, e) :: k2)) -> around r (put <$> k1) (put <$> k2).
Proof.
  intros Hs%sorted_NoDup. rewrite fmap_app, fmap_cons in Hs. simpl in Hs.
  apply list.NoDup_app in Hs as (_ & H1 & H2). apply list.NoDup_cons in H2 as [H2 _].
  unfold around. rewrite !fst_put. split; [|done]. intros H. apply (H1 _ H). set_solver.
Qed.

Lemma around_append k :
  around (next_rowid (put <$> k)) (put <$> k) [].
Proof. split; [apply next_rowid_fresh|set_solver]. Qed.

Lemma first_put (c : string) (q : value) (p : E -> bool) k :
  (forall e, sql_eq (row_get c (ly_row ly e)) q = p e) ->
  first (where_test (WEq c q)) (put <$> k) = put <$> first (fun x => p x.2) k.
Proof. intros Hp. rewrite first_map. f_equal. apply first_ext. intros x _. apply Hp. Qed.

Lemma filter_put (c : string) (q : value) (p : E -> bool) k :
  (forall e, sql_eq (row_get c (ly_row ly e)) q = p e) ->
  delete_where (WEq c q) (put <$> k) = put <$> List.filter (fun x => negb (p x.2)) k.
Proof.
  intros Hp. unfold delete_where. induction k as [|x k IH]; simpl; [done|].
  rewrite Hp. destruct (p x.2); simpl; [done|]. by f_equal.
Qed.

Lemma filter_where_put (c : string) (q : value) (p : E -> bool) k :
  (forall e, sql_eq (row_get c (ly_row ly e)) q = p e) ->
  List.filter (where_test (WEq c q)) (put <$> k) = put <$> List.filter (fun x => p x.2) k.
Proof.
  intros Hp. induction k as [|x k IH]; simpl; [done|].
  rewrite Hp. destruct (p x.2); simpl; [|done]. by f_equal.
Qed.

Lemma count_put (c : string) (q : value) (p : E -> bool) k :
  (forall e, sql_eq (row_get c (ly_row ly e)) q = p e) ->
  count_where (WEq c q) (put <$> k) =
  Z.of_nat (length k) - Z.of_nat (length (List.filter (fun x => negb (p x.2)) k)).
Proof.
  intros Hp. unfold count_where. induction k as [|x k IH]; [done|].
  rewrite fmap_cons. cbn [List.filter].
  assert (where_test (WEq c q) (put x) = p x.2) as -> by apply Hp.
  destruct (p x.2); cbn [negb length]; lia.
Qed.
End layout.

#[export] Hint Resolve rowid_free_next : cc.

Lemma apply_tail_fmap {A B} (f : A -> B) tail (l : list A) :
  apply_tail tail (f <$> l) = option_map (map f) (apply_tail tail l).
Proof.
  unfold apply_tail. destruct tail as [|[[]|n|m] tail]; simpl; try done;
    repeat case_match; simplify_eq/=;
    rewrite <-?fmap_reverse, ?skipn_map, ?firstn_map; done.
Qed.

Lemma apply_tail_subset {A} tail (l l' : list A) x : apply_tail tail l = Some l' -> x ∈ l' -> x ∈ l.
Proof.
  unfold apply_tail.
  assert (forall n, x ∈ take n l -> x ∈ l) as Ht.
  { intros n (i & H & _)%elem_of_take. by eapply list_elem_of_lookup_2. }
  assert (forall n m (k : list A), x ∈ take n (drop m k) -> x ∈ k) as Hd.
  { intros n m k (i & H & _)%elem_of_take. rewrite lookup_drop in H.
    by eapply list_elem_of_lookup_2. }
  assert (forall n, x ∈ take n (reverse l) -> x ∈ l) as Hr.
  { intros n (i & H & _)%elem_of_take. apply list_elem_of_lookup_2 in H.
    by rewrite elem_of_reverse in H. }
  assert (x ∈ reverse l -> x ∈ l) as Hrev by (by rewrite elem_of_reverse).
  destruct tail as [|[[]|n|m] [|[|n'|m'] [|[] [|]]]]; intros [= <-]; eauto.
Qed.

(** [to_sql] writes [LIMIT] and [OFFSET] before [ORDER BY]: as soon as one of them is given the
    text is not a select tail. *)
Lemma apply_tail_to_sql {A} (p : EntityFindParams) (l : list A) :
  apply_tail (EntityFindParams_to_sql p) l =
  match limit p, offset p with
  | None, None => Some (if reverse_order p then reverse l else l)
  | _, _ => None
  end.
Proof. by destruct p as [[n|] [m|] []]. Qed.

(** ** Operations that several entities share, on [rep] *)

Lemma check_buffer_size_ok n : is_ok (check_buffer_size n) = true ->
  check_buffer_size n = Ok () /\ (n <= i32_max)%Z.
Proof.
  unfold check_buffer_size, i32_max, MAX_BLOB_LEN.
  destruct (Z.ltb_spec 2147483647 n), (Z.leb_spec 1000000000 n); simpl; done.
Qed.

Lemma check_buffer_size_err n : is_ok (check_buffer_size n) = false ->
  check_buffer_size n = Err BlobTooBig.
Proof. unfold check_buffer_size. by repeat case_match. Qed.

Section shared.
Context {E : Type} (ly : layout E) (v : view).
Implicit Types (k : list (Z * E)) (l : list E) (e : E).
Let t := ly_table ly.
Let cols := ly_cols ly.

Definition tvk k rid : view := tv v t cols (put ly <$> k) rid.

Lemma run_with_tx_rep {A} (body : prog A) k :
  rep_rows ly v k ->
  run (with_tx body) v =
  (let (r, v') := run body (tvk k (v_rowid v)) in
   (r, View (v_db v') None (v_rowid v') (v_now v'))).
Proof. intros (Htx & Ht & _). by apply run_with_tx. Qed.

(** A body that only looks leaves the connection as it was. *)
Lemma run_with_tx_look {A} (body : prog A) k r rid :
  rep_rows ly v k -> run body (tvk k (v_rowid v)) = (r, tvk k rid) -> rid = v_rowid v ->
  run (with_tx body) v = (r, v).
Proof.
  intros Hk Hb ->. rewrite (run_with_tx_rep _ k) by done. rewrite Hb. simpl.
  destruct Hk as (Htx & _). destruct v; simpl in *. by subst.
Qed.

Lemma tvk_split k1 r e k2 rid :
  tvk (k1 ++ (r, e) :: k2) rid =
  tv v t cols ((put ly <$> k1) ++ (r, ly_row ly e) :: (put ly <$> k2)) rid.
Proof. unfold tvk. by rewrite fmap_app, fmap_cons. Qed.

(** Reading one row of the table, wherever it stands. *)
Definition reads_row (read : Z * list value -> prog E) (cs : list string) (dec : E -> E) : Prop :=
  forall r e rs1 rs2 rid, around r rs1 rs2 -> ly_ok ly e ->
    run (read (select cs (r, ly_row ly e))) (tv v t cols (rs1 ++ (r, ly_row ly e) :: rs2) rid) =
    (Ok (dec e), tv v t cols (rs1 ++ (r, ly_row ly e) :: rs2) rid).

Lemma reads_row_in read cs dec k x rid :
  reads_row read cs dec -> good_rows ly k -> x ∈ k ->
  run (read (select cs (put ly x))) (tvk k rid) = (Ok (dec x.2), tvk k rid).
Proof.
  intros Hr (Hs & _ & Hok & _) Hx. rewrite list.Forall_forall in Hok. specialize (Hok _ Hx).
  apply list_elem_of_split in Hx as (k1 & k2 & ->). destruct x as [r e].
  rewrite tvk_split. apply Hr; [by eapply around_sorted|done].
Qed.

Lemma pmap_read read cs dec k ks rid :
  reads_row read cs dec -> good_rows ly k -> (forall x, x ∈ ks -> x ∈ k) ->
  run (pmap read (select cs <$> (put ly <$> ks))) (tvk k rid) =
  (Ok (dec <$> (snd <$> ks)), tvk k rid).
Proof.
  intros Hr Hs. induction ks as [|x ks IH]; intros Hin; [done|].
  rewrite !fmap_cons. cbn [pmap].
  rewrite (run_bind_ok _ _ _ _ _ (reads_row_in _ _ _ _ _ _ Hr Hs (Hin x ltac:(set_solver)))).
  rewrite (run_bind_ok _ _ _ _ _ (IH ltac:(set_solver))). done.
Qed.

(** Looking up the first row whose key column is [q], and going on with its rowid. *)
Lemma find_first_gen {X} (c : string) (q : value) (p : E -> bool) (body : Z -> prog X) f x0 k rid :
  (forall e, sql_eq (row_get c (ly_row ly e)) q = p e) -> good_rows ly k ->
  (forall r e rs1 rs2 rid0, around r rs1 rs2 -> ly_ok ly e -> p e = true ->
     run (body r) (tv v t cols (rs1 ++ (r, ly_row ly e) :: rs2) rid0) =
     (Ok (f e), tv v t cols (rs1 ++ (r, ly_row ly e) :: rs2) rid0)) ->
  run (rowid ← query_rowid t (WEq c q);
       match rowid with
       | Some rowid => body rowid
       | None => mret x0
       end) (tvk k rid) =
  (Ok (match first p (snd <$> k) with Some e => f e | None => x0 end), tvk k rid).
Proof.
  intros Hp (Hs & _ & Hok & _) Hb. erewrite run_bind_ok by apply query_rowid_tv.
  rewrite (first_put _ _ _ p) by done. rewrite first_map.
  destruct (first (fun x => p x.2) k) as [[r e]|] eqn:Hf; [|done].
  apply first_Some in Hf as [Hin Hpe]. rewrite list.Forall_forall in Hok. specialize (Hok _ Hin).
  apply list_elem_of_split in Hin as (k1 & k2 & ->).
  unfold tvk. rewrite fmap_app, fmap_cons. apply Hb; [by eapply around_sorted|done..].
Qed.

(** The same with columns of the row selected besides the rowid. *)
Lemma find_first_cols {X} cs (c : string) (q : value) (p : E -> bool)
    (body : Z * list value -> prog X) f x0 k rid :
  (forall e, sql_eq (row_get c (ly_row ly e)) q = p e) -> good_rows ly k ->
  (forall r e rs1 rs2 rid0, around r rs1 rs2 -> ly_ok ly e -> p e = true ->
     run (body (select cs (r, ly_row ly e))) (tv v t cols (rs1 ++ (r, ly_row ly e) :: rs2) rid0) =
     (Ok (f e), tv v t cols (rs1 ++ (r, ly_row ly e) :: rs2) rid0)) ->
  run (o ← pstep (SQueryRow t cs (WEq c q) []);
       match o with
       | Some x => body x
       | None => mret x0
       end) (tvk k rid) =
  (Ok (match first p (snd <$> k) with Some e => f e | None => x0 end), tvk k rid).
Proof.
  intros Hp (Hs & _ & Hok & _) Hb. erewrite run_bind_ok by apply query_row_tv.
  rewrite (first_put _ _ _ p) by done. rewrite first_map.
  destruct (first (fun x => p x.2) k) as [[r e]|] eqn:Hf; [|done].
  apply first_Some in Hf as [Hin Hpe]. rewrite list.Forall_forall in Hok. specialize (Hok _ Hin).
  apply list_elem_of_split in Hin as (k1 & k2 & ->).
  unfold tvk. rewrite fmap_app, fmap_cons. apply Hb; [by eapply around_sorted|done..].
Qed.

(** [find_one]: the first row whose key column is [q]. *)
Lemma find_first_body (c : string) (q : value) (p : E -> bool) read dec k rid :
  (forall e, sql_eq (row_get c (ly_row ly e)) q = p e) ->
  reads_row read [] dec -> good_rows ly k ->
  run (rowid ← query_rowid t (WEq c q);
       match rowid with
       | Some rowid => g ← read (rowid, []); mret (Some g)
       | None => mret None
       end) (tvk k rid) =
  (Ok (dec <$> first p (snd <$> k)), tvk k rid).
Proof.
  intros Hp Hr Hs.
  rewrite (find_first_gen c q p (fun r => g ← read (r, []); mret (Some g))
    (fun e => Some (dec e)) None) by
    (first [done | intros r e rs1 rs2 rid0 Ha He _;
      by rewrite (run_bind_ok _ _ _ _ _ (Hr _ _ _ _ _ Ha He))]).
  by destruct (first p (snd <$> k)).
Qed.

Lemma list_all_body read cs dec tail k rid :
  reads_row read cs dec -> good_rows ly k ->
  run (list_rows t cs WAll tail read) (tvk k rid) =
  (match apply_tail tail (snd <$> k) with
   | Some l => Ok (dec <$> l)
   | None => Err (DbError SqlInputError)
   end, tvk k rid).
Proof.
  intros Hr Hs. unfold list_rows. rewrite run_bind. unfold mbind at 1, stm_bind.
  unfold tvk at 1. rewrite query_tv.
  assert (List.filter (where_test WAll) (put ly <$> k) = put ly <$> k) as ->.
  { clear. induction k as [|x k' IH]; [done|]. rewrite fmap_cons. simpl. by f_equal. }
  rewrite !apply_tail_fmap.
  destruct (apply_tail tail k) as [ks|] eqn:Hks; [|done]. simpl.
  apply pmap_read; [done..|]. intros x. by eapply apply_tail_subset.
Qed.
End shared.

Lemma nodupb_NoDup {A} `{EqDecision A} (l : list A) : nodupb l = true <-> NoDup l.
Proof.
  induction l as [|a l IH]; simpl; [split; [constructor|done]|].
  by rewrite andb_true_iff, bool_decide_eq_true, IH, list.NoDup_cons.
Qed.

Lemma omap_filter_sublist {A B} (f : A -> option B) (p : A -> bool) (l : list A) :
  sublist (omap f (List.filter p l)) (omap f l).
Proof.
  induction l as [|a l IH]; [done|]. simpl. destruct (p a); simpl; destruct (f a);
    first [done | by constructor | by apply sublist_cons].
Qed.

Lemma unique_ok_filter cols (p : Z * row -> bool) (rs : rows) :
  unique_ok cols rs = true -> unique_ok cols (List.filter p rs) = true.
Proof.
  unfold unique_ok. rewrite !forallb_forall. intros H c Hc. specialize (H c Hc).
  destruct c.2; try done. rewrite nodupb_NoDup in *.
  eapply sublist_NoDup; [exact H|]. apply omap_filter_sublist.
Qed.

(** A row may be exchanged for one with the same values in the [UNIQUE] columns. *)
Lemma unique_ok_exchange cols rs1 r rw rw' rs2 :
  (forall c, (c, ColUnique) ∈ cols -> row_get c rw' = row_get c rw) ->
  unique_ok cols (rs1 ++ (r, rw) :: rs2) = true ->
  unique_ok cols (rs1 ++ (r, rw') :: rs2) = true.
Proof.
  intros Hsame. unfold unique_ok. rewrite !forallb_forall. intros H [c d] Hc.
  specialize (H (c, d) Hc). simpl in *. destruct d; try done.
  rewrite omap_app in *. simpl in *. by rewrite Hsame by by apply list_elem_of_In.
Qed.

(** A row may be added whose values in the [UNIQUE] columns are new. *)
Lemma unique_ok_append cols (rs : rows) r rw :
  (forall c p, (c, ColUnique) ∈ cols -> p ∈ rs -> row_get c p.2 <> row_get c rw) ->
  unique_ok cols rs = true -> unique_ok cols (rs ++ [(r, rw)]) = true.
Proof.
  intros Hnew. unfold unique_ok. rewrite !forallb_forall. intros H [c d] Hc.
  specialize (H (c, d) Hc). simpl in *. destruct d; try done.
  rewrite nodupb_NoDup in *. rewrite omap_app. simpl.
  destruct (notnull (row_get c rw)) as [x|] eqn:Hx; [|by rewrite app_nil_r].
  apply list.NoDup_app. split_and!; [done| |by apply NoDup_singleton].
  intros y (p & Hp & Hy)%list_elem_of_omap ->%list_elem_of_singleton.
  apply (Hnew c p); [by apply list_elem_of_In|done|].
  destruct (row_get c p.2), (row_get c rw); simpl in *; congruence.
Qed.

(** The entities left when those with one of the keys are taken away, one key at a time. *)
Definition remove_keys {E} (key : E -> bytes) (ids : list bytes) (l : list E) : list E :=
  fold_left (fun l id => List.filter (fun e => negb (bool_decide (key e = id))) l) ids l.

Section changes.
Context {E : Type} (ly : layout E) (v : view).
Implicit Types (k : list (Z * E)) (l : list E) (e : E).
Let t := ly_table ly.
Let cols := ly_cols ly.

(** The committed view [v'] differs from [v] by the table, which now holds [l]. *)
Definition becomes (v' : view) (l : list E) : Prop :=
  rep ly v' l /\ (forall t', t' <> t -> v_db v' !! t' = v_db v !! t') /\ v_now v' = v_now v.

Lemma becomes_done k rid :
  good_rows ly k -> becomes (tv_done v t cols (put ly <$> k) rid) (snd <$> k).
Proof.
  intros Hg. split_and!; [|intros t' Ht; simpl; by rewrite lookup_insert_ne|done].
  exists k. split; [|done]. split_and!; [done| |apply Hg..]. simpl. by rewrite lookup_insert_eq.
Qed.

Lemma good_rows_replace k1 r e e' k2 :
  good_rows ly (k1 ++ (r, e) :: k2) -> ly_ok ly e' ->
  unique_ok cols ((put ly <$> k1) ++ (r, ly_row ly e') :: (put ly <$> k2)) = true ->
  good_rows ly (k1 ++ (r, e') :: k2).
Proof.
  unfold good_rows. rewrite !fmap_app, !fmap_cons, !list.Forall_app, !list.Forall_cons. simpl.
  intros (Hs & (P1 & P2 & P3) & (Q1 & _ & Q2) & _) He Hu. by split_and!.
Qed.

Lemma good_rows_append k e :
  good_rows ly k -> ly_ok ly e ->
  unique_ok cols ((put ly <$> k) ++ [(next_rowid (put ly <$> k), ly_row ly e)]) = true ->
  good_rows ly (k ++ [(next_rowid (put ly <$> k), e)]).
Proof.
  intros (Hs & Hp & Hok & _) He Hu. unfold good_rows.
  rewrite !fmap_app, !fmap_cons, !list.Forall_app. simpl.
  split_and!; try done; [|repeat constructor..].
  - apply sorted_app_r; [done|]. intros x Hx. apply next_rowid_gt. by rewrite fst_put.
  - apply next_rowid_pos.
  - done.
Qed.

Lemma StronglySorted_filter_fst (p : Z * E -> bool) k :
  StronglySorted Z.lt (fst <$> k) -> StronglySorted Z.lt (fst <$> List.filter p k).
Proof.
  induction k as [|x k IH]; [done|]. rewrite fmap_cons. intros [Hs Hx]%StronglySorted_inv.
  simpl. destruct (p x); [|auto]. rewrite fmap_cons. constructor; [auto|].
  rewrite list.Forall_forall in *. intros y (z & -> & Hz)%list_elem_of_fmap.
  apply Hx, list_elem_of_fmap_2. apply list_elem_of_In, filter_In in Hz as [Hz _].
  by apply list_elem_of_In.
Qed.

Lemma Forall_sub {A} (P : A -> Prop) (p : A -> bool) (l : list A) :
  Forall P l -> Forall P (List.filter p l).
Proof.
  rewrite !list.Forall_forall. intros H x [Hx _]%list_elem_of_In%filter_In.
  by apply H, list_elem_of_In.
Qed.

Lemma good_rows_delete c q k (p : E -> bool) :
  (forall e, sql_eq (row_get c (ly_row ly e)) q = p e) ->
  good_rows ly k -> good_rows ly (List.filter (fun x => negb (p x.2)) k).
Proof.
  intros Hp (Hs & Hpos & Hok & Hu). split_and!.
  - by apply StronglySorted_filter_fst.
  - rewrite list.Forall_forall in *. intros y (z & -> & Hz)%list_elem_of_fmap.
    apply Hpos, list_elem_of_fmap_2. apply list_elem_of_In, filter_In in Hz as [Hz _].
    by apply list_elem_of_In.
  - by apply Forall_sub.
  - rewrite <-(filter_put ly c q p) by done. by apply unique_ok_filter.
Qed.

Lemma snd_filter (p : E -> bool) k :
  snd <$> List.filter (fun x => p x.2) k = List.filter p (snd <$> k).
Proof.
  induction k as [|x k IH]; [done|]. rewrite fmap_cons. simpl.
  destruct (p x.2); [|done]. rewrite fmap_cons. by f_equal.
Qed.

(** Look the key up; update the row found, or insert a new one; write the blobs; commit. *)
Lemma upsert_body (c : string) (q : value) (p : E -> bool) e' (upd : Z -> prog Z)
    (ins : prog Z) (rest : Z -> prog ()) k rid :
  (forall e, sql_eq (row_get c (ly_row ly e)) q = p e) -> good_rows ly k -> ly_ok ly e' ->
  (forall k1 r e k2 rid0, k = k1 ++ (r, e) :: k2 -> p e = true ->
     around r (put ly <$> k1) (put ly <$> k2) ->
     unique_ok cols ((put ly <$> k1) ++ (r, ly_row ly e') :: (put ly <$> k2)) = true /\
     exists rid', run (x ← upd r; rest x)
       (tv v t cols ((put ly <$> k1) ++ (r, ly_row ly e) :: (put ly <$> k2)) rid0) =
     (Ok (), tv_done v t cols ((put ly <$> k1) ++ (r, ly_row ly e') :: (put ly <$> k2)) rid')) ->
  (forall rid0, first p (snd <$> k) = None ->
     around (next_rowid (put ly <$> k)) (put ly <$> k) [] ->
     unique_ok cols ((put ly <$> k) ++ [(next_rowid (put ly <$> k), ly_row ly e')]) = true /\
     exists rid', run (x ← ins; rest x) (tv v t cols (put ly <$> k) rid0) =
     (Ok (), tv_done v t cols ((put ly <$> k) ++ [(next_rowid (put ly <$> k), ly_row ly e')]) rid')) ->
  exists v', run (existing ← query_rowid t (WEq c q);
                  rowid ← match existing with Some r => upd r | None => ins end;
                  rest rowid) (tvk ly v k rid) = (Ok (), v') /\
             becomes v' (upsert p e' (snd <$> k)) /\ v_tx v' = None.
Proof.
  intros Hp Hk He' Hupd Hins. erewrite run_bind_ok by apply query_rowid_tv.
  rewrite (first_put _ _ _ p) by done. unfold upsert. rewrite first_map.
  destruct (first (fun x => p x.2) k) as [[r e]|] eqn:Hf; simpl.
  - apply first_split in Hf as (k1 & k2 & -> & Hpe & Hrep). simpl in Hpe.
    destruct (Hupd k1 r e k2 rid eq_refl Hpe) as [Hu [rid' Hr]].
    { eapply around_sorted, Hk. }
    rewrite (fmap_app (put ly)), (fmap_cons (put ly)). eexists; split; [exact Hr|]. split; [|done].
    rewrite (replace_first_fmap snd p (r, e')), Hrep.
    change ((put ly <$> k1) ++ (r, ly_row ly e') :: (put ly <$> k2)) with
      ((put ly <$> k1) ++ (put ly <$> ((r, e') :: k2))).
    rewrite <-fmap_app. apply becomes_done. by eapply good_rows_replace.
  - destruct (Hins rid) as [Hu [rid' Hr]].
    { by rewrite first_map, Hf. }
    { apply around_append. }
    eexists; split; [exact Hr|]. split; [|done].
    set (n := next_rowid (put ly <$> k)).
    change [(n, ly_row ly e')] with (put ly <$> [(n, e')]).
    change [e'] with (snd <$> [(n, e')]). rewrite <-!fmap_app. apply becomes_done.
    by apply good_rows_append.
Qed.

(** A transaction whose body commits ends as the body does. *)
Lemma run_with_tx_commit {A} (body : prog A) k r v' :
  rep_rows ly v k -> run body (tvk ly v k (v_rowid v)) = (r, v') -> v_tx v' = None ->
  run (with_tx body) v = (r, v').
Proof.
  intros Hk Hb Hv. rewrite (run_with_tx_rep ly v _ k) by done. rewrite Hb.
  destruct v'; simpl in *. by subst.
Qed.

Lemma upsert_tx (c : string) (q : value) (p : E -> bool) e' (upd : Z -> prog Z)
    (ins : prog Z) (rest : Z -> prog ()) k :
  rep_rows ly v k ->
  (forall e, sql_eq (row_get c (ly_row ly e)) q = p e) -> ly_ok ly e' ->
  (forall k1 r e k2 rid0, k = k1 ++ (r, e) :: k2 -> p e = true ->
     around r (put ly <$> k1) (put ly <$> k2) ->
     unique_ok cols ((put ly <$> k1) ++ (r, ly_row ly e') :: (put ly <$> k2)) = true /\
     exists rid', run (x ← upd r; rest x)
       (tv v t cols ((put ly <$> k1) ++ (r, ly_row ly e) :: (put ly <$> k2)) rid0) =
     (Ok (), tv_done v t cols ((put ly <$> k1) ++ (r, ly_row ly e') :: (put ly <$> k2)) rid')) ->
  (forall rid0, first p (snd <$> k) = None ->
     around (next_rowid (put ly <$> k)) (put ly <$> k) [] ->
     unique_ok cols ((put ly <$> k) ++ [(next_rowid (put ly <$> k), ly_row ly e')]) = true /\
     exists rid', run (x ← ins; rest x) (tv v t cols (put ly <$> k) rid0) =
     (Ok (), tv_done v t cols ((put ly <$> k) ++ [(next_rowid (put ly <$> k), ly_row ly e')]) rid')) ->
  exists v', run (with_tx (existing ← query_rowid t (WEq c q);
                           rowid ← match existing with Some r => upd r | None => ins end;
                           rest rowid)) v = (Ok (), v') /\
             becomes v' (upsert p e' (snd <$> k)).
Proof.
  intros Hk Hp He' Hupd Hins. pose proof Hk as (_ & _ & Hs).
  destruct (upsert_body c q p e' upd ins rest k (v_rowid v) Hp Hs He' Hupd Hins) as (v' & Hr & Hb & Hv').
  exists v'. split; [|done]. by eapply run_with_tx_commit.
Qed.

Lemma psum_delete (c : string) (param : bytes -> KsResult value) (mk : bytes -> value)
    (key : E -> bytes) ids acc k rid :
  (forall id, id ∈ ids -> param id = Ok (mk id)) ->
  (forall e id, id ∈ ids -> sql_eq (row_get c (ly_row ly e)) (mk id) = bool_decide (key e = id)) ->
  good_rows ly k ->
  exists k', run (psum (fun id => p ← plift (param id); pstep (SDelete t (WEq c p))) acc ids)
               (tvk ly v k rid) =
             (Ok (acc + Z.of_nat (length k) - Z.of_nat (length k')), tvk ly v k' rid) /\
    good_rows ly k' /\ snd <$> k' = remove_keys key ids (snd <$> k).
Proof.
  intros Hpar Hkey. revert acc k. induction ids as [|id ids IH]; intros acc k Hk.
  { exists k. split_and!; [|done..]. simpl. unfold run. simpl. do 2 f_equal. lia. }
  cbn [psum]. rewrite Hpar by set_solver.
  set (p := fun e => bool_decide (key e = id)).
  assert (forall e, sql_eq (row_get c (ly_row ly e)) (mk id) = p e) as Hp.
  { intros e. apply Hkey. set_solver. }
  erewrite run_bind_ok by apply delete_tv.
  rewrite (filter_put ly c _ p), (count_put ly c _ p) by done.
  destruct (IH (ltac:(set_solver)) (ltac:(set_solver))
    (acc + (Z.of_nat (length k) - Z.of_nat (length (List.filter (fun x => negb (p x.2)) k))))
    (List.filter (fun x => negb (p x.2)) k)) as (k' & Hr & Hk' & Hsnd).
  { by eapply good_rows_delete. }
  exists k'. split_and!; [|done|].
  - unfold tvk in Hr. rewrite Hr. do 2 f_equal. lia.
  - rewrite Hsnd, (snd_filter (fun e => negb (p e))). done.
Qed.

(** [delete]: if every id took one row away, they are gone; otherwise the call fails with the
    entity's missing-key error and the table is untouched. *)
Lemma delete_all_or_nothing_spec kind (c : string) (param : bytes -> KsResult value)
    (mk : bytes -> value) (key : E -> bytes) ids l :
  (forall id, id ∈ ids -> param id = Ok (mk id)) ->
  (forall e id, id ∈ ids -> sql_eq (row_get c (ly_row ly e)) (mk id) = bool_decide (key e = id)) ->
  rep ly v l ->
  let l' := remove_keys key ids l in
  if bool_decide (length l = length l' + length ids)%nat then
    exists v', run (delete_all_or_nothing kind t c param ids) v = (Ok (), v') /\ becomes v' l'
  else run (delete_all_or_nothing kind t c param ids) v = (Err (MissingKeyInStore kind), v).
Proof.
  intros Hpar Hkey (k & Hk & ->) l'. pose proof Hk as (Htx & Ht & Hs).
  destruct (psum_delete c param mk key ids 0 k (v_rowid v) Hpar Hkey Hs) as (k' & Hr & Hk' & Hl).
  unfold delete_all_or_nothing. subst l'. rewrite <-Hl, !length_fmap.
  case_bool_decide as Hlen.
  - exists (tv_done v t cols (put ly <$> k') (v_rowid v)).
    split; [|by apply becomes_done]. eapply run_with_tx_commit; [done| |done].
    rewrite (run_bind_ok _ _ _ _ _ Hr).
    assert ((0 + Z.of_nat (length k) - Z.of_nat (length k') =? Z.of_nat (length ids)) = true) as ->.
    { apply Z.eqb_eq. lia. }
    by erewrite run_bind_ok by apply commit_tv.
  - rewrite (run_with_tx_rep ly v _ k) by done. rewrite (run_bind_ok _ _ _ _ _ Hr).
    assert ((0 + Z.of_nat (length k) - Z.of_nat (length k') =? Z.of_nat (length ids)) = false) as ->.
    { apply Z.eqb_neq. lia. }
    unfold run. simpl. destruct v; simpl in *. by subst.
Qed.
End changes.

(** The other rows of a table without two rows of the same key. *)
Lemma other_rows_differ {E} (ly : layout E) c (q : value) (p : E -> bool) k1 (x : Z * E) k2 :
  (forall e, sql_eq (row_get c (ly_row ly e)) q = p e) ->
  (forall a b, a ∈ k1 ++ x :: k2 -> b ∈ k1 ++ x :: k2 -> p a.2 = true -> p b.2 = true -> a = b) ->
  NoDup (k1 ++ x :: k2) -> p x.2 = true ->
  forall y, y ∈ (put ly <$> k1) ++ (put ly <$> k2) -> where_test (WEq c q) y = false.
Proof.
  intros Hp Huniq Hnd Hx y Hy. rewrite <-fmap_app in Hy. apply list_elem_of_fmap in Hy as (z & -> & Hz).
  cbn [where_test snd put]. rewrite Hp. apply not_true_iff_false. intros Hpz.
  assert (z = x) as ->.
  { apply Huniq; [|set_solver|done..]. set_solver. }
  apply list.NoDup_app in Hnd as (_ & H1 & H2). apply list.NoDup_cons in H2 as [H2 _].
  apply elem_of_app in Hz as [Hz|Hz]; [|done]. apply (H1 _ Hz). set_solver.
Qed.

Lemma NoDup_keys_unique {E} (key : E -> bytes) (k : list (Z * E)) id a b :
  NoDup (key <$> (snd <$> k)) -> a ∈ k -> b ∈ k -> key a.2 = id -> key b.2 = id -> a = b.
Proof.
  intros Hnd [i Ha]%list_elem_of_lookup [j Hb]%list_elem_of_lookup Hka Hkb.
  rewrite <-list_fmap_compose in Hnd.
  assert (i = j) as ->; [|congruence].
  eapply NoDup_lookup; [exact Hnd|..]; rewrite list_lookup_fmap.
  - by rewrite Ha.
  - rewrite Hb. simpl. congruence.
Qed.

Lemma sorted_rows_NoDup {E} (k : list (Z * E)) : StronglySorted Z.lt (fst <$> k) -> NoDup k.
Proof. intros H%sorted_NoDup. by eapply NoDup_fmap_1. Qed.

(** Appending one row: the common end of the entities that always insert. *)
Lemma append_becomes {E} (ly : layout E) v k e rid' :
  good_rows ly k -> ly_ok ly e ->
  unique_ok (ly_cols ly) ((put ly <$> k) ++ [(next_rowid (put ly <$> k), ly_row ly e)]) = true ->
  becomes ly v (tv_done v (ly_table ly) (ly_cols ly)
    ((put ly <$> k) ++ [(next_rowid (put ly <$> k), ly_row ly e)]) rid') ((snd <$> k) ++ [e]).
Proof.
  intros Hk He Hu. set (n := next_rowid (put ly <$> k)).
  change [(n, ly_row ly e)] with (put ly <$> [(n, e)]).
  change [e] with (snd <$> [(n, e)]). rewrite <-!fmap_app. apply becomes_done.
  by apply good_rows_append.
Qed.

(** ** What a kind of entity promises

    [EntityLaws]: the table is a list of entities; [find_one] is the first one with the key,
    [find_all] the whole list, [count] its length, [delete] all or nothing; what fails commits
    nothing. [UpsertLaws]: [save] replaces the entity with the same key or adds a new one at
    the end. [AppendLaws]: [save] always adds one. *)

Class EntityLaws (E : Type) `{EntityBase E} := {
  el_layout : layout E;
  el_key : E -> bytes;
  (** what is read back of an entity *)
  el_stored : E -> E;
  (** the ids that can be looked up ([String] keys must be UTF-8) *)
  el_id_ok : bytes -> bool;
  el_find_one v l id :
    rep el_layout v l -> el_id_ok id = true ->
    run (find_one id) v = (Ok (el_stored <$> first (fun e => bool_decide (el_key e = id)) l), v);
  el_find_all v l :
    rep el_layout v l -> run (find_all EntityFindParams_default) v = (Ok (el_stored <$> l), v);
  el_count v l : rep el_layout v l -> run (count E) v = (Ok (Z.of_nat (length l)), v);
  el_delete v l ids :
    rep el_layout v l -> (forall id, id ∈ ids -> el_id_ok id = true) ->
    let l' := remove_keys el_key ids l in
    if bool_decide (length l = length l' + length ids)%nat then
      exists v', run (delete_ids E ids) v = (Ok (), v') /\ becomes el_layout v v' l'
    else run (delete_ids E ids) v = (Err (MissingKeyInStore (to_missing_key_err_kind E)), v);
  el_save_atomic `{SqlEngine} (e : E) : atomic (save e);
  el_delete_atomic `{SqlEngine} ids : atomic (delete_ids E ids);
}.

Class UpsertLaws (E : Type) `{EntityLaws E} := {
  (** every blob of the entity passes [check_buffer_size] *)
  ul_fits : E -> bool;
  ul_save v l (e : E) :
    rep el_layout v l -> ul_fits e = true ->
    exists v', run (save e) v = (Ok (), v') /\
      becomes el_layout v v' (upsert (fun x => bool_decide (el_key x = el_key e)) (el_stored e) l);
  ul_save_big v l (e : E) :
    rep el_layout v l -> ul_fits e = false -> run (save e) v = (Err BlobTooBig, v);
  ul_key_stored e : el_key (el_stored e) = el_key e;
  ul_stored_twice e : el_stored (el_stored e) = el_stored e;
}.

Section rep_facts.
Context {E : Type} (ly : layout E).

Lemma count_rep v l : rep ly v l ->
  run (pstep (SCount (ly_table ly))) v = (Ok (Z.of_nat (length l)), v).
Proof.
  intros (k & (Htx & Ht & _) & ->). rewrite run_step. simpl. unfold mbind, stm_bind, get_table.
  unfold v_cur. rewrite Htx. simpl. rewrite Ht. simpl. by rewrite !length_fmap.
Qed.

(** A body that fails at once leaves the connection as it was. *)
Lemma run_with_tx_fail {A} v l e : rep ly v l -> run (with_tx (pfail (A := A) e)) v = (Err e, v).
Proof. intros (k & Hk & _). by eapply (run_with_tx_look ly v _ k). Qed.
End rep_facts.

(** Case analysis on the [check_buffer_size] tests a hypothesis mentions, rewriting the ones of
    the goal. *)
Ltac split_sizes :=
  repeat match goal with
  | H : context [is_ok (check_buffer_size ?n)] |- _ =>
      let C := fresh "C" in
      destruct (is_ok (check_buffer_size n)) eqn:C;
      [apply check_buffer_size_ok in C as [C ?]|apply check_buffer_size_err in C];
      try rewrite C
  end;
  try discriminate.

Lemma tv_done_same {E} (ly : layout E) v k :
  rep_rows ly v k -> tv_done v (ly_table ly) (ly_cols ly) (put ly <$> k) (v_rowid v) = v.
Proof.
  intros (Htx & Ht & _). unfold tv_done. rewrite insert_id by done. destruct v; simpl in *. by subst.
Qed.

(** A lookup that commits the transaction it only read in when it finds something. *)
Lemma find_first_commit {E} (ly : layout E) v {X} (c : string) (q : value) (p : E -> bool)
    (body : Z -> prog X) f x0 k :
  rep_rows ly v k -> (forall e, sql_eq (row_get c (ly_row ly e)) q = p e) ->
  (forall r e rs1 rs2 rid0, around r rs1 rs2 -> ly_ok ly e -> p e = true ->
     run (body r) (tv v (ly_table ly) (ly_cols ly) (rs1 ++ (r, ly_row ly e) :: rs2) rid0) =
     (Ok (f e), tv_done v (ly_table ly) (ly_cols ly) (rs1 ++ (r, ly_row ly e) :: rs2) rid0)) ->
  run (with_tx (rowid ← query_rowid (ly_table ly) (WEq c q);
                match rowid with
                | Some rowid => body rowid
                | None => mret x0
                end)) v =
  (Ok (match first p (snd <$> k) with Some e => f e | None => x0 end), v).
Proof.
  intros Hk Hp Hb. pose proof Hk as (Htx & Ht & Hs & _ & Hok & _).
  rewrite (run_with_tx_rep ly v _ k) by done. erewrite run_bind_ok by apply query_rowid_tv.
  rewrite (first_put _ _ _ p) by done. rewrite first_map.
  destruct (first (fun x => p x.2) k) as [[r e]|] eqn:Hf.
  - pose proof (tv_done_same ly v k Hk) as Hsame.
    apply first_Some in Hf as [Hin Hpe]. rewrite list.Forall_forall in Hok. specialize (Hok _ Hin).
    apply list_elem_of_split in Hin as (k1 & k2 & ->). rewrite fmap_app, fmap_cons in *.
    pose proof (Hb r e (put ly <$> k1) (put ly <$> k2) (v_rowid v)) as Hr.
    cbn [fmap option_fmap option_map].
    change (put ly (r, e)) with (r, ly_row ly e) in *. cbn [fst].
    rewrite Hr; [|by eapply around_sorted|done..]. f_equal. exact Hsame.
  - simpl. f_equal. destruct v; simpl in *. by subst.
Qed.

Ltac prove_find_one_commit ly c q key eqlemma :=
  lazymatch goal with
  | Hk : rep_rows ly ?v ?k |- _ =>
      etransitivity;
      [ refine (find_first_commit ly v c q (fun e => bool_decide (key e = _)) _ Some None k Hk
          (fun e => eqlemma _ _) _);
        intros r e rs1 rs2 rid Ha He Hp; apply bool_decide_eq_true in Hp; destruct e;
        simpl in Hp; subst; repeat sql_step; reflexivity
      | destruct (first _ (snd <$> k)); reflexivity ]
  end.

(** The proof of [el_find_all] from the lemma that reads a row. *)
Ltac prove_find_all ly reads :=
  intros v l Hl; destruct Hl as (k & Hk & ->); pose proof Hk as (_ & _ & Hs);
  eapply run_with_tx_look; [exact Hk| |reflexivity];
  exact (list_all_body ly v _ _ _ [OrderByRowid false] k _ (reads v) Hs).

(** The proof of [el_find_one] for the usual body. *)
Ltac prove_find_one ly c key :=
  intros v l id Hl _; destruct Hl as (k & Hk & ->); pose proof Hk as (_ & _ & Hs);
  eapply run_with_tx_look; [exact Hk| |reflexivity];
  etransitivity;
  [ apply (find_first_gen ly v c (VBlob id) (fun e => bool_decide (key e = id)) _ Some None k _
      (fun e => sql_eq_blob _ _) Hs);
    intros r e rs1 rs2 rid Ha He _; destruct e; repeat sql_step; reflexivity
  | destruct (first _ (snd <$> k)); reflexivity ].

Ltac prove_find_one_cols ly cs c key :=
  intros v l id Hl _; destruct Hl as (k & Hk & ->); pose proof Hk as (_ & _ & Hs);
  eapply run_with_tx_look; [exact Hk| |reflexivity];
  etransitivity;
  [ apply (find_first_cols ly v cs c (VBlob id) (fun e => bool_decide (key e = id)) _ Some None k _
      (fun e => sql_eq_blob _ _) Hs)
  | destruct (first _ (snd <$> k)); reflexivity ].

(** The proof of [el_delete] when any bytes are an id. *)
Ltac prove_delete ly :=
  intros v l ids Hl _; apply (delete_all_or_nothing_spec ly v _ _ _ (fun id => VBlob id));
  [done|intros e id _; apply sql_eq_blob|done].

(** The proof of [ul_save] for a save that looks the key up and writes its blobs. *)
Ltac drop_checks := repeat change (plift (Ok ());; ?p) with p.

Ltac prove_upsert ly c q p e' :=
  match goal with
  | Hl : rep ly ?v ?l |- _ =>
      destruct Hl as (k & Hk & ->); split_sizes; drop_checks; cbv zeta;
      eapply (upsert_tx ly v c q p e'); [exact Hk|intros e; apply sql_eq_blob|done| |];
      [ intros k1 r e k2 rid0 -> He Ha; apply bool_decide_eq_true in He;
        split; [reflexivity|]; eexists; repeat sql_step; destruct e; simpl in *; subst; reflexivity
      | intros rid0 _ Ha; split; [reflexivity|]; eexists; repeat sql_step; reflexivity ]
  end.

(** The proof of [ul_save_big]. *)
Ltac prove_too_big :=
  split_sizes; first [reflexivity | by eapply run_with_tx_fail].
