(* ===== verification/TableFrame.v ===== *)
(** * Programs that work on one table

    A program whose statements write to the table [t] alone leaves every other table as it is,
    and a program that brackets its transactions leaves none open: [only] and [closes], proved
    of a program from its statements by [solve_only]. This is what lets an operation on one kind
    of entity be followed by one on another. *)

From S2P Require Import Prelude KsError Sql SqlSpec Entity.
Open Scope Z_scope.

(** The table a statement writes to. *)
Definition wtable {X} (s : stmt X) : option string :=
  match s with
  | SInsert t _ | SInsertOrReplace t _ | SInsertReturning t _ _ | SUpdate t _ _ | SDelete t _ =>
      Some t
  | SBlobWriteAll h _ => Some (bh_table h)
  | _ => None
  end.

(** Apart from [t], the committed and the current tables are those of [d]. *)
Definition agrees (t : string) (d : db) (v : view) : Prop :=
  forall t', t' <> t -> v_db v !! t' = d !! t' /\ v_cur v !! t' = d !! t'.

Definition only (t : string) {A} (p : prog A) : Prop :=
  forall d v, agrees t d v -> agrees t d (run p v).2.

Definition closes {A} (p : prog A) : Prop :=
  forall v, v_tx v = None -> v_tx (run p v).2 = None.

(** ** Statements *)

Lemma agrees_set t d tb v : agrees t d v -> agrees t d (v_set (<[t := tb]> (v_cur v)) v).
Proof.
  intros Hv t' Ht. destruct (Hv t' Ht) as [Hd Hc]. unfold v_set, v_cur in *.
  destruct (v_tx v) as [w|]; simpl in *; split; try done; by rewrite lookup_insert_ne.
Qed.

Lemma agrees_rowid t d r v : agrees t d v -> agrees t d (v_set_rowid r v).
Proof. done. Qed.

Lemma sem_insert_agrees b t vals d v : agrees t d v -> agrees t d (sem_insert b t vals v).2.
Proof.
  intros Hv. unfold sem_insert, mbind, stm_bind, get_table.
  destruct (v_cur v !! t) as [tb|]; [|done]. simpl. case_match; [|done].
  case_match; [|done]. simpl. apply agrees_rowid. by apply agrees_set.
Qed.

Lemma sem_agrees t d {X} (s : stmt X) v :
  (wtable s = None \/ wtable s = Some t) -> agrees t d v -> agrees t d (sem s v).2.
Proof.
  intros Hs Hv. destruct (reads s) eqn:Hr.
  { destruct (sem s v) as [r v'] eqn:Hx. by rewrite (sem_reads _ _ _ _ Hr Hx). }
  destruct s; simpl in Hs, Hr; try done; destruct Hs as [Hs|Hs]; simplify_eq/=.
  - destruct (v_tx v) eqn:Htx; simpl; [done|]. intros t' Ht. destruct (Hv t' Ht). done.
  - destruct (v_tx v) eqn:Htx; simpl; [|done]. intros t' Ht. destruct (Hv t' Ht) as [Hd Hc].
    unfold v_cur in *. rewrite Htx in Hc. done.
  - destruct (v_tx v) eqn:Htx; simpl; [|done]. intros t' Ht. by destruct (Hv t' Ht).
  - intros t' Ht. by destruct (Hv t' Ht).
  - by apply sem_insert_agrees.
  - by apply sem_insert_agrees.
  - unfold mbind, stm_bind, get_table. destruct (v_cur v !! t) as [tb|]; [|done]. simpl.
    pose proof (sem_insert_agrees false t vals d v Hv) as Hi.
    by destruct (sem_insert false t vals v) as [[[]|e] v'].
  - unfold sem_update, mbind, stm_bind, get_table. destruct (v_cur v !! t) as [tb|]; [|done].
    simpl. case_match; [|done]. simpl. by apply agrees_set.
  - unfold mbind, stm_bind, get_table. destruct (v_cur v !! t) as [tb|]; [|done]. simpl.
    by apply agrees_set.
  - unfold sem_blob_write, mbind, stm_bind, get_table.
    destruct (v_cur v !! bh_table h) as [tb|]; [|done]. simpl.
    destruct (sem_blob_read h v) as [[old|e] v1] eqn:Hb; apply sem_blob_read_view in Hb as ->;
      [|done]. simpl. case_match; simpl; by apply agrees_set.
Qed.

Lemma sem_closes {X} (s : stmt X) v :
  match s with SBegin => False | _ => True end -> v_tx v = None -> v_tx (sem s v).2 = None.
Proof.
  intros Hs Hv. destruct (reads s) eqn:Hr.
  { destruct (sem s v) as [r v'] eqn:Hx. by rewrite (sem_reads _ _ _ _ Hr Hx). }
  assert (forall d, v_tx (v_set d v) = None) as Hset.
  { intros d. unfold v_set. by rewrite Hv. }
  assert (forall b t vals, v_tx (sem_insert b t vals v).2 = None) as Hins.
  { clear Hs Hr. intros b t vals. unfold sem_insert, mbind, stm_bind, get_table.
    destruct (v_cur v !! t) as [tb|]; [|exact Hv]. simpl. case_match; [|exact Hv].
    case_match; [|exact Hv]. apply Hset. }
  destruct s; simpl in Hs, Hr; try done; simpl.
  - by rewrite Hv.
  - by rewrite Hv.
  - apply Hins.
  - apply Hins.
  - unfold mbind, stm_bind, get_table. destruct (v_cur v !! t) as [tb|]; [|done]. simpl.
    pose proof (Hins false t vals) as Hi. by destruct (sem_insert false t vals v) as [[[]|e] v'].
  - unfold sem_update, mbind, stm_bind, get_table. destruct (v_cur v !! t) as [tb|]; [|done].
    simpl. case_match; simpl; auto.
  - unfold mbind, stm_bind, get_table. destruct (v_cur v !! t) as [tb|]; simpl; auto.
  - unfold sem_blob_write, mbind, stm_bind, get_table.
    destruct (v_cur v !! bh_table h) as [tb|]; [|done]. simpl.
    destruct (sem_blob_read h v) as [[old|e] v1] eqn:Hb; apply sem_blob_read_view in Hb as ->;
      [|done]. simpl. case_match; simpl; apply Hset.
Qed.

(** ** Programs *)

Lemma run_then {A B} (p : prog A) (f : KsResult A -> prog B) v :
  run (prog_then p f) v = (let (r, v') := run p v in run (f r) v').
Proof. apply run_with_then. Qed.

Lemma run_pstep {X} (s : stmt X) v : run (pstep s) v = sem s v.
Proof. unfold run, pstep. simpl. by destruct (sem s v). Qed.

Section only.
Context (t : string).

Lemma only_ret {A} (r : KsResult A) : only t (Ret r).
Proof. by intros d v Hv. Qed.

Lemma only_then {A B} (p : prog A) (f : KsResult A -> prog B) :
  only t p -> (forall r, only t (f r)) -> only t (prog_then p f).
Proof.
  intros Hp Hf d v Hv. rewrite run_then. specialize (Hp d v Hv).
  destruct (run p v) as [r v']. by apply Hf.
Qed.

Lemma only_bind {A B} (p : prog A) (f : A -> prog B) :
  only t p -> (forall a, only t (f a)) -> only t (p ≫= f).
Proof. intros Hp Hf. apply only_then; [done|]. intros [a|e]; [done|apply only_ret]. Qed.

Lemma only_step {X} (s : stmt X) :
  wtable s = None \/ wtable s = Some t -> only t (pstep s).
Proof. intros Hs d v Hv. rewrite run_pstep. by apply sem_agrees. Qed.

Lemma only_pmap {A B} (f : A -> prog B) l : (forall a, only t (f a)) -> only t (pmap f l).
Proof.
  intros Hf. induction l as [|a l IH]; [apply only_ret|]. simpl.
  repeat (apply only_bind; [done|intros ?]). apply only_ret.
Qed.

Lemma only_psum {A} (f : A -> prog Z) acc l : (forall a, only t (f a)) -> only t (psum f acc l).
Proof.
  intros Hf. revert acc. induction l as [|a l IH]; intros acc; [apply only_ret|]. simpl.
  by apply only_bind.
Qed.

Lemma only_with_tx {A} (p : prog A) : only t p -> only t (with_tx p).
Proof.
  intros Hp. apply only_bind; [apply only_step; by left|]. intros _. apply only_then; [done|].
  intros r d v Hv. unfold run. simpl. by apply (sem_agrees t d SDrop); [left|].
Qed.

(** The handle a blob is opened with belongs to the table it was opened on. *)
Lemma only_blob_open {B} c r w (f : blob_handle -> prog B) :
  (forall h, bh_table h = t -> only t (f h)) -> only t (pstep (SBlobOpen t c r w) ≫= f).
Proof.
  intros Hf d v Hv. unfold mbind, prog_bind. rewrite run_then, run_pstep.
  destruct (sem (SBlobOpen t c r w) v) as [[h|e] v1] eqn:Ho;
    pose proof (sem_reads (SBlobOpen t c r w) _ _ _ eq_refl Ho) as ->; [|done].
  apply Hf; [|done].
  revert Ho. simpl. unfold sem_blob_open, mbind, stm_bind, get_table, sql_fail, st_fail, mret, stm_ret.
  repeat case_match; intros; simplify_eq; done.
Qed.

Lemma only_blob_write_all h data : bh_table h = t -> only t (pstep (SBlobWriteAll h data)).
Proof. intros Hh. apply only_step. right. simpl. by rewrite Hh. Qed.

Lemma only_blob_write c r data : only t (blob_write t c r data).
Proof.
  unfold blob_write. apply only_blob_open. intros h Hh.
  apply only_bind; [by apply only_blob_write_all|]. intros. apply only_step. by left.
Qed.
End only.

Section closes.
Lemma closes_ret {A} (r : KsResult A) : closes (Ret r).
Proof. by intros v Hv. Qed.

Lemma closes_then {A B} (p : prog A) (f : KsResult A -> prog B) :
  closes p -> (forall r, closes (f r)) -> closes (prog_then p f).
Proof.
  intros Hp Hf v Hv. rewrite run_then. specialize (Hp v Hv).
  destruct (run p v) as [r v']. by apply Hf.
Qed.

Lemma closes_bind {A B} (p : prog A) (f : A -> prog B) :
  closes p -> (forall a, closes (f a)) -> closes (p ≫= f).
Proof. intros Hp Hf. apply closes_then; [done|]. intros [a|e]; [done|apply closes_ret]. Qed.

Lemma closes_step {X} (s : stmt X) : match s with SBegin => False | _ => True end -> closes (pstep s).
Proof. intros Hs v Hv. rewrite run_pstep. by apply sem_closes. Qed.

(** Whatever the body does, the transaction is dropped. *)
Lemma closes_with_tx {A} (p : prog A) : closes (with_tx p).
Proof.
  intros v Hv. unfold with_tx, mbind, prog_bind. rewrite run_then, run_pstep. simpl. rewrite Hv.
  rewrite run_then. by destruct (run p _) as [r v'].
Qed.
End closes.

Ltac solve_only :=
  repeat match goal with
  | |- forall _, _ => intros ?
  | |- only _ (with_tx _) => apply only_with_tx
  | |- only _ (pstep _) => apply only_step; first [by left|by right]
  | |- only _ (blob_write _ _ _ _) => apply only_blob_write
  | |- only _ (blob_read _ _ _ _) => unfold blob_read
  | |- only _ (query_rowid _ _) => unfold query_rowid
  | |- only _ (list_rows _ _ _ _ _) => unfold list_rows
  | |- only _ (pmap _ _) => apply only_pmap
  | |- only _ (psum _ _ _) => apply only_psum
  | |- only _ (Ret _) => apply only_ret
  | |- only _ (mret _) => apply only_ret
  | |- only _ (plift _) => apply only_ret
  | |- only _ (pfail _) => apply only_ret
  | |- only _ (pok _) => apply only_then
  | |- only _ (ptry _) => apply only_then
  | |- only _ (prog_then _ _) => apply only_then
  | |- only _ (_ ≫= _) => apply only_bind
  | |- only _ (let _ := _ in _) => cbv zeta
  | |- context [match ?x with _ => _ end] => destruct x
  end.

Ltac solve_closes :=
  repeat match goal with
  | |- forall _, _ => intros ?
  | |- closes (with_tx _) => apply closes_with_tx
  | |- closes (pstep _) => apply closes_step; done
  | |- closes (Ret _) => apply closes_ret
  | |- closes (mret _) => apply closes_ret
  | |- closes (plift _) => apply closes_ret
  | |- closes (pfail _) => apply closes_ret
  | |- closes (pok _) => apply closes_then
  | |- closes (ptry _) => apply closes_then
  | |- closes (prog_then _ _) => apply closes_then
  | |- closes (_ ≫= _) => apply closes_bind
  | |- closes (let _ := _ in _) => cbv zeta
  | |- context [match ?x with _ => _ end] => destruct x
  end.

(** Outside a transaction: the other tables are the same, and no transaction is open. *)
Lemma run_frame t {A} (p : prog A) v r v' :
  only t p -> closes p -> v_tx v = None -> run p v = (r, v') ->
  v_tx v' = None /\ forall t', t' <> t -> v_db v' !! t' = v_db v !! t'.
Proof.
  intros Ho Hc Hv Hr. specialize (Hc v Hv). rewrite Hr in Hc. split; [done|]. intros t' Ht.
  assert (agrees t (v_db v) v) as Ha.
  { intros t'' _. unfold v_cur. by rewrite Hv. }
  specialize (Ho _ _ Ha t' Ht). rewrite Hr in Ho. by destruct Ho.
Qed.

(** Deleting rows of a table. *)
Lemma only_delete_all_or_nothing k t c param ids : only t (delete_all_or_nothing k t c param ids).
Proof. unfold delete_all_or_nothing. solve_only. Qed.

Lemma closes_delete_all_or_nothing k t c param ids : closes (delete_all_or_nothing k t c param ids).
Proof. apply closes_with_tx. Qed.
