(* ===== verification/MlsGroups.v ===== *)
(** * Persisted groups

    [keystore/src/entities/platform/generic/mls/group.rs], with the record and the extension
    trait of [keystore/src/entities/mls.rs]. *)

From Stdlib Require Import Sorting.Sorted.
From S2P Require Import Prelude KsError Sql SqlSpec Entity.
Open Scope Z_scope.

(** [Option<Vec<u8>>::map(Vec::len).unwrap_or_default()] *)
Definition opt_len (o : option bytes) : Z := default 0 (blen <$> o).

(** Reading [parent_id]: a null blob makes the open fail, which is ignored. *)
Definition read_parent_ignoring (t : string) (rowid : Z) : prog (option bytes) :=
  o ← pok (pstep (SBlobOpen t "parent_id" rowid true));
  match o with
  | Some blob =>
      parent_id ← (if Z.eqb (bh_len blob) 0 then mret None
                   else tmp ← pstep (SBlobRead blob); mret (Some tmp));
      pstep (SBlobClose blob);;
      mret parent_id
  | None => mret None
  end.

(** Writing it: the blob is opened and closed even when there is nothing to write. *)
Definition write_parent (t : string) (rowid : Z) (parent_id : option bytes) : prog () :=
  blob ← pstep (SBlobOpen t "parent_id" rowid false);
  match parent_id with
  | Some p => pstep (SBlobWriteAll blob p)
  | None => mret ()
  end;;
  pstep (SBlobClose blob).

(** ** [PersistedMlsGroup] *)

Record PersistedMlsGroup := MkPersistedMlsGroup {
  pg_id : bytes; pg_state : bytes; pg_parent_id : option bytes }.

#[export] Instance PersistedMlsGroup_eq_dec : EqDecision PersistedMlsGroup.
Proof. solve_decision. Defined.

Definition PersistedMlsGroup_read (rowid : Z) : prog PersistedMlsGroup :=
  id ← blob_read "mls_groups" "id" rowid true;
  state ← blob_read "mls_groups" "state" rowid true;
  parent_id ← read_parent_ignoring "mls_groups" rowid;
  mret (MkPersistedMlsGroup id state parent_id).

Definition PersistedMlsGroup_find_all (params : EntityFindParams) : prog (list PersistedMlsGroup) :=
  with_tx (list_rows "mls_groups" [] WAll (EntityFindParams_to_sql params)
             (fun r => PersistedMlsGroup_read r.1)).

Definition PersistedMlsGroup_save (self : PersistedMlsGroup) : prog () :=
  with_tx (
    plift (check_buffer_size (blen (pg_state self)));;
    plift (check_buffer_size (blen (pg_id self)));;
    plift (check_buffer_size (opt_len (pg_parent_id self)));;
    let zbs := zeroblob (blen (pg_state self)) in
    let zbpid := zeroblob (opt_len (pg_parent_id self)) in
    let zid := zeroblob (blen (pg_id self)) in
    existing ← query_rowid "mls_groups" (WEq "id" (VBlob (pg_id self)));
    rowid ← match existing with
      | Some rowid =>
          pstep (SUpdate "mls_groups" [("state", zbs); ("parent_id", zbpid)] (WRowid rowid));;
          mret rowid
      | None =>
          pstep (SInsert "mls_groups" [("id", zid); ("state", zbs); ("parent_id", zbpid)]);;
          rowid ← pstep SLastRowid;
          blob_write "mls_groups" "id" rowid (pg_id self);;
          mret rowid
      end;
    blob_write "mls_groups" "state" rowid (pg_state self);;
    write_parent "mls_groups" rowid (pg_parent_id self);;
    pstep SCommit;; mret ()).

Definition PersistedMlsGroup_find_one (id : bytes) : prog (option PersistedMlsGroup) :=
  with_tx (
    rowid ← query_rowid "mls_groups" (WEq "id" (VBlob id));
    match rowid with
    | Some rowid => g ← PersistedMlsGroup_read rowid; mret (Some g)
    | None => mret None
    end).

(** The ids asked for are ignored: all groups are returned. *)
Definition PersistedMlsGroup_find_many (_ids : list bytes) : prog (list PersistedMlsGroup) :=
  rowids ← pstep (SQuery "mls_groups" [] WAll [OrderByRowid false]);
  match rowids with
  | [] => mret []
  | _ =>
      with_tx (
        res ← pmap (fun r => PersistedMlsGroup_read r.1) rowids;
        pstep SCommit;; mret res)
  end.

Definition PersistedMlsGroup_count : prog Z := pstep (SCount "mls_groups").

Definition PersistedMlsGroup_delete (ids : list bytes) : prog () :=
  delete_all_or_nothing MlsGroupMissing "mls_groups" "id" (fun id => Ok (VBlob id)) ids.

#[export] Instance PersistedMlsGroup_entity : EntityBase PersistedMlsGroup := {|
  AutoGeneratedFields := ();
  to_missing_key_err_kind := MlsGroupMissing;
  save := PersistedMlsGroup_save;
  insert_entity := default_insert;
  find_all := PersistedMlsGroup_find_all;
  find_one := PersistedMlsGroup_find_one;
  find_many := Some PersistedMlsGroup_find_many;
  count := PersistedMlsGroup_count;
  delete_ids := PersistedMlsGroup_delete;
|}.

(** [PersistedMlsGroupExt]: the parent and the children of a group. *)
Definition PersistedMlsGroup_parent_group (self : PersistedMlsGroup) :
    prog (option PersistedMlsGroup) :=
  match pg_parent_id self with
  | None => mret None
  | Some parent_id => PersistedMlsGroup_find_one parent_id
  end.

Definition PersistedMlsGroup_child_groups (self : PersistedMlsGroup) :
    prog (list PersistedMlsGroup) :=
  with_tx (list_rows "mls_groups" [] (WEq "parent_id" (VBlob (pg_id self))) []
             (fun r => PersistedMlsGroup_read r.1)).

(** *** The table *)

Definition PersistedMlsGroup_layout : layout PersistedMlsGroup :=
  Layout "mls_groups" [("id", ColPlain); ("state", ColPlain); ("parent_id", ColPlain)]
    (fun g => [("id", VBlob (pg_id g)); ("state", VBlob (pg_state g));
               ("parent_id", VBlob (default [] (pg_parent_id g)))])
    (fun _ => True).

(** What comes back of a group: an empty parent id is no parent. *)
Definition PersistedMlsGroup_stored (g : PersistedMlsGroup) : PersistedMlsGroup :=
  MkPersistedMlsGroup (pg_id g) (pg_state g)
    (match pg_parent_id g with Some [] => None | p => p end).

Definition PersistedMlsGroup_fits (g : PersistedMlsGroup) : bool :=
  is_ok (check_buffer_size (blen (pg_state g))) && is_ok (check_buffer_size (blen (pg_id g)))
  && is_ok (check_buffer_size (opt_len (pg_parent_id g))).

(** *** Proofs *)

Section group_proofs.
Context (v : view).
Let t := "mls_groups".
Let cols := ly_cols PersistedMlsGroup_layout.

Lemma read_parent_ignoring_tv t' cols' r rs1 rw rs2 rid p :
  around r rs1 rs2 -> row_get "parent_id" rw = VBlob p ->
  run (read_parent_ignoring t' r) (tv v t' cols' (rs1 ++ (r, rw) :: rs2) rid) =
  (Ok (match p with [] => None | _ => Some p end), tv v t' cols' (rs1 ++ (r, rw) :: rs2) rid).
Proof.
  intros Ha Hp. unfold read_parent_ignoring.
  assert (run (pok (pstep (SBlobOpen t' "parent_id" r true)))
            (tv v t' cols' (rs1 ++ (r, rw) :: rs2) rid) =
          (Ok (Some (BlobHandle t' "parent_id" r (blen p))),
           tv v t' cols' (rs1 ++ (r, rw) :: rs2) rid)) as Ho.
  { unfold pok, run. rewrite run_with_then. fold (run (pstep (SBlobOpen t' "parent_id" r true))).
    by erewrite blob_open_tv by (rewrite ?Hp; done). }
  rewrite (run_bind_ok _ _ _ _ _ Ho). cbn [bh_len].
  destruct p as [|b p]; [done|]. cbn [blen length].
  assert (Z.eqb (blen (b :: p)) 0 = false) as -> by (unfold blen; simpl; lia).
  rewrite prog_bind_assoc.
  erewrite run_bind_ok by (rewrite run_step; apply sem_blob_read_tv; [done|by rewrite Hp]). done.
Qed.

Lemma PersistedMlsGroup_reads_row :
  reads_row PersistedMlsGroup_layout v (fun r => PersistedMlsGroup_read r.1) []
    PersistedMlsGroup_stored.
Proof.
  intros r g rs1 rs2 rid Ha _. unfold PersistedMlsGroup_read. cbn [select fst].
  do 2 sql_step. erewrite run_bind_ok by (by apply read_parent_ignoring_tv).
  unfold PersistedMlsGroup_stored. by destruct g as [i s [[|]|]].
Qed.

Lemma write_parent_tv t' cols' r rs1 rw rs2 rid old p :
  around r rs1 rs2 -> row_get "parent_id" rw = VBlob old -> blen old = opt_len p ->
  col_indexed "parent_id" cols' = false ->
  run (write_parent t' r p) (tv v t' cols' (rs1 ++ (r, rw) :: rs2) rid) =
  (Ok (), tv v t' cols' (rs1 ++ (r, match p with
                                    | Some d => row_set "parent_id" (VBlob d) rw
                                    | None => rw
                                    end) :: rs2) rid).
Proof.
  intros Ha Hp Hl Hix. unfold write_parent. destruct p as [d|].
  - assert (length old = length d) by (unfold opt_len, blen in Hl; simpl in Hl; lia).
    pose proof (blob_write_tv v t' cols' "parent_id" r rs1 rw rs2 rid old d Ha) as Hw.
    unfold blob_write in Hw. rewrite <-Hw by (rewrite ?Hp, ?Hix; done). done.
  - erewrite run_bind_ok by (apply blob_open_tv; rewrite ?Hp, ?Hix; done). done.
Qed.
End group_proofs.

Lemma zeroblob_opt_len p : (opt_len p <= i32_max)%Z ->
  exists old, zeroblob (opt_len p) = VBlob old /\ blen old = opt_len p.
Proof.
  intros H. eexists. split; [done|]. destruct p as [d|]; [|done]. simpl in *.
  unfold blen at 1. unfold opt_len in *. simpl in *. by rewrite length_zeros.
Qed.

Lemma PersistedMlsGroup_save_ok v l g :
  rep PersistedMlsGroup_layout v l -> PersistedMlsGroup_fits g = true ->
  exists v', run (PersistedMlsGroup_save g) v = (Ok (), v') /\
    becomes PersistedMlsGroup_layout v v'
      (upsert (fun x => bool_decide (pg_id x = pg_id g)) (PersistedMlsGroup_stored g) l).
Proof.
  intros (k & Hk & ->) Hf. pose proof Hk as (_ & _ & Hsk).
  unfold PersistedMlsGroup_save, PersistedMlsGroup_fits in *. split_sizes.
  destruct (zeroblob_opt_len (pg_parent_id g)) as (old & Hold & Hlen); [done|].
  eapply (upsert_tx PersistedMlsGroup_layout v "id" (VBlob (pg_id g))
    (fun x => bool_decide (pg_id x = pg_id g)) (PersistedMlsGroup_stored g)); [exact Hk| |done| |].
  - intros e. apply sql_eq_blob.
  - intros k1 r e k2 rid0 -> He Ha. apply bool_decide_eq_true in He.
    split; [reflexivity|]. eexists. rewrite prog_bind_assoc. sql_step. sql_step. sql_step.
    erewrite run_bind_ok by (eapply write_parent_tv; [exact Ha|exact Hold|exact Hlen|done]).
    sql_step. destruct g as [i s [[|]|]], e; simpl in *; subst; done.
  - intros rid0 _ Ha. split; [reflexivity|]. eexists. rewrite prog_bind_assoc. sql_step. rewrite prog_bind_assoc. sql_step.
    rewrite prog_bind_assoc. do 3 sql_step.
    erewrite run_bind_ok by (eapply write_parent_tv; [exact Ha|exact Hold|exact Hlen|done]).
    sql_step. destruct g as [i s [[|]|]]; simpl in *; done.
Qed.

Lemma PersistedMlsGroup_save_big v l g :
  rep PersistedMlsGroup_layout v l -> PersistedMlsGroup_fits g = false ->
  run (PersistedMlsGroup_save g) v = (Err BlobTooBig, v).
Proof.
  intros Hl Hf. unfold PersistedMlsGroup_save, PersistedMlsGroup_fits in *.
  split_sizes; by eapply run_with_tx_fail.
Qed.

Lemma PersistedMlsGroup_find_one_ok v l id :
  rep PersistedMlsGroup_layout v l ->
  run (PersistedMlsGroup_find_one id) v =
  (Ok (PersistedMlsGroup_stored <$> first (fun g => bool_decide (pg_id g = id)) l), v).
Proof.
  intros (k & Hk & ->). pose proof Hk as (_ & _ & Hs).
  eapply run_with_tx_look; [exact Hk| |done].
  apply (find_first_body PersistedMlsGroup_layout v "id" _ _ _ _ _ _
    (fun e => sql_eq_blob _ _) (PersistedMlsGroup_reads_row v) Hs).
Qed.

Lemma PersistedMlsGroup_find_all_ok v l params :
  rep PersistedMlsGroup_layout v l ->
  run (PersistedMlsGroup_find_all params) v =
  (match apply_tail (EntityFindParams_to_sql params) l with
   | Some l' => Ok (PersistedMlsGroup_stored <$> l')
   | None => Err (DbError SqlInputError)
   end, v).
Proof.
  intros (k & Hk & ->). pose proof Hk as (_ & _ & Hs).
  eapply run_with_tx_look; [exact Hk| |done].
  apply (list_all_body PersistedMlsGroup_layout v _ _ _ _ _ _ (PersistedMlsGroup_reads_row v) Hs).
Qed.

#[export] Program Instance PersistedMlsGroup_laws : EntityLaws PersistedMlsGroup := {|
  el_layout := PersistedMlsGroup_layout;
  el_key := pg_id;
  el_stored := PersistedMlsGroup_stored;
  el_id_ok := fun _ => true;
|}.
Next Obligation. intros v l id Hl _. by apply PersistedMlsGroup_find_one_ok. Qed.
Next Obligation. intros v l Hl. exact (PersistedMlsGroup_find_all_ok v l _ Hl). Qed.
Next Obligation. intros v l Hl. exact (count_rep PersistedMlsGroup_layout v l Hl). Qed.
Next Obligation.
  intros v l ids Hl _. apply (delete_all_or_nothing_spec PersistedMlsGroup_layout v _ _ _
    (fun id => VBlob id)); [done| |done]. intros e id _. apply sql_eq_blob.
Qed.
Next Obligation.
  intros ? g. simpl. unfold PersistedMlsGroup_save, query_rowid, blob_write, write_parent.
  solve_atomic.
Qed.
Next Obligation.
  intros ? ids. simpl. unfold PersistedMlsGroup_delete, delete_all_or_nothing. solve_atomic.
Qed.

#[export] Program Instance PersistedMlsGroup_upsert : UpsertLaws PersistedMlsGroup := {|
  ul_fits := PersistedMlsGroup_fits;
|}.
Next Obligation. apply PersistedMlsGroup_save_ok. Qed.
Next Obligation. apply PersistedMlsGroup_save_big. Qed.
Next Obligation. done. Qed.
Next Obligation. by intros [i s [[|]|]]. Qed.

(** Children: the groups whose parent id is the id of the group, in the order of the table. A
    group with an empty id would take every group without a parent for a child. *)
Lemma PersistedMlsGroup_child_groups_ok v l g :
  rep PersistedMlsGroup_layout v l ->
  run (PersistedMlsGroup_child_groups g) v =
  (Ok (PersistedMlsGroup_stored <$>
        List.filter (fun x => bool_decide (default [] (pg_parent_id x) = pg_id g)) l), v).
Proof.
  intros (k & Hk & ->). pose proof Hk as (_ & _ & Hs).
  eapply run_with_tx_look; [exact Hk| |done]. unfold list_rows.
  erewrite run_bind_ok.
  2: { unfold tvk. rewrite query_tv. cbn [apply_tail]. reflexivity. }
  rewrite <-(snd_filter (fun x => bool_decide (default [] (pg_parent_id x) = pg_id g))).
  rewrite (filter_where_put PersistedMlsGroup_layout _ _
    (fun x => bool_decide (default [] (pg_parent_id x) = pg_id g))) by (intros; apply sql_eq_blob).
  apply (pmap_read PersistedMlsGroup_layout v); [apply PersistedMlsGroup_reads_row|done|].
  intros x [Hx _]%list_elem_of_In%filter_In. by apply list_elem_of_In.
Qed.
