(* ===== verification/MlsPending.v ===== *)
(** * Pending groups and pending messages

    [keystore/src/entities/platform/generic/mls/pending_group.rs] and [pending_message.rs]: the
    group joined by external commit before it is merged, and the messages that arrive for it
    meanwhile. *)

From Stdlib Require Import Sorting.Sorted.
From S2P Require Import Prelude KsError Sql SqlSpec Entity MlsGroups.
Open Scope Z_scope.

(** ** [PersistedMlsPendingGroup] *)

Record PersistedMlsPendingGroup := MkPersistedMlsPendingGroup {
  ppg_id : bytes; ppg_state : bytes; ppg_parent_id : option bytes;
  ppg_custom_configuration : bytes }.

#[export] Instance PersistedMlsPendingGroup_eq_dec : EqDecision PersistedMlsPendingGroup.
Proof. solve_decision. Defined.

Definition PersistedMlsPendingGroup_save (self : PersistedMlsPendingGroup) : prog () :=
  with_tx (
    plift (check_buffer_size (blen (ppg_state self)));;
    plift (check_buffer_size (blen (ppg_id self)));;
    plift (check_buffer_size (opt_len (ppg_parent_id self)));;
    let zcfg := zeroblob (blen (ppg_custom_configuration self)) in
    let zpid := zeroblob (opt_len (ppg_parent_id self)) in
    let zb := zeroblob (blen (ppg_state self)) in
    let zid := zeroblob (blen (ppg_id self)) in
    existing ← query_rowid "mls_pending_groups" (WEq "id" (VBlob (ppg_id self)));
    rowid ← match existing with
      | Some rowid =>
          pstep (SUpdate "mls_pending_groups"
                   [("state", zb); ("parent_id", zpid); ("cfg", zcfg)]
                   (WEq "id" (VBlob (ppg_id self))));;
          mret rowid
      | None =>
          pstep (SInsert "mls_pending_groups"
                   [("id", zid); ("state", zb); ("cfg", zcfg); ("parent_id", zpid)]);;
          rowid ← pstep SLastRowid;
          blob_write "mls_pending_groups" "id" rowid (ppg_id self);;
          mret rowid
      end;
    blob_write "mls_pending_groups" "state" rowid (ppg_state self);;
    blob_write "mls_pending_groups" "cfg" rowid (ppg_custom_configuration self);;
    write_parent "mls_pending_groups" rowid (ppg_parent_id self);;
    pstep SCommit;; mret ()).

(** [find_one] reads a non-empty parent id at the end of [state] and keeps an empty one. *)
Definition PersistedMlsPendingGroup_find_one (id : bytes) :
    prog (option PersistedMlsPendingGroup) :=
  with_tx (
    rowid ← query_rowid "mls_pending_groups" (WEq "id" (VBlob id));
    match rowid with
    | Some rowid =>
        id ← blob_read "mls_pending_groups" "id" rowid true;
        state ← blob_read "mls_pending_groups" "state" rowid true;
        custom_configuration ← blob_read "mls_pending_groups" "cfg" rowid true;
        blob ← pstep (SBlobOpen "mls_pending_groups" "parent_id" rowid true);
        sp ← (if Z.eqb (bh_len blob) 0 then mret (state, None)
              else more ← pstep (SBlobRead blob); mret (state ++ more, Some []));
        pstep (SBlobClose blob);;
        mret (Some (MkPersistedMlsPendingGroup id sp.1 sp.2 custom_configuration))
    | None => mret None
    end).

(** The row as [find_all] and [find_many] read it. *)
Definition PersistedMlsPendingGroup_read (rowid : Z) : prog PersistedMlsPendingGroup :=
  id ← blob_read "mls_pending_groups" "id" rowid true;
  state ← blob_read "mls_pending_groups" "state" rowid true;
  custom_configuration ← blob_read "mls_pending_groups" "cfg" rowid true;
  blob ← pstep (SBlobOpen "mls_pending_groups" "parent_id" rowid true);
  parent_id ← (if Z.eqb (bh_len blob) 0 then mret None
               else tmp ← pstep (SBlobRead blob); mret (Some tmp));
  pstep (SBlobClose blob);;
  mret (MkPersistedMlsPendingGroup id state parent_id custom_configuration).

Definition PersistedMlsPendingGroup_find_all (params : EntityFindParams) :
    prog (list PersistedMlsPendingGroup) :=
  with_tx (list_rows "mls_pending_groups" [] WAll (EntityFindParams_to_sql params)
             (fun r => PersistedMlsPendingGroup_read r.1)).

Definition PersistedMlsPendingGroup_find_many (_ids : list bytes) :
    prog (list PersistedMlsPendingGroup) :=
  rowids ← pstep (SQuery "mls_pending_groups" [] WAll [OrderByRowid false]);
  match rowids with
  | [] => mret []
  | _ =>
      with_tx (
        res ← pmap (fun r => PersistedMlsPendingGroup_read r.1) rowids;
        pstep SCommit;; mret res)
  end.

Definition PersistedMlsPendingGroup_count : prog Z := pstep (SCount "mls_pending_groups").

Definition PersistedMlsPendingGroup_delete (ids : list bytes) : prog () :=
  delete_all_or_nothing MlsPendingGroupMissing "mls_pending_groups" "id"
    (fun id => Ok (VBlob id)) ids.

#[export] Instance PersistedMlsPendingGroup_entity : EntityBase PersistedMlsPendingGroup := {|
  AutoGeneratedFields := ();
  to_missing_key_err_kind := MlsPendingGroupMissing;
  save := PersistedMlsPendingGroup_save;
  insert_entity := default_insert;
  find_all := PersistedMlsPendingGroup_find_all;
  find_one := PersistedMlsPendingGroup_find_one;
  find_many := Some PersistedMlsPendingGroup_find_many;
  count := PersistedMlsPendingGroup_count;
  delete_ids := PersistedMlsPendingGroup_delete;
|}.

(** ** [MlsPendingMessage] *)

Record MlsPendingMessage := MkMlsPendingMessage { pm_id : bytes; pm_message : bytes }.

#[export] Instance MlsPendingMessage_eq_dec : EqDecision MlsPendingMessage.
Proof. solve_decision. Defined.

(** Every message is a new row; several may have the same (group) id. *)
Definition MlsPendingMessage_save (self : MlsPendingMessage) : prog () :=
  with_tx (
    plift (check_buffer_size (blen (pm_id self)));;
    plift (check_buffer_size (blen (pm_message self)));;
    let zid := zeroblob (blen (pm_id self)) in
    let zmsg := zeroblob (blen (pm_message self)) in
    pstep (SInsert "mls_pending_messages" [("id", zid); ("message", zmsg)]);;
    rowid ← pstep SLastRowid;
    blob_write "mls_pending_messages" "id" rowid (pm_id self);;
    blob_write "mls_pending_messages" "message" rowid (pm_message self);;
    pstep SCommit;; mret ()).

Definition MlsPendingMessage_read (rowid : Z) : prog MlsPendingMessage :=
  id ← blob_read "mls_pending_messages" "id" rowid true;
  message ← blob_read "mls_pending_messages" "message" rowid true;
  mret (MkMlsPendingMessage id message).

Definition MlsPendingMessage_find_one (id : bytes) : prog (option MlsPendingMessage) :=
  with_tx (
    rowid ← query_rowid "mls_pending_messages" (WEq "id" (VBlob id));
    match rowid with
    | Some rowid => m ← MlsPendingMessage_read rowid; mret (Some m)
    | None => mret None
    end).

Definition MlsPendingMessage_find_all (params : EntityFindParams) : prog (list MlsPendingMessage) :=
  with_tx (list_rows "mls_pending_messages" [] WAll (EntityFindParams_to_sql params)
             (fun r => MlsPendingMessage_read r.1)).

Definition MlsPendingMessage_count : prog Z := pstep (SCount "mls_pending_messages").

(** All messages of the given groups go; it is an error only if there were none at all. *)
Definition MlsPendingMessage_delete (ids : list bytes) : prog () :=
  with_tx (
    updated ← psum (fun id => p ← plift (Ok (VBlob id));
                              pstep (SDelete "mls_pending_messages" (WEq "id" p))) 0 ids;
    if Z.ltb 0 updated then
      pstep SCommit;; mret ()
    else
      pstep SRollback;; pfail (MissingKeyInStore MlsPendingMessages)).

#[export] Instance MlsPendingMessage_entity : EntityBase MlsPendingMessage := {|
  AutoGeneratedFields := ();
  to_missing_key_err_kind := MlsPendingMessages;
  save := MlsPendingMessage_save;
  insert_entity := default_insert;
  find_all := MlsPendingMessage_find_all;
  find_one := MlsPendingMessage_find_one;
  find_many := None;
  count := MlsPendingMessage_count;
  delete_ids := MlsPendingMessage_delete;
|}.

(** ** The tables *)

Definition PersistedMlsPendingGroup_layout : layout PersistedMlsPendingGroup :=
  Layout "mls_pending_groups"
    [("id", ColPlain); ("state", ColPlain); ("cfg", ColPlain); ("parent_id", ColPlain)]
    (fun g => [("id", VBlob (ppg_id g)); ("state", VBlob (ppg_state g));
               ("cfg", VBlob (ppg_custom_configuration g));
               ("parent_id", VBlob (default [] (ppg_parent_id g)))])
    (fun _ => True).

Definition PersistedMlsPendingGroup_stored (g : PersistedMlsPendingGroup) :=
  MkPersistedMlsPendingGroup (ppg_id g) (ppg_state g)
    (match ppg_parent_id g with Some [] => None | p => p end) (ppg_custom_configuration g).

(** What [find_one] makes of a stored group. *)
Definition PersistedMlsPendingGroup_found (g : PersistedMlsPendingGroup) :=
  MkPersistedMlsPendingGroup (ppg_id g) (ppg_state g ++ default [] (ppg_parent_id g))
    (match ppg_parent_id g with None | Some [] => None | Some _ => Some [] end)
    (ppg_custom_configuration g).

(** The size of the configuration is not checked by [save]: it is a condition of its own. *)
Definition PersistedMlsPendingGroup_fits (g : PersistedMlsPendingGroup) : bool :=
  is_ok (check_buffer_size (blen (ppg_state g))) && is_ok (check_buffer_size (blen (ppg_id g)))
  && is_ok (check_buffer_size (opt_len (ppg_parent_id g))).

Definition MlsPendingMessage_layout : layout MlsPendingMessage :=
  Layout "mls_pending_messages" [("id", ColPlain); ("message", ColPlain)]
    (fun m => [("id", VBlob (pm_id m)); ("message", VBlob (pm_message m))])
    (fun _ => True).

(** ** Proofs *)

(** The length of a blob with a first byte is not zero. *)
Ltac nonempty_blob :=
  match goal with |- context [Z.eqb ?a 0] => change (Z.eqb a 0) with false end; cbv iota.

Section reads.
Context (v : view).

Lemma PersistedMlsPendingGroup_reads_row :
  reads_row PersistedMlsPendingGroup_layout v (fun r => PersistedMlsPendingGroup_read r.1) []
    PersistedMlsPendingGroup_stored.
Proof.
  intros r [i s p c] rs1 rs2 rid Ha _. unfold PersistedMlsPendingGroup_read. cbn [select fst].
  do 4 sql_step. destruct p as [[|b p]|]; cbn [bh_len]; [done| |done].
  nonempty_blob. rewrite prog_bind_assoc.
  erewrite run_bind_ok by (rewrite run_step; apply sem_blob_read_tv; done). done.
Qed.

Lemma MlsPendingMessage_reads_row :
  reads_row MlsPendingMessage_layout v (fun r => MlsPendingMessage_read r.1) [] id.
Proof.
  intros r [i m] rs1 rs2 rid Ha _. unfold MlsPendingMessage_read. cbn [select fst].
  by do 2 sql_step.
Qed.

Lemma PersistedMlsPendingGroup_find_one_ok l id :
  rep PersistedMlsPendingGroup_layout v l ->
  run (PersistedMlsPendingGroup_find_one id) v =
  (Ok (PersistedMlsPendingGroup_found <$> first (fun g => bool_decide (ppg_id g = id)) l), v).
Proof.
  intros (k & Hk & ->). pose proof Hk as (_ & _ & Hs).
  eapply run_with_tx_look; [exact Hk| |done].
  etransitivity.
  - apply (find_first_gen PersistedMlsPendingGroup_layout v "id" (VBlob id)
      (fun g => bool_decide (ppg_id g = id)) _ (fun g => Some (PersistedMlsPendingGroup_found g))
      None k _ (fun e => sql_eq_blob _ _) Hs).
    intros r [i s p c] rs1 rs2 rid0 Ha _ _. do 4 sql_step.
    destruct p as [[|b p]|]; cbn [bh_len].
    + unfold PersistedMlsPendingGroup_found. simpl. by rewrite app_nil_r.
    + nonempty_blob. rewrite prog_bind_assoc.
      erewrite run_bind_ok by (rewrite run_step; apply sem_blob_read_tv; done). done.
    + unfold PersistedMlsPendingGroup_found. simpl. by rewrite app_nil_r.
  - by destruct (first _ (snd <$> k)).
Qed.

Lemma PersistedMlsPendingGroup_find_all_ok l params :
  rep PersistedMlsPendingGroup_layout v l ->
  run (PersistedMlsPendingGroup_find_all params) v =
  (match apply_tail (EntityFindParams_to_sql params) l with
   | Some l' => Ok (PersistedMlsPendingGroup_stored <$> l')
   | None => Err (DbError SqlInputError)
   end, v).
Proof.
  intros (k & Hk & ->). pose proof Hk as (_ & _ & Hs).
  eapply run_with_tx_look; [exact Hk| |done].
  apply (list_all_body PersistedMlsPendingGroup_layout v _ _ _ _ _ _
    PersistedMlsPendingGroup_reads_row Hs).
Qed.

Lemma MlsPendingMessage_find_all_ok l params :
  rep MlsPendingMessage_layout v l ->
  run (MlsPendingMessage_find_all params) v =
  (match apply_tail (EntityFindParams_to_sql params) l with
   | Some l' => Ok l'
   | None => Err (DbError SqlInputError)
   end, v).
Proof.
  intros (k & Hk & ->). pose proof Hk as (_ & _ & Hs).
  eapply run_with_tx_look; [exact Hk| |done].
  etransitivity; [apply (list_all_body MlsPendingMessage_layout v _ _ _ _ _ _
    MlsPendingMessage_reads_row Hs)|].
  destruct (apply_tail _ _); [|done]. by rewrite list_fmap_id.
Qed.
End reads.

Lemma PersistedMlsPendingGroup_save_ok v l g :
  rep PersistedMlsPendingGroup_layout v l -> NoDup (ppg_id <$> l) ->
  PersistedMlsPendingGroup_fits g = true ->
  (blen (ppg_custom_configuration g) <= i32_max)%Z ->
  exists v', run (PersistedMlsPendingGroup_save g) v = (Ok (), v') /\
    becomes PersistedMlsPendingGroup_layout v v'
      (upsert (fun x => bool_decide (ppg_id x = ppg_id g)) (PersistedMlsPendingGroup_stored g) l).
Proof.
  intros (k & Hk & ->) Hnd Hf Hcfg. pose proof Hk as (_ & _ & Hsk).
  unfold PersistedMlsPendingGroup_save, PersistedMlsPendingGroup_fits in *. split_sizes.
  destruct (zeroblob_opt_len (ppg_parent_id g)) as (old & Hold & Hlen); [done|].
  eapply (upsert_tx PersistedMlsPendingGroup_layout v "id" (VBlob (ppg_id g))
    (fun x => bool_decide (ppg_id x = ppg_id g)) (PersistedMlsPendingGroup_stored g)); [exact Hk| |done| |].
  - intros e. apply sql_eq_blob.
  - intros k1 r e k2 rid0 -> He Ha. pose proof (other_rows_differ PersistedMlsPendingGroup_layout
      "id" (VBlob (ppg_id g)) (fun x => bool_decide (ppg_id x = ppg_id g)) k1 (r, e) k2) as Ho.
    assert (forall y, y ∈ (put PersistedMlsPendingGroup_layout <$> k1) ++
      (put PersistedMlsPendingGroup_layout <$> k2) ->
      where_test (WEq "id" (VBlob (ppg_id g))) y = false) as Hother.
    { apply Ho; [intros; apply sql_eq_blob| |apply sorted_rows_NoDup, Hsk|done].
      intros a b Hin1 Hin2 Hpa%bool_decide_eq_true Hpb%bool_decide_eq_true.
      by eapply (NoDup_keys_unique ppg_id). }
    clear Ho. split; [reflexivity|]. eexists. rewrite prog_bind_assoc.
    edestruct update_col_tv as [n Hu]; [exact Hother| | |rewrite (run_bind_ok _ _ _ _ _ Hu)].
    { etransitivity; [apply sql_eq_blob|exact He]. }
    { reflexivity. }
    clear Hu. apply bool_decide_eq_true in He. do 3 sql_step.
    erewrite run_bind_ok by (eapply write_parent_tv; [exact Ha|exact Hold|exact Hlen|done]).
    sql_step. destruct g as [i s [[|]|] c], e; simpl in *; subst; done.
  - intros rid0 _ Ha. split; [reflexivity|]. eexists. rewrite prog_bind_assoc. sql_step. rewrite prog_bind_assoc. sql_step.
    rewrite prog_bind_assoc. do 4 sql_step.
    erewrite run_bind_ok by (eapply write_parent_tv; [exact Ha|exact Hold|exact Hlen|done]).
    sql_step. destruct g as [i s [[|]|] c]; simpl in *; done.
Qed.

Lemma PersistedMlsPendingGroup_save_big v l g :
  rep PersistedMlsPendingGroup_layout v l -> PersistedMlsPendingGroup_fits g = false ->
  run (PersistedMlsPendingGroup_save g) v = (Err BlobTooBig, v).
Proof.
  intros Hl Hf. unfold PersistedMlsPendingGroup_save, PersistedMlsPendingGroup_fits in *.
  split_sizes; by eapply run_with_tx_fail.
Qed.

Lemma PersistedMlsPendingGroup_delete_ok v l ids :
  rep PersistedMlsPendingGroup_layout v l ->
  let l' := remove_keys ppg_id ids l in
  if bool_decide (length l = length l' + length ids)%nat then
    exists v', run (PersistedMlsPendingGroup_delete ids) v = (Ok (), v') /\
      becomes PersistedMlsPendingGroup_layout v v' l'
  else run (PersistedMlsPendingGroup_delete ids) v =
    (Err (MissingKeyInStore MlsPendingGroupMissing), v).
Proof.
  apply (delete_all_or_nothing_spec PersistedMlsPendingGroup_layout v MlsPendingGroupMissing "id"
    (fun id => Ok (VBlob id)) (fun id => VBlob id)); [done|]. intros e id _. apply sql_eq_blob.
Qed.

Definition MlsPendingMessage_fits (m : MlsPendingMessage) : bool :=
  is_ok (check_buffer_size (blen (pm_id m))) && is_ok (check_buffer_size (blen (pm_message m))).

Lemma MlsPendingMessage_save_ok v l m :
  rep MlsPendingMessage_layout v l -> MlsPendingMessage_fits m = true ->
  exists v', run (MlsPendingMessage_save m) v = (Ok (), v') /\
    becomes MlsPendingMessage_layout v v' (l ++ [m]).
Proof.
  intros (k & Hk & ->) Hf. pose proof Hk as (_ & _ & Hsk).
  unfold MlsPendingMessage_save, MlsPendingMessage_fits in *. split_sizes.
  pose proof (around_append MlsPendingMessage_layout k) as Ha.
  eexists. split; [|by apply append_becomes].
  eapply run_with_tx_commit; [exact Hk| |done]. unfold tvk.
  change (plift (Ok ());; ?p) with p. do 5 sql_step. by destruct m.
Qed.

Lemma MlsPendingMessage_delete_ok v l ids :
  rep MlsPendingMessage_layout v l ->
  let l' := remove_keys pm_id ids l in
  if bool_decide (length l' < length l)%nat then
    exists v', run (MlsPendingMessage_delete ids) v = (Ok (), v') /\
      becomes MlsPendingMessage_layout v v' l'
  else run (MlsPendingMessage_delete ids) v = (Err (MissingKeyInStore MlsPendingMessages), v).
Proof.
  intros (k & Hk & ->) l'. pose proof Hk as (Htx & Ht & Hs).
  destruct (psum_delete MlsPendingMessage_layout v "id" (fun id => Ok (VBlob id)) (fun id => VBlob id)
    pm_id ids 0 k (v_rowid v)) as (k' & Hr & Hk' & Hl);
    [done|intros; apply sql_eq_blob|done|].
  unfold MlsPendingMessage_delete. subst l'. rewrite <-Hl, !length_fmap. case_bool_decide as Hlen.
  - exists (tv_done v "mls_pending_messages" (ly_cols MlsPendingMessage_layout)
      (put MlsPendingMessage_layout <$> k') (v_rowid v)).
    split; [|by apply (becomes_done MlsPendingMessage_layout)].
    eapply run_with_tx_commit; [done| |done]. rewrite (run_bind_ok _ _ _ _ _ Hr).
    assert ((0 <? 0 + Z.of_nat (length k) - Z.of_nat (length k')) = true) as ->.
    { apply Z.ltb_lt. lia. }
    by erewrite run_bind_ok by apply commit_tv.
  - rewrite (run_with_tx_rep MlsPendingMessage_layout v _ k) by done.
    rewrite (run_bind_ok _ _ _ _ _ Hr).
    assert ((0 <? 0 + Z.of_nat (length k) - Z.of_nat (length k')) = false) as ->.
    { apply Z.ltb_ge. lia. }
    unfold run. simpl. destruct v; simpl in *. by subst.
Qed.
