(* ===== verification/MlsKeys.v ===== *)
(** * Key material of MLS

    [keystore/src/entities/platform/generic/mls/]: [keypackage.rs], [hpke_private_key.rs],
    [encryption_keypair.rs], [epoch_encryption_keypair.rs] and [psk_bundle.rs], five tables of
    two blobs of which one is the key; the records are those of [keystore/src/entities/mls.rs]. *)

From Stdlib Require Import Sorting.Sorted.
From S2P Require Import Prelude KsError Sql SqlSpec Entity.
Open Scope Z_scope.

(** ** [MlsKeyPackage] *)

Record MlsKeyPackage := MkMlsKeyPackage { kp_keypackage_ref : bytes; kp_keypackage : bytes }.

#[export] Instance MlsKeyPackage_eq_dec : EqDecision MlsKeyPackage.
Proof. solve_decision. Defined.

Definition MlsKeyPackage_read (rowid : Z) : prog MlsKeyPackage :=
  keypackage_ref ← blob_read "mls_keypackages" "keypackage_ref" rowid true;
  keypackage ← blob_read "mls_keypackages" "keypackage" rowid true;
  mret (MkMlsKeyPackage keypackage_ref keypackage).

Definition MlsKeyPackage_find_all (params : EntityFindParams) : prog (list MlsKeyPackage) :=
  with_tx (list_rows "mls_keypackages" [] WAll (EntityFindParams_to_sql params)
             (fun r => MlsKeyPackage_read r.1)).

Definition MlsKeyPackage_save (self : MlsKeyPackage) : prog () :=
  plift (check_buffer_size (blen (kp_keypackage_ref self)));;
  plift (check_buffer_size (blen (kp_keypackage self)));;
  with_tx (
    existing_rowid ← query_rowid "mls_keypackages"
      (WEq "keypackage_ref" (VBlob (kp_keypackage_ref self)));
    let kp_zb := zeroblob (blen (kp_keypackage self)) in
    row_id ← match existing_rowid with
      | Some rowid =>
          pstep (SUpdate "mls_keypackages" [("keypackage", kp_zb)] (WRowid rowid));;
          mret rowid
      | None =>
          let kp_ref_zb := zeroblob (blen (kp_keypackage_ref self)) in
          pstep (SInsert "mls_keypackages" [("keypackage_ref", kp_ref_zb); ("keypackage", kp_zb)]);;
          row_id ← pstep SLastRowid;
          blob_write "mls_keypackages" "keypackage_ref" row_id (kp_keypackage_ref self);;
          mret row_id
      end;
    blob_write "mls_keypackages" "keypackage" row_id (kp_keypackage self);;
    pstep SCommit;; mret ()).

Definition MlsKeyPackage_find_one (id : bytes) : prog (option MlsKeyPackage) :=
  with_tx (
    row_id ← query_rowid "mls_keypackages" (WEq "keypackage_ref" (VBlob id));
    match row_id with
    | Some rowid =>
        kp ← MlsKeyPackage_read rowid;
        pstep SCommit;;
        mret (Some kp)
    | None => mret None
    end).

Definition MlsKeyPackage_count : prog Z := pstep (SCount "mls_keypackages").

Definition MlsKeyPackage_delete (ids : list bytes) : prog () :=
  delete_all_or_nothing MlsKeyPackageBundle "mls_keypackages" "keypackage_ref"
    (fun id => Ok (VBlob id)) ids.

#[export] Instance MlsKeyPackage_entity : EntityBase MlsKeyPackage := {|
  AutoGeneratedFields := ();
  to_missing_key_err_kind := MlsKeyPackageBundle;
  save := MlsKeyPackage_save;
  insert_entity := default_insert;
  find_all := MlsKeyPackage_find_all;
  find_one := MlsKeyPackage_find_one;
  find_many := Some (default_find_many MlsKeyPackage_find_one);
  count := MlsKeyPackage_count;
  delete_ids := MlsKeyPackage_delete;
|}.

(** ** [MlsPskBundle] *)

Record MlsPskBundle := MkMlsPskBundle { psk_psk_id : bytes; psk_psk : bytes }.

#[export] Instance MlsPskBundle_eq_dec : EqDecision MlsPskBundle.
Proof. solve_decision. Defined.

Definition MlsPskBundle_read (rowid : Z) : prog MlsPskBundle :=
  psk_id ← blob_read "mls_psk_bundles" "psk_id" rowid true;
  psk ← blob_read "mls_psk_bundles" "psk" rowid true;
  mret (MkMlsPskBundle psk_id psk).

Definition MlsPskBundle_find_all (params : EntityFindParams) : prog (list MlsPskBundle) :=
  with_tx (list_rows "mls_psk_bundles" [] WAll (EntityFindParams_to_sql params)
             (fun r => MlsPskBundle_read r.1)).

Definition MlsPskBundle_save (self : MlsPskBundle) : prog () :=
  plift (check_buffer_size (blen (psk_psk_id self)));;
  plift (check_buffer_size (blen (psk_psk self)));;
  let zb_psk := zeroblob (blen (psk_psk self)) in
  with_tx (
    existing_rowid ← query_rowid "mls_psk_bundles" (WEq "psk_id" (VBlob (psk_psk_id self)));
    row_id ← match existing_rowid with
      | Some rowid =>
          pstep (SUpdate "mls_psk_bundles" [("psk", zb_psk)] (WRowid rowid));;
          mret rowid
      | None =>
          let zb_psk_id := zeroblob (blen (psk_psk_id self)) in
          pstep (SInsert "mls_psk_bundles" [("psk_id", zb_psk_id); ("psk", zb_psk)]);;
          row_id ← pstep SLastRowid;
          blob_write "mls_psk_bundles" "psk_id" row_id (psk_psk_id self);;
          mret row_id
      end;
    blob_write "mls_psk_bundles" "psk" row_id (psk_psk self);;
    pstep SCommit;; mret ()).

Definition MlsPskBundle_find_one (id : bytes) : prog (option MlsPskBundle) :=
  with_tx (
    maybe_rowid ← query_rowid "mls_psk_bundles" (WEq "psk_id" (VBlob id));
    match maybe_rowid with
    | Some rowid => p ← MlsPskBundle_read rowid; mret (Some p)
    | None => mret None
    end).

Definition MlsPskBundle_count : prog Z := pstep (SCount "mls_psk_bundles").

Definition MlsPskBundle_delete (ids : list bytes) : prog () :=
  delete_all_or_nothing MissingMlsPskBundle "mls_psk_bundles" "psk_id" (fun id => Ok (VBlob id)) ids.

#[export] Instance MlsPskBundle_entity : EntityBase MlsPskBundle := {|
  AutoGeneratedFields := ();
  to_missing_key_err_kind := MissingMlsPskBundle;
  save := MlsPskBundle_save;
  insert_entity := default_insert;
  find_all := MlsPskBundle_find_all;
  find_one := MlsPskBundle_find_one;
  find_many := Some (default_find_many MlsPskBundle_find_one);
  count := MlsPskBundle_count;
  delete_ids := MlsPskBundle_delete;
|}.

(** ** [MlsHpkePrivateKey] *)

Record MlsHpkePrivateKey := MkMlsHpkePrivateKey { hpke_sk : bytes; hpke_pk : bytes }.

#[export] Instance MlsHpkePrivateKey_eq_dec : EqDecision MlsHpkePrivateKey.
Proof. solve_decision. Defined.

(** The row as [find_all] reads it, and as [find_one] does. *)
Definition MlsHpkePrivateKey_read (rowid : Z) : prog MlsHpkePrivateKey :=
  sk ← blob_read "mls_hpke_private_keys" "sk" rowid true;
  pk ← blob_read "mls_hpke_private_keys" "pk" rowid true;
  mret (MkMlsHpkePrivateKey sk pk).

Definition MlsHpkePrivateKey_find_all (params : EntityFindParams) : prog (list MlsHpkePrivateKey) :=
  with_tx (list_rows "mls_hpke_private_keys" [] WAll (EntityFindParams_to_sql params)
             (fun r => MlsHpkePrivateKey_read r.1)).

Definition MlsHpkePrivateKey_save (self : MlsHpkePrivateKey) : prog () :=
  plift (check_buffer_size (blen (hpke_sk self)));;
  plift (check_buffer_size (blen (hpke_pk self)));;
  let zb_pk := zeroblob (blen (hpke_pk self)) in
  let zb_sk := zeroblob (blen (hpke_sk self)) in
  with_tx (
    existing_rowid ← query_rowid "mls_hpke_private_keys" (WEq "pk" (VBlob (hpke_pk self)));
    row_id ← match existing_rowid with
      | Some rowid =>
          pstep (SUpdate "mls_hpke_private_keys" [("pk", zb_pk); ("sk", zb_sk)] (WRowid rowid));;
          mret rowid
      | None =>
          pstep (SInsert "mls_hpke_private_keys" [("pk", zb_pk); ("sk", zb_sk)]);;
          pstep SLastRowid
      end;
    blob_write "mls_hpke_private_keys" "pk" row_id (hpke_pk self);;
    blob_write "mls_hpke_private_keys" "sk" row_id (hpke_sk self);;
    pstep SCommit;; mret ()).

Definition MlsHpkePrivateKey_find_one (id : bytes) : prog (option MlsHpkePrivateKey) :=
  with_tx (
    maybe_rowid ← query_rowid "mls_hpke_private_keys" (WEq "pk" (VBlob id));
    match maybe_rowid with
    | Some rowid =>
        pk ← blob_read "mls_hpke_private_keys" "pk" rowid true;
        sk ← blob_read "mls_hpke_private_keys" "sk" rowid true;
        mret (Some (MkMlsHpkePrivateKey sk pk))
    | None => mret None
    end).

Definition MlsHpkePrivateKey_count : prog Z := pstep (SCount "mls_hpke_private_keys").

Definition MlsHpkePrivateKey_delete (ids : list bytes) : prog () :=
  delete_all_or_nothing MissingMlsHpkePrivateKey "mls_hpke_private_keys" "pk" (fun id => Ok (VBlob id)) ids.

#[export] Instance MlsHpkePrivateKey_entity : EntityBase MlsHpkePrivateKey := {|
  AutoGeneratedFields := ();
  to_missing_key_err_kind := MissingMlsHpkePrivateKey;
  save := MlsHpkePrivateKey_save;
  insert_entity := default_insert;
  find_all := MlsHpkePrivateKey_find_all;
  find_one := MlsHpkePrivateKey_find_one;
  find_many := Some (default_find_many MlsHpkePrivateKey_find_one);
  count := MlsHpkePrivateKey_count;
  delete_ids := MlsHpkePrivateKey_delete;
|}.

(** ** [MlsEncryptionKeyPair] *)

Record MlsEncryptionKeyPair := MkMlsEncryptionKeyPair { ek_sk : bytes; ek_pk : bytes }.

#[export] Instance MlsEncryptionKeyPair_eq_dec : EqDecision MlsEncryptionKeyPair.
Proof. solve_decision. Defined.

(** The row as [find_all] reads it, and as [find_one] does. *)
Definition MlsEncryptionKeyPair_read (rowid : Z) : prog MlsEncryptionKeyPair :=
  sk ← blob_read "mls_encryption_keypairs" "sk" rowid true;
  pk ← blob_read "mls_encryption_keypairs" "pk" rowid true;
  mret (MkMlsEncryptionKeyPair sk pk).

Definition MlsEncryptionKeyPair_find_all (params : EntityFindParams) : prog (list MlsEncryptionKeyPair) :=
  with_tx (list_rows "mls_encryption_keypairs" [] WAll (EntityFindParams_to_sql params)
             (fun r => MlsEncryptionKeyPair_read r.1)).

Definition MlsEncryptionKeyPair_save (self : MlsEncryptionKeyPair) : prog () :=
  plift (check_buffer_size (blen (ek_sk self)));;
  plift (check_buffer_size (blen (ek_pk self)));;
  let zb_pk := zeroblob (blen (ek_pk self)) in
  let zb_sk := zeroblob (blen (ek_sk self)) in
  with_tx (
    existing_rowid ← query_rowid "mls_encryption_keypairs" (WEq "pk" (VBlob (ek_pk self)));
    row_id ← match existing_rowid with
      | Some rowid =>
          pstep (SUpdate "mls_encryption_keypairs" [("pk", zb_pk); ("sk", zb_sk)] (WRowid rowid));;
          mret rowid
      | None =>
          pstep (SInsert "mls_encryption_keypairs" [("pk", zb_pk); ("sk", zb_sk)]);;
          pstep SLastRowid
      end;
    blob_write "mls_encryption_keypairs" "pk" row_id (ek_pk self);;
    blob_write "mls_encryption_keypairs" "sk" row_id (ek_sk self);;
    pstep SCommit;; mret ()).

Definition MlsEncryptionKeyPair_find_one (id : bytes) : prog (option MlsEncryptionKeyPair) :=
  with_tx (
    maybe_rowid ← query_rowid "mls_encryption_keypairs" (WEq "pk" (VBlob id));
    match maybe_rowid with
    | Some rowid =>
        pk ← blob_read "mls_encryption_keypairs" "pk" rowid true;
        sk ← blob_read "mls_encryption_keypairs" "sk" rowid true;
        mret (Some (MkMlsEncryptionKeyPair sk pk))
    | None => mret None
    end).

Definition MlsEncryptionKeyPair_count : prog Z := pstep (SCount "mls_encryption_keypairs").

Definition MlsEncryptionKeyPair_delete (ids : list bytes) : prog () :=
  delete_all_or_nothing MissingMlsEncryptionKeyPair "mls_encryption_keypairs" "pk" (fun id => Ok (VBlob id)) ids.

#[export] Instance MlsEncryptionKeyPair_entity : EntityBase MlsEncryptionKeyPair := {|
  AutoGeneratedFields := ();
  to_missing_key_err_kind := MissingMlsEncryptionKeyPair;
  save := MlsEncryptionKeyPair_save;
  insert_entity := default_insert;
  find_all := MlsEncryptionKeyPair_find_all;
  find_one := MlsEncryptionKeyPair_find_one;
  find_many := Some (default_find_many MlsEncryptionKeyPair_find_one);
  count := MlsEncryptionKeyPair_count;
  delete_ids := MlsEncryptionKeyPair_delete;
|}.

(** ** [MlsEpochEncryptionKeyPair] *)

Record MlsEpochEncryptionKeyPair := MkMlsEpochEncryptionKeyPair { eek_id : bytes; eek_keypairs : bytes }.

#[export] Instance MlsEpochEncryptionKeyPair_eq_dec : EqDecision MlsEpochEncryptionKeyPair.
Proof. solve_decision. Defined.

(** The row as [find_all] reads it, and as [find_one] does. *)
Definition MlsEpochEncryptionKeyPair_read (rowid : Z) : prog MlsEpochEncryptionKeyPair :=
  id ← blob_read "mls_epoch_encryption_keypairs" "id" rowid true;
  keypairs ← blob_read "mls_epoch_encryption_keypairs" "keypairs" rowid true;
  mret (MkMlsEpochEncryptionKeyPair id keypairs).

Definition MlsEpochEncryptionKeyPair_find_all (params : EntityFindParams) : prog (list MlsEpochEncryptionKeyPair) :=
  with_tx (list_rows "mls_epoch_encryption_keypairs" [] WAll (EntityFindParams_to_sql params)
             (fun r => MlsEpochEncryptionKeyPair_read r.1)).

Definition MlsEpochEncryptionKeyPair_save (self : MlsEpochEncryptionKeyPair) : prog () :=
  plift (check_buffer_size (blen (eek_id self)));;
  plift (check_buffer_size (blen (eek_keypairs self)));;
  let zb_id := zeroblob (blen (eek_id self)) in
  let zb_keypairs := zeroblob (blen (eek_keypairs self)) in
  with_tx (
    existing_rowid ← query_rowid "mls_epoch_encryption_keypairs" (WEq "id" (VBlob (eek_id self)));
    row_id ← match existing_rowid with
      | Some rowid =>
          pstep (SUpdate "mls_epoch_encryption_keypairs" [("id", zb_id); ("keypairs", zb_keypairs)] (WRowid rowid));;
          mret rowid
      | None =>
          pstep (SInsert "mls_epoch_encryption_keypairs" [("id", zb_id); ("keypairs", zb_keypairs)]);;
          pstep SLastRowid
      end;
    blob_write "mls_epoch_encryption_keypairs" "id" row_id (eek_id self);;
    blob_write "mls_epoch_encryption_keypairs" "keypairs" row_id (eek_keypairs self);;
    pstep SCommit;; mret ()).

Definition MlsEpochEncryptionKeyPair_find_one (id : bytes) : prog (option MlsEpochEncryptionKeyPair) :=
  with_tx (
    maybe_rowid ← query_rowid "mls_epoch_encryption_keypairs" (WEq "id" (VBlob id));
    match maybe_rowid with
    | Some rowid =>
        id ← blob_read "mls_epoch_encryption_keypairs" "id" rowid true;
        keypairs ← blob_read "mls_epoch_encryption_keypairs" "keypairs" rowid true;
        mret (Some (MkMlsEpochEncryptionKeyPair id keypairs))
    | None => mret None
    end).

Definition MlsEpochEncryptionKeyPair_count : prog Z := pstep (SCount "mls_epoch_encryption_keypairs").

Definition MlsEpochEncryptionKeyPair_delete (ids : list bytes) : prog () :=
  delete_all_or_nothing MissingMlsEpochEncryptionKeyPair "mls_epoch_encryption_keypairs" "id" (fun id => Ok (VBlob id)) ids.

#[export] Instance MlsEpochEncryptionKeyPair_entity : EntityBase MlsEpochEncryptionKeyPair := {|
  AutoGeneratedFields := ();
  to_missing_key_err_kind := MissingMlsEpochEncryptionKeyPair;
  save := MlsEpochEncryptionKeyPair_save;
  insert_entity := default_insert;
  find_all := MlsEpochEncryptionKeyPair_find_all;
  find_one := MlsEpochEncryptionKeyPair_find_one;
  find_many := Some (default_find_many MlsEpochEncryptionKeyPair_find_one);
  count := MlsEpochEncryptionKeyPair_count;
  delete_ids := MlsEpochEncryptionKeyPair_delete;
|}.

(** ** Proofs *)

(** *** [MlsKeyPackage]: the table and its laws *)

Definition MlsKeyPackage_layout : layout MlsKeyPackage :=
  Layout "mls_keypackages" [("keypackage_ref", ColPlain); ("keypackage", ColPlain)]
    (fun x => [("keypackage_ref", VBlob (kp_keypackage_ref x)); ("keypackage", VBlob (kp_keypackage x))])
    (fun _ => True).

Definition MlsKeyPackage_fits (x : MlsKeyPackage) : bool :=
  is_ok (check_buffer_size (blen (kp_keypackage_ref x))) && is_ok (check_buffer_size (blen (kp_keypackage x))).

Lemma MlsKeyPackage_reads_row v :
  reads_row MlsKeyPackage_layout v (fun r => MlsKeyPackage_read r.1) [] id.
Proof. intros r [a b] rs1 rs2 rid Ha _. unfold MlsKeyPackage_read. cbn [select fst]. by do 2 sql_step. Qed.

(** Its [find_one] commits the transaction it only read in. *)
Lemma MlsKeyPackage_find_one_ok v l id :
  rep MlsKeyPackage_layout v l -> true = true ->
  run (MlsKeyPackage_find_one id) v =
  (Ok (Datatypes.id <$> first (fun x => bool_decide (kp_keypackage_ref x = id)) l), v).
Proof.
  intros (k & Hk & ->) _. unfold MlsKeyPackage_find_one, MlsKeyPackage_read.
  prove_find_one_commit MlsKeyPackage_layout "keypackage_ref" (VBlob id) kp_keypackage_ref sql_eq_blob.
Qed.

#[export] Program Instance MlsKeyPackage_laws : EntityLaws MlsKeyPackage := {|
  el_layout := MlsKeyPackage_layout;
  el_key := kp_keypackage_ref;
  el_stored := id;
  el_id_ok := fun _ => true;
|}.
Next Obligation. exact (MlsKeyPackage_find_one_ok). Qed.
Next Obligation. prove_find_all MlsKeyPackage_layout MlsKeyPackage_reads_row. Qed.
Next Obligation. intros v l Hl. exact (count_rep MlsKeyPackage_layout v l Hl). Qed.
Next Obligation. prove_delete MlsKeyPackage_layout. Qed.
Next Obligation.
  intros ? x. simpl. unfold MlsKeyPackage_save, query_rowid, blob_write. solve_atomic.
Qed.
Next Obligation.
  intros ? ids. simpl. unfold MlsKeyPackage_delete, delete_all_or_nothing. solve_atomic.
Qed.

#[export] Program Instance MlsKeyPackage_upsert : UpsertLaws MlsKeyPackage := {|
  ul_fits := MlsKeyPackage_fits;
|}.
Next Obligation.
  intros v l [a b] Hl Hf. simpl in *. unfold MlsKeyPackage_save, MlsKeyPackage_fits in *.
  prove_upsert MlsKeyPackage_layout "keypackage_ref" (VBlob a)
    (fun x => bool_decide (kp_keypackage_ref x = a)) (MkMlsKeyPackage a b).
Qed.
Next Obligation.
  intros v l [a b] Hl Hf. simpl in *. unfold MlsKeyPackage_save, MlsKeyPackage_fits in *. prove_too_big.
Qed.
Next Obligation. done. Qed.
Next Obligation. done. Qed.

(** *** [MlsPskBundle]: the table and its laws *)

Definition MlsPskBundle_layout : layout MlsPskBundle :=
  Layout "mls_psk_bundles" [("psk_id", ColPlain); ("psk", ColPlain)]
    (fun x => [("psk_id", VBlob (psk_psk_id x)); ("psk", VBlob (psk_psk x))])
    (fun _ => True).

Definition MlsPskBundle_fits (x : MlsPskBundle) : bool :=
  is_ok (check_buffer_size (blen (psk_psk_id x))) && is_ok (check_buffer_size (blen (psk_psk x))).

Lemma MlsPskBundle_reads_row v :
  reads_row MlsPskBundle_layout v (fun r => MlsPskBundle_read r.1) [] id.
Proof. intros r [a b] rs1 rs2 rid Ha _. unfold MlsPskBundle_read. cbn [select fst]. by do 2 sql_step. Qed.

#[export] Program Instance MlsPskBundle_laws : EntityLaws MlsPskBundle := {|
  el_layout := MlsPskBundle_layout;
  el_key := psk_psk_id;
  el_stored := id;
  el_id_ok := fun _ => true;
|}.
Next Obligation. cbn [find_one MlsPskBundle_entity]. unfold MlsPskBundle_find_one, MlsPskBundle_read. prove_find_one MlsPskBundle_layout "psk_id" psk_psk_id. Qed.
Next Obligation. prove_find_all MlsPskBundle_layout MlsPskBundle_reads_row. Qed.
Next Obligation. intros v l Hl. exact (count_rep MlsPskBundle_layout v l Hl). Qed.
Next Obligation. prove_delete MlsPskBundle_layout. Qed.
Next Obligation.
  intros ? x. simpl. unfold MlsPskBundle_save, query_rowid, blob_write. solve_atomic.
Qed.
Next Obligation.
  intros ? ids. simpl. unfold MlsPskBundle_delete, delete_all_or_nothing. solve_atomic.
Qed.

#[export] Program Instance MlsPskBundle_upsert : UpsertLaws MlsPskBundle := {|
  ul_fits := MlsPskBundle_fits;
|}.
Next Obligation.
  intros v l [a b] Hl Hf. simpl in *. unfold MlsPskBundle_save, MlsPskBundle_fits in *.
  prove_upsert MlsPskBundle_layout "psk_id" (VBlob a)
    (fun x => bool_decide (psk_psk_id x = a)) (MkMlsPskBundle a b).
Qed.
Next Obligation.
  intros v l [a b] Hl Hf. simpl in *. unfold MlsPskBundle_save, MlsPskBundle_fits in *. prove_too_big.
Qed.
Next Obligation. done. Qed.
Next Obligation. done. Qed.

(** *** [MlsHpkePrivateKey]: the table and its laws *)

Definition MlsHpkePrivateKey_layout : layout MlsHpkePrivateKey :=
  Layout "mls_hpke_private_keys" [("pk", ColPlain); ("sk", ColPlain)]
    (fun x => [("pk", VBlob (hpke_pk x)); ("sk", VBlob (hpke_sk x))])
    (fun _ => True).

Definition MlsHpkePrivateKey_fits (x : MlsHpkePrivateKey) : bool :=
  is_ok (check_buffer_size (blen (hpke_sk x))) && is_ok (check_buffer_size (blen (hpke_pk x))).

Lemma MlsHpkePrivateKey_reads_row v :
  reads_row MlsHpkePrivateKey_layout v (fun r => MlsHpkePrivateKey_read r.1) [] id.
Proof. intros r [a b] rs1 rs2 rid Ha _. unfold MlsHpkePrivateKey_read. cbn [select fst]. by do 2 sql_step. Qed.

#[export] Program Instance MlsHpkePrivateKey_laws : EntityLaws MlsHpkePrivateKey := {|
  el_layout := MlsHpkePrivateKey_layout;
  el_key := hpke_pk;
  el_stored := id;
  el_id_ok := fun _ => true;
|}.
Next Obligation. prove_find_one MlsHpkePrivateKey_layout "pk" hpke_pk. Qed.
Next Obligation. prove_find_all MlsHpkePrivateKey_layout MlsHpkePrivateKey_reads_row. Qed.
Next Obligation. intros v l Hl. exact (count_rep MlsHpkePrivateKey_layout v l Hl). Qed.
Next Obligation. prove_delete MlsHpkePrivateKey_layout. Qed.
Next Obligation.
  intros ? x. simpl. unfold MlsHpkePrivateKey_save, query_rowid, blob_write. solve_atomic.
Qed.
Next Obligation.
  intros ? ids. simpl. unfold MlsHpkePrivateKey_delete, delete_all_or_nothing. solve_atomic.
Qed.

#[export] Program Instance MlsHpkePrivateKey_upsert : UpsertLaws MlsHpkePrivateKey := {|
  ul_fits := MlsHpkePrivateKey_fits;
|}.
Next Obligation.
  intros v l [a b] Hl Hf. simpl in *. unfold MlsHpkePrivateKey_save, MlsHpkePrivateKey_fits in *.
  prove_upsert MlsHpkePrivateKey_layout "pk" (VBlob b)
    (fun x => bool_decide (hpke_pk x = b)) (MkMlsHpkePrivateKey a b).
Qed.
Next Obligation.
  intros v l [a b] Hl Hf. simpl in *. unfold MlsHpkePrivateKey_save, MlsHpkePrivateKey_fits in *. prove_too_big.
Qed.
Next Obligation. done. Qed.
Next Obligation. done. Qed.

(** *** [MlsEncryptionKeyPair]: the table and its laws *)

Definition MlsEncryptionKeyPair_layout : layout MlsEncryptionKeyPair :=
  Layout "mls_encryption_keypairs" [("pk", ColPlain); ("sk", ColPlain)]
    (fun x => [("pk", VBlob (ek_pk x)); ("sk", VBlob (ek_sk x))])
    (fun _ => True).

Definition MlsEncryptionKeyPair_fits (x : MlsEncryptionKeyPair) : bool :=
  is_ok (check_buffer_size (blen (ek_sk x))) && is_ok (check_buffer_size (blen (ek_pk x))).

Lemma MlsEncryptionKeyPair_reads_row v :
  reads_row MlsEncryptionKeyPair_layout v (fun r => MlsEncryptionKeyPair_read r.1) [] id.
Proof. intros r [a b] rs1 rs2 rid Ha _. unfold MlsEncryptionKeyPair_read. cbn [select fst]. by do 2 sql_step. Qed.

#[export] Program Instance MlsEncryptionKeyPair_laws : EntityLaws MlsEncryptionKeyPair := {|
  el_layout := MlsEncryptionKeyPair_layout;
  el_key := ek_pk;
  el_stored := id;
  el_id_ok := fun _ => true;
|}.
Next Obligation. prove_find_one MlsEncryptionKeyPair_layout "pk" ek_pk. Qed.
Next Obligation. prove_find_all MlsEncryptionKeyPair_layout MlsEncryptionKeyPair_reads_row. Qed.
Next Obligation. intros v l Hl. exact (count_rep MlsEncryptionKeyPair_layout v l Hl). Qed.
Next Obligation. prove_delete MlsEncryptionKeyPair_layout. Qed.
Next Obligation.
  intros ? x. simpl. unfold MlsEncryptionKeyPair_save, query_rowid, blob_write. solve_atomic.
Qed.
Next Obligation.
  intros ? ids. simpl. unfold MlsEncryptionKeyPair_delete, delete_all_or_nothing. solve_atomic.
Qed.

#[export] Program Instance MlsEncryptionKeyPair_upsert : UpsertLaws MlsEncryptionKeyPair := {|
  ul_fits := MlsEncryptionKeyPair_fits;
|}.
Next Obligation.
  intros v l [a b] Hl Hf. simpl in *. unfold MlsEncryptionKeyPair_save, MlsEncryptionKeyPair_fits in *.
  prove_upsert MlsEncryptionKeyPair_layout "pk" (VBlob b)
    (fun x => bool_decide (ek_pk x = b)) (MkMlsEncryptionKeyPair a b).
Qed.
Next Obligation.
  intros v l [a b] Hl Hf. simpl in *. unfold MlsEncryptionKeyPair_save, MlsEncryptionKeyPair_fits in *. prove_too_big.
Qed.
Next Obligation. done. Qed.
Next Obligation. done. Qed.

(** *** [MlsEpochEncryptionKeyPair]: the table and its laws *)

Definition MlsEpochEncryptionKeyPair_layout : layout MlsEpochEncryptionKeyPair :=
  Layout "mls_epoch_encryption_keypairs" [("id", ColPlain); ("keypairs", ColPlain)]
    (fun x => [("id", VBlob (eek_id x)); ("keypairs", VBlob (eek_keypairs x))])
    (fun _ => True).

Definition MlsEpochEncryptionKeyPair_fits (x : MlsEpochEncryptionKeyPair) : bool :=
  is_ok (check_buffer_size (blen (eek_id x))) && is_ok (check_buffer_size (blen (eek_keypairs x))).

Lemma MlsEpochEncryptionKeyPair_reads_row v :
  reads_row MlsEpochEncryptionKeyPair_layout v (fun r => MlsEpochEncryptionKeyPair_read r.1) [] id.
Proof. intros r [a b] rs1 rs2 rid Ha _. unfold MlsEpochEncryptionKeyPair_read. cbn [select fst]. by do 2 sql_step. Qed.

#[export] Program Instance MlsEpochEncryptionKeyPair_laws : EntityLaws MlsEpochEncryptionKeyPair := {|
  el_layout := MlsEpochEncryptionKeyPair_layout;
  el_key := eek_id;
  el_stored := id;
  el_id_ok := fun _ => true;
|}.
Next Obligation. prove_find_one MlsEpochEncryptionKeyPair_layout "id" eek_id. Qed.
Next Obligation. prove_find_all MlsEpochEncryptionKeyPair_layout MlsEpochEncryptionKeyPair_reads_row. Qed.
Next Obligation. intros v l Hl. exact (count_rep MlsEpochEncryptionKeyPair_layout v l Hl). Qed.
Next Obligation. prove_delete MlsEpochEncryptionKeyPair_layout. Qed.
Next Obligation.
  intros ? x. simpl. unfold MlsEpochEncryptionKeyPair_save, query_rowid, blob_write. solve_atomic.
Qed.
Next Obligation.
  intros ? ids. simpl. unfold MlsEpochEncryptionKeyPair_delete, delete_all_or_nothing. solve_atomic.
Qed.

#[export] Program Instance MlsEpochEncryptionKeyPair_upsert : UpsertLaws MlsEpochEncryptionKeyPair := {|
  ul_fits := MlsEpochEncryptionKeyPair_fits;
|}.
Next Obligation.
  intros v l [a b] Hl Hf. simpl in *. unfold MlsEpochEncryptionKeyPair_save, MlsEpochEncryptionKeyPair_fits in *.
  prove_upsert MlsEpochEncryptionKeyPair_layout "id" (VBlob a)
    (fun x => bool_decide (eek_id x = a)) (MkMlsEpochEncryptionKeyPair a b).
Qed.
Next Obligation.
  intros v l [a b] Hl Hf. simpl in *. unfold MlsEpochEncryptionKeyPair_save, MlsEpochEncryptionKeyPair_fits in *. prove_too_big.
Qed.
Next Obligation. done. Qed.
Next Obligation. done. Qed.
