(* ===== verification/MlsCredentials.v ===== *)
(** * Credentials and signature keypairs

    [keystore/src/entities/platform/generic/mls/credential.rs] and [signature_keypair.rs]: two
    tables whose [save] always inserts a row. *)

From Stdlib Require Import Sorting.Sorted.
From S2P Require Import Prelude KsError Sql SqlSpec Entity.
Open Scope Z_scope.

(** ** [MlsCredential] *)

Record MlsCredential := MkMlsCredential {
  cr_id : bytes; cr_credential : bytes; cr_created_at : Z }.

#[export] Instance MlsCredential_eq_dec : EqDecision MlsCredential.
Proof. solve_decision. Defined.

Definition MlsCredential_read (r : Z * list value) : prog MlsCredential :=
  created_at ← plift (get_uint u64_max (selected r));
  id ← blob_read "mls_credentials" "id" r.1 true;
  credential ← blob_read "mls_credentials" "credential" r.1 true;
  mret (MkMlsCredential id credential created_at).

Definition MlsCredential_find_all (params : EntityFindParams) : prog (list MlsCredential) :=
  with_tx (list_rows "mls_credentials" ["created_at"] WAll (EntityFindParams_to_sql params)
             MlsCredential_read).

(** The database sets [created_at] and returns it. *)
Definition MlsCredential_insert (self : MlsCredential) : prog Z :=
  plift (check_buffer_size (blen (cr_id self)));;
  plift (check_buffer_size (blen (cr_credential self)));;
  let zb_id := zeroblob (blen (cr_id self)) in
  let zb_cred := zeroblob (blen (cr_credential self)) in
  with_tx (
    created ← pstep (SInsertReturning "mls_credentials"
                       [("id", zb_id); ("credential", zb_cred)] "created_at");
    created_at ← plift (get_uint u64_max created);
    row_id ← pstep SLastRowid;
    blob_write "mls_credentials" "id" row_id (cr_id self);;
    blob_write "mls_credentials" "credential" row_id (cr_credential self);;
    pstep SCommit;; mret created_at).

Definition MlsCredential_save (self : MlsCredential) : prog () :=
  _ ← MlsCredential_insert self; mret ().

Definition MlsCredential_find_one (id : bytes) : prog (option MlsCredential) :=
  with_tx (
    maybe_rowid ← pstep (SQueryRow "mls_credentials" ["created_at"] (WEq "id" (VBlob id)) []);
    match maybe_rowid with
    | Some r =>
        created_at ← plift (get_uint u64_max (selected r));
        credential ← blob_read "mls_credentials" "credential" r.1 true;
        mret (Some (MkMlsCredential id credential created_at))
    | None => mret None
    end).

Definition MlsCredential_count : prog Z := pstep (SCount "mls_credentials").

Definition MlsCredential_delete (ids : list bytes) : prog () :=
  delete_all_or_nothing MissingMlsCredential "mls_credentials" "id" (fun id => Ok (VBlob id)) ids.

(** [MlsCredentialExt::delete_by_credential] *)
Definition MlsCredential_delete_by_credential (credential : bytes) : prog () :=
  with_tx (
    pstep (SDelete "mls_credentials" (WEq "credential" (VBlob credential)));;
    pstep SCommit;; mret ()).

#[export] Instance MlsCredential_entity : EntityBase MlsCredential := {|
  AutoGeneratedFields := Z;
  to_missing_key_err_kind := MissingMlsCredential;
  save := MlsCredential_save;
  insert_entity := MlsCredential_insert;
  find_all := MlsCredential_find_all;
  find_one := MlsCredential_find_one;
  find_many := Some (default_find_many MlsCredential_find_one);
  count := MlsCredential_count;
  delete_ids := MlsCredential_delete;
|}.

(** ** [MlsSignatureKeyPair] *)

Record MlsSignatureKeyPair := MkMlsSignatureKeyPair {
  sk_signature_scheme : Z; sk_pk : bytes; sk_keypair : bytes; sk_credential_id : bytes }.

#[export] Instance MlsSignatureKeyPair_eq_dec : EqDecision MlsSignatureKeyPair.
Proof. solve_decision. Defined.

Definition MlsSignatureKeyPair_read (r : Z * list value) : prog MlsSignatureKeyPair :=
  signature_scheme ← plift (get_uint u16_max (selected r));
  keypair ← blob_read "mls_signature_keypairs" "keypair" r.1 true;
  pk ← blob_read "mls_signature_keypairs" "pk" r.1 true;
  credential_id ← blob_read "mls_signature_keypairs" "credential_id" r.1 true;
  mret (MkMlsSignatureKeyPair signature_scheme pk keypair credential_id).

Definition MlsSignatureKeyPair_find_all (params : EntityFindParams) :
    prog (list MlsSignatureKeyPair) :=
  with_tx (list_rows "mls_signature_keypairs" ["signature_scheme"] WAll
             (EntityFindParams_to_sql params) MlsSignatureKeyPair_read).

Definition MlsSignatureKeyPair_insert (self : MlsSignatureKeyPair) : prog () :=
  plift (check_buffer_size (blen (sk_keypair self)));;
  plift (check_buffer_size (blen (sk_pk self)));;
  plift (check_buffer_size (blen (sk_credential_id self)));;
  let zb_pk := zeroblob (blen (sk_pk self)) in
  let zb_keypair := zeroblob (blen (sk_keypair self)) in
  let zb_cred := zeroblob (blen (sk_credential_id self)) in
  with_tx (
    pstep (SInsert "mls_signature_keypairs"
             [("signature_scheme", VInt (sk_signature_scheme self)); ("pk", zb_pk);
              ("keypair", zb_keypair); ("credential_id", zb_cred)]);;
    row_id ← pstep SLastRowid;
    blob_write "mls_signature_keypairs" "pk" row_id (sk_pk self);;
    blob_write "mls_signature_keypairs" "keypair" row_id (sk_keypair self);;
    blob_write "mls_signature_keypairs" "credential_id" row_id (sk_credential_id self);;
    pstep SCommit;; mret ()).

Definition MlsSignatureKeyPair_save (self : MlsSignatureKeyPair) : prog () :=
  _ ← MlsSignatureKeyPair_insert self; mret ().

Definition MlsSignatureKeyPair_find_one (id : bytes) : prog (option MlsSignatureKeyPair) :=
  with_tx (
    maybe_rowid ← pstep (SQueryRow "mls_signature_keypairs" ["signature_scheme"]
                           (WEq "pk" (VBlob id)) []);
    match maybe_rowid with
    | Some r =>
        signature_scheme ← plift (get_uint u16_max (selected r));
        pk ← blob_read "mls_signature_keypairs" "pk" r.1 true;
        keypair ← blob_read "mls_signature_keypairs" "keypair" r.1 true;
        credential_id ← blob_read "mls_signature_keypairs" "credential_id" r.1 true;
        mret (Some (MkMlsSignatureKeyPair signature_scheme pk keypair credential_id))
    | None => mret None
    end).

Definition MlsSignatureKeyPair_count : prog Z := pstep (SCount "mls_signature_keypairs").

Definition MlsSignatureKeyPair_delete (ids : list bytes) : prog () :=
  delete_all_or_nothing MissingMlsSignatureKeyPair "mls_signature_keypairs" "pk"
    (fun id => Ok (VBlob id)) ids.

#[export] Instance MlsSignatureKeyPair_entity : EntityBase MlsSignatureKeyPair := {|
  AutoGeneratedFields := ();
  to_missing_key_err_kind := MissingMlsSignatureKeyPair;
  save := MlsSignatureKeyPair_save;
  insert_entity := MlsSignatureKeyPair_insert;
  find_all := MlsSignatureKeyPair_find_all;
  find_one := MlsSignatureKeyPair_find_one;
  find_many := Some (default_find_many MlsSignatureKeyPair_find_one);
  count := MlsSignatureKeyPair_count;
  delete_ids := MlsSignatureKeyPair_delete;
|}.

(** ** The tables and their laws *)

Definition MlsCredential_layout : layout MlsCredential :=
  Layout "mls_credentials" [("id", ColPlain); ("credential", ColPlain); ("created_at", ColNow)]
    (fun c => [("id", VBlob (cr_id c)); ("credential", VBlob (cr_credential c));
               ("created_at", VInt (cr_created_at c))])
    (fun c => 0 <= cr_created_at c <= u64_max).

Definition MlsSignatureKeyPair_layout : layout MlsSignatureKeyPair :=
  Layout "mls_signature_keypairs"
    [("signature_scheme", ColPlain); ("keypair", ColPlain); ("pk", ColPlain);
     ("credential_id", ColPlain)]
    (fun s => [("signature_scheme", VInt (sk_signature_scheme s)); ("keypair", VBlob (sk_keypair s));
               ("pk", VBlob (sk_pk s)); ("credential_id", VBlob (sk_credential_id s))])
    (fun s => 0 <= sk_signature_scheme s <= u16_max).

Lemma get_uint_ok max z : 0 <= z <= max -> get_uint max (VInt z) = Ok z.
Proof.
  intros [H1 H2]. unfold get_uint. apply Z.leb_le in H1, H2. by rewrite H1, H2.
Qed.

Lemma MlsCredential_reads_row v :
  reads_row MlsCredential_layout v MlsCredential_read ["created_at"] id.
Proof.
  intros r [a b n] rs1 rs2 rid Ha Hok. unfold MlsCredential_read.
  cbn [select fst]. change (selected _) with (VInt n). rewrite get_uint_ok by done. by do 3 sql_step.
Qed.

Lemma MlsSignatureKeyPair_reads_row v :
  reads_row MlsSignatureKeyPair_layout v MlsSignatureKeyPair_read ["signature_scheme"] id.
Proof.
  intros r [a b n m] rs1 rs2 rid Ha Hok. unfold MlsSignatureKeyPair_read.
  cbn [select fst]. change (selected _) with (VInt a). rewrite get_uint_ok by done. by do 4 sql_step.
Qed.

Definition MlsCredential_fits (c : MlsCredential) : bool :=
  is_ok (check_buffer_size (blen (cr_id c))) && is_ok (check_buffer_size (blen (cr_credential c))).

Definition MlsSignatureKeyPair_fits (s : MlsSignatureKeyPair) : bool :=
  is_ok (check_buffer_size (blen (sk_keypair s))) && is_ok (check_buffer_size (blen (sk_pk s)))
  && is_ok (check_buffer_size (blen (sk_credential_id s))).

(** [insert] gives the credential the time of the database, whatever its [created_at] says. *)
Lemma MlsCredential_insert_ok v l c :
  rep MlsCredential_layout v l -> MlsCredential_fits c = true -> 0 <= v_now v <= u64_max ->
  exists v', run (MlsCredential_insert c) v = (Ok (v_now v), v') /\
    becomes MlsCredential_layout v v'
      (l ++ [MkMlsCredential (cr_id c) (cr_credential c) (v_now v)]).
Proof.
  destruct c as [a b n]. intros (k & Hk & ->) Hf Hnow. pose proof Hk as (_ & _ & Hs).
  unfold MlsCredential_insert, MlsCredential_fits in *.
  cbn [cr_id cr_credential] in *. split_sizes. drop_checks.
  cbv zeta. pose proof (around_append MlsCredential_layout k) as Ha.
  eexists. split; [|by apply append_becomes].
  eapply run_with_tx_commit; [exact Hk| |done]. unfold tvk. sql_step.
  change (row_get "created_at" _) with (VInt (v_now v)). rewrite get_uint_ok by done.
  by do 5 sql_step.
Qed.

Lemma MlsSignatureKeyPair_insert_ok v l s :
  rep MlsSignatureKeyPair_layout v l -> MlsSignatureKeyPair_fits s = true ->
  0 <= sk_signature_scheme s <= u16_max ->
  exists v', run (MlsSignatureKeyPair_insert s) v = (Ok (), v') /\
    becomes MlsSignatureKeyPair_layout v v' (l ++ [s]).
Proof.
  destruct s as [sch pk kp cid]. intros (k & Hk & ->) Hf Hsch. pose proof Hk as (_ & _ & Hs).
  unfold MlsSignatureKeyPair_insert, MlsSignatureKeyPair_fits in *.
  cbn [sk_signature_scheme sk_pk sk_keypair sk_credential_id] in *. split_sizes.
  drop_checks. cbv zeta. pose proof (around_append MlsSignatureKeyPair_layout k) as Ha.
  eexists. split; [|by apply append_becomes].
  eapply run_with_tx_commit; [exact Hk| |done]. unfold tvk. by do 6 sql_step.
Qed.

(** Deleting by credential takes every row with it, and none is not an error. *)
Lemma MlsCredential_delete_by_credential_ok v l c :
  rep MlsCredential_layout v l ->
  exists v', run (MlsCredential_delete_by_credential c) v = (Ok (), v') /\
    becomes MlsCredential_layout v v'
      (List.filter (fun x => negb (bool_decide (cr_credential x = c))) l).
Proof.
  intros (k & Hk & ->). pose proof Hk as (_ & _ & Hs).
  rewrite <-(snd_filter (fun x => negb (bool_decide (cr_credential x = c)))).
  assert (forall e, sql_eq (row_get "credential" (ly_row MlsCredential_layout e)) (VBlob c) =
    bool_decide (cr_credential e = c)) as Hp by (intros e; apply sql_eq_blob).
  eexists. split; [|apply (becomes_done MlsCredential_layout); 
    exact (good_rows_delete MlsCredential_layout _ _ _ _ Hp Hs)].
  eapply run_with_tx_commit; [exact Hk| |done]. unfold tvk.
  erewrite run_bind_ok by apply delete_tv.
  rewrite (filter_put MlsCredential_layout _ _ _ _ Hp). by sql_step.
Qed.

#[export] Program Instance MlsCredential_laws : EntityLaws MlsCredential := {|
  el_layout := MlsCredential_layout;
  el_key := cr_id;
  el_stored := id;
  el_id_ok := fun _ => true;
|}.
Next Obligation.
  prove_find_one_cols MlsCredential_layout ["created_at"] "id" cr_id.
  intros r [a b n] rs1 rs2 rid Ha Hok <-%bool_decide_eq_true. cbn [select fst].
  change (selected _) with (VInt n). rewrite get_uint_ok by done. by do 2 sql_step.
Qed.
Next Obligation.
  intros v l (k & Hk & ->). pose proof Hk as (_ & _ & Hs).
  eapply run_with_tx_look; [exact Hk| |reflexivity].
  exact (list_all_body MlsCredential_layout v _ _ _ [OrderByRowid false] k _
    (MlsCredential_reads_row v) Hs).
Qed.
Next Obligation. intros v l Hl. exact (count_rep MlsCredential_layout v l Hl). Qed.
Next Obligation. prove_delete MlsCredential_layout. Qed.
Next Obligation.
  intros ? x. simpl. unfold MlsCredential_save, MlsCredential_insert, blob_write.
  apply atomic_then_ret. solve_atomic.
Qed.
Next Obligation.
  intros ? ids. simpl. unfold MlsCredential_delete, delete_all_or_nothing. solve_atomic.
Qed.

#[export] Program Instance MlsSignatureKeyPair_laws : EntityLaws MlsSignatureKeyPair := {|
  el_layout := MlsSignatureKeyPair_layout;
  el_key := sk_pk;
  el_stored := id;
  el_id_ok := fun _ => true;
|}.
Next Obligation.
  prove_find_one_cols MlsSignatureKeyPair_layout ["signature_scheme"] "pk" sk_pk.
  intros r [a b n m] rs1 rs2 rid Ha Hok _. cbn [select fst].
  change (selected _) with (VInt a). rewrite get_uint_ok by done. by do 4 sql_step.
Qed.
Next Obligation.
  intros v l (k & Hk & ->). pose proof Hk as (_ & _ & Hs).
  eapply run_with_tx_look; [exact Hk| |reflexivity].
  exact (list_all_body MlsSignatureKeyPair_layout v _ _ _ [OrderByRowid false] k _
    (MlsSignatureKeyPair_reads_row v) Hs).
Qed.
Next Obligation. intros v l Hl. exact (count_rep MlsSignatureKeyPair_layout v l Hl). Qed.
Next Obligation. prove_delete MlsSignatureKeyPair_layout. Qed.
Next Obligation.
  intros ? x. simpl. unfold MlsSignatureKeyPair_save, MlsSignatureKeyPair_insert, blob_write.
  apply atomic_then_ret. solve_atomic.
Qed.
Next Obligation.
  intros ? ids. simpl. unfold MlsSignatureKeyPair_delete, delete_all_or_nothing. solve_atomic.
Qed.
