(* ===== verification/E2eiEntities.v ===== *)
(** * Entities of end-to-end identity

    [keystore/src/entities/platform/generic/mls/]: [enrollment.rs], [e2ei_crl.rs],
    [e2ei_intermediate_cert.rs], and the two tables of at most one row, [refresh_token.rs] and
    [e2ei_acme_ca.rs] ([UniqueEntity] of [keystore/src/entities/mls.rs]). *)

From Stdlib Require Import Sorting.Sorted.
From S2P Require Import Prelude KsError Sql SqlSpec Entity.
Open Scope Z_scope.

(** ** [E2eiEnrollment] *)

Record E2eiEnrollment := MkE2eiEnrollment { en_id : bytes; en_content : bytes }.

#[export] Instance E2eiEnrollment_eq_dec : EqDecision E2eiEnrollment.
Proof. solve_decision. Defined.

Definition E2eiEnrollment_read (r : Z * list value) : prog E2eiEnrollment :=
  id ← plift (get_blob (selected r));
  content ← blob_read "e2ei_enrollment" "content" r.1 false;
  mret (MkE2eiEnrollment id content).

Definition E2eiEnrollment_find_all (params : EntityFindParams) : prog (list E2eiEnrollment) :=
  with_tx (list_rows "e2ei_enrollment" ["id"] WAll (EntityFindParams_to_sql params)
             E2eiEnrollment_read).

Definition E2eiEnrollment_save (self : E2eiEnrollment) : prog () :=
  plift (check_buffer_size (blen (en_content self)));;
  with_tx (
    existing_rowid ← query_rowid "e2ei_enrollment" (WEq "id" (VBlob (en_id self)));
    match existing_rowid with
    | Some _ => pfail AlreadyExists
    | None =>
        let zb := zeroblob (blen (en_content self)) in
        pstep (SInsert "e2ei_enrollment" [("id", VBlob (en_id self)); ("content", zb)]);;
        row_id ← pstep SLastRowid;
        blob_write "e2ei_enrollment" "content" row_id (en_content self);;
        pstep SCommit;; mret ()
    end).

Definition E2eiEnrollment_find_one (id : bytes) : prog (option E2eiEnrollment) :=
  with_tx (
    row_id ← query_rowid "e2ei_enrollment" (WEq "id" (VBlob id));
    match row_id with
    | Some rowid =>
        buf ← blob_read "e2ei_enrollment" "content" rowid true;
        pstep SCommit;;
        mret (Some (MkE2eiEnrollment id buf))
    | None => mret None
    end).

Definition E2eiEnrollment_count : prog Z := pstep (SCount "e2ei_enrollment").

Definition E2eiEnrollment_delete (ids : list bytes) : prog () :=
  delete_all_or_nothing MissingE2eiEnrollment "e2ei_enrollment" "id" (fun id => Ok (VBlob id)) ids.

#[export] Instance E2eiEnrollment_entity : EntityBase E2eiEnrollment := {|
  AutoGeneratedFields := ();
  to_missing_key_err_kind := MissingE2eiEnrollment;
  save := E2eiEnrollment_save;
  insert_entity := default_insert;
  find_all := E2eiEnrollment_find_all;
  find_one := E2eiEnrollment_find_one;
  find_many := Some (default_find_many E2eiEnrollment_find_one);
  count := E2eiEnrollment_count;
  delete_ids := E2eiEnrollment_delete;
|}.

(** ** Text keys

    [TryInto<String> for &StringEntityId] and [StringEntityId::try_as_str]. *)

Definition StringEntityId_try_into (id : bytes) : KsResult bytes :=
  if utf8_valid id then Ok id else Err FromUtf8Error.

Definition StringEntityId_try_as_str (id : bytes) : KsResult bytes :=
  if utf8_valid id then Ok id else Err KeyReprError.

(** ** [E2eiCrl] *)

Record E2eiCrl := MkE2eiCrl { crl_distribution_point : bytes; crl_content : bytes }.

#[export] Instance E2eiCrl_eq_dec : EqDecision E2eiCrl.
Proof. solve_decision. Defined.

Definition E2eiCrl_read (r : Z * list value) : prog E2eiCrl :=
  distribution_point ← plift (get_text (selected r));
  content ← blob_read "e2ei_crls" "content" r.1 false;
  mret (MkE2eiCrl distribution_point content).

Definition E2eiCrl_find_all (params : EntityFindParams) : prog (list E2eiCrl) :=
  with_tx (list_rows "e2ei_crls" ["distribution_point"] WAll (EntityFindParams_to_sql params)
             E2eiCrl_read).

Definition E2eiCrl_save (self : E2eiCrl) : prog () :=
  plift (check_buffer_size (blen (crl_content self)));;
  with_tx (
    existing_rowid ← query_rowid "e2ei_crls" (WEq "distribution_point" (VText (crl_distribution_point self)));
    let zb := zeroblob (blen (crl_content self)) in
    row_id ← match existing_rowid with
      | Some row_id =>
          pstep (SUpdate "e2ei_crls"
                   [("distribution_point", VText (crl_distribution_point self)); ("content", zb)] (WRowid row_id));;
          mret row_id
      | None =>
          pstep (SInsert "e2ei_crls" [("distribution_point", VText (crl_distribution_point self)); ("content", zb)]);;
          pstep SLastRowid
      end;
    blob_write "e2ei_crls" "content" row_id (crl_content self);;
    pstep SCommit;; mret ()).

Definition E2eiCrl_find_one (id : bytes) : prog (option E2eiCrl) :=
  with_tx (
    distribution_point ← plift (StringEntityId_try_into id);
    row_id ← query_rowid "e2ei_crls" (WEq "distribution_point" (VText distribution_point));
    match row_id with
    | Some rowid =>
        buf ← blob_read "e2ei_crls" "content" rowid true;
        pstep SCommit;;
        mret (Some (MkE2eiCrl distribution_point buf))
    | None => mret None
    end).

Definition E2eiCrl_count : prog Z := pstep (SCount "e2ei_crls").

Definition E2eiCrl_delete (ids : list bytes) : prog () :=
  delete_all_or_nothing MissingE2eiCrl "e2ei_crls" "distribution_point"
    (fun id => VText <$> StringEntityId_try_as_str id) ids.

#[export] Instance E2eiCrl_entity : EntityBase E2eiCrl := {|
  AutoGeneratedFields := ();
  to_missing_key_err_kind := MissingE2eiCrl;
  save := E2eiCrl_save;
  insert_entity := default_insert;
  find_all := E2eiCrl_find_all;
  find_one := E2eiCrl_find_one;
  find_many := Some (default_find_many E2eiCrl_find_one);
  count := E2eiCrl_count;
  delete_ids := E2eiCrl_delete;
|}.

(** ** [E2eiIntermediateCert] *)

Record E2eiIntermediateCert := MkE2eiIntermediateCert { ic_ski_aki_pair : bytes; ic_content : bytes }.

#[export] Instance E2eiIntermediateCert_eq_dec : EqDecision E2eiIntermediateCert.
Proof. solve_decision. Defined.

Definition E2eiIntermediateCert_read (r : Z * list value) : prog E2eiIntermediateCert :=
  ski_aki_pair ← plift (get_text (selected r));
  content ← blob_read "e2ei_intermediate_certs" "content" r.1 false;
  mret (MkE2eiIntermediateCert ski_aki_pair content).

Definition E2eiIntermediateCert_find_all (params : EntityFindParams) : prog (list E2eiIntermediateCert) :=
  with_tx (list_rows "e2ei_intermediate_certs" ["ski_aki_pair"] WAll (EntityFindParams_to_sql params)
             E2eiIntermediateCert_read).

Definition E2eiIntermediateCert_save (self : E2eiIntermediateCert) : prog () :=
  plift (check_buffer_size (blen (ic_content self)));;
  with_tx (
    existing_rowid ← query_rowid "e2ei_intermediate_certs" (WEq "ski_aki_pair" (VText (ic_ski_aki_pair self)));
    let zb := zeroblob (blen (ic_content self)) in
    row_id ← match existing_rowid with
      | Some row_id =>
          pstep (SUpdate "e2ei_intermediate_certs"
                   [("ski_aki_pair", VText (ic_ski_aki_pair self)); ("content", zb)] (WRowid row_id));;
          mret row_id
      | None =>
          pstep (SInsert "e2ei_intermediate_certs" [("ski_aki_pair", VText (ic_ski_aki_pair self)); ("content", zb)]);;
          pstep SLastRowid
      end;
    blob_write "e2ei_intermediate_certs" "content" row_id (ic_content self);;
    pstep SCommit;; mret ()).

Definition E2eiIntermediateCert_find_one (id : bytes) : prog (option E2eiIntermediateCert) :=
  with_tx (
    ski_aki_pair ← plift (StringEntityId_try_into id);
    row_id ← query_rowid "e2ei_intermediate_certs" (WEq "ski_aki_pair" (VText ski_aki_pair));
    match row_id with
    | Some rowid =>
        buf ← blob_read "e2ei_intermediate_certs" "content" rowid true;
        pstep SCommit;;
        mret (Some (MkE2eiIntermediateCert ski_aki_pair buf))
    | None => mret None
    end).

Definition E2eiIntermediateCert_count : prog Z := pstep (SCount "e2ei_intermediate_certs").

Definition E2eiIntermediateCert_delete (ids : list bytes) : prog () :=
  delete_all_or_nothing MissingE2eiIntermediateCert "e2ei_intermediate_certs" "ski_aki_pair"
    (fun id => VText <$> StringEntityId_try_as_str id) ids.

#[export] Instance E2eiIntermediateCert_entity : EntityBase E2eiIntermediateCert := {|
  AutoGeneratedFields := ();
  to_missing_key_err_kind := MissingE2eiIntermediateCert;
  save := E2eiIntermediateCert_save;
  insert_entity := default_insert;
  find_all := E2eiIntermediateCert_find_all;
  find_one := E2eiIntermediateCert_find_one;
  find_many := Some (default_find_many E2eiIntermediateCert_find_one);
  count := E2eiIntermediateCert_count;
  delete_ids := E2eiIntermediateCert_delete;
|}.

(** ** [E2eiAcmeCA]: at most one row, with id 0 *)

Record E2eiAcmeCA := MkE2eiAcmeCA { aca_content : bytes }.

#[export] Instance E2eiAcmeCA_eq_dec : EqDecision E2eiAcmeCA.
Proof. solve_decision. Defined.

Definition E2eiAcmeCA_find_unique : prog E2eiAcmeCA :=
  with_tx (
    maybe_content ← pstep (SQueryRow "e2ei_acme_ca" ["content"] (WEq "id" (VInt 0)) []);
    match maybe_content with
    | Some r => content ← plift (get_blob (selected r)); mret (MkE2eiAcmeCA content)
    | None => pfail KsNotFound
    end).

Definition E2eiAcmeCA_replace (self : E2eiAcmeCA) : prog () :=
  plift (check_buffer_size (blen (aca_content self)));;
  let zb_content := zeroblob (blen (aca_content self)) in
  with_tx (
    pstep (SInsert "e2ei_acme_ca" [("id", VInt 0); ("content", zb_content)]);;
    row_id ← pstep SLastRowid;
    blob_write "e2ei_acme_ca" "content" row_id (aca_content self);;
    pstep SCommit;; mret ()).

#[export] Instance E2eiAcmeCA_entity : EntityBase E2eiAcmeCA := {|
  AutoGeneratedFields := ();
  to_missing_key_err_kind := MissingE2eiAcmeCA;
  save := fun _ => pfail NotImplemented;
  insert_entity := default_insert;
  find_all := fun _ => pfail NotImplemented;
  find_one := fun _ => pfail NotImplemented;
  find_many := Some (default_find_many (fun _ => pfail NotImplemented));
  count := pfail NotImplemented;
  delete_ids := fun _ => pfail NotImplemented;
|}.

(** ** [E2eiRefreshToken]: at most one row, with id 0 *)

Record E2eiRefreshToken := MkE2eiRefreshToken { rt_content : bytes }.

#[export] Instance E2eiRefreshToken_eq_dec : EqDecision E2eiRefreshToken.
Proof. solve_decision. Defined.

Definition E2eiRefreshToken_find_unique : prog E2eiRefreshToken :=
  with_tx (
    maybe_content ← pstep (SQueryRow "e2ei_refresh_token" ["content"] (WEq "id" (VInt 0)) []);
    match maybe_content with
    | Some r => content ← plift (get_blob (selected r)); mret (MkE2eiRefreshToken content)
    | None => pfail KsNotFound
    end).

Definition E2eiRefreshToken_replace (self : E2eiRefreshToken) : prog () :=
  plift (check_buffer_size (blen (rt_content self)));;
  let zb_content := zeroblob (blen (rt_content self)) in
  with_tx (
    pstep (SInsertOrReplace "e2ei_refresh_token" [("id", VInt 0); ("content", zb_content)]);;
    row_id ← pstep SLastRowid;
    blob_write "e2ei_refresh_token" "content" row_id (rt_content self);;
    pstep SCommit;; mret ()).

#[export] Instance E2eiRefreshToken_entity : EntityBase E2eiRefreshToken := {|
  AutoGeneratedFields := ();
  to_missing_key_err_kind := MissingE2eiRefreshToken;
  save := fun _ => pfail NotImplemented;
  insert_entity := default_insert;
  find_all := fun _ => pfail NotImplemented;
  find_one := fun _ => pfail NotImplemented;
  find_many := Some (default_find_many (fun _ => pfail NotImplemented));
  count := pfail NotImplemented;
  delete_ids := fun _ => pfail NotImplemented;
|}.

(** ** Proofs *)

(** The unique column of two rows is the same; the key of a new row is none of the table. *)
Ltac unique_same :=
  let c := fresh in let H := fresh in
  intros c H; simpl in H; repeat (apply elem_of_cons in H as [H|H]; [by simplify_eq|]);
  by apply not_elem_of_nil in H.

Ltac unique_new Hnone Hrw :=
  let c := fresh in let p := fresh in let H := fresh in let Hp := fresh in
  intros c p H Hp; simpl in H;
  repeat (apply elem_of_cons in H as [H|H]; [simplify_eq|]);
  [|by apply not_elem_of_nil in H..];
  apply list_elem_of_fmap in Hp as ([r0 e0] & -> & Hin0);
  rewrite first_None in Hnone;
  assert (e0 ∈ snd <$> _) as Hin1 by (apply list_elem_of_fmap; by exists (r0, e0));
  specialize (Hnone e0 Hin1); apply bool_decide_eq_false in Hnone;
  rewrite Hrw; cbn; congruence.

(** *** [E2eiCrl]: the table and its laws *)

Definition E2eiCrl_layout : layout E2eiCrl :=
  Layout "e2ei_crls" [("distribution_point", ColUnique); ("content", ColPlain)]
    (fun x => [("distribution_point", VText (crl_distribution_point x)); ("content", VBlob (crl_content x))])
    (fun _ => True).

Definition E2eiCrl_fits (x : E2eiCrl) : bool :=
  is_ok (check_buffer_size (blen (crl_content x))).

Lemma E2eiCrl_reads_row v :
  reads_row E2eiCrl_layout v E2eiCrl_read ["distribution_point"] id.
Proof.
  intros r [a b] rs1 rs2 rid Ha _. unfold E2eiCrl_read.
  change (get_text _) with (@Ok CryptoKeystoreError bytes a). by do 2 sql_step.
Qed.

Lemma E2eiCrl_find_one_ok v l id :
  rep E2eiCrl_layout v l -> utf8_valid id = true ->
  run (E2eiCrl_find_one id) v =
  (Ok (Datatypes.id <$> first (fun x => bool_decide (crl_distribution_point x = id)) l), v).
Proof.
  intros (k & Hk & ->) Hid. unfold E2eiCrl_find_one, StringEntityId_try_into.
  rewrite Hid. change (plift (Ok id) ≫= ?f) with (f id). cbv beta.
  prove_find_one_commit E2eiCrl_layout "distribution_point" (VText id) crl_distribution_point sql_eq_text.
Qed.

(** A key that is not UTF-8 is refused. *)
Lemma E2eiCrl_find_one_not_utf8 v l id :
  rep E2eiCrl_layout v l -> utf8_valid id = false ->
  run (E2eiCrl_find_one id) v = (Err FromUtf8Error, v).
Proof.
  intros Hl Hid. unfold E2eiCrl_find_one, StringEntityId_try_into. rewrite Hid.
  by eapply run_with_tx_fail.
Qed.

#[export] Program Instance E2eiCrl_laws : EntityLaws E2eiCrl := {|
  el_layout := E2eiCrl_layout;
  el_key := crl_distribution_point;
  el_stored := id;
  el_id_ok := utf8_valid;
|}.
Next Obligation. exact E2eiCrl_find_one_ok. Qed.
Next Obligation. prove_find_all E2eiCrl_layout E2eiCrl_reads_row. Qed.
Next Obligation. intros v l Hl. exact (count_rep E2eiCrl_layout v l Hl). Qed.
Next Obligation.
  intros v l ids Hl Hids. apply (delete_all_or_nothing_spec E2eiCrl_layout v _ _ _ (fun id => VText id)).
  - intros id Hin. unfold StringEntityId_try_as_str. by rewrite (Hids id Hin).
  - intros e id _. apply sql_eq_text.
  - done.
Qed.
Next Obligation.
  intros ? x. simpl. unfold E2eiCrl_save, query_rowid, blob_write. solve_atomic.
Qed.
Next Obligation.
  intros ? ids. simpl. unfold E2eiCrl_delete, delete_all_or_nothing. solve_atomic.
Qed.

#[export] Program Instance E2eiCrl_upsert : UpsertLaws E2eiCrl := {|
  ul_fits := E2eiCrl_fits;
|}.
Next Obligation.
  intros v l [a b] (k & Hk & ->) Hf. pose proof Hk as (_ & _ & _ & _ & _ & Hu).
  simpl in Hf. unfold E2eiCrl_fits in Hf. cbn [crl_content] in Hf.
  cbn [save E2eiCrl_entity]. unfold E2eiCrl_save. cbn [crl_distribution_point crl_content]. split_sizes. drop_checks. cbv zeta.
  eapply (upsert_tx E2eiCrl_layout v "distribution_point" (VText a)
    (fun x => bool_decide (crl_distribution_point x = a)) (MkE2eiCrl a b)); [exact Hk|intros e; apply sql_eq_text|done| |].
  - intros k1 r [a' b'] k2 rid0 -> He Ha. apply bool_decide_eq_true in He. simpl in He. subst a'.
    rewrite fmap_app, fmap_cons in Hu. split; [eapply unique_ok_exchange, Hu; unique_same|].
    edestruct update_rowid_tv as [n Hn]; [exact Ha| |
      eexists; rewrite prog_bind_assoc, (run_bind_ok _ _ _ _ _ Hn)].
    { eapply unique_ok_exchange, Hu. unique_same. }
    repeat sql_step; reflexivity.
  - intros rid0 Hnone Ha.
    assert (forall rw, row_get "distribution_point" rw = VText a ->
      unique_ok (ly_cols E2eiCrl_layout)
        ((put E2eiCrl_layout <$> k) ++ [(next_rowid (put E2eiCrl_layout <$> k), rw)]) = true) as Hadd.
    { intros rw Hrw. apply unique_ok_append, Hu. unique_new Hnone Hrw. }
    split; [by apply Hadd|]. eexists. rewrite prog_bind_assoc.
    erewrite run_bind_ok by (apply insert_tv; [done|apply rowid_free_next|by apply Hadd]).
    repeat sql_step; reflexivity.
Qed.
Next Obligation.
  intros v l [a b] Hl Hf. simpl in Hf. unfold E2eiCrl_fits in Hf. cbn [crl_content] in Hf.
  cbn [save E2eiCrl_entity]. unfold E2eiCrl_save. cbn [crl_content]. prove_too_big.
Qed.
Next Obligation. done. Qed.
Next Obligation. done. Qed.

(** *** [E2eiIntermediateCert]: the table and its laws *)

Definition E2eiIntermediateCert_layout : layout E2eiIntermediateCert :=
  Layout "e2ei_intermediate_certs" [("ski_aki_pair", ColUnique); ("content", ColPlain)]
    (fun x => [("ski_aki_pair", VText (ic_ski_aki_pair x)); ("content", VBlob (ic_content x))])
    (fun _ => True).

Definition E2eiIntermediateCert_fits (x : E2eiIntermediateCert) : bool :=
  is_ok (check_buffer_size (blen (ic_content x))).

Lemma E2eiIntermediateCert_reads_row v :
  reads_row E2eiIntermediateCert_layout v E2eiIntermediateCert_read ["ski_aki_pair"] id.
Proof.
  intros r [a b] rs1 rs2 rid Ha _. unfold E2eiIntermediateCert_read.
  change (get_text _) with (@Ok CryptoKeystoreError bytes a). by do 2 sql_step.
Qed.

Lemma E2eiIntermediateCert_find_one_ok v l id :
  rep E2eiIntermediateCert_layout v l -> utf8_valid id = true ->
  run (E2eiIntermediateCert_find_one id) v =
  (Ok (Datatypes.id <$> first (fun x => bool_decide (ic_ski_aki_pair x = id)) l), v).
Proof.
  intros (k & Hk & ->) Hid. unfold E2eiIntermediateCert_find_one, StringEntityId_try_into.
  rewrite Hid. change (plift (Ok id) ≫= ?f) with (f id). cbv beta.
  prove_find_one_commit E2eiIntermediateCert_layout "ski_aki_pair" (VText id) ic_ski_aki_pair sql_eq_text.
Qed.

(** A key that is not UTF-8 is refused. *)
Lemma E2eiIntermediateCert_find_one_not_utf8 v l id :
  rep E2eiIntermediateCert_layout v l -> utf8_valid id = false ->
  run (E2eiIntermediateCert_find_one id) v = (Err FromUtf8Error, v).
Proof.
  intros Hl Hid. unfold E2eiIntermediateCert_find_one, StringEntityId_try_into. rewrite Hid.
  by eapply run_with_tx_fail.
Qed.

#[export] Program Instance E2eiIntermediateCert_laws : EntityLaws E2eiIntermediateCert := {|
  el_layout := E2eiIntermediateCert_layout;
  el_key := ic_ski_aki_pair;
  el_stored := id;
  el_id_ok := utf8_valid;
|}.
Next Obligation. exact E2eiIntermediateCert_find_one_ok. Qed.
Next Obligation. prove_find_all E2eiIntermediateCert_layout E2eiIntermediateCert_reads_row. Qed.
Next Obligation. intros v l Hl. exact (count_rep E2eiIntermediateCert_layout v l Hl). Qed.
Next Obligation.
  intros v l ids Hl Hids. apply (delete_all_or_nothing_spec E2eiIntermediateCert_layout v _ _ _ (fun id => VText id)).
  - intros id Hin. unfold StringEntityId_try_as_str. by rewrite (Hids id Hin).
  - intros e id _. apply sql_eq_text.
  - done.
Qed.
Next Obligation.
  intros ? x. simpl. unfold E2eiIntermediateCert_save, query_rowid, blob_write. solve_atomic.
Qed.
Next Obligation.
  intros ? ids. simpl. unfold E2eiIntermediateCert_delete, delete_all_or_nothing. solve_atomic.
Qed.

#[export] Program Instance E2eiIntermediateCert_upsert : UpsertLaws E2eiIntermediateCert := {|
  ul_fits := E2eiIntermediateCert_fits;
|}.
Next Obligation.
  intros v l [a b] (k & Hk & ->) Hf. pose proof Hk as (_ & _ & _ & _ & _ & Hu).
  simpl in Hf. unfold E2eiIntermediateCert_fits in Hf. cbn [ic_content] in Hf.
  cbn [save E2eiIntermediateCert_entity]. unfold E2eiIntermediateCert_save. cbn [ic_ski_aki_pair ic_content]. split_sizes. drop_checks. cbv zeta.
  eapply (upsert_tx E2eiIntermediateCert_layout v "ski_aki_pair" (VText a)
    (fun x => bool_decide (ic_ski_aki_pair x = a)) (MkE2eiIntermediateCert a b)); [exact Hk|intros e; apply sql_eq_text|done| |].
  - intros k1 r [a' b'] k2 rid0 -> He Ha. apply bool_decide_eq_true in He. simpl in He. subst a'.
    rewrite fmap_app, fmap_cons in Hu. split; [eapply unique_ok_exchange, Hu; unique_same|].
    edestruct update_rowid_tv as [n Hn]; [exact Ha| |
      eexists; rewrite prog_bind_assoc, (run_bind_ok _ _ _ _ _ Hn)].
    { eapply unique_ok_exchange, Hu. unique_same. }
    repeat sql_step; reflexivity.
  - intros rid0 Hnone Ha.
    assert (forall rw, row_get "ski_aki_pair" rw = VText a ->
      unique_ok (ly_cols E2eiIntermediateCert_layout)
        ((put E2eiIntermediateCert_layout <$> k) ++ [(next_rowid (put E2eiIntermediateCert_layout <$> k), rw)]) = true) as Hadd.
    { intros rw Hrw. apply unique_ok_append, Hu. unique_new Hnone Hrw. }
    split; [by apply Hadd|]. eexists. rewrite prog_bind_assoc.
    erewrite run_bind_ok by (apply insert_tv; [done|apply rowid_free_next|by apply Hadd]).
    repeat sql_step; reflexivity.
Qed.
Next Obligation.
  intros v l [a b] Hl Hf. simpl in Hf. unfold E2eiIntermediateCert_fits in Hf. cbn [ic_content] in Hf.
  cbn [save E2eiIntermediateCert_entity]. unfold E2eiIntermediateCert_save. cbn [ic_content]. prove_too_big.
Qed.
Next Obligation. done. Qed.
Next Obligation. done. Qed.

(** *** [E2eiEnrollment] *)

Definition E2eiEnrollment_layout : layout E2eiEnrollment :=
  Layout "e2ei_enrollment" [("id", ColUnique); ("content", ColPlain)]
    (fun x => [("id", VBlob (en_id x)); ("content", VBlob (en_content x))])
    (fun _ => True).

Lemma E2eiEnrollment_reads_row v :
  reads_row E2eiEnrollment_layout v E2eiEnrollment_read ["id"] id.
Proof.
  intros r [a b] rs1 rs2 rid Ha _. unfold E2eiEnrollment_read.
  change (get_blob _) with (@Ok CryptoKeystoreError bytes a). by do 2 sql_step.
Qed.

#[export] Program Instance E2eiEnrollment_laws : EntityLaws E2eiEnrollment := {|
  el_layout := E2eiEnrollment_layout;
  el_key := en_id;
  el_stored := id;
  el_id_ok := fun _ => true;
|}.
Next Obligation.
  intros v l id (k & Hk & ->) _. cbn [find_one E2eiEnrollment_entity].
  unfold E2eiEnrollment_find_one.
  prove_find_one_commit E2eiEnrollment_layout "id" (VBlob id) en_id sql_eq_blob.
Qed.
Next Obligation. prove_find_all E2eiEnrollment_layout E2eiEnrollment_reads_row. Qed.
Next Obligation. intros v l Hl. exact (count_rep E2eiEnrollment_layout v l Hl). Qed.
Next Obligation. prove_delete E2eiEnrollment_layout. Qed.
Next Obligation.
  intros ? x. simpl. unfold E2eiEnrollment_save, query_rowid, blob_write. solve_atomic.
Qed.
Next Obligation.
  intros ? ids. simpl. unfold E2eiEnrollment_delete, delete_all_or_nothing. solve_atomic.
Qed.

(** An enrollment is stored once: a second one with the same id is refused. *)
Lemma E2eiEnrollment_save_ok v l x :
  rep E2eiEnrollment_layout v l -> is_ok (check_buffer_size (blen (en_content x))) = true ->
  match first (fun y => bool_decide (en_id y = en_id x)) l with
  | Some _ => run (E2eiEnrollment_save x) v = (Err AlreadyExists, v)
  | None => exists v', run (E2eiEnrollment_save x) v = (Ok (), v') /\
      becomes E2eiEnrollment_layout v v' (l ++ [x])
  end.
Proof.
  destruct x as [a b]. intros (k & Hk & ->) Hf. pose proof Hk as (_ & _ & Hs).
  pose proof Hs as (_ & _ & _ & Hu). unfold E2eiEnrollment_save. cbn [en_id en_content] in *.
  split_sizes. drop_checks. cbv zeta.
  assert (run (query_rowid "e2ei_enrollment" (WEq "id" (VBlob a)))
            (tvk E2eiEnrollment_layout v k (v_rowid v)) =
          (Ok (fst <$> (put E2eiEnrollment_layout <$> first (fun x => bool_decide (en_id x.2 = a)) k)),
           tvk E2eiEnrollment_layout v k (v_rowid v))) as Hq.
  { unfold tvk. rewrite query_rowid_tv, (first_put _ _ _ (fun x => bool_decide (en_id x = a)));
      [done|intros; apply sql_eq_blob]. }
  destruct (first (fun y => bool_decide (en_id y = a)) (snd <$> k)) eqn:Hnone;
    rewrite (first_map snd) in Hnone;
    destruct (first (fun x => bool_decide (en_id x.2 = a)) k) as [[r0 x0]|] eqn:Hfk; try done.
  - eapply run_with_tx_look; [exact Hk| |reflexivity]. by rewrite (run_bind_ok _ _ _ _ _ Hq).
  - pose proof (around_append E2eiEnrollment_layout k) as Ha.
    assert (first (fun y => bool_decide (en_id y = a)) (snd <$> k) = None) as Hnone'.
    { by rewrite (first_map snd), Hfk. }
    assert (forall rw, row_get "id" rw = VBlob a ->
      unique_ok (ly_cols E2eiEnrollment_layout) ((put E2eiEnrollment_layout <$> k) ++
        [(next_rowid (put E2eiEnrollment_layout <$> k), rw)]) = true) as Hadd.
    { intros rw Hrw. apply unique_ok_append, Hu. unique_new Hnone' Hrw. }
    eexists. split; [|by apply append_becomes; [..|apply Hadd]].
    eapply run_with_tx_commit; [exact Hk| |done]. rewrite (run_bind_ok _ _ _ _ _ Hq).
    unfold tvk. cbn [fmap option_fmap option_map].
    erewrite run_bind_ok by (apply insert_tv; [done|apply rowid_free_next|by apply Hadd]).
    by repeat sql_step.
Qed.

(** *** The tables of one row *)

Definition zero_cols : list (string * coldecl) := [("id", ColZeroKey); ("content", ColPlain)].

Definition zero_rows (o : option bytes) : rows :=
  match o with
  | Some c => [(0, [("id", VInt 0); ("content", VBlob c)])]
  | None => []
  end.

(** The table [t] holds at most the row 0, with the content [o]. *)
Definition holds_unique (t : string) (v : view) (o : option bytes) : Prop :=
  v_tx v = None /\ v_db v !! t = Some (Table zero_cols (zero_rows o)).

Section unique_entities.
Context (v : view) (t : string).

Lemma insert_zero_tv (rep : bool) o c rid :
  sem_insert rep t [("id", VInt 0); ("content", VBlob c)] (tv v t zero_cols (zero_rows o) rid) =
  match o, rep with
  | Some _, false => (Err (DbError ConstraintViolation), tv v t zero_cols (zero_rows o) rid)
  | _, _ => (Ok (), tv v t zero_cols (zero_rows (Some c)) 0)
  end.
Proof.
  unfold sem_insert. rewrite (stm_bind_ok _ _ _ _ _ (get_table_tv _ _ _ _ _)).
  unfold mbind at 1, stm_bind at 1, st_get. cbn [t_cols t_rows].
  destruct o, rep; simpl; try done;
    by rewrite (stm_bind_ok _ _ _ _ _ (put_table_tv _ _ _ _ _ _)).
Qed.

(** The body of [replace], for either form of insert. *)
Lemma replace_body (rep : bool) (s : stmt ()) o c rid :
  (forall zb w, s = (if rep then SInsertOrReplace else SInsert) t [("id", VInt 0); ("content", zb)] ->
     sem s w = sem_insert rep t [("id", VInt 0); ("content", zb)] w) ->
  s = (if rep then SInsertOrReplace else SInsert) t [("id", VInt 0); ("content", zeroblob (blen c))] ->
  (blen c <= i32_max)%Z -> (o = None \/ rep = true) ->
  run (pstep s;; row_id ← pstep SLastRowid; blob_write t "content" row_id c;;
       pstep SCommit;; mret ()) (tv v t zero_cols (zero_rows o) rid) =
  (Ok (), tv_done v t zero_cols (zero_rows (Some c)) 0).
Proof.
  intros Hsem Hs Hc Ho. erewrite run_bind_ok.
  2: { rewrite run_step, (Hsem _ _ Hs). unfold zeroblob. rewrite insert_zero_tv. by destruct o, rep, Ho. }
  erewrite run_bind_ok by apply last_rowid_tv.
  pose proof (blob_write_tv v t zero_cols "content" 0 [] [("id", VInt 0);
    ("content", zeroblob (blen c))] [] 0
    (replicate (Z.to_nat (as_i32 (blen c))) Byte.x00) c) as Hw.
  erewrite run_bind_ok by (apply Hw; [by split; set_solver|reflexivity|by apply length_zeros|done]).
  done.
Qed.

Lemma find_unique_body {A} (mk : bytes -> A) o :
  holds_unique t v o ->
  run (with_tx (
    maybe_content ← pstep (SQueryRow t ["content"] (WEq "id" (VInt 0)) []);
    match maybe_content with
    | Some r => content ← plift (get_blob (selected r)); mret (mk content)
    | None => pfail KsNotFound
    end)) v = (ok_or KsNotFound (mk <$> o), v).
Proof.
  intros [Htx Ht]. rewrite (run_with_tx _ _ _ _ _ Htx Ht).
  erewrite run_bind_ok by apply query_row_tv.
  destruct o as [c|]; unfold run; simpl; f_equal; destruct v; simpl in *; by subst.
Qed.
End unique_entities.

Lemma E2eiRefreshToken_replace_ok v o x :
  holds_unique "e2ei_refresh_token" v o ->
  is_ok (check_buffer_size (blen (rt_content x))) = true ->
  exists v', run (E2eiRefreshToken_replace x) v = (Ok (), v') /\
    holds_unique "e2ei_refresh_token" v' (Some (rt_content x)).
Proof.
  intros [Htx Ht] Hf. unfold E2eiRefreshToken_replace. split_sizes. drop_checks. cbv zeta.
  rewrite (run_with_tx _ _ _ _ _ Htx Ht).
  rewrite (replace_body v "e2ei_refresh_token" true _ o (rt_content x)) by (auto; by intros ? ? ->).
  eexists. split; [done|]. split; [done|]. simpl. by rewrite lookup_insert_eq.
Qed.

(** [replace] of the root CA is a plain insert: it only works on an empty table. *)
Lemma E2eiAcmeCA_replace_ok v o x :
  holds_unique "e2ei_acme_ca" v o ->
  is_ok (check_buffer_size (blen (aca_content x))) = true ->
  match o with
  | None => exists v', run (E2eiAcmeCA_replace x) v = (Ok (), v') /\
      holds_unique "e2ei_acme_ca" v' (Some (aca_content x))
  | Some _ => run (E2eiAcmeCA_replace x) v = (Err (DbError ConstraintViolation), v)
  end.
Proof.
  intros [Htx Ht] Hf. unfold E2eiAcmeCA_replace. split_sizes. drop_checks. cbv zeta.
  rewrite (run_with_tx _ _ _ _ _ Htx Ht). destruct o as [c|].
  - erewrite run_bind_err.
    2: { rewrite run_step. apply (insert_zero_tv v "e2ei_acme_ca" false (Some c)). }
    simpl. f_equal. destruct v; simpl in *. by subst.
  - rewrite (replace_body v "e2ei_acme_ca" false _ None (aca_content x)) by (auto; by intros ? ? ->).
    eexists. split; [done|]. split; [done|]. simpl. by rewrite lookup_insert_eq.
Qed.

Lemma E2eiRefreshToken_find_unique_ok v o :
  holds_unique "e2ei_refresh_token" v o ->
  run E2eiRefreshToken_find_unique v = (ok_or KsNotFound (MkE2eiRefreshToken <$> o), v).
Proof. apply find_unique_body. Qed.

Lemma E2eiAcmeCA_find_unique_ok v o :
  holds_unique "e2ei_acme_ca" v o ->
  run E2eiAcmeCA_find_unique v = (ok_or KsNotFound (MkE2eiAcmeCA <$> o), v).
Proof. apply find_unique_body. Qed.
