(* ===== verification/ProteusEntities.v ===== *)
(** * Entities of Proteus

    [keystore/src/entities/proteus.rs] and [keystore/src/entities/platform/generic/proteus/]:
    the identity, the prekeys (numbered by a [u16]) and the sessions. *)

From Stdlib Require Import Sorting.Sorted.
From S2P Require Import Prelude KsError Sql SqlSpec Entity E2eiEntities.
Open Scope Z_scope.

(** ** [ProteusIdentity] *)

Record ProteusIdentity := MkProteusIdentity { pi_sk : bytes; pi_pk : bytes }.

#[export] Instance ProteusIdentity_eq_dec : EqDecision ProteusIdentity.
Proof. solve_decision. Defined.

Definition SK_KEY_SIZE : Z := 64.
Definition PK_KEY_SIZE : Z := 32.

(** Open, test the length, read, close. *)
Definition ProteusIdentity_read_key (c : string) (row_id expected : Z) : prog bytes :=
  blob ← pstep (SBlobOpen "proteus_identities" c row_id true);
  if Z.eqb (bh_len blob) expected then
    key ← pstep (SBlobRead blob);
    pstep (SBlobClose blob);;
    mret key
  else pfail (InvalidKeySize expected (bh_len blob)).

Definition ProteusIdentity_find_one (_id : bytes) : prog (option ProteusIdentity) :=
  with_tx (
    row_id ← pstep (SQueryRow "proteus_identities" [] WAll [OrderByRowid false; Limit 1]);
    match row_id with
    | None => mret None
    | Some r =>
        pk ← ProteusIdentity_read_key "pk" r.1 PK_KEY_SIZE;
        sk ← ProteusIdentity_read_key "sk" r.1 SK_KEY_SIZE;
        mret (Some (MkProteusIdentity sk pk))
    end).

Definition ProteusIdentity_find_all (_params : EntityFindParams) : prog (list ProteusIdentity) :=
  o ← ProteusIdentity_find_one [];
  mret (match o with Some identity => [identity] | None => [] end).

Definition ProteusIdentity_count : prog Z := pstep (SCount "proteus_identities").

(** An identity is never overwritten: with one in the table, [save] does nothing. *)
Definition ProteusIdentity_save (self : ProteusIdentity) : prog () :=
  n ← ProteusIdentity_count;
  if Z.eqb n 1 then mret ()
  else
    with_tx (
      pstep (SInsert "proteus_identities"
               [("sk", zeroblob (blen (pi_sk self))); ("pk", zeroblob (blen (pi_pk self)))]);;
      row_id ← pstep SLastRowid;
      blob_write "proteus_identities" "sk" row_id (pi_sk self);;
      blob_write "proteus_identities" "pk" row_id (pi_pk self);;
      pstep SCommit;; mret ()).

Definition ProteusIdentity_delete (_ids : list bytes) : prog () :=
  with_tx (
    o ← pstep (SQueryRow "proteus_identities" [] WAll [OrderByRowid false; Limit 1]);
    r ← plift (ok_or (DbError QueryReturnedNoRows) o);
    pstep (SDelete "proteus_identities" (WRowid r.1));;
    pstep SCommit;; mret ()).

#[export] Instance ProteusIdentity_entity : EntityBase ProteusIdentity := {|
  AutoGeneratedFields := ();
  to_missing_key_err_kind := MissingProteusIdentity;
  save := ProteusIdentity_save;
  insert_entity := default_insert;
  find_all := ProteusIdentity_find_all;
  find_one := ProteusIdentity_find_one;
  find_many := Some (default_find_many ProteusIdentity_find_one);
  count := ProteusIdentity_count;
  delete_ids := ProteusIdentity_delete;
|}.

(** ** [ProteusPrekey] *)

Record ProteusPrekey := MkProteusPrekey {
  prk_id : Z; prk_id_bytes : bytes; prk_prekey : bytes }.

#[export] Instance ProteusPrekey_eq_dec : EqDecision ProteusPrekey.
Proof. solve_decision. Defined.

Definition ProteusPrekey_from_raw (id : Z) (prekey : bytes) : ProteusPrekey :=
  MkProteusPrekey id (u16_to_le_bytes id) prekey.

(** [None]: the panic on a slice of less than two bytes. *)
Definition ProteusPrekey_id_from_slice (slice : bytes) : option Z :=
  match slice with
  | a :: b :: _ => Some (u16_from_le_bytes a b)
  | _ => None
  end.

Definition ProteusPrekey_set_id (self : ProteusPrekey) (id : Z) : ProteusPrekey :=
  MkProteusPrekey id (u16_to_le_bytes id) (prk_prekey self).

Definition ProteusPrekey_read (r : Z * list value) : prog ProteusPrekey :=
  id ← plift (get_uint u16_max (selected r));
  buf ← blob_read "proteus_prekeys" "key" r.1 true;
  mret (ProteusPrekey_from_raw id buf).

Definition ProteusPrekey_find_all (params : EntityFindParams) : prog (list ProteusPrekey) :=
  with_tx (list_rows "proteus_prekeys" ["id"] WAll (EntityFindParams_to_sql params)
             ProteusPrekey_read).

(** [find_one] after the id was decoded. *)
Definition ProteusPrekey_find_id (id : Z) : prog (option ProteusPrekey) :=
  with_tx (
    maybe_row_id ← query_rowid "proteus_prekeys" (WEq "id" (VInt id));
    match maybe_row_id with
    | Some row_id =>
        buf ← blob_read "proteus_prekeys" "key" row_id true;
        mret (Some (ProteusPrekey_from_raw id buf))
    | None => mret None
    end).

Definition ProteusPrekey_find_one (id : bytes) : option (prog (option ProteusPrekey)) :=
  ProteusPrekey_find_id <$> ProteusPrekey_id_from_slice id.

Definition ProteusPrekey_count : prog Z := pstep (SCount "proteus_prekeys").

Definition ProteusPrekey_save (self : ProteusPrekey) : prog () :=
  with_tx (
    existing_rowid ← query_rowid "proteus_prekeys" (WEq "id" (VInt (prk_id self)));
    row_id ← match existing_rowid with
      | Some rowid =>
          let zb := zeroblob (blen (prk_prekey self)) in
          pstep (SUpdate "proteus_prekeys" [("key", zb)] (WRowid rowid));;
          mret rowid
      | None =>
          pstep (SInsert "proteus_prekeys"
                   [("id", VInt (prk_id self)); ("key", zeroblob (blen (prk_prekey self)))]);;
          pstep SLastRowid
      end;
    blob_write "proteus_prekeys" "key" row_id (prk_prekey self);;
    pstep SCommit;; mret ()).

(** [None]: one of the ids makes [id_from_slice] panic, and the transaction is rolled back. *)
Definition ProteusPrekey_delete (ids : list bytes) : option (prog ()) :=
  if forallb (fun id => match ProteusPrekey_id_from_slice id with Some _ => true | None => false end) ids
  then Some (delete_all_or_nothing MissingProteusPrekey "proteus_prekeys" "id"
    (fun id => Ok (VInt (default 0 (ProteusPrekey_id_from_slice id)))) ids)
  else None.

(** [get_free_id]: [fuel] bounds the loop; [u16::MAX] turns are enough. *)
Fixpoint ProteusPrekey_get_free_id_from (fuel : nat) (id : Z) : prog Z :=
  match fuel with
  | O => pfail KsImplementationError
  | S fuel =>
      if Z.eqb id u16_max then pfail NoFreePrekeyId
      else
        found ← ProteusPrekey_find_id id;
        match found with
        | None => mret id
        | Some _ => ProteusPrekey_get_free_id_from fuel (id + 1)
        end
  end.

Definition ProteusPrekey_get_free_id : prog Z :=
  ProteusPrekey_get_free_id_from (Z.to_nat u16_max) 1.

(** ** [ProteusSession] *)

Record ProteusSession := MkProteusSession { ps_id : bytes; ps_session : bytes }.

#[export] Instance ProteusSession_eq_dec : EqDecision ProteusSession.
Proof. solve_decision. Defined.

Definition ProteusSession_read (r : Z * list value) : prog ProteusSession :=
  id ← plift (get_text (selected r));
  session ← blob_read "proteus_sessions" "session" r.1 true;
  mret (MkProteusSession id session).

Definition ProteusSession_find_all (params : EntityFindParams) : prog (list ProteusSession) :=
  with_tx (list_rows "proteus_sessions" ["id"] WAll (EntityFindParams_to_sql params)
             ProteusSession_read).

Definition ProteusSession_save (self : ProteusSession) : prog () :=
  with_tx (
    plift (check_buffer_size (blen (ps_session self)));;
    plift (check_buffer_size (blen (ps_id self)));;
    let zb := zeroblob (blen (ps_session self)) in
    existing ← query_rowid "proteus_sessions" (WEq "id" (VText (ps_id self)));
    rowid ← match existing with
      | Some rowid =>
          pstep (SUpdate "proteus_sessions" [("session", zb)] (WRowid rowid));;
          mret rowid
      | None =>
          pstep (SInsert "proteus_sessions" [("id", VText (ps_id self)); ("session", zb)]);;
          pstep SLastRowid
      end;
    blob_write "proteus_sessions" "session" rowid (ps_session self);;
    pstep SCommit;; mret ()).

Definition ProteusSession_find_one (id : bytes) : prog (option ProteusSession) :=
  with_tx (
    id_string ← plift (StringEntityId_try_into id);
    rowid ← query_rowid "proteus_sessions" (WEq "id" (VText id_string));
    match rowid with
    | Some rowid =>
        session ← blob_read "proteus_sessions" "session" rowid true;
        mret (Some (MkProteusSession id_string session))
    | None => mret None
    end).

(** All sessions, whatever ids are asked for. *)
Definition ProteusSession_find_many (_ids : list bytes) : prog (list ProteusSession) :=
  raw ← pstep (SQuery "proteus_sessions" ["id"] WAll [OrderByRowid false]);
  rows ← plift (try_map (fun r => id ← get_text (selected r); Ok (r.1, id)) raw);
  match rows with
  | [] => mret []
  | _ =>
      with_tx (
        res ← pmap (fun r => session ← blob_read "proteus_sessions" "session" r.1 true;
                             mret (MkProteusSession r.2 session)) rows;
        pstep SCommit;; mret res)
  end.

Definition ProteusSession_count : prog Z := pstep (SCount "proteus_sessions").

Definition ProteusSession_delete (ids : list bytes) : prog () :=
  delete_all_or_nothing MissingProteusSession "proteus_sessions" "id"
    (fun id => VText <$> StringEntityId_try_into id) ids.

#[export] Instance ProteusSession_entity : EntityBase ProteusSession := {|
  AutoGeneratedFields := ();
  to_missing_key_err_kind := MissingProteusSession;
  save := ProteusSession_save;
  insert_entity := default_insert;
  find_all := ProteusSession_find_all;
  find_one := ProteusSession_find_one;
  find_many := Some ProteusSession_find_many;
  count := ProteusSession_count;
  delete_ids := ProteusSession_delete;
|}.

(** ** The tables and their laws *)

Definition ProteusSession_layout : layout ProteusSession :=
  Layout "proteus_sessions" [("id", ColUnique); ("session", ColPlain)]
    (fun x => [("id", VText (ps_id x)); ("session", VBlob (ps_session x))])
    (fun _ => True).

Definition ProteusSession_fits (x : ProteusSession) : bool :=
  is_ok (check_buffer_size (blen (ps_session x))) && is_ok (check_buffer_size (blen (ps_id x))).

Lemma ProteusSession_reads_row v :
  reads_row ProteusSession_layout v ProteusSession_read ["id"] id.
Proof.
  intros r [a b] rs1 rs2 rid Ha _. unfold ProteusSession_read.
  change (get_text _) with (@Ok CryptoKeystoreError bytes a). by do 2 sql_step.
Qed.

Lemma ProteusSession_find_one_ok v l id :
  rep ProteusSession_layout v l -> utf8_valid id = true ->
  run (ProteusSession_find_one id) v =
  (Ok (Datatypes.id <$> first (fun x => bool_decide (ps_id x = id)) l), v).
Proof.
  intros (k & Hk & ->) Hid. pose proof Hk as (_ & _ & Hs).
  unfold ProteusSession_find_one, StringEntityId_try_into.
  rewrite Hid. change (plift (Ok id) ≫= ?f) with (f id). cbv beta.
  eapply run_with_tx_look; [exact Hk| |reflexivity].
  etransitivity;
  [ apply (find_first_gen ProteusSession_layout v "id" (VText id) (fun e => bool_decide (ps_id e = id))
      _ Some None k _ (fun e => sql_eq_text _ _) Hs)
  | by destruct (first _ (snd <$> k)) ].
  intros r [a b] rs1 rs2 rid Ha _ Hp. apply bool_decide_eq_true in Hp. simpl in Hp. subst.
  by repeat sql_step.
Qed.

#[export] Program Instance ProteusSession_laws : EntityLaws ProteusSession := {|
  el_layout := ProteusSession_layout;
  el_key := ps_id;
  el_stored := id;
  el_id_ok := utf8_valid;
|}.
Next Obligation. exact ProteusSession_find_one_ok. Qed.
Next Obligation. prove_find_all ProteusSession_layout ProteusSession_reads_row. Qed.
Next Obligation. intros v l Hl. exact (count_rep ProteusSession_layout v l Hl). Qed.
Next Obligation.
  intros v l ids Hl Hids.
  apply (delete_all_or_nothing_spec ProteusSession_layout v _ _ _ (fun id => VText id)).
  - intros id Hin. unfold StringEntityId_try_into. by rewrite (Hids id Hin).
  - intros e id _. apply sql_eq_text.
  - done.
Qed.
Next Obligation.
  intros ? x. simpl. unfold ProteusSession_save, query_rowid, blob_write. solve_atomic.
Qed.
Next Obligation.
  intros ? ids. simpl. unfold ProteusSession_delete, delete_all_or_nothing. solve_atomic.
Qed.

#[export] Program Instance ProteusSession_upsert : UpsertLaws ProteusSession := {|
  ul_fits := ProteusSession_fits;
|}.
Next Obligation.
  intros v l [a b] (k & Hk & ->) Hf. pose proof Hk as (_ & _ & _ & _ & _ & Hu).
  simpl in Hf. unfold ProteusSession_fits in Hf. cbn [ps_id ps_session] in Hf.
  cbn [save ProteusSession_entity]. unfold ProteusSession_save. cbn [ps_id ps_session].
  split_sizes. drop_checks. cbv zeta.
  eapply (upsert_tx ProteusSession_layout v "id" (VText a)
    (fun x => bool_decide (ps_id x = a)) (MkProteusSession a b));
    [exact Hk|intros e; apply sql_eq_text|done| |].
  - intros k1 r [a' b'] k2 rid0 -> He Ha. apply bool_decide_eq_true in He. simpl in He. subst a'.
    rewrite fmap_app, fmap_cons in Hu. split; [eapply unique_ok_exchange, Hu; unique_same|].
    edestruct update_rowid_tv as [n Hn]; [exact Ha| |
      eexists; rewrite prog_bind_assoc, (run_bind_ok _ _ _ _ _ Hn)].
    { eapply unique_ok_exchange, Hu. unique_same. }
    repeat sql_step; reflexivity.
  - intros rid0 Hnone Ha.
    assert (forall rw, row_get "id" rw = VText a ->
      unique_ok (ly_cols ProteusSession_layout)
        ((put ProteusSession_layout <$> k) ++
         [(next_rowid (put ProteusSession_layout <$> k), rw)]) = true) as Hadd.
    { intros rw Hrw. apply unique_ok_append, Hu. unique_new Hnone Hrw. }
    split; [by apply Hadd|]. eexists. rewrite prog_bind_assoc.
    erewrite run_bind_ok by (apply insert_tv; [done|apply rowid_free_next|by apply Hadd]).
    repeat sql_step; reflexivity.
Qed.
Next Obligation.
  intros v l [a b] Hl Hf. simpl in Hf. unfold ProteusSession_fits in Hf.
  cbn [ps_id ps_session] in Hf. cbn [save ProteusSession_entity]. unfold ProteusSession_save.
  cbn [ps_id ps_session]. prove_too_big.
Qed.
Next Obligation. done. Qed.
Next Obligation. done. Qed.

(** *** Prekeys *)

Definition ProteusPrekey_layout : layout ProteusPrekey :=
  Layout "proteus_prekeys" [("id", ColUnique); ("key", ColPlain)]
    (fun x => [("id", VInt (prk_id x)); ("key", VBlob (prk_prekey x))])
    (fun x => 0 <= prk_id x <= u16_max /\ prk_id_bytes x = u16_to_le_bytes (prk_id x)).

Lemma ProteusPrekey_find_id_ok v l id :
  rep ProteusPrekey_layout v l ->
  run (ProteusPrekey_find_id id) v = (Ok (first (fun x => bool_decide (prk_id x = id)) l), v).
Proof.
  intros (k & Hk & ->). pose proof Hk as (_ & _ & Hs).
  eapply run_with_tx_look; [exact Hk| |reflexivity].
  etransitivity;
  [ apply (find_first_gen ProteusPrekey_layout v "id" (VInt id) (fun e => bool_decide (prk_id e = id))
      _ Some None k _ (fun e => sql_eq_int _ _) Hs)
  | by destruct (first _ (snd <$> k)) ].
  intros r [i ib b] rs1 rs2 rid Ha [_ Hib] Hp. apply bool_decide_eq_true in Hp.
  simpl in Hp, Hib. subst.
  by repeat sql_step.
Qed.

Lemma ProteusPrekey_save_ok v l x :
  rep ProteusPrekey_layout v l -> (blen (prk_prekey x) <= i32_max)%Z -> ly_ok ProteusPrekey_layout x ->
  exists v', run (ProteusPrekey_save x) v = (Ok (), v') /\
    becomes ProteusPrekey_layout v v' (upsert (fun y => bool_decide (prk_id y = prk_id x)) x l).
Proof.
  destruct x as [i ib b]. intros (k & Hk & ->) Hf Hok. pose proof Hk as (_ & _ & _ & _ & _ & Hu).
  unfold ProteusPrekey_save. cbn [prk_id prk_prekey] in *. cbv zeta.
  eapply (upsert_tx ProteusPrekey_layout v "id" (VInt i)
    (fun x => bool_decide (prk_id x = i)) (MkProteusPrekey i ib b));
    [exact Hk|intros e; apply sql_eq_int|exact Hok| |].
  - intros k1 r [i' ib' b'] k2 rid0 -> He Ha. apply bool_decide_eq_true in He. simpl in He. subst i'.
    rewrite fmap_app, fmap_cons in Hu. split; [eapply unique_ok_exchange, Hu; unique_same|].
    edestruct update_rowid_tv as [n Hn]; [exact Ha| |
      eexists; rewrite prog_bind_assoc, (run_bind_ok _ _ _ _ _ Hn)].
    { eapply unique_ok_exchange, Hu. unique_same. }
    repeat sql_step; reflexivity.
  - intros rid0 Hnone Ha.
    assert (forall rw, row_get "id" rw = VInt i ->
      unique_ok (ly_cols ProteusPrekey_layout)
        ((put ProteusPrekey_layout <$> k) ++
         [(next_rowid (put ProteusPrekey_layout <$> k), rw)]) = true) as Hadd.
    { intros rw Hrw. apply unique_ok_append, Hu. unique_new Hnone Hrw. }
    split; [by apply Hadd|]. eexists. rewrite prog_bind_assoc.
    erewrite run_bind_ok by (apply insert_tv; [done|apply rowid_free_next|by apply Hadd]).
    repeat sql_step; reflexivity.
Qed.

Lemma ProteusPrekey_id_from_slice_le n : 0 <= n <= u16_max ->
  ProteusPrekey_id_from_slice (u16_to_le_bytes n) = Some n.
Proof. intros Hn. simpl. by rewrite u16_le_bytes_roundtrip. Qed.

(** The prekey with the id is taken away; without one, or with several, nothing is. *)
Lemma ProteusPrekey_delete_ok v l n :
  rep ProteusPrekey_layout v l -> 0 <= n <= u16_max ->
  let l' := List.filter (fun e => negb (bool_decide (prk_id e = n))) l in
  exists p, ProteusPrekey_delete [u16_to_le_bytes n] = Some p /\
  if bool_decide (length l = S (length l'))
  then exists v', run p v = (Ok (), v') /\ becomes ProteusPrekey_layout v v' l'
  else run p v = (Err (MissingKeyInStore MissingProteusPrekey), v).
Proof.
  intros Hl Hn l'. unfold ProteusPrekey_delete. cbn [forallb].
  rewrite (ProteusPrekey_id_from_slice_le n Hn). eexists; split; [done|].
  pose proof (delete_all_or_nothing_spec ProteusPrekey_layout v MissingProteusPrekey "id"
    (fun id => Ok (VInt (default 0 (ProteusPrekey_id_from_slice id)))) (fun _ => VInt n)
    (fun e => if bool_decide (prk_id e = n) then u16_to_le_bytes n else []) [u16_to_le_bytes n] l) as Hd.
  cbv zeta in Hd. unfold remove_keys in Hd. cbn [fold_left length] in Hd.
  rewrite (List.filter_ext (fun e : ProteusPrekey => negb (bool_decide
    ((if bool_decide (prk_id e = n) then u16_to_le_bytes n else []) = u16_to_le_bytes n)))
    (fun e => negb (bool_decide (prk_id e = n)))) in Hd by (intros e; by repeat case_bool_decide).
  fold l' in Hd. rewrite Nat.add_1_r in Hd. apply Hd; [| |done].
  - intros id ->%list_elem_of_singleton. by rewrite (ProteusPrekey_id_from_slice_le n Hn).
  - intros e id ->%list_elem_of_singleton. etransitivity; [apply (sql_eq_int (prk_id e) n)|].
    by repeat case_bool_decide.
Qed.

Lemma ProteusPrekey_save_atomic `{SqlEngine} x : atomic (ProteusPrekey_save x).
Proof. unfold ProteusPrekey_save, query_rowid, blob_write. solve_atomic. Qed.

(** The smallest id from [id] on that no stored prekey has, before [u16::MAX]. *)
Lemma ProteusPrekey_get_free_id_from_ok v l fuel id :
  rep ProteusPrekey_layout v l -> 1 <= id <= u16_max -> (Z.to_nat (u16_max - id) < fuel)%nat ->
  exists r, run (ProteusPrekey_get_free_id_from fuel id) v = (r, v) /\
  match r with
  | Ok n => id <= n < u16_max /\ n ∉ prk_id <$> l /\ forall m, id <= m < n -> m ∈ prk_id <$> l
  | Err e => e = NoFreePrekeyId /\ forall m, id <= m < u16_max -> m ∈ prk_id <$> l
  end.
Proof.
  intros Hl. revert id. induction fuel as [|fuel IH]; intros id Hid Hfuel; [lia|].
  cbn [ProteusPrekey_get_free_id_from]. destruct (Z.eqb_spec id u16_max) as [->|Hne].
  { eexists; split; [done|]. split; [done|]. lia. }
  rewrite (run_bind_ok _ _ _ _ _ (ProteusPrekey_find_id_ok v l id Hl)).
  destruct (first (fun x => bool_decide (prk_id x = id)) l) as [x|] eqn:Hf.
  - apply first_Some in Hf as [Hin Hx%bool_decide_eq_true].
    assert (id ∈ prk_id <$> l) as Hid' by (apply list_elem_of_fmap; by exists x).
    destruct (IH (id + 1)) as (r & Hr & Hspec); [lia..|]. exists r. split; [done|].
    destruct r as [n|e].
    + destruct Hspec as (Hn & Hfree & Hall). split_and!; [lia..|done|]. intros m Hm.
      destruct (decide (m = id)) as [->|]; [done|]. apply Hall. lia.
    + destruct Hspec as (-> & Hall). split; [done|]. intros m Hm.
      destruct (decide (m = id)) as [->|]; [done|]. apply Hall. lia.
  - eexists; split; [done|]. split_and!; [lia..| |lia]. intros (x & Hx & Hin)%list_elem_of_fmap.
    rewrite first_None in Hf. specialize (Hf x Hin). apply bool_decide_eq_false in Hf. congruence.
Qed.

Lemma ProteusPrekey_get_free_id_ok v l :
  rep ProteusPrekey_layout v l ->
  exists r, run ProteusPrekey_get_free_id v = (r, v) /\
  match r with
  | Ok n => 1 <= n < u16_max /\ n ∉ prk_id <$> l /\ forall m, 1 <= m < n -> m ∈ prk_id <$> l
  | Err e => e = NoFreePrekeyId /\ forall m, 1 <= m < u16_max -> m ∈ prk_id <$> l
  end.
Proof.
  intros Hl. unfold ProteusPrekey_get_free_id. apply ProteusPrekey_get_free_id_from_ok; [done|..];
    unfold u16_max; lia.
Qed.

(** *** The identity *)

Definition ProteusIdentity_layout : layout ProteusIdentity :=
  Layout "proteus_identities" [("sk", ColPlain); ("pk", ColPlain)]
    (fun x => [("sk", VBlob (pi_sk x)); ("pk", VBlob (pi_pk x))])
    (fun _ => True).

(** With one identity in the table [save] keeps it and reports success. *)
Lemma ProteusIdentity_save_ok v l x :
  rep ProteusIdentity_layout v l ->
  (blen (pi_sk x) <= i32_max)%Z -> (blen (pi_pk x) <= i32_max)%Z ->
  if bool_decide (length l = 1%nat) then run (ProteusIdentity_save x) v = (Ok (), v)
  else exists v', run (ProteusIdentity_save x) v = (Ok (), v') /\
         becomes ProteusIdentity_layout v v' (l ++ [x]).
Proof.
  intros Hl Hsk Hpk. unfold ProteusIdentity_save, ProteusIdentity_count.
  rewrite (run_bind_ok _ _ _ _ _ (count_rep ProteusIdentity_layout v l Hl)).
  case_bool_decide as Hlen.
  { assert (Z.of_nat (length l) =? 1 = true) as -> by (apply Z.eqb_eq; lia). done. }
  assert (Z.of_nat (length l) =? 1 = false) as -> by (apply Z.eqb_neq; lia).
  destruct x as [sk pk]. destruct Hl as (k & Hk & ->). pose proof Hk as (_ & _ & Hs).
  pose proof (around_append ProteusIdentity_layout k) as Ha. cbn [pi_sk pi_pk] in *.
  eexists. split; [|by apply append_becomes].
  eapply run_with_tx_commit; [exact Hk| |done]. unfold tvk. by repeat sql_step.
Qed.

Lemma ProteusIdentity_read_key_tv v r x rs1 rs2 rid :
  around r rs1 rs2 ->
  let st := tv v "proteus_identities" (ly_cols ProteusIdentity_layout)
              (rs1 ++ (r, ly_row ProteusIdentity_layout x) :: rs2) rid in
  run (ProteusIdentity_read_key "pk" r PK_KEY_SIZE) st =
    (if Z.eqb (blen (pi_pk x)) PK_KEY_SIZE then Ok (pi_pk x)
     else Err (InvalidKeySize PK_KEY_SIZE (blen (pi_pk x))), st) /\
  run (ProteusIdentity_read_key "sk" r SK_KEY_SIZE) st =
    (if Z.eqb (blen (pi_sk x)) SK_KEY_SIZE then Ok (pi_sk x)
     else Err (InvalidKeySize SK_KEY_SIZE (blen (pi_sk x))), st).
Proof.
  intros Ha st. split; unfold ProteusIdentity_read_key; subst st; sql_step; cbn [bh_len];
    destruct (Z.eqb _ _); try done;
    erewrite run_bind_ok by (rewrite run_step; by apply sem_blob_read_tv); done.
Qed.

(** The first identity is returned, provided its keys have the right sizes. *)
Lemma ProteusIdentity_find_one_ok v l id :
  rep ProteusIdentity_layout v l ->
  run (ProteusIdentity_find_one id) v =
  (match l with
   | [] => Ok None
   | x :: _ =>
       if Z.eqb (blen (pi_pk x)) PK_KEY_SIZE then
         if Z.eqb (blen (pi_sk x)) SK_KEY_SIZE then Ok (Some x)
         else Err (InvalidKeySize SK_KEY_SIZE (blen (pi_sk x)))
       else Err (InvalidKeySize PK_KEY_SIZE (blen (pi_pk x)))
   end, v).
Proof.
  intros (k & Hk & ->). pose proof Hk as (_ & _ & Hs & _).
  eapply run_with_tx_look; [exact Hk| |reflexivity].
  destruct k as [|[r [sk pk]] k].
  { by erewrite run_bind_ok by apply query_first_tv. }
  assert (around r [] (put ProteusIdentity_layout <$> k)) as Ha.
  { exact (around_sorted ProteusIdentity_layout [] r _ k Hs). }
  unfold tvk. rewrite fmap_cons. change (put ProteusIdentity_layout (r, ?e) :: ?ks) with
    ([] ++ (r, ly_row ProteusIdentity_layout e) :: ks).
  erewrite run_bind_ok by apply query_first_tv.
  change (select [] <$> list.head _) with (Some (r, @nil value)).
  rewrite (fmap_cons snd). cbn [fst snd].
  pose proof (ProteusIdentity_read_key_tv v r (MkProteusIdentity sk pk) []
    (put ProteusIdentity_layout <$> k) (v_rowid v) Ha) as [Hpk Hsk]. cbn [pi_sk pi_pk] in *.
  destruct (Z.eqb (blen pk) PK_KEY_SIZE).
  - erewrite run_bind_ok by exact Hpk. destruct (Z.eqb (blen sk) SK_KEY_SIZE).
    + by erewrite run_bind_ok by exact Hsk.
    + by erewrite run_bind_err by exact Hsk.
  - by erewrite run_bind_err by exact Hpk.
Qed.
