(* ===== verification/Keystore.v ===== *)
(** * The keystore

    [Connection] of [keystore/src/connection/mod.rs] and the interfaces it implements: the
    MLS queries ([CryptoKeystoreMls]) and OpenMLS's key store ([OpenMlsKeyStore]) of
    [keystore/src/mls.rs], and the Proteus prekey store of [keystore/src/proteus.rs]. Every call
    takes the lock of the one connection for its whole duration, so a call is one program. *)

From S2P Require Import Prelude KsError Sql SqlSpec Entity.
From S2P Require Import MlsGroups MlsPending MlsKeys MlsCredentials E2eiEntities ProteusEntities.
Open Scope Z_scope.

(** ** [Connection] *)

Section connection.
Context {E : Type} `{EntityBase E}.

Definition Connection_save (entity : E) : prog E := save entity;; mret entity.
Definition Connection_insert (entity : E) : prog (AutoGeneratedFields E) :=
  fields ← insert_entity entity; mret fields.
Definition Connection_find (id : bytes) : prog (option E) := find_one id.
Definition Connection_find_all (params : EntityFindParams) : prog (list E) := find_all params.
Definition Connection_find_many (ids : list bytes) : option (prog (list E)) :=
  option_map (fun f => f ids) (find_many E).
Definition Connection_count : prog Z := count E.
End connection.

Definition Connection_remove (E : Type) `{EntityBase E} (id : bytes) : prog () :=
  delete_ids E [id];; mret ().

(** ** Serialized MLS entities

    [MlsEntityId] and the trait [MlsEntity] are OpenMLS's, the encoding is postcard's: they are
    the class [MlsEntity]. What the keystore relies on is that decoding undoes encoding. *)

Inductive MlsEntityId : Set :=
  | SignatureKeyPairId
  | HpkePrivateKeyId
  | KeyPackageId
  | PskBundleId
  | EncryptionKeyPairId
  | EpochEncryptionKeyPairId
  | GroupStateId.

Class Serde (V : Type) := {
  to_stdvec : V -> option bytes;                 (* [None]: a [postcard::Error] *)
  from_bytes : bytes -> option V;
}.
#[global] Hint Mode Serde ! : typeclass_instances.

Class MlsEntity (V : Type) := {
  mls_entity_id : MlsEntityId;
  mls_entity_serde :: Serde V;
  signature_scheme : V -> Z;                     (* of a [SignatureKeyPair], after [downcast] *)
  from_to_bytes (v : V) b : to_stdvec v = Some b -> from_bytes b = Some v;
}.
#[global] Hint Mode MlsEntity ! : typeclass_instances.
Arguments mls_entity_id V {_}.

Definition deser {V} `{Serde V} (b : bytes) : KsResult V :=
  ok_or KeyStoreValueTransformError (from_bytes b).
Definition ser {V} `{Serde V} (v : V) : KsResult bytes :=
  ok_or KeyStoreValueTransformError (to_stdvec v).

(** [mls_fetch_keypackages]: the [count] newest, those that do not decode left out. *)
Definition mls_fetch_keypackages {V} `{Serde V} (count : Z) : prog (list V) :=
  keypackages ← with_tx (list_rows "mls_keypackages" [] WAll [OrderByRowid true; Limit count]
                           (fun r => MlsKeyPackage_read r.1));
  mret (omap (M := list) (fun kpb : MlsKeyPackage => from_bytes (kp_keypackage kpb)) keypackages).

Section mls_entity.
Context {V : Type} `{MlsEntity V}.

(** [OpenMlsKeyStore::store] *)
Definition ks_store (k : bytes) (v : V) : prog () :=
  match k with
  | [] => pfail MlsKeyStoreError
  | _ =>
      data ← plift (ser v);
      match mls_entity_id V with
      | GroupStateId => pfail IncorrectApiUsage
      | SignatureKeyPairId =>
          Connection_save (MkMlsSignatureKeyPair (signature_scheme v) k data []);; mret ()
      | KeyPackageId => Connection_save (MkMlsKeyPackage k data);; mret ()
      | HpkePrivateKeyId => Connection_save (MkMlsHpkePrivateKey data k);; mret ()
      | PskBundleId => Connection_save (MkMlsPskBundle k data);; mret ()
      | EncryptionKeyPairId => Connection_save (MkMlsEncryptionKeyPair data k);; mret ()
      | EpochEncryptionKeyPairId => Connection_save (MkMlsEpochEncryptionKeyPair k data);; mret ()
      end
  end.

(** [self.find(k).await.ok().flatten()?] then [deser(..).ok()] on a field *)
Definition find_deser {E} `{EntityBase E} (field : E -> bytes) (k : bytes) : prog (option V) :=
  o ← pok (Connection_find k);
  mret (match o with
        | Some (Some e) => res_ok (deser (field e))
        | _ => None
        end).

(** [OpenMlsKeyStore::read] *)
Definition ks_read (k : bytes) : prog (option V) :=
  match k with
  | [] => mret None
  | _ =>
      match mls_entity_id V with
      | GroupStateId => find_deser pg_state k
      | SignatureKeyPairId => find_deser sk_keypair k
      | KeyPackageId => find_deser kp_keypackage k
      | HpkePrivateKeyId => find_deser hpke_sk k
      | PskBundleId => find_deser psk_psk k
      | EncryptionKeyPairId => find_deser ek_sk k
      | EpochEncryptionKeyPairId => find_deser eek_keypairs k
      end
  end.
End mls_entity.

(** [OpenMlsKeyStore::delete] *)
Definition ks_delete (V : Type) `{MlsEntity V} (k : bytes) : prog () :=
  match k with
  | [] => mret ()
  | _ =>
      match mls_entity_id V with
      | GroupStateId => Connection_remove PersistedMlsGroup k
      | SignatureKeyPairId => Connection_remove MlsSignatureKeyPair k
      | HpkePrivateKeyId => Connection_remove MlsHpkePrivateKey k
      | KeyPackageId => Connection_remove MlsKeyPackage k
      | PskBundleId => Connection_remove MlsPskBundle k
      | EncryptionKeyPairId => Connection_remove MlsEncryptionKeyPair k
      | EpochEncryptionKeyPairId => Connection_remove MlsEpochEncryptionKeyPair k
      end
  end.

(** ** [CryptoKeystoreMls] *)

Definition mls_group_persist (group_id state : bytes) (parent_group_id : option bytes) : prog () :=
  Connection_save (MkPersistedMlsGroup group_id state parent_group_id);; mret ().

(** Any error counts as "does not exist". *)
Definition mls_group_exists (group_id : bytes) : prog bool :=
  r ← ptry (Connection_find (E := PersistedMlsGroup) group_id);
  mret (match r with Ok (Some _) => true | _ => false end).

Definition mls_group_delete (group_id : bytes) : prog () :=
  Connection_remove PersistedMlsGroup group_id.

(** A [HashMap] from group id to parent id and state; collecting keeps the last of equal keys. *)
Definition mls_groups_restore : prog (gmap bytes (option bytes * bytes)) :=
  groups ← Connection_find_all (E := PersistedMlsGroup) EntityFindParams_default;
  mret (fold_left (fun m g => <[pg_id g := (pg_parent_id g, pg_state g)]> m) groups ∅).

Definition mls_pending_groups_save (group_id mls_group custom_configuration : bytes)
    (parent_group_id : option bytes) : prog () :=
  Connection_save
    (MkPersistedMlsPendingGroup group_id mls_group parent_group_id custom_configuration);;
  mret ().

Definition mls_pending_groups_load (group_id : bytes) : prog (bytes * bytes) :=
  o ← Connection_find group_id;
  plift (ok_or (MissingKeyInStore MlsPendingGroupMissing)
           (option_map (fun r => (ppg_state r, ppg_custom_configuration r)) o)).

Definition mls_pending_groups_delete (group_id : bytes) : prog () :=
  Connection_remove PersistedMlsPendingGroup group_id.

Definition save_e2ei_enrollment (id content : bytes) : prog () :=
  Connection_save (MkE2eiEnrollment id content);; mret ().

(** Fetch, then delete: two calls, each with its own lock. *)
Definition pop_e2ei_enrollment (id : bytes) : prog bytes :=
  o ← Connection_find id;
  enrollment ← plift (ok_or (MissingKeyInStore MissingE2eiEnrollment) o);
  Connection_remove E2eiEnrollment id;;
  mret (en_content enrollment).

(** ** [CryptoKeystoreProteus] and [PreKeyStore] *)

Definition proteus_store_prekey (id : Z) (prekey : bytes) : prog () :=
  ProteusPrekey_save (ProteusPrekey_from_raw id prekey);; mret ().

(** The id is encoded in two bytes and decoded again by [find_one] and [delete]. *)
Definition PreKeyStore_prekey (id : Z) : option (prog (option bytes)) :=
  option_map (fun find : prog (option ProteusPrekey) => o ← find; mret (option_map prk_prekey o))
    (ProteusPrekey_find_one (u16_to_le_bytes id)).

Definition PreKeyStore_remove (id : Z) : option (prog ()) :=
  ProteusPrekey_delete [u16_to_le_bytes id].

(** ** What the calls do, on every engine *)

(** An engine state in which the table of [E] holds [l]. *)
Definition stores (E : Type) `{EntityLaws E} `{SqlEngine} (c : conn) (l : list E) : Prop :=
  healthy c /\ rep el_layout (conn_view c) l.

Section connection_laws.
Context {E : Type} `{UpsertLaws E}.
Implicit Types (e : E) (l : list E).

Definition with_key (id : bytes) e : bool := bool_decide (el_key e = id).

Lemma exec_ok `{SqlEngine} {A} (p : prog A) c r v' :
  healthy c -> run p (conn_view c) = (r, v') ->
  exists c', exec_prog p c = (r, c') /\ conn_view c' = v' /\ healthy c'.
Proof. apply exec_prog_run. Qed.

Lemma Connection_save_run v l e :
  rep el_layout v l -> ul_fits e = true ->
  exists v', run (Connection_save e) v = (Ok e, v') /\
    becomes el_layout v v' (upsert (with_key (el_key e)) (el_stored e) l).
Proof.
  intros Hl Hf. destruct (ul_save v l e Hl Hf) as (v' & Hr & Hb). exists v'.
  split; [|done]. unfold Connection_save. by rewrite (run_bind_ok _ _ _ _ _ Hr).
Qed.

Lemma first_with_key_upsert l e id :
  el_stored <$> first (with_key id) (upsert (with_key (el_key e)) (el_stored e) l) =
  if bool_decide (el_key e = id) then Some (el_stored e) else el_stored <$> first (with_key id) l.
Proof.
  unfold with_key. case_bool_decide as Hid.
  - subst id. rewrite first_upsert by (apply bool_decide_eq_true, ul_key_stored).
    simpl. by rewrite ul_stored_twice.
  - rewrite first_upsert_other; [done| |].
    + apply bool_decide_eq_false. by rewrite ul_key_stored.
    + intros a ->%bool_decide_eq_true. by apply bool_decide_eq_false.
Qed.
End connection_laws.

(** [save], then [find], of a kind with an upserting [save]. *)
Lemma Connection_save_find `{UpsertLaws E} `{SqlEngine} (c : conn) (l : list E) (e : E) id :
  stores E c l -> ul_fits e = true -> el_id_ok id = true ->
  exists c1 c2,
    exec_prog (Connection_save e) c = (Ok e, c1) /\
    exec_prog (Connection_find id) c1 =
      (Ok (if bool_decide (el_key e = id) then Some (el_stored e)
           else el_stored <$> first (with_key id) l), c2) /\
    stores E c1 (upsert (with_key (el_key e)) (el_stored e) l).
Proof.
  intros [Hc Hl] Hf Hid. destruct (Connection_save_run _ _ _ Hl Hf) as (v1 & Hr & Hb).
  destruct (exec_prog_run _ _ _ _ Hc Hr) as (c1 & Ex1 & Hv1 & Hc1).
  pose proof (proj1 Hb) as Hrep. rewrite <-Hv1 in Hrep.
  pose proof (el_find_one _ _ id Hrep Hid) as Hfind. fold (with_key (E := E) id) in Hfind.
  rewrite first_with_key_upsert in Hfind.
  destruct (exec_prog_run _ _ _ _ Hc1 Hfind) as (c2 & Ex2 & Hv2 & Hc2).
  exists c1, c2. by split_and!.
Qed.

(** [remove] of a key that exactly one entity has takes it away; otherwise it fails with the
    missing-key error of the entity and changes nothing. *)
Lemma remove_keys_one {E} (key : E -> bytes) id l :
  remove_keys key [id] l = List.filter (fun e => negb (bool_decide (key e = id))) l.
Proof. done. Qed.

(** [remove], as a program. *)
Lemma Connection_remove_run `{EntityLaws E} v (l : list E) id :
  rep el_layout v l -> el_id_ok id = true ->
  let l' := List.filter (fun e => negb (bool_decide (el_key e = id))) l in
  exists v', run (Connection_remove E id) v =
    (if bool_decide (length l = S (length l')) then Ok ()
     else Err (MissingKeyInStore (to_missing_key_err_kind E)), v') /\
    rep el_layout v' (if bool_decide (length l = S (length l')) then l' else l).
Proof.
  intros Hl Hid l'.
  assert (forall i, i ∈ [id] -> el_id_ok i = true) as Hids.
  { by intros i ->%list_elem_of_singleton. }
  pose proof (el_delete _ _ [id] Hl Hids) as Hd. cbv zeta in Hd.
  rewrite remove_keys_one in Hd. fold l' in Hd. cbn [length] in Hd. rewrite Nat.add_1_r in Hd.
  unfold Connection_remove. case_bool_decide.
  - destruct Hd as (v' & Hd & Hb & _). exists v'. by rewrite (run_bind_ok _ _ _ _ _ Hd).
  - exists v. by rewrite (run_bind_err _ _ _ _ _ Hd).
Qed.

(** [remove] takes away the entity with the given id when there is exactly one, and is
    otherwise refused with the missing-key error of that kind of entity, the table unchanged. *)
Lemma Connection_remove_spec `{EntityLaws E} `{SqlEngine} (c : conn) (l : list E) id :
  stores E c l -> el_id_ok id = true ->
  let l' := List.filter (fun e => negb (bool_decide (el_key e = id))) l in
  exists c', stores E c' (if bool_decide (length l = S (length l')) then l' else l) /\
    exec_prog (Connection_remove E id) c =
      (if bool_decide (length l = S (length l')) then Ok ()
       else Err (MissingKeyInStore (to_missing_key_err_kind E)), c').
Proof.
  intros [Hc Hl] Hid l'. destruct (Connection_remove_run _ _ _ Hl Hid) as (v' & Hr & Hrep).
  fold l' in Hr, Hrep.
  destruct (exec_prog_run _ _ _ _ Hc Hr) as (c' & Hx & Hv' & Hc').
  exists c'. split; [|done]. split; [done|]. by rewrite Hv'.
Qed.

(** ** OpenMLS's key store *)

Section openmls.
Context {V : Type} `{MlsEntity V} `{En : SqlEngine}.

Lemma find_deser_run {E} `{EntityLaws E} (field : E -> bytes) v l k :
  rep el_layout v l -> el_id_ok k = true ->
  run (find_deser (V := V) field k) v =
  (Ok (match el_stored <$> first (with_key k) l with
       | Some e => from_bytes (field e)
       | None => None
       end), v).
Proof.
  intros Hl Hk. unfold find_deser.
  assert (run (pok (Connection_find (E := E) k)) v =
          (Ok (Some (el_stored <$> first (with_key k) l)), v)) as Hp.
  { unfold pok, run, Connection_find. rewrite run_with_then. fold (run (find_one (E := E) k)).
    by rewrite (el_find_one v l k Hl Hk). }
  rewrite (run_bind_ok _ _ _ _ _ Hp). unfold with_key, run. simpl.
  destruct (first _ l) as [e|]; simpl; [|done]. unfold deser.
  by destruct (from_bytes (field (el_stored e))).
Qed.

(** Storing an entity under a key and reading the key back, for one kind of entity. *)
Lemma store_then_find_deser {E} `{UpsertLaws E} (field : E -> bytes) c l (e : E) (x : V) :
  stores E c l -> ul_fits e = true -> el_id_ok (el_key e) = true ->
  from_bytes (field (el_stored e)) = Some x ->
  exists c1 c2, exec_prog (Connection_save e;; mret ()) c = (Ok (), c1) /\
    exec_prog (find_deser (V := V) field (el_key e)) c1 = (Ok (Some x), c2).
Proof.
  intros [Hc Hl] Hf Hid Hx. destruct (Connection_save_run _ _ _ Hl Hf) as (v1 & Hr & Hb).
  assert (run (Connection_save e;; mret ()) (conn_view c) = (Ok (), v1)) as Hr1.
  { by rewrite (run_bind_ok _ _ _ _ _ Hr). }
  destruct (exec_prog_run _ _ _ _ Hc Hr1) as (c1 & Ex1 & <- & Hc1).
  pose proof (find_deser_run field _ _ (el_key e) (proj1 Hb) Hid) as Hfind.
  rewrite first_with_key_upsert, bool_decide_true, Hx in Hfind by done.
  destruct (exec_prog_run _ _ _ _ Hc1 Hfind) as (c2 & Ex2 & _ & _). eauto.
Qed.

(** Storing a signature keypair, which is inserted, and reading its key back. *)
Lemma store_then_find_keypair c l (s : MlsSignatureKeyPair) :
  stores MlsSignatureKeyPair c l -> MlsSignatureKeyPair_fits s = true ->
  0 <= sk_signature_scheme s <= u16_max ->
  exists c1 c2, exec_prog (Connection_save s;; mret ()) c = (Ok (), c1) /\
    exec_prog (find_deser (V := V) sk_keypair (sk_pk s)) c1 =
      (Ok (from_bytes (sk_keypair (default s (first (with_key (sk_pk s)) l)))), c2).
Proof.
  intros [Hc Hl] Hf Hs. destruct (MlsSignatureKeyPair_insert_ok _ _ _ Hl Hf Hs) as (v1 & Hr & Hb).
  assert (run (Connection_save s;; mret ()) (conn_view c) = (Ok (), v1)) as Hr1.
  { unfold Connection_save. change (save s) with (_ ← MlsSignatureKeyPair_insert s; mret ()).
    rewrite !prog_bind_assoc. by rewrite (run_bind_ok _ _ _ _ _ Hr). }
  destruct (exec_prog_run _ _ _ _ Hc Hr1) as (c1 & Ex1 & <- & Hc1).
  pose proof (find_deser_run sk_keypair _ _ (sk_pk s) (proj1 Hb) eq_refl) as Hfind.
  rewrite first_app in Hfind.
  destruct (exec_prog_run _ _ _ _ Hc1 Hfind) as (c2 & Ex2 & _ & _). exists c1, c2.
  split; [done|]. rewrite Ex2. destruct (first _ l); [done|]. cbn [first default].
  unfold with_key. cbn. by rewrite bool_decide_true.
Qed.

(** The tables of OpenMLS's key store hold entities, that of the signature keypairs these. *)
Definition ks_tables (c : conn) (keypairs : list MlsSignatureKeyPair) : Prop :=
  (exists l, stores MlsKeyPackage c l) /\ (exists l, stores MlsHpkePrivateKey c l) /\
  (exists l, stores MlsPskBundle c l) /\ (exists l, stores MlsEncryptionKeyPair c l) /\
  (exists l, stores MlsEpochEncryptionKeyPair c l) /\ stores MlsSignatureKeyPair c keypairs.

(** C27: what OpenMLS stores under a key it reads back, as long as neither the key nor the encoded
    value is longer than a blob may be: a key package, an HPKE key, a PSK, an encryption or an
    epoch keypair replaces what was under the key; a signature keypair does not, so that the
    oldest one under the key is what is read. (Group states cannot be stored: [ks_guards].) *)
Theorem ks_store_read (c : conn) keypairs (k : bytes) (x : V) (b : bytes) :
  ks_tables c keypairs -> k <> [] -> to_stdvec x = Some b ->
  mls_entity_id V <> GroupStateId -> 0 <= signature_scheme x <= u16_max ->
  is_ok (check_buffer_size (blen k)) = true -> is_ok (check_buffer_size (blen b)) = true ->
  let old := match mls_entity_id V with
    | SignatureKeyPairId => first (fun s => bool_decide (sk_pk s = k)) keypairs
    | _ => None
    end in
  exists c1 c2, exec_prog (ks_store k x) c = (Ok (), c1) /\
    exec_prog (ks_read (V := V) k) c1 =
      (Ok (match old with Some s => from_bytes (sk_keypair s) | None => Some x end), c2).
Proof.
  intros ((l1 & L1) & (l2 & L2) & (l3 & L3) & (l4 & L4) & (l5 & L5) & L6) Hk Hb Hg Hs Hck Hcb old. subst old.
  unfold ks_store, ks_read, ser. destruct k as [|k0 k1]; [done|]. rewrite Hb.
  change (plift (ok_or KeyStoreValueTransformError (Some b)) ≫= ?f) with (f b). cbv beta.
  apply from_to_bytes in Hb. destruct (mls_entity_id V); try done.
  - assert (MlsSignatureKeyPair_fits (MkMlsSignatureKeyPair (signature_scheme x) (k0 :: k1) b []) = true) as Hf.
    { unfold MlsSignatureKeyPair_fits. simpl. by rewrite Hck, Hcb. }
    destruct (store_then_find_keypair _ _ _ L6 Hf Hs) as (c1 & c2 & Hst & Hrd). exists c1, c2.
    split; [exact Hst|]. cbn [sk_pk] in Hrd. rewrite Hrd. unfold with_key. cbn [el_key MlsSignatureKeyPair_laws].
    destruct (first _ keypairs); [done|]. cbn [default sk_keypair]. by rewrite Hb.
  - refine (store_then_find_deser hpke_sk c l2 (MkMlsHpkePrivateKey b (k0 :: k1)) x L2 _ eq_refl Hb).
    simpl. unfold MlsHpkePrivateKey_fits. simpl. by rewrite Hck, Hcb.
  - refine (store_then_find_deser kp_keypackage c l1 (MkMlsKeyPackage (k0 :: k1) b) x L1 _ eq_refl Hb).
    simpl. unfold MlsKeyPackage_fits. simpl. by rewrite Hck, Hcb.
  - refine (store_then_find_deser psk_psk c l3 (MkMlsPskBundle (k0 :: k1) b) x L3 _ eq_refl Hb).
    simpl. unfold MlsPskBundle_fits. simpl. by rewrite Hck, Hcb.
  - refine (store_then_find_deser ek_sk c l4 (MkMlsEncryptionKeyPair b (k0 :: k1)) x L4 _ eq_refl Hb).
    simpl. unfold MlsEncryptionKeyPair_fits. simpl. by rewrite Hck, Hcb.
  - refine (store_then_find_deser eek_keypairs c l5 (MkMlsEpochEncryptionKeyPair (k0 :: k1) b) x L5 _ eq_refl Hb).
    simpl. unfold MlsEpochEncryptionKeyPair_fits. simpl. by rewrite Hck, Hcb.
Qed.

(** The guards of OpenMLS's key store: an empty key is refused by [store], absent for
    [read] and ignored by [delete]; group states are refused by [store]; none of them touches
    the database. *)
Theorem ks_guards (c : conn) (k : bytes) (x : V) :
  (exec_prog (ks_store [] x) c = (Err MlsKeyStoreError, c) /\
   exec_prog (ks_read (V := V) []) c = (Ok None, c) /\
   exec_prog (ks_delete V []) c = (Ok (), c)) /\
  (mls_entity_id V = GroupStateId -> k <> [] -> is_Some (to_stdvec x) ->
   exec_prog (ks_store k x) c = (Err IncorrectApiUsage, c)).
Proof.
  split; [done|]. intros Hid Hk [b Hb]. unfold ks_store, ser. destruct k as [|k0 k1]; [done|].
  by rewrite Hb, Hid.
Qed.

(** [mls_fetch_keypackages] gives the [n] newest key packages, newest first, without those
    that do not decode, and writes nothing. *)
Lemma mls_fetch_keypackages_spec (c : conn) (l : list MlsKeyPackage) n :
  stores MlsKeyPackage c l ->
  exists c', exec_prog (mls_fetch_keypackages (V := V) n) c =
    (Ok (omap (fun kp => from_bytes (kp_keypackage kp)) (take (Z.to_nat n) (reverse l))), c') /\
    stores MlsKeyPackage c' l.
Proof.
  intros [Hc Hl]. destruct Hl as (kk & Hk & ->). pose proof Hk as (_ & _ & Hs).
  assert (run (mls_fetch_keypackages (V := V) n) (conn_view c) =
    (Ok (omap (fun kp => from_bytes (kp_keypackage kp)) (take (Z.to_nat n) (reverse (snd <$> kk)))),
     conn_view c)) as Hr.
  { unfold mls_fetch_keypackages. erewrite run_bind_ok; [reflexivity|].
    eapply run_with_tx_look; [exact Hk| |reflexivity].
    etransitivity; [apply (list_all_body MlsKeyPackage_layout _ _ _ _ _ kk _
      (MlsKeyPackage_reads_row _) Hs)|].
    simpl. by rewrite list_fmap_id. }
  destruct (exec_prog_run _ _ _ _ Hc Hr) as (c' & Hx & Hv & Hc').
  exists c'. split; [done|]. split; [done|]. rewrite Hv. by exists kk.
Qed.
End openmls.

(** ** The MLS queries *)

(** [mls_pending_groups_load] returns the state that was saved followed by the bytes of the
    parent id: a pending group with a parent does not come back as it went in. *)
Lemma mls_pending_groups_load_spec `{SqlEngine} (c : conn) l g cfg id parent :
  healthy c -> rep PersistedMlsPendingGroup_layout (conn_view c) l -> NoDup (ppg_id <$> l) ->
  PersistedMlsPendingGroup_fits (MkPersistedMlsPendingGroup id g parent cfg) = true ->
  (blen cfg <= i32_max)%Z ->
  exists c1 c2, exec_prog (mls_pending_groups_save id g cfg parent) c = (Ok (), c1) /\
    exec_prog (mls_pending_groups_load id) c1 = (Ok (g ++ default [] parent, cfg), c2).
Proof.
  intros Hc Hl Hnd Hf Hcfg.
  destruct (PersistedMlsPendingGroup_save_ok _ _ _ Hl Hnd Hf Hcfg) as (v1 & Hr & Hb & _).
  assert (run (mls_pending_groups_save id g cfg parent) (conn_view c) = (Ok (), v1)) as Hr1.
  { unfold mls_pending_groups_save, Connection_save. rewrite prog_bind_assoc.
    by rewrite (run_bind_ok _ _ _ _ _ Hr). }
  destruct (exec_prog_run _ _ _ _ Hc Hr1) as (c1 & Ex1 & <- & Hc1).
  assert (run (mls_pending_groups_load id) (conn_view c1) =
    (Ok (g ++ default [] parent, cfg), conn_view c1)) as Hr2.
  { unfold mls_pending_groups_load, Connection_find.
    rewrite (run_bind_ok _ _ _ _ _ (PersistedMlsPendingGroup_find_one_ok _ _ id Hb)).
    rewrite first_upsert by (by apply bool_decide_eq_true). simpl.
    unfold PersistedMlsPendingGroup_stored. by destruct parent as [[|]|]. }
  destruct (exec_prog_run _ _ _ _ Hc1 Hr2) as (c2 & Ex2 & _ & _). eauto.
Qed.

(** An enrollment is popped once: the first [pop] returns its content and takes it away, the
    next one fails with the missing-key error. *)
Lemma pop_e2ei_enrollment_once `{SqlEngine} (c : conn) l id content :
  stores E2eiEnrollment c l -> first (with_key id) l = Some (MkE2eiEnrollment id content) ->
  NoDup (en_id <$> l) ->
  exists c1 c2, exec_prog (pop_e2ei_enrollment id) c = (Ok content, c1) /\
    exec_prog (pop_e2ei_enrollment id) c1 = (Err (MissingKeyInStore MissingE2eiEnrollment), c2).
Proof.
  intros [Hc Hl] Hf Hnd.
  set (l' := List.filter (fun e => negb (bool_decide (en_id e = id))) l).
  assert (bool_decide (length l = length l' + 1)%nat = true) as Hlen.
  { apply bool_decide_eq_true. apply first_split in Hf as (l1 & l2 & -> & _ & _).
    subst l'. rewrite filter_app. cbn [List.filter en_id]. rewrite bool_decide_true by done.
    cbn [negb]. rewrite fmap_app, fmap_cons in Hnd. apply list.NoDup_app in Hnd as (_ & N1 & N2).
    apply list.NoDup_cons in N2 as [N2 _].
    assert (forall k, id ∉ en_id <$> k ->
      List.filter (fun e => negb (bool_decide (en_id e = id))) k = k) as Hid.
    { induction k as [|e k IH]; [done|]. rewrite fmap_cons, not_elem_of_cons. intros [He Hk].
      cbn [List.filter]. rewrite bool_decide_false by done. cbn [negb]. by rewrite IH. }
    rewrite !Hid, !length_app by (done || (intros Hin; eapply N1; [exact Hin|set_solver])).
    simpl. lia. }
  pose proof (el_find_one _ _ id Hl eq_refl) as Hfind. fold (with_key (E := E2eiEnrollment) id) in Hfind.
  rewrite Hf in Hfind.
  pose proof (el_delete _ _ [id] Hl (fun _ _ => eq_refl)) as Hd. cbv zeta in Hd.
  rewrite remove_keys_one in Hd. change el_key with en_id in Hd. fold l' in Hd. cbn [length] in Hd.
  rewrite Hlen in Hd. destruct Hd as (v1 & Hd & Hb & _).
  assert (run (pop_e2ei_enrollment id) (conn_view c) = (Ok content, v1)) as Hr1.
  { unfold pop_e2ei_enrollment, Connection_find. rewrite (run_bind_ok _ _ _ _ _ Hfind).
    change (plift (ok_or ?e (el_stored <$> Some ?x)) ≫= ?f) with (f x). cbv beta.
    unfold Connection_remove. rewrite prog_bind_assoc. by rewrite (run_bind_ok _ _ _ _ _ Hd). }
  destruct (exec_prog_run _ _ _ _ Hc Hr1) as (c1 & Ex1 & <- & Hc1).
  assert (run (pop_e2ei_enrollment id) (conn_view c1) =
    (Err (MissingKeyInStore MissingE2eiEnrollment), conn_view c1)) as Hr2.
  { unfold pop_e2ei_enrollment, Connection_find.
    rewrite (run_bind_ok _ _ _ _ _ (el_find_one _ _ id Hb eq_refl)).
    assert (first (fun e => bool_decide (el_key e = id)) l' = None) as ->; [|done].
    apply first_None. intros e He. apply list_elem_of_In, filter_In in He as [_ He].
    by apply negb_true_iff in He. }
  destruct (exec_prog_run _ _ _ _ Hc1 Hr2) as (c2 & Ex2 & _ & _). eauto.
Qed.

(** ** The schema, and examples on a concrete engine

    The tables as the migrations leave them
    ([keystore/src/connection/platform/generic/migrations]). *)

Definition keystore_schema : db :=
  list_to_map ((fun p : string * list (string * coldecl) => (p.1, Table p.2 [])) <$> [
    ("mls_groups", ly_cols PersistedMlsGroup_layout);
    ("mls_pending_groups", ly_cols PersistedMlsPendingGroup_layout);
    ("mls_pending_messages", ly_cols MlsPendingMessage_layout);
    ("mls_keypackages", ly_cols MlsKeyPackage_layout);
    ("mls_hpke_private_keys", ly_cols MlsHpkePrivateKey_layout);
    ("mls_encryption_keypairs", ly_cols MlsEncryptionKeyPair_layout);
    ("mls_epoch_encryption_keypairs", ly_cols MlsEpochEncryptionKeyPair_layout);
    ("mls_psk_bundles", ly_cols MlsPskBundle_layout);
    ("mls_credentials", ly_cols MlsCredential_layout);
    ("mls_signature_keypairs", ly_cols MlsSignatureKeyPair_layout);
    ("e2ei_enrollment", ly_cols E2eiEnrollment_layout);
    ("e2ei_crls", ly_cols E2eiCrl_layout);
    ("e2ei_intermediate_certs", ly_cols E2eiIntermediateCert_layout);
    ("e2ei_acme_ca", zero_cols);
    ("e2ei_refresh_token", zero_cols);
    ("proteus_prekeys", ly_cols ProteusPrekey_layout);
    ("proteus_sessions", ly_cols ProteusSession_layout);
    ("proteus_identities", ly_cols ProteusIdentity_layout)]).

(** A fresh database on the engine that never fails. *)
Definition fresh_conn : view * list bool := (View keystore_schema None 0 1700000000, []).

Lemma rep_empty {E} (ly : layout E) v :
  v_tx v = None -> v_db v !! ly_table ly = Some (Table (ly_cols ly) []) -> rep ly v [].
Proof.
  intros Htx Ht. exists []. split; [|done]. split; [done|]. split; [done|].
  split; [constructor|]. split; [constructor|]. split; [constructor|].
  unfold unique_ok. apply forallb_forall. intros [c d] _. by destruct d.
Qed.

Definition example_group : PersistedMlsGroup :=
  MkPersistedMlsGroup (ascii_bytes "group") (ascii_bytes "state") (Some []).

Lemma fresh_stores_groups : stores PersistedMlsGroup (fresh_conn : @conn ref_engine) [].
Proof. split; [done|]. by apply rep_empty. Qed.

Lemma save_find_group :
  stores PersistedMlsGroup (fresh_conn : @conn ref_engine) [] /\
  exists c1 c2,
    exec_prog (Connection_save example_group) (fresh_conn : @conn ref_engine) =
      (Ok example_group, c1) /\
    exec_prog (Connection_find (ascii_bytes "group")) c1 =
      (Ok (Some (MkPersistedMlsGroup (ascii_bytes "group") (ascii_bytes "state") None)), c2) /\
    stores PersistedMlsGroup c1 (upsert (with_key (ascii_bytes "group"))
      (PersistedMlsGroup_stored example_group) []).
Proof.
  split; [exact fresh_stores_groups|].
  exact (Connection_save_find (E := PersistedMlsGroup) fresh_conn [] example_group (ascii_bytes "group")
    fresh_stores_groups eq_refl eq_refl).
Defined.

Lemma Connection_remove_spec_witness :
  exists c', stores PersistedMlsGroup (c' : @conn ref_engine) [] /\
    exec_prog (Connection_remove PersistedMlsGroup (ascii_bytes "group"))
      (fresh_conn : @conn ref_engine) = (Err (MissingKeyInStore MlsGroupMissing), c').
Proof.
  exact (Connection_remove_spec (E := PersistedMlsGroup) fresh_conn [] (ascii_bytes "group") fresh_stores_groups eq_refl).
Defined.

(** A decoder for the examples: key packages that are their own encoding. *)
#[export] Instance bytes_serde : Serde bytes := {| to_stdvec := Some; from_bytes := Some |}.

Lemma bytes_from_to (v b : bytes) : to_stdvec v = Some b -> from_bytes b = Some v.
Proof. by intros [= ->]. Qed.

#[export] Instance example_mls_entity : MlsEntity bytes :=
  {| mls_entity_id := KeyPackageId; signature_scheme := fun _ => 0;
     from_to_bytes := bytes_from_to |}.

Lemma fresh_ks_tables : ks_tables (En := ref_engine) fresh_conn [].
Proof. split_and!; try (exists []); (split; [done|by apply rep_empty]). Qed.

Lemma ks_store_read_witness :
  exists c1 c2, exec_prog (ks_store (ascii_bytes "ref") (ascii_bytes "kp"))
      (fresh_conn : @conn ref_engine) = (Ok (), c1) /\
    exec_prog (ks_read (ascii_bytes "ref")) c1 = (Ok (Some (ascii_bytes "kp")), c2).
Proof.
  exact (ks_store_read (En := ref_engine) fresh_conn [] (ascii_bytes "ref") (ascii_bytes "kp")
    (ascii_bytes "kp") fresh_ks_tables ltac:(done) eq_refl ltac:(done) ltac:(done)
    eq_refl eq_refl).
Defined.

Definition group_entity : MlsEntity bytes :=
  {| mls_entity_id := GroupStateId; signature_scheme := fun _ => 0;
     from_to_bytes := bytes_from_to |}.

Lemma ks_guards_witness :
  exec_prog (ks_store (H := group_entity) (ascii_bytes "ref") (ascii_bytes "kp"))
    (fresh_conn : @conn ref_engine) = (Err IncorrectApiUsage, fresh_conn).
Proof.
  apply (ks_guards (H := group_entity) (En := ref_engine) fresh_conn (ascii_bytes "ref")
    (ascii_bytes "kp")); [done|done|by eexists].
Defined.

Lemma mls_fetch_keypackages_spec_witness :
  exists c', exec_prog (mls_fetch_keypackages (V := bytes) 2) (fresh_conn : @conn ref_engine) =
    (Ok [], c') /\ stores MlsKeyPackage c' [].
Proof.
  apply (mls_fetch_keypackages_spec (En := ref_engine) fresh_conn [] 2).
  split; [done|by apply rep_empty].
Defined.

(** Two bytes of parent id end up in the state. *)
Lemma mls_pending_groups_load_spec_witness :
  exists c1 c2,
    exec_prog (mls_pending_groups_save (ascii_bytes "id") (ascii_bytes "state") (ascii_bytes "cfg")
      (Some (ascii_bytes "up"))) (fresh_conn : @conn ref_engine) = (Ok (), c1) /\
    exec_prog (mls_pending_groups_load (ascii_bytes "id")) c1 =
      (Ok (ascii_bytes "stateup", ascii_bytes "cfg"), c2).
Proof.
  apply (mls_pending_groups_load_spec (H := ref_engine) fresh_conn [] (ascii_bytes "state")
    (ascii_bytes "cfg") (ascii_bytes "id") (Some (ascii_bytes "up")));
    [done|by apply rep_empty|constructor|reflexivity|done].
Defined.

Definition one_enrollment : view * list bool :=
  (View (<["e2ei_enrollment" := Table (ly_cols E2eiEnrollment_layout)
     [(1, ly_row E2eiEnrollment_layout (MkE2eiEnrollment (ascii_bytes "e") (ascii_bytes "x")))]]>
     keystore_schema) None 1 1700000000, []).

Lemma pop_e2ei_enrollment_twice :
  exists c1 c2, exec_prog (pop_e2ei_enrollment (ascii_bytes "e"))
      (one_enrollment : @conn ref_engine) = (Ok (ascii_bytes "x"), c1) /\
    exec_prog (pop_e2ei_enrollment (ascii_bytes "e")) c1 =
      (Err (MissingKeyInStore MissingE2eiEnrollment), c2).
Proof.
  apply (pop_e2ei_enrollment_once (H := ref_engine) one_enrollment
    [MkE2eiEnrollment (ascii_bytes "e") (ascii_bytes "x")]); [|reflexivity|].
  - split; [done|]. exists [(1, MkE2eiEnrollment (ascii_bytes "e") (ascii_bytes "x"))].
    split; [|done]. split_and!; try done; repeat constructor.
  - apply NoDup_singleton.
Defined.
