(* ===== verification/KeystoreSpec.v ===== *)
(** * Particular entities, on every engine that works

    The search of a free prekey id, the single Proteus identity, the entities of which there is
    one at most, and the children of a group: what sequences of calls on them answer. *)

From S2P Require Import Prelude KsError Sql SqlSpec Entity TableFrame.
From S2P Require Import MlsGroups E2eiEntities ProteusEntities Keystore.
Open Scope Z_scope.

Section specs.
Context `{SqlEngine}.

Lemma exec_run {A} (p : prog A) c r v' :
  healthy c -> run p (conn_view c) = (r, v') ->
  exists c', exec_prog p c = (r, c') /\ conn_view c' = v' /\ healthy c'.
Proof. apply exec_prog_run. Qed.

(** ** Prekeys *)

Definition prekeys (c : conn) (l : list ProteusPrekey) : Prop :=
  healthy c /\ rep ProteusPrekey_layout (conn_view c) l.

(** [get_free_id] finds the smallest prekey id from 1 on that is not in use, and reports that
    there is none only when all of 1 to 65534 are; after a prekey has been stored under it, it
    can be read, and it is not given out again. *)
Lemma get_free_id_spec c l :
  prekeys c l ->
  exists r c1, exec_prog ProteusPrekey_get_free_id c = (r, c1) /\ prekeys c1 l /\
  match r with
  | Err e => e = NoFreePrekeyId /\ forall m, 1 <= m < u16_max -> m ∈ prk_id <$> l
  | Ok n => 1 <= n < u16_max /\ n ∉ prk_id <$> l /\ (forall m, 1 <= m < n -> m ∈ prk_id <$> l) /\
      forall key, blen key <= i32_max ->
      let x := MkProteusPrekey n (u16_to_le_bytes n) key in
      exists c2 c3 r' c4, exec_prog (ProteusPrekey_save x) c1 = (Ok (), c2) /\
        exec_prog (ProteusPrekey_find_id n) c2 = (Ok (Some x), c3) /\
        exec_prog ProteusPrekey_get_free_id c3 = (r', c4) /\ r' <> Ok n
  end.
Proof.
  intros [Hc Hl]. destruct (ProteusPrekey_get_free_id_ok _ _ Hl) as (r & Hr & Hspec).
  destruct (exec_run _ _ _ _ Hc Hr) as (c1 & Hx1 & Hv1 & Hc1). exists r, c1.
  split; [done|]. split; [split; [done|]; by rewrite Hv1|].
  destruct r as [n|e]; [|done]. destruct Hspec as (Hn & Hfree & Hall). split_and!; [lia..|done|done|].
  intros key Hkey x. rewrite <-Hv1 in Hl.
  destruct (ProteusPrekey_save_ok _ _ x Hl Hkey) as (v2 & Hs & Hb & _).
  { split; [|done]. simpl. lia. }
  destruct (exec_run _ _ _ _ Hc1 Hs) as (c2 & Hx2 & <- & Hc2).
  pose proof (ProteusPrekey_find_id_ok _ _ n Hb) as Hf.
  rewrite first_upsert in Hf by (by apply bool_decide_eq_true).
  destruct (exec_run _ _ _ _ Hc2 Hf) as (c3 & Hx3 & Hv3 & Hc3).
  rewrite <-Hv3 in Hb. destruct (ProteusPrekey_get_free_id_ok _ _ Hb) as (r' & Hr' & Hspec').
  destruct (exec_run _ _ _ _ Hc3 Hr') as (c4 & Hx4 & _). exists c2, c3, r', c4.
  split_and!; [done..|]. intros ->. destruct Hspec' as (_ & Hn' & _). apply Hn'.
  apply list_elem_of_fmap. exists x. split; [done|].
  pose proof (first_upsert (fun y => bool_decide (prk_id y = n)) x l) as Hin.
  apply first_Some in Hin as [Hin _]; [done|]. by apply bool_decide_eq_true.
Qed.

(** The loop of [get_free_id] as the source has it, without fuel: one turn looks whether the id is
    the limit and asks the engine, which may answer anything or fail, whether the id is in use. *)
Inductive free_id_loop : Z -> conn -> KsResult Z -> conn -> Prop :=
  | loop_limit id c : id = u16_max -> free_id_loop id c (Err NoFreePrekeyId) c
  | loop_error id c e c' : id < u16_max ->
      exec_prog (ProteusPrekey_find_id id) c = (Err e, c') -> free_id_loop id c (Err e) c'
  | loop_break id c c' : id < u16_max ->
      exec_prog (ProteusPrekey_find_id id) c = (Ok None, c') -> free_id_loop id c (Ok id) c'
  | loop_next id c x c1 r c' : id < u16_max ->
      exec_prog (ProteusPrekey_find_id id) c = (Ok (Some x), c1) ->
      free_id_loop (id + 1) c1 r c' -> free_id_loop id c r c'.

Lemma exec_prog_bind {A B} (m : prog A) (f : A -> prog B) c :
  exec_prog (m ≫= f) c =
  match exec_prog m c with
  | (Ok a, c') => exec_prog (f a) c'
  | (Err e, c') => (Err e, c')
  end.
Proof.
  unfold mbind, prog_bind. rewrite exec_prog_then. by destruct (exec_prog m c) as [[a|e] c'].
Qed.

(** From [id] on, [u16_max - id + 1] turns are enough. *)
Lemma free_id_loop_ends fuel id c :
  id <= u16_max -> u16_max - id < Z.of_nat fuel ->
  exists r c', exec_prog (ProteusPrekey_get_free_id_from fuel id) c = (r, c') /\
    free_id_loop id c r c'.
Proof.
  revert id c. induction fuel as [|fuel IH]; intros id c Hid Hf; [lia|].
  cbn [ProteusPrekey_get_free_id_from]. destruct (Z.eqb_spec id u16_max) as [->|Hne].
  { eexists _, _. split; [done|]. by constructor. }
  rewrite exec_prog_bind.
  destruct (exec_prog (ProteusPrekey_find_id id) c) as [[[x|]|e] c1] eqn:Hx.
  - destruct (IH (id + 1) c1 ltac:(lia) ltac:(lia)) as (r & c' & -> & Hl). eexists _, _.
    split; [done|]. eapply loop_next; [lia|done..].
  - eexists _, _. split; [done|]. apply loop_break; [lia|done].
  - eexists _, _. split; [done|]. apply loop_error; [lia|done].
Qed.

Lemma free_id_loop_det id c r c' r2 c2 :
  free_id_loop id c r c' -> free_id_loop id c r2 c2 -> r2 = r /\ c2 = c'.
Proof.
  intros Hl. revert r2 c2. induction Hl; intros r2 c2 H2; inversion H2; subst; try lia;
    repeat match goal with
    | Ha : exec_prog ?p ?c = _, Hb : exec_prog ?p ?c = _ |- _ => rewrite Ha in Hb; simplify_eq
    end; auto.
Qed.

(** C15: The search of a free prekey id ends on every connection, whatever the engine answers and
    whichever of its statements fail: the loop of the source, which looks at one id after the other
    and never counts past [u16::MAX], has an outcome, only one, and the search returns it; more
    fuel changes nothing. *)
Theorem get_free_id_terminates (c : conn) :
  exists r c', free_id_loop 1 c r c' /\ (forall r2 c2, free_id_loop 1 c r2 c2 -> r2 = r /\ c2 = c') /\
    exec_prog ProteusPrekey_get_free_id c = (r, c') /\
    (forall fuel, (Z.to_nat u16_max <= fuel)%nat ->
       exec_prog (ProteusPrekey_get_free_id_from fuel 1) c = (r, c')) /\
    (forall n, r = Ok n -> 1 <= n < u16_max).
Proof.
  assert (forall fuel, (Z.to_nat u16_max <= fuel)%nat -> exists r c',
    exec_prog (ProteusPrekey_get_free_id_from fuel 1) c = (r, c') /\ free_id_loop 1 c r c') as Hends.
  { intros fuel Hf. apply free_id_loop_ends; unfold u16_max in *; lia. }
  destruct (Hends (Z.to_nat u16_max) ltac:(done)) as (r & c' & Hx & Hl). exists r, c'.
  split_and!; [done| |done| |].
  - intros r2 c2. by apply free_id_loop_det.
  - intros fuel Hf. destruct (Hends fuel Hf) as (r2 & c2 & -> & Hl2).
    by destruct (free_id_loop_det _ _ _ _ _ _ Hl Hl2) as [-> ->].
  - clear Hx Hends. assert (forall id, free_id_loop id c r c' -> 1 <= id ->
      forall n, r = Ok n -> 1 <= n < u16_max) as Hn; [|by apply (Hn 1)].
    clear Hl. intros id Hl. induction Hl; intros Hid n [= ->]; try lia. apply IHHl; [lia|done].
Qed.

(** ** The Proteus identity *)

(** There is one Proteus identity at most: the first one that is stored stays, and storing
    another one later reports success and changes nothing. *)
Lemma ProteusIdentity_first_stays c x y id :
  healthy c -> rep ProteusIdentity_layout (conn_view c) [] ->
  blen (pi_sk x) = SK_KEY_SIZE -> blen (pi_pk x) = PK_KEY_SIZE ->
  blen (pi_sk y) <= i32_max -> blen (pi_pk y) <= i32_max ->
  exists c1 c2 c3, exec_prog (ProteusIdentity_save x) c = (Ok (), c1) /\
    exec_prog (ProteusIdentity_save y) c1 = (Ok (), c2) /\ conn_view c2 = conn_view c1 /\
    exec_prog (ProteusIdentity_find_one id) c2 = (Ok (Some x), c3).
Proof.
  intros Hc Hl Hsk Hpk Hsky Hpky.
  pose proof (ProteusIdentity_save_ok _ _ x Hl) as Hs.
  destruct Hs as (v1 & Hs & Hb & _); [by rewrite Hsk|by rewrite Hpk|].
  destruct (exec_run _ _ _ _ Hc Hs) as (c1 & Hx1 & <- & Hc1).
  pose proof (ProteusIdentity_save_ok _ _ y Hb Hsky Hpky) as Hs2.
  destruct (exec_run _ _ _ _ Hc1 Hs2) as (c2 & Hx2 & Hv2 & Hc2).
  rewrite <-Hv2 in Hb. pose proof (ProteusIdentity_find_one_ok _ _ id Hb) as Hf.
  simpl in Hf. rewrite Hsk, Hpk, !Z.eqb_refl in Hf.
  destruct (exec_run _ _ _ _ Hc2 Hf) as (c3 & Hx3 & _). by exists c1, c2, c3.
Qed.

(** ** Entities of which there is one at most *)

Definition unique_holds (t : string) (c : conn) (o : option bytes) : Prop :=
  healthy c /\ holds_unique t (conn_view c) o.

(** Replacing the refresh token puts the new one in the place of the old one; replacing the
    root certificate works only the first time: a second one is a constraint violation, and the
    first certificate is what is read. *)
Lemma replace_unique_spec c o a b x :
  unique_holds "e2ei_refresh_token" c o -> unique_holds "e2ei_acme_ca" c None ->
  is_ok (check_buffer_size (blen (rt_content x))) = true ->
  is_ok (check_buffer_size (blen (aca_content a))) = true ->
  is_ok (check_buffer_size (blen (aca_content b))) = true ->
  (exists c1 c2, exec_prog (E2eiRefreshToken_replace x) c = (Ok (), c1) /\
     exec_prog E2eiRefreshToken_find_unique c1 = (Ok x, c2)) /\
  (exists c1 c2 c3, exec_prog (E2eiAcmeCA_replace a) c = (Ok (), c1) /\
     exec_prog (E2eiAcmeCA_replace b) c1 = (Err (DbError ConstraintViolation), c2) /\
     exec_prog E2eiAcmeCA_find_unique c2 = (Ok a, c3)).
Proof.
  intros [Hc Ht] [_ Ha] Hx Hfa Hfb. split.
  - destruct (E2eiRefreshToken_replace_ok _ _ _ Ht Hx) as (v1 & Hr & Ht1).
    destruct (exec_run _ _ _ _ Hc Hr) as (c1 & Hx1 & <- & Hc1).
    pose proof (E2eiRefreshToken_find_unique_ok _ _ Ht1) as Hf.
    destruct (exec_run _ _ _ _ Hc1 Hf) as (c2 & Hx2 & _). exists c1, c2. split; [done|].
    rewrite Hx2. by destruct x.
  - destruct (E2eiAcmeCA_replace_ok _ _ _ Ha Hfa) as (v1 & Hr & Ha1).
    destruct (exec_run _ _ _ _ Hc Hr) as (c1 & Hx1 & <- & Hc1).
    pose proof (E2eiAcmeCA_replace_ok _ _ b Ha1 Hfb) as Hr2. simpl in Hr2.
    destruct (exec_run _ _ _ _ Hc1 Hr2) as (c2 & Hx2 & Hv2 & Hc2).
    rewrite <-Hv2 in Ha1. pose proof (E2eiAcmeCA_find_unique_ok _ _ Ha1) as Hf.
    destruct (exec_run _ _ _ _ Hc2 Hf) as (c3 & Hx3 & _). exists c1, c2, c3.
    split_and!; [done..|]. rewrite Hx3. by destruct a.
Qed.

(** ** Parameters of a search *)

(** [find_all] gives the groups in the order they were added, or in the reverse of it; with a
    limit or an offset the text of the query is not SQL and the call is an error, whatever the
    table holds. *)
Lemma find_all_params_spec c l p :
  stores PersistedMlsGroup c l ->
  exists c', exec_prog (Connection_find_all (E := PersistedMlsGroup) p) c =
    (if bool_decide (limit p = None) && bool_decide (offset p = None)
     then Ok (PersistedMlsGroup_stored <$> (if reverse_order p then reverse l else l))
     else Err (DbError SqlInputError), c') /\ stores PersistedMlsGroup c' l.
Proof.
  intros [Hc Hl]. pose proof (PersistedMlsGroup_find_all_ok _ _ p Hl) as Hf.
  destruct (exec_run _ _ _ _ Hc Hf) as (c' & Hx & Hv & Hc'). exists c'. split.
  - unfold Connection_find_all. change (find_all p) with (PersistedMlsGroup_find_all p).
    rewrite Hx, apply_tail_to_sql. by destruct p as [[|] [|] []].
  - split; [done|]. by rewrite Hv.
Qed.

(** ** Children *)

(** A group that is saved with a parent is from then on among the children of that parent, and is
    no child of any other group; what its parent is told to be is the group of that id. *)
Lemma child_groups_spec c l g p parent :
  stores PersistedMlsGroup c l -> ul_fits (E := PersistedMlsGroup) g = true ->
  pg_parent_id g = Some p -> p <> [] -> pg_id parent = p ->
  exists c1 c2 children c3, exec_prog (Connection_save g) c = (Ok g, c1) /\
    exec_prog (PersistedMlsGroup_child_groups parent) c1 = (Ok children, c2) /\
    g ∈ children /\ (forall x, x ∈ children -> pg_parent_id x = Some p) /\
    exec_prog (PersistedMlsGroup_parent_group g) c2 =
      (Ok (PersistedMlsGroup_stored <$> first (with_key p) (upsert (with_key (pg_id g)) g l)), c3).
Proof.
  intros [Hc Hl] Hf Hp Hne Hpar.
  assert (PersistedMlsGroup_stored g = g) as Hst.
  { destruct g as [i st pa]. simpl in Hp. subst pa. unfold PersistedMlsGroup_stored. simpl.
    by destruct p. }
  destruct (Connection_save_run (E := PersistedMlsGroup) _ l g Hl Hf) as (v1 & Hs & Hb & _).
  destruct (exec_run _ _ _ _ Hc Hs) as (c1 & Hx1 & <- & Hc1).
  change (el_stored g) with (PersistedMlsGroup_stored g) in Hb. rewrite Hst in Hb.
  pose proof (PersistedMlsGroup_child_groups_ok _ _ parent Hb) as Hch.
  destruct (exec_run _ _ _ _ Hc1 Hch) as (c2 & Hx2 & Hv2 & Hc2).
  assert (run (PersistedMlsGroup_parent_group g) (conn_view c2) = (Ok (PersistedMlsGroup_stored <$>
    first (with_key p) (upsert (with_key (pg_id g)) g l)), conn_view c2)) as Hpr.
  { unfold PersistedMlsGroup_parent_group. rewrite Hp, Hv2. exact (PersistedMlsGroup_find_one_ok _ _ p Hb). }
  destruct (exec_run _ _ _ _ Hc2 Hpr) as (c3 & Hx3 & _).
  exists c1, c2. eexists. exists c3. split; [exact Hx1|]. split; [exact Hx2|]. split_and!; [| |exact Hx3].
  - rewrite <-Hst at 1. apply list_elem_of_fmap_2, list_elem_of_In, filter_In.
    rewrite Hp. simpl. rewrite bool_decide_true by done. split; [|done]. apply list_elem_of_In.
    assert (first (with_key (pg_id g)) (upsert (with_key (pg_id g)) g l) = Some g) as Hin.
    { apply first_upsert. by apply bool_decide_eq_true. }
    by apply first_Some in Hin as [Hin _].
  - intros x (y & -> & Hy)%list_elem_of_fmap. apply list_elem_of_In, filter_In in Hy as [_ Hy].
    apply bool_decide_eq_true in Hy. simpl. destruct (pg_parent_id y) as [[|]|]; simpl in Hy; congruence.
Qed.
End specs.

(** ** On a fresh database *)

Definition fresh : @conn ref_engine := fresh_conn.

Lemma get_free_id_spec_witness :
  exists c1, exec_prog ProteusPrekey_get_free_id fresh = (Ok 1, c1) /\
    prekeys c1 [].
Proof.
  assert (prekeys fresh []) as Hp by by split; [|apply rep_empty].
  destruct (get_free_id_spec fresh [] Hp) as (r & c1 & Hx & Hc & Hr). exists c1.
  split; [|exact Hc]. rewrite Hx. destruct r as [n|e].
  - destruct Hr as (Hn & _ & Hall & _). assert (n = 1) as ->; [|done].
    destruct (decide (1 < n)) as [Hlt|]; [|lia]. by destruct (not_elem_of_nil 1 (Hall 1 ltac:(lia))).
  - destruct Hr as [_ Hall]. by destruct (not_elem_of_nil 1 (Hall 1 ltac:(unfold u16_max; lia))).
Defined.

Definition example_identity (b : Byte.byte) : ProteusIdentity :=
  MkProteusIdentity (replicate (Z.to_nat SK_KEY_SIZE) b) (replicate (Z.to_nat PK_KEY_SIZE) b).

Lemma ProteusIdentity_first_stays_witness :
  exists c1 c2 c3,
    exec_prog (ProteusIdentity_save (example_identity Byte.x01)) fresh =
      (Ok (), c1) /\
    exec_prog (ProteusIdentity_save (example_identity Byte.x02)) c1 = (Ok (), c2) /\
    conn_view c2 = conn_view c1 /\
    exec_prog (ProteusIdentity_find_one []) c2 = (Ok (Some (example_identity Byte.x01)), c3).
Proof.
  assert (rep ProteusIdentity_layout (conn_view fresh) []) as Hr
    by by apply rep_empty.
  exact (ProteusIdentity_first_stays fresh (example_identity Byte.x01)
    (example_identity Byte.x02) [] eq_refl Hr eq_refl eq_refl ltac:(by vm_compute) ltac:(by vm_compute)).
Defined.

Lemma replace_unique_spec_witness :
  exists c1 c2 c3,
    exec_prog (E2eiAcmeCA_replace (MkE2eiAcmeCA (ascii_bytes "first"))) fresh =
      (Ok (), c1) /\
    exec_prog (E2eiAcmeCA_replace (MkE2eiAcmeCA (ascii_bytes "second"))) c1 =
      (Err (DbError ConstraintViolation), c2) /\
    exec_prog E2eiAcmeCA_find_unique c2 = (Ok (MkE2eiAcmeCA (ascii_bytes "first")), c3).
Proof.
  assert (forall t, t = "e2ei_refresh_token" \/ t = "e2ei_acme_ca" ->
    unique_holds t fresh None) as Hu.
  { by intros t [-> | ->]. }
  exact (proj2 (replace_unique_spec fresh None (MkE2eiAcmeCA (ascii_bytes "first"))
    (MkE2eiAcmeCA (ascii_bytes "second")) (MkE2eiRefreshToken []) (Hu _ (or_introl eq_refl))
    (Hu _ (or_intror eq_refl)) eq_refl eq_refl eq_refl)).
Defined.

Definition child_group : PersistedMlsGroup :=
  MkPersistedMlsGroup (ascii_bytes "child") (ascii_bytes "state") (Some (ascii_bytes "group")).

Lemma child_groups_spec_witness :
  exists c1 children c2,
    exec_prog (Connection_save child_group) fresh = (Ok child_group, c1) /\
    exec_prog (PersistedMlsGroup_child_groups example_group) c1 = (Ok children, c2) /\
    child_group ∈ children.
Proof.
  destruct (child_groups_spec fresh [] child_group (ascii_bytes "group") example_group
    fresh_stores_groups eq_refl eq_refl ltac:(done) eq_refl) as (c1 & c2 & ch & c3 & H1 & H2 & H3 & _).
  by exists c1, ch, c2.
Defined.

Lemma find_all_params_spec_witness :
  exists c', exec_prog (Connection_find_all (E := PersistedMlsGroup) (MkFindParams (Some 1) None false))
    fresh = (Err (DbError SqlInputError), c').
Proof.
  destruct (find_all_params_spec fresh [] (MkFindParams (Some 1) None false) fresh_stores_groups)
    as (c' & Hx & _). by exists c'.
Defined.
