(* ===== verification/KeystoreWrites.v ===== *)
(** * The writes of the key store

    Every call that writes to the native key store, listed: [save], [insert] and [remove] of each
    kind of entity, and the calls of [CryptoKeystoreMls], of [CryptoKeystoreProteus], of
    [PreKeyStore] and of OpenMLS's key store that are made of them. What none of them does when it
    fails, and what each upserting [save] does when it succeeds. *)

From S2P Require Import Prelude KsError Sql SqlSpec Entity TableFrame.
From S2P Require Import MlsGroups MlsPending MlsKeys MlsCredentials E2eiEntities ProteusEntities Keystore KeystoreSpec.
Open Scope Z_scope.

(** ** The kinds of entities and the calls *)

(** The implementations of [EntityBase] (a prekey, which has none here, has its own calls below). *)
Inductive ks_kind : forall E : Type, EntityBase E -> Prop :=
  | kind_MlsCredential : ks_kind MlsCredential _
  | kind_MlsSignatureKeyPair : ks_kind MlsSignatureKeyPair _
  | kind_MlsHpkePrivateKey : ks_kind MlsHpkePrivateKey _
  | kind_MlsEncryptionKeyPair : ks_kind MlsEncryptionKeyPair _
  | kind_MlsEpochEncryptionKeyPair : ks_kind MlsEpochEncryptionKeyPair _
  | kind_MlsPskBundle : ks_kind MlsPskBundle _
  | kind_MlsKeyPackage : ks_kind MlsKeyPackage _
  | kind_PersistedMlsGroup : ks_kind PersistedMlsGroup _
  | kind_PersistedMlsPendingGroup : ks_kind PersistedMlsPendingGroup _
  | kind_MlsPendingMessage : ks_kind MlsPendingMessage _
  | kind_E2eiEnrollment : ks_kind E2eiEnrollment _
  | kind_E2eiRefreshToken : ks_kind E2eiRefreshToken _
  | kind_E2eiAcmeCA : ks_kind E2eiAcmeCA _
  | kind_E2eiCrl : ks_kind E2eiCrl _
  | kind_E2eiIntermediateCert : ks_kind E2eiIntermediateCert _
  | kind_ProteusIdentity : ks_kind ProteusIdentity _
  | kind_ProteusSession : ks_kind ProteusSession _.

Inductive ks_write : forall A : Type, prog A -> Prop :=
  | write_save E (B : EntityBase E) e : ks_kind E B -> ks_write E (Connection_save e)
  | write_insert E (B : EntityBase E) e :
      ks_kind E B -> ks_write (AutoGeneratedFields E) (Connection_insert e)
  | write_remove E (B : EntityBase E) id : ks_kind E B -> ks_write () (Connection_remove E id)
  | write_delete_by_credential cred : ks_write () (MlsCredential_delete_by_credential cred)
  | write_replace_ca ca : ks_write () (E2eiAcmeCA_replace ca)
  | write_replace_token token : ks_write () (E2eiRefreshToken_replace token)
  | write_group_persist id state parent : ks_write () (mls_group_persist id state parent)
  | write_group_delete id : ks_write () (mls_group_delete id)
  | write_pending_save id group cfg parent : ks_write () (mls_pending_groups_save id group cfg parent)
  | write_pending_delete id : ks_write () (mls_pending_groups_delete id)
  | write_enrollment id content : ks_write () (save_e2ei_enrollment id content)
  | write_pop id : ks_write bytes (pop_e2ei_enrollment id)
  | write_prekey_save x : ks_write () (ProteusPrekey_save x)
  | write_prekey id prekey : ks_write () (proteus_store_prekey id prekey)
  | write_prekey_delete ids p : ProteusPrekey_delete ids = Some p -> ks_write () p
  | write_prekey_remove id p : PreKeyStore_remove id = Some p -> ks_write () p
  | write_store V (M : MlsEntity V) k (v : V) : ks_write () (ks_store k v)
  | write_delete V (M : MlsEntity V) k : ks_write () (ks_delete V k).

(** ** What fails commits nothing *)

Section atomic.
Context `{SqlEngine}.

(** *** A transaction that has only looked commits what was there

    [find_one] of an enrollment commits; it has written nothing. *)

Definition untouched (c : conn) : Prop := v_tx (conn_view c) = Some (v_db (conn_view c)).

(** Only looks; and looks, then perhaps commits. *)
Definition looks {A} (p : prog A) : Prop :=
  forall c r c', untouched c -> exec_prog p c = (r, c') ->
    same_db c c' /\ (is_ok r = true -> untouched c').
Definition looks_commits {A} (p : prog A) : Prop :=
  forall c r c', untouched c -> exec_prog p c = (r, c') -> same_db c c'.

Lemma looks_step {X} (s : stmt X) : reads s = true -> looks (pstep s).
Proof.
  intros Hs c r c' Hc Hx. split; [by eapply reader_reads|]. rewrite exec_prog_step in Hx.
  destruct r as [a|e]; [|done]. intros _. apply exec_sound in Hx. apply sem_reads in Hx; [|done].
  unfold untouched. by rewrite Hx.
Qed.

Lemma looks_ret {A} (r : KsResult A) : looks (Ret r).
Proof. by intros c r' c' Hc [= _ <-]. Qed.

Lemma looks_bind {A B} (p : prog A) (f : A -> prog B) : looks p -> (forall a, looks (f a)) -> looks (p ≫= f).
Proof.
  intros Hp Hf c r c' Hc. rewrite exec_prog_bind. destruct (exec_prog p c) as [[a|e] c1] eqn:Hx.
  - apply Hp in Hx as [H1 Hc1]; [|done]. intros [H2 Hc2]%Hf; [|by apply Hc1].
    split; [by eapply same_db_trans|done].
  - apply Hp in Hx as [H1 _]; [|done]. by intros [= <- <-].
Qed.

Lemma looks_commits_bind {A B} (p : prog A) (f : A -> prog B) :
  looks p -> (forall a, looks_commits (f a)) -> looks_commits (p ≫= f).
Proof.
  intros Hp Hf c r c' Hc. rewrite exec_prog_bind. destruct (exec_prog p c) as [[a|e] c1] eqn:Hx.
  - apply Hp in Hx as [H1 Hc1]; [|done]. intros H2%Hf; [|by apply Hc1]. by eapply same_db_trans.
  - apply Hp in Hx as [H1 _]; [|done]. by intros [= <- <-].
Qed.

Lemma looks_commits_commit {A} (a : A) : looks_commits (pstep SCommit;; mret a).
Proof.
  intros c r c' Hc. rewrite exec_prog_bind, exec_prog_step.
  destruct (exec () SCommit c) as [[u|e] c1] eqn:Hx; intros [= <- <-].
  - apply exec_sound in Hx. cbn in Hx. unfold untouched in Hc. rewrite Hc in Hx.
    injection Hx as _ Hv. unfold same_db. by rewrite <-Hv.
  - apply (exec_fail _ SCommit c e c1); [|done]. right. by exists (v_db (conn_view c)).
Qed.

Lemma begin_untouched c u c' : exec () SBegin c = (Ok u, c') -> untouched c'.
Proof.
  intros Hx%exec_sound. cbn in Hx. unfold untouched.
  destruct (v_tx (conn_view c)); [done|]. injection Hx as _ Hv. by rewrite <-Hv.
Qed.

Lemma reader_looks_commits {A} (body : prog A) : looks_commits body -> reader (with_tx body).
Proof.
  intros Hb c r c'. rewrite exec_with_tx.
  destruct (exec () SBegin c) as [[u|e'] c1] eqn:H1; [|intros [= <- <-]; by apply exec_fail in H1; [|left]].
  pose proof (begin_untouched _ _ _ H1) as Hu. apply begin_ok in H1 as [H1 _].
  destruct (exec_prog body c1) as [r2 c2] eqn:H2. destruct (exec () SDrop c2) as [dr c3] eqn:H3. intros [= -> <-].
  eapply same_db_trans; [done|]. eapply same_db_trans; [by eapply Hb|]. by eapply same_db_drop.
Qed.

Lemma looks_rowid t w : looks (query_rowid t w).
Proof. unfold query_rowid. apply looks_bind; [by apply looks_step|intros o; apply looks_ret]. Qed.

Lemma looks_blob t c rowid ro : looks (blob_read t c rowid ro).
Proof.
  unfold blob_read. apply looks_bind; [by apply looks_step|intros b].
  apply looks_bind; [by apply looks_step|intros x].
  apply looks_bind; [by apply looks_step|intros u; apply looks_ret].
Qed.

Lemma reader_find_enrollment id : reader (E2eiEnrollment_find_one id).
Proof.
  apply reader_looks_commits, looks_commits_bind; [apply looks_rowid|].
  intros [rowid|]; [|by intros c r c' _ [= _ <-]].
  apply looks_commits_bind; [apply looks_blob|intros buf; apply looks_commits_commit].
Qed.

(** The writes of a kind: each has committed nothing when it fails. *)
Definition kind_atomic (E : Type) (B : EntityBase E) : Prop :=
  (forall e : E, atomic (save e)) /\ (forall e : E, atomic (insert_entity e)) /\
  (forall ids, atomic (delete_ids E ids)).

Lemma atomic_fail {A} e : atomic (pfail e : prog A).
Proof. by intros c e' c' [= _ <-]. Qed.

Lemma laws_atomic E `{EntityLaws E} :
  (forall e : E, atomic (insert_entity e)) -> kind_atomic E _.
Proof. intros Hi. split_and!; [intros e; apply el_save_atomic|done|intros ids; apply el_delete_atomic]. Qed.

Lemma ks_kind_atomic E B : ks_kind E B -> kind_atomic E B.
Proof.
  destruct 1;
    try (eapply laws_atomic; [by eauto with typeclass_instances|intros e; apply atomic_fail]).
  - apply (laws_atomic MlsCredential). intros e. change (atomic (MlsCredential_insert e)).
    unfold MlsCredential_insert, blob_write. solve_atomic.
  - apply (laws_atomic MlsSignatureKeyPair). intros e. change (atomic (MlsSignatureKeyPair_insert e)).
    unfold MlsSignatureKeyPair_insert, blob_write. solve_atomic.
  - split; [|split]; [intros e|intros e; apply atomic_fail|intros ids].
    + change (atomic (PersistedMlsPendingGroup_save e)).
      unfold PersistedMlsPendingGroup_save, query_rowid, blob_write, write_parent. solve_atomic.
    + change (atomic (PersistedMlsPendingGroup_delete ids)).
      unfold PersistedMlsPendingGroup_delete, delete_all_or_nothing. solve_atomic.
  - split; [|split]; [intros e|intros e; apply atomic_fail|intros ids].
    + change (atomic (MlsPendingMessage_save e)).
      unfold MlsPendingMessage_save, blob_write. solve_atomic.
    + change (atomic (MlsPendingMessage_delete ids)).
      unfold MlsPendingMessage_delete. solve_atomic.
  - split_and!; intros; apply atomic_fail.
  - split_and!; intros; apply atomic_fail.
  - split; [|split]; [intros e|intros e; apply atomic_fail|intros ids].
    + change (atomic (ProteusIdentity_save e)).
      unfold ProteusIdentity_save, ProteusIdentity_count, blob_write. solve_atomic.
      by apply atomic_reader, reader_ret.
    + change (atomic (ProteusIdentity_delete ids)). unfold ProteusIdentity_delete. solve_atomic.
Qed.

Lemma atomic_save E B (e : E) : ks_kind E B -> atomic (Connection_save e).
Proof. intros HK. apply atomic_then_ret, (proj1 (ks_kind_atomic E B HK)). Qed.

Lemma atomic_remove E B id : ks_kind E B -> atomic (Connection_remove E id).
Proof. intros HK. apply atomic_then_ret, (proj2 (proj2 (ks_kind_atomic E B HK))). Qed.

Lemma atomic_save_unit E B (e : E) : ks_kind E B -> atomic (Connection_save e;; mret ()).
Proof. intros HK. apply atomic_then_ret. by apply (atomic_save E B). Qed.

#[local] Hint Constructors ks_kind : core.
#[local] Hint Resolve atomic_save atomic_save_unit atomic_remove : core.

Lemma atomic_ks_store V (M : MlsEntity V) k (v : V) : atomic (ks_store k v).
Proof.
  unfold ks_store. destruct k as [|b k]; [apply atomic_fail|].
  apply atomic_bind; [apply reader_ret|]. intros data.
  destruct (mls_entity_id V); try apply atomic_fail; by eapply atomic_save_unit.
Qed.

Lemma atomic_ks_delete V (M : MlsEntity V) k : atomic (ks_delete V k).
Proof.
  unfold ks_delete. destruct k as [|b k]; [by intros c e c' [= ]|].
  destruct (mls_entity_id V); by eapply atomic_remove.
Qed.

Lemma atomic_prekey_delete ids p : ProteusPrekey_delete ids = Some p -> atomic p.
Proof.
  unfold ProteusPrekey_delete. destruct (forallb _ ids); [|done]. intros [= <-].
  unfold delete_all_or_nothing. solve_atomic.
Qed.

Lemma ks_write_atomic A (p : prog A) : ks_write A p -> atomic p.
Proof.
  destruct 1; eauto.
  - apply (atomic_then_ret _ id). by apply (proj1 (proj2 (ks_kind_atomic E B ltac:(done)))).
  - unfold MlsCredential_delete_by_credential. solve_atomic.
  - unfold E2eiAcmeCA_replace, blob_write. solve_atomic.
  - unfold E2eiRefreshToken_replace, blob_write. solve_atomic.
  - by eapply atomic_save_unit.
  - by eapply atomic_remove.
  - by eapply atomic_save_unit.
  - by eapply atomic_remove.
  - by eapply atomic_save_unit.
  - unfold pop_e2ei_enrollment. apply atomic_bind.
    { apply reader_find_enrollment. }
    intros o. apply atomic_bind; [apply reader_ret|]. intros x. apply atomic_then_ret.
    by eapply atomic_remove.
  - apply ProteusPrekey_save_atomic.
  - apply atomic_then_ret, ProteusPrekey_save_atomic.
  - by eapply atomic_prekey_delete.
  - by eapply atomic_prekey_delete.
  - apply atomic_ks_store.
  - apply atomic_ks_delete.
Qed.

(** C25: whatever the engine does, failures of any statement included, a call that writes to the
    native key store and reports an error has committed nothing: the [save]s, [insert]s and
    [remove]s of the seventeen kinds of entities, and every call of the traits made of them. *)
Theorem ks_writes_atomic A (p : prog A) c err c' :
  ks_write A p -> exec_prog p c = (Err err, c') -> v_db (conn_view c') = v_db (conn_view c).
Proof. intros Hp. by apply ks_write_atomic. Qed.
End atomic.

(** A pending message on a disk that fails at the commit: the row and its blobs have been written
    in the transaction, and none of it stays. *)
Definition ex_message : MlsPendingMessage := MkMlsPendingMessage (ascii_bytes "group") (ascii_bytes "commit").

Definition fails_at (n : nat) : @conn ref_engine := (conn_view (fresh_conn : @conn ref_engine), replicate n false ++ [true]).

Lemma ks_writes_atomic_witness :
  exists err c', exec_prog (Connection_save ex_message) (fails_at 9) = (Err err, c') /\
    v_db (conn_view c') = v_db (conn_view (fails_at 9)).
Proof.
  destruct (exec_prog (Connection_save ex_message) (fails_at 9)) as [[m|err] c'] eqn:Hx; [by vm_compute in Hx|].
  exists err, c'. split; [done|].
  exact (ks_writes_atomic _ _ _ _ _ (write_save _ _ ex_message kind_MlsPendingMessage) Hx).
Defined.

(** ** What the upserting saves do *)

(** On every healthy engine, for a kind of entity with a table, a key, the form read back, a test
    of the sizes and one of the ids: [save] then [find] gives the entity back in its stored form,
    [find] of any other id answers as before the save, and the table holds the old entities with
    the new one put in place of the one with its key, or at the end. An entity with too big a blob
    is refused, and the table stays. *)
Definition save_upserts {E} `{EntityBase E} (ly : layout E) (key : E -> bytes) (stored : E -> E)
    (fits : E -> bool) (id_ok : bytes -> bool) : Prop :=
  forall (En : SqlEngine) (c : conn) (l : list E) (e : E) (id : bytes),
    healthy c -> rep ly (conn_view c) l -> id_ok id = true ->
    if fits e then
      exists c1 c2, exec_prog (Connection_save e) c = (Ok e, c1) /\
        exec_prog (Connection_find id) c1 =
          (Ok (if bool_decide (key e = id) then Some (stored e)
               else stored <$> first (fun x => bool_decide (key x = id)) l), c2) /\
        healthy c1 /\
        rep ly (conn_view c1) (upsert (fun x => bool_decide (key x = key e)) (stored e) l)
    else exists c1, exec_prog (Connection_save e) c = (Err BlobTooBig, c1) /\
      healthy c1 /\ rep ly (conn_view c1) l.

Lemma laws_save_upserts E `{UpsertLaws E} :
  save_upserts (E := E) el_layout el_key el_stored ul_fits el_id_ok.
Proof.
  intros En c l e id Hc Hl Hid. destruct (ul_fits e) eqn:Hf.
  - destruct (Connection_save_find c l e id (conj Hc Hl) Hf Hid) as (c1 & c2 & Hf1 & Hf2 & Hc1 & Hl1).
    by exists c1, c2.
  - assert (run (Connection_save e) (conn_view c) = (Err BlobTooBig, conn_view c)) as Hr.
    { unfold Connection_save. by rewrite (run_bind_err _ _ _ _ _ (ul_save_big _ _ e Hl Hf)). }
    destruct (exec_prog_run _ _ _ _ Hc Hr) as (c1 & Hx & Hv & Hc1). exists c1. by rewrite Hv.
Qed.

Definition any_id (id : bytes) : bool := true.

(** C26: [save] upserts, for each of the nine kinds of entities that are to be saved over one
    another, keyed by the column the code looks up: what is read back is what was saved, the
    parent id of a group excepted, which is lost when it is empty; an id that is text has to be
    UTF-8. *)
Theorem saves_upsert :
  save_upserts PersistedMlsGroup_layout pg_id PersistedMlsGroup_stored PersistedMlsGroup_fits any_id /\
  save_upserts MlsKeyPackage_layout kp_keypackage_ref id MlsKeyPackage_fits any_id /\
  save_upserts MlsPskBundle_layout psk_psk_id id MlsPskBundle_fits any_id /\
  save_upserts MlsHpkePrivateKey_layout hpke_pk id MlsHpkePrivateKey_fits any_id /\
  save_upserts MlsEncryptionKeyPair_layout ek_pk id MlsEncryptionKeyPair_fits any_id /\
  save_upserts MlsEpochEncryptionKeyPair_layout eek_id id MlsEpochEncryptionKeyPair_fits any_id /\
  save_upserts E2eiCrl_layout crl_distribution_point id E2eiCrl_fits utf8_valid /\
  save_upserts E2eiIntermediateCert_layout ic_ski_aki_pair id E2eiIntermediateCert_fits utf8_valid /\
  save_upserts ProteusSession_layout ps_id id ProteusSession_fits utf8_valid.
Proof.
  repeat apply conj.
  - exact (laws_save_upserts PersistedMlsGroup).
  - exact (laws_save_upserts MlsKeyPackage).
  - exact (laws_save_upserts MlsPskBundle).
  - exact (laws_save_upserts MlsHpkePrivateKey).
  - exact (laws_save_upserts MlsEncryptionKeyPair).
  - exact (laws_save_upserts MlsEpochEncryptionKeyPair).
  - exact (laws_save_upserts E2eiCrl).
  - exact (laws_save_upserts E2eiIntermediateCert).
  - exact (laws_save_upserts ProteusSession).
Qed.

(** A list of revoked certificates over an older one of its distribution point. *)
Definition ex_crl (content : string) : E2eiCrl := MkE2eiCrl (ascii_bytes "http://ca/crl") (ascii_bytes content).

Lemma saves_upsert_witness :
  exists c1 c2 : @conn ref_engine, rep E2eiCrl_layout (conn_view c1) [ex_crl "old"] /\
    exec_prog (Connection_save (ex_crl "new")) c1 = (Ok (ex_crl "new"), c2) /\
    rep E2eiCrl_layout (conn_view c2) [ex_crl "new"].
Proof.
  destruct saves_upsert as (_ & _ & _ & _ & _ & _ & Hcrl & _ & _).
  assert (rep E2eiCrl_layout (conn_view (fresh_conn : @conn ref_engine)) []) as H0 by by apply rep_empty.
  destruct (Hcrl ref_engine fresh_conn [] (ex_crl "old") [] eq_refl H0 eq_refl)
    as (c1 & c1' & _ & _ & Hc1 & H1).
  destruct (Hcrl ref_engine c1 [ex_crl "old"] (ex_crl "new") [] Hc1 H1 eq_refl)
    as (c2 & c2' & Hs & _ & _ & H2).
  exists c1, c2. split_and!; [exact H1|exact Hs|exact H2].
Defined.
