(* ===== verification/Browser.v ===== *)
(** * The key store in a browser

    [keystore/src/connection/platform/wasm/]: [storage.rs], where an entity is encrypted,
    turned into a JavaScript value and put into IndexedDB or into a map in memory, and [mod.rs],
    which opens the database under a version number made from the version of the package; with
    the trait [Entity] of [keystore/src/entities/mod.rs] for browsers and the errors of
    [error.rs] that only exist there. The browser is a parameter: serialization to JavaScript
    values ([WasmBindgen]), IndexedDB ([IndexedDb], which may fail at any call) and AES-GCM
    ([AesGcm]), each with the laws its documentation states. *)

From stdpp Require Import sorting.
From S2P Require Import Prelude KsError Entity.
Open Scope Z_scope.

(** ** Errors *)

(** [CryptoKeystoreError] on wasm: the variants of every platform and those of this one. *)
Inductive WasmError : Set :=
  | WKs (e : CryptoKeystoreError)
  | ChannelError
  | WasmExecutorError
  | RexieError
  | RexieTimeoutError
  | AesGcmError
  | SerdeWasmBindgenError
  | JsError.

#[export] Instance WasmError_eq_dec : EqDecision WasmError.
Proof. solve_decision. Defined.

(** [check_buffer_size] on wasm: the limit of [i32] is not compiled. *)
Definition wasm_check_buffer_size (size : Z) : result WasmError () :=
  if Z.leb MAX_BLOB_LEN size then Err (WKs BlobTooBig) else Ok ().

(** ** JavaScript values

    What [derive(Serialize)] hands to a serializer: the fields of a structure with their names;
    a [Vec<u8>] is a sequence of numbers. *)

Inductive sval : Set :=
  | SBytes (b : bytes)
  | SOpt (b : option bytes)
  | SStr (s : bytes)
  | SNum (n : Z).

#[export] Instance sval_eq_dec : EqDecision sval.
Proof. solve_decision. Defined.

Abbreviation sfields := (list (string * sval)).

Definition sfield (name : string) (s : sfields) : option sval :=
  snd <$> first (fun p => String.eqb name p.1) s.

(** The keys IndexedDB compares; an array of numbers is not a [Uint8Array]. *)
Inductive js_key : Set :=
  | JsBinary (b : bytes)
  | JsArray (l : list Z)
  | JsString (s : bytes)
  | JsNumber (n : Z).

#[export] Instance js_key_eq_dec : EqDecision js_key.
Proof. solve_decision. Defined.

Definition sval_key (v : sval) : option js_key :=
  match v with
  | SBytes b => Some (JsArray (byte_val <$> b))
  | SOpt o => (fun b => JsArray (byte_val <$> b)) <$> o
  | SStr s => Some (JsString s)
  | SNum n => Some (JsNumber n)
  end.

(** [Number.MAX_SAFE_INTEGER] *)
Definition js_safe (v : sval) : bool :=
  match v with SNum n => Z.leb 0 n && Z.leb n 9007199254740991 | _ => true end.

(** [serde_wasm_bindgen]: the serializer [json_compatible] and [from_value]; a value is [null]
    or [undefined]; the value of an attribute as a key. [hash_iter] is the order of a
    [HashMap]. *)
Class WasmBindgen := {
  JsValue : Type;
  js_serialize : sfields -> result WasmError JsValue;
  js_from_value : JsValue -> result WasmError sfields;
  js_is_null : JsValue -> bool;
  js_attribute : string -> JsValue -> option js_key;
  hash_iter : gmap bytes JsValue -> list (bytes * JsValue);
}.

Class WasmBindgenLaws `{WasmBindgen} := {
  js_serialize_ok s : forallb (fun p => js_safe p.2) s = true -> is_ok (js_serialize s) = true;
  js_from_serialize s j : js_serialize s = Ok j -> js_from_value j = Ok s /\ js_is_null j = false;
  js_attribute_serialize s j name :
    js_serialize s = Ok j -> js_attribute name j = sfield name s ≫= sval_key;
  hash_iter_perm m : hash_iter m ≡ₚ map_to_list m;
}.

(** ** IndexedDB *)

(** [Index::new(name, key_path).unique(b)] and [ObjectStore::new(name).add_index(..)]; the
    stores have no key path: every value is put under a key. *)
Record index_decl := Index { ix_name : string; ix_key_path : string; ix_unique : bool }.
Record store_decl := ObjectStore { os_name : string; os_indexes : list index_decl }.

(** The requests the code makes, each in a transaction of its own on one store: finding the
    transaction or the store missing is part of the request. *)
Inductive idb_request `{WasmBindgen} : Type -> Type :=
  | IdbGet (collection : string) (key : bytes) : idb_request (option JsValue)
  | IdbGetAll (collection : string) (limit offset : option Z) (prev : bool) :
      idb_request (list (bytes * JsValue))
  | IdbCount (collection : string) : idb_request Z
  | IdbPut (collection : string) (value : JsValue) (key : bytes) : idb_request ()
  | IdbDelete (collection : string) (key : bytes) : idb_request ()
  | IdbIndexGet (collection index : string) (key : js_key) : idb_request (option JsValue).

(** The database: its declarations and the content of every store. *)
Record idb `{WasmBindgen} := Idb {
  idb_schema : list store_decl;
  idb_stores : gmap string (gmap bytes JsValue) }.
Arguments Idb {_} idb_schema idb_stores.
Arguments idb_schema {_} d : rename.
Arguments idb_stores {_} d : rename.

(** Keys of one type are ordered byte by byte. *)
Fixpoint bytes_leb (a b : bytes) : bool :=
  match a, b with
  | [], _ => true
  | _, [] => false
  | x :: a, y :: b => Z.ltb (byte_val x) (byte_val y) || (Z.eqb (byte_val x) (byte_val y) && bytes_leb a b)
  end.

Section idb_sem.
Context `{WasmBindgen}.

Definition key_order (p q : bytes * JsValue) : Prop := Is_true (bytes_leb p.1 q.1).
#[export] Instance key_order_dec : RelDecision key_order.
Proof. intros p q. apply _. Defined.

Definition in_key_order (m : gmap bytes JsValue) : list (bytes * JsValue) :=
  merge_sort key_order (map_to_list m).

(** The rows a cursor visits. *)
Definition cursor {A} (limit offset : option Z) (prev : bool) (l : list A) : list A :=
  let l := if prev then reverse l else l in
  let l := match offset with Some n => drop (Z.to_nat n) l | None => l end in
  match limit with Some n => take (Z.to_nat n) l | None => l end.

Definition find_decl (c : string) (d : idb) : option store_decl :=
  first (fun s => String.eqb c (os_name s)) (idb_schema d).

(** Another value with the same attribute, of an attribute that is unique. *)
Definition clash (d : store_decl) (v : JsValue) (k : bytes) (m : gmap bytes JsValue) : bool :=
  existsb (fun ix => ix_unique ix &&
    match js_attribute (ix_key_path ix) v with
    | None => false
    | Some x => existsb (fun p => negb (bool_decide (p.1 = k)) &&
                  bool_decide (js_attribute (ix_key_path ix) p.2 = Some x)) (map_to_list m)
    end) (os_indexes d).

(** What a request means. *)
Definition idb_sem {X} (r : idb_request X) (d : idb) : result WasmError X * idb :=
  let content c := match find_decl c d, idb_stores d !! c with
                   | Some o, Some m => Some (o, m)
                   | _, _ => None
                   end in
  let change c m := Idb (idb_schema d) (<[c := m]> (idb_stores d)) in
  match r with
  | IdbGet c k => (match content c with Some (_, m) => Ok (m !! k) | None => Err RexieError end, d)
  | IdbGetAll c limit offset prev =>
      (match content c with
       | Some (_, m) => Ok (cursor limit offset prev (in_key_order m))
       | None => Err RexieError
       end, d)
  | IdbCount c =>
      (match content c with Some (_, m) => Ok (Z.of_nat (size m)) | None => Err RexieError end, d)
  | IdbPut c v k =>
      match content c with
      | Some (o, m) => if clash o v k m then (Err RexieError, d) else (Ok (), change c (<[k := v]> m))
      | None => (Err RexieError, d)
      end
  | IdbDelete c k =>
      match content c with
      | Some (_, m) => (Ok (), change c (delete k m))
      | None => (Err RexieError, d)
      end
  | IdbIndexGet c i k =>
      (match content c with
       | Some (o, m) =>
           match first (fun ix => String.eqb i (ix_name ix)) (os_indexes o) with
           | Some ix => Ok (snd <$> first (fun p => bool_decide (js_attribute (ix_key_path ix) p.2 = Some k))
                                      (in_key_order m))
           | None => Err RexieError
           end
       | None => Err RexieError
       end, d)
  end.
End idb_sem.

(** [rexie::Rexie]: a request that succeeds has done what it means, one that fails has changed
    nothing, and only the meaning makes a request fail while the browser is healthy. *)
Class IndexedDb `{WasmBindgen} := {
  rexie : Type;
  rexie_view : rexie -> idb;
  rexie_healthy : rexie -> Prop;
  rexie_run : forall X, idb_request X -> stm rexie WasmError X;
  rexie_build : string -> Z -> list store_decl -> result WasmError rexie;
  rexie_sound X (q : idb_request X) r a r' :
    rexie_run X q r = (Ok a, r') -> idb_sem q (rexie_view r) = (Ok a, rexie_view r');
  rexie_fail X (q : idb_request X) r e r' :
    rexie_run X q r = (Err e, r') -> rexie_view r' = rexie_view r;
  rexie_ok X (q : idb_request X) r :
    rexie_healthy r ->
    fst (rexie_run X q r) = fst (idb_sem q (rexie_view r)) /\ rexie_healthy (snd (rexie_run X q r));
}.

(** ** AES-GCM *)

Definition AES_GCM_256_NONCE_SIZE : nat := 12.

(** The tag that is appended to a ciphertext; [a_max] is the longest message the cipher takes. *)
Definition AES_GCM_TAG_SIZE : Z := 16.
Definition AES_GCM_A_MAX : Z := 68719476704.

Class AesGcm := {
  Cipher : Type;
  Rng : Type;
  sha256 : bytes -> bytes;
  cipher_new : bytes -> Cipher;
  random_nonce : Rng -> bytes * Rng;
  aes_encrypt : Cipher -> bytes -> bytes -> bytes -> option bytes;   (* nonce, message, aad *)
  aes_decrypt : Cipher -> bytes -> bytes -> bytes -> option bytes;
}.

Class AesGcmLaws `{AesGcm} := {
  random_nonce_length g : length (fst (random_nonce g)) = AES_GCM_256_NONCE_SIZE;
  aes_decrypt_encrypt c n m a x : aes_encrypt c n m a = Some x -> aes_decrypt c n x a = Some m;
  aes_encrypt_ok c n m a :
    length n = AES_GCM_256_NONCE_SIZE -> blen m <= AES_GCM_A_MAX -> is_Some (aes_encrypt c n m a);
  aes_encrypt_length c n m a x :
    aes_encrypt c n m a = Some x -> blen x = blen m + AES_GCM_TAG_SIZE;
}.

(** ** [Entity] *)

Section crypt.
Context `{AesGcm}.

(** The nonce, then the ciphertext. *)
Definition encrypt_with_nonce_and_aad (cipher : Cipher) (data nonce aad : bytes) :
    result WasmError bytes :=
  encrypted ← ok_or AesGcmError (aes_encrypt cipher nonce data aad);
  Ok (nonce ++ encrypted).

Definition encrypt_data (cipher : Cipher) (data aad : bytes) : stm Rng WasmError bytes :=
  fun g => let (nonce_bytes, g') := random_nonce g in
           (encrypt_with_nonce_and_aad cipher data nonce_bytes aad, g').

(** The panic of the slice when [encrypted] is shorter than a nonce is [None]. *)
Definition reencrypt_data (cipher : Cipher) (encrypted clear aad : bytes) :
    option (result WasmError bytes) :=
  if Nat.ltb (length encrypted) AES_GCM_256_NONCE_SIZE then None
  else Some (encrypt_with_nonce_and_aad cipher clear (take AES_GCM_256_NONCE_SIZE encrypted) aad).

Definition decrypt_data (kind : MissingKeyErrorKind) (cipher : Cipher) (data aad : bytes) :
    result WasmError bytes :=
  match data with
  | [] => Err (WKs (MissingKeyInStore kind))
  | _ =>
      if Nat.ltb (length data) AES_GCM_256_NONCE_SIZE then Err AesGcmError
      else ok_or AesGcmError
             (aes_decrypt cipher (take AES_GCM_256_NONCE_SIZE data) (drop AES_GCM_256_NONCE_SIZE data) aad)
  end.

(** What a browser needs of an entity: its key, which is also the additional data of its
    encryption, the encryption of its secret fields, and its fields for the serializer. *)
Class WasmEntity (E : Type) := {
  id_raw : E -> bytes;
  encrypt : Cipher -> E -> stm Rng WasmError E;
  decrypt : Cipher -> E -> result WasmError E;
  to_fields : E -> sfields;
  of_fields : sfields -> option E;
}.
End crypt.
#[global] Hint Mode WasmEntity - ! : typeclass_instances.

Section crypt_laws.
Context `{AesGcmLaws}.

Lemma encrypt_data_decrypt kind c m a g x g' :
  encrypt_data c m a g = (Ok x, g') -> decrypt_data kind c x a = Ok m.
Proof.
  unfold encrypt_data, encrypt_with_nonce_and_aad. pose proof (random_nonce_length g) as Hn.
  destruct (random_nonce g) as [n g1]. simpl in Hn.
  destruct (aes_encrypt c n m a) as [y|] eqn:Hy; [|done]. intros [= <- _].
  unfold decrypt_data. destruct (n ++ y) eqn:Hny; [by destruct n|]. rewrite <-Hny.
  rewrite length_app, Hn. destruct (Nat.ltb_spec (AES_GCM_256_NONCE_SIZE + length y) AES_GCM_256_NONCE_SIZE); [lia|].
  rewrite <-Hn, take_app_length, drop_app_length. by rewrite (aes_decrypt_encrypt _ _ _ _ _ Hy).
Qed.

Lemma encrypt_data_length c m a g x g' :
  encrypt_data c m a g = (Ok x, g') -> blen x = blen m + 28.
Proof.
  unfold encrypt_data, encrypt_with_nonce_and_aad. pose proof (random_nonce_length g) as Hn.
  destruct (random_nonce g) as [n g1]. simpl in Hn.
  destruct (aes_encrypt c n m a) as [y|] eqn:Hy; [|done]. intros [= <- _].
  apply aes_encrypt_length in Hy. unfold blen, AES_GCM_TAG_SIZE, AES_GCM_256_NONCE_SIZE in *.
  rewrite length_app. lia.
Qed.

Lemma encrypt_data_ok c m a g :
  blen m < MAX_BLOB_LEN -> exists x, encrypt_data c m a g = (Ok x, snd (random_nonce g)).
Proof.
  intros Hm. unfold encrypt_data, encrypt_with_nonce_and_aad. pose proof (random_nonce_length g) as Hn.
  destruct (random_nonce g) as [n g1]. simpl in *.
  destruct (aes_encrypt_ok c n m a Hn) as [x Hx].
  { unfold AES_GCM_A_MAX, MAX_BLOB_LEN in *. lia. }
  rewrite Hx. by eexists.
Qed.
End crypt_laws.

(** ** [WasmEncryptedStorage] *)

Section storage.
Context `{Wb : WasmBindgen} `{Ib : !IndexedDb} `{Ag : AesGcm}.

(** Collections of the map in memory. *)
Abbreviation memory := (gmap string (gmap bytes JsValue)).

Inductive WasmStorageWrapper : Type :=
  | Persistent (r : rexie)
  | InMemory (m : memory).

Record WasmEncryptedStorage := MkWasmStorage {
  storage : WasmStorageWrapper; ws_cipher : Cipher }.

Record WasmConnection := MkWasmConnection { wc_name : string; wc_conn : WasmEncryptedStorage }.

(** What a call can see: the connection, the random numbers and the clock, in seconds since the
    Unix epoch. *)
Record Browser := MkBrowser { br_conn : WasmConnection; br_rng : Rng; br_now : Z }.

Definition br_storage (b : Browser) : WasmStorageWrapper := storage (wc_conn (br_conn b)).
Definition br_cipher (b : Browser) : Cipher := ws_cipher (wc_conn (br_conn b)).

Definition with_storage (b : Browser) (s : WasmStorageWrapper) (g : Rng) : Browser :=
  MkBrowser (MkWasmConnection (wc_name (br_conn b)) (MkWasmStorage s (br_cipher b))) g (br_now b).

Abbreviation wasm := (stm Browser WasmError).

Definition WasmEncryptedStorage_new (key : bytes) (s : WasmStorageWrapper) : WasmEncryptedStorage :=
  MkWasmStorage s (cipher_new (sha256 key)).

Definition is_persistent (s : WasmEncryptedStorage) : bool :=
  match storage s with Persistent _ => true | InMemory _ => false end.

Section entity.
Context {E : Type} `{!WasmEntity E}.

(** [serde_wasm_bindgen::from_value::<R>], and the same for [Option<R>]. *)
Definition from_value (v : JsValue) : result WasmError E :=
  fields ← js_from_value v;
  ok_or SerdeWasmBindgenError (of_fields fields).

Definition from_value_option (v : JsValue) : result WasmError (option E) :=
  if js_is_null v then Ok None else Some <$> from_value v.

(** An entity that can be read and decrypted; the listings leave the others out. *)
Definition open_entity (cipher : Cipher) (v : JsValue) : option E :=
  entity ← res_ok (from_value v);
  res_ok (decrypt cipher entity).

Definition persistent_get (cipher : Cipher) (collection : string) (id : bytes) :
    stm rexie WasmError (option E) :=
  raw ← rexie_run _ (IdbGet collection id);
  match raw with
  | Some entity_raw =>
      entity ← st_lift (from_value entity_raw);
      entity ← st_lift (decrypt cipher entity);
      mret (Some entity)
  | None => mret None
  end.

Definition memory_get (cipher : Cipher) (m : memory) (collection : string) (id : bytes) :
    result WasmError (option E) :=
  match m !! collection with
  | Some store =>
      match store !! id with
      | Some js_value =>
          o ← from_value_option js_value;
          match o with
          | Some entity => entity ← decrypt cipher entity; Ok (Some entity)
          | None => Ok None
          end
      | None => Ok None
      end
  | None => Ok None
  end.

Definition persistent_get_all (cipher : Cipher) (collection : string) (params : option EntityFindParams) :
    stm rexie WasmError (list E) :=
  let params := default EntityFindParams_default params in
  raw_data ← rexie_run _ (IdbGetAll collection (limit params) (offset params) (reverse_order params));
  mret (omap (M := list) (fun p : bytes * JsValue =>
          if js_is_null p.2 then None else open_entity cipher p.2) raw_data).

(** The map in memory does not look at the parameters. *)
Definition memory_get_all (cipher : Cipher) (m : memory) (collection : string) : list E :=
  match m !! collection with
  | Some v => omap (M := list) (fun p : bytes * JsValue =>
                entity ← mjoin (res_ok (from_value_option p.2));
                res_ok (decrypt cipher entity)) (hash_iter v)
  | None => []
  end.

Definition persistent_save (cipher : Cipher) (collection : string) (values : list E) :
    stm (rexie * Rng) WasmError () :=
  st_iter (fun value rg =>
    match encrypt cipher value rg.2 with
    | (Err e, g) => (Err e, (rg.1, g))
    | (Ok value', g) =>
        match js_serialize (to_fields value') with
        | Err e => (Err e, (rg.1, g))
        | Ok js_value =>
            let (res, r) := rexie_run _ (IdbPut collection js_value (id_raw value)) rg.1 in
            (res, (r, g))
        end
    end) values.

(** The store of the collection is made first, also when nothing can be put into it. The key
    is read back from its JavaScript form, a byte array, which gives the same bytes. *)
Definition memory_save (cipher : Cipher) (collection : string) (values : list E) :
    stm (memory * Rng) WasmError () :=
  st_modify (fun mg => (<[collection := default ∅ (mg.1 !! collection)]> mg.1, mg.2));;
  st_iter (fun v mg =>
    match encrypt cipher v mg.2 with
    | (Err e, g) => (Err e, (mg.1, g))
    | (Ok v', g) =>
        match js_serialize (to_fields v') with
        | Err e => (Err e, (mg.1, g))
        | Ok js_value =>
            (Ok (), (<[collection := <[id_raw v := js_value]> (default ∅ (mg.1 !! collection))]> mg.1, g))
        end
    end) values.

Definition storage_get (collection : string) (id : bytes) : wasm (option E) := fun b =>
  match br_storage b with
  | Persistent r =>
      let (res, r') := persistent_get (br_cipher b) collection id r in
      (res, with_storage b (Persistent r') (br_rng b))
  | InMemory m => (memory_get (br_cipher b) m collection id, b)
  end.

Definition storage_get_all (collection : string) (params : option EntityFindParams) :
    wasm (list E) := fun b =>
  match br_storage b with
  | Persistent r =>
      let (res, r') := persistent_get_all (br_cipher b) collection params r in
      (res, with_storage b (Persistent r') (br_rng b))
  | InMemory m => (Ok (memory_get_all (br_cipher b) m collection), b)
  end.

Definition storage_save (collection : string) (values : list E) : wasm () := fun b =>
  match br_storage b with
  | Persistent r =>
      let '(res, (r', g)) := persistent_save (br_cipher b) collection values (r, br_rng b) in
      (res, with_storage b (Persistent r') g)
  | InMemory m =>
      let '(res, (m', g)) := memory_save (br_cipher b) collection values (m, br_rng b) in
      (res, with_storage b (InMemory m') g)
  end.
End entity.

Definition storage_count (collection : string) : wasm Z := fun b =>
  match br_storage b with
  | Persistent r =>
      let (res, r') := rexie_run _ (IdbCount collection) r in
      (res, with_storage b (Persistent r') (br_rng b))
  | InMemory m => (Ok (Z.of_nat (size (default ∅ (m !! collection)))), b)
  end.

(** The [debug_assert] that every key was there is not compiled in a release. *)
Definition memory_delete (m : memory) (collection : string) (ids : list bytes) : memory :=
  alter (fun store => fold_left (fun store k => delete k store) ids store) collection m.

Definition storage_delete (collection : string) (ids : list bytes) : wasm () := fun b =>
  match br_storage b with
  | Persistent r =>
      let (res, r') := st_iter (fun k => rexie_run _ (IdbDelete collection k)) ids r in
      (res, with_storage b (Persistent r') (br_rng b))
  | InMemory m => (Ok (), with_storage b (InMemory (memory_delete m collection ids)) (br_rng b))
  end.

(** ** [WasmConnection]

    The version of the package is read when it is compiled; [u32] arithmetic wraps around in a
    release. *)

Definition is_plus (b : Byte.byte) : bool := Byte.eqb b (byte_of 43).
Definition is_dot (b : Byte.byte) : bool := Byte.eqb b (byte_of 46).

Definition determine_pre_version (pre_str : bytes) : Z :=
  match split is_plus pre_str with
  | [] => 0
  | pre_version :: _ =>
      match split is_dot pre_version with
      | [] => 0
      | pre_identifier :: pre_version_parts =>
          let pre_identifier_version :=
            default 0 (v ← head pre_version_parts; parse_uint u32_max v) in
          let base_version :=
            if bool_decide (pre_identifier = ascii_bytes "alpha") then 200
            else if bool_decide (pre_identifier = ascii_bytes "beta") then 400
            else if bool_decide (pre_identifier = ascii_bytes "pre") then 600
            else if bool_decide (pre_identifier = ascii_bytes "rc") then 800
            else 0 in
          as_u32 (base_version + pre_identifier_version)
      end
  end.

Definition idb_version (major minor patch : Z) (pre : bytes) : Z :=
  as_u32 (major * 10000000 + minor * 100000 + patch * 1000 + determine_pre_version pre).

(** The stores and their indexes, [unique] or not. *)
Definition wasm_schema : list store_decl :=
  let unique name := Index name name true in
  let plain name := Index name name false in
  [ ObjectStore "mls_credentials" [plain "id"; unique "credential"];
    ObjectStore "mls_signature_keypairs" [plain "mls_id"; plain "signature_scheme"; unique "pk"];
    ObjectStore "mls_hpke_private_keys" [unique "pk"];
    ObjectStore "mls_encryption_keypairs" [unique "pk"];
    ObjectStore "mls_epoch_encryption_keypairs" [unique "id"];
    ObjectStore "mls_psk_bundles" [unique "psk_id"];
    ObjectStore "mls_keypackages" [unique "keypackage_ref"];
    ObjectStore "mls_groups" [unique "id"];
    ObjectStore "mls_pending_groups" [unique "id"];
    ObjectStore "mls_pending_messages" [plain "id"];
    ObjectStore "e2ei_enrollment" [unique "id"];
    ObjectStore "e2ei_refresh_token" [unique "id"];
    ObjectStore "e2ei_acme_ca" [unique "id"];
    ObjectStore "e2ei_intermediate_certs" [unique "ski_aki_pair"];
    ObjectStore "e2ei_crls" [unique "distribution_point"];
    ObjectStore "proteus_prekeys" [unique "id"];
    ObjectStore "proteus_identities" [unique "pk"];
    ObjectStore "proteus_sessions" [unique "id"] ].

Definition WasmConnection_open (version_major version_minor version_patch : Z) (version_pre : bytes)
    (name : string) (key : bytes) : result WasmError WasmConnection :=
  r ← rexie_build name (idb_version version_major version_minor version_patch version_pre) wasm_schema;
  Ok (MkWasmConnection name (WasmEncryptedStorage_new key (Persistent r))).

Definition WasmConnection_open_in_memory (name : string) (key : bytes) : result WasmError WasmConnection :=
  Ok (MkWasmConnection name (WasmEncryptedStorage_new key (InMemory ∅))).
End storage.
