(* ===== verification/BrowserEntity.v ===== *)
(** * What an entity is in a browser

    The trait [EntityBase] as browsers have it and the calls of [Connection]
    ([keystore/src/connection/mod.rs]) over it; and what a kind of entity promises there
    ([WasmCodec], [WasmLaws], [WasmListLaws]): its collection is a map from keys to entities ([holds]), of
    which [save] sets an entry, [find_one] looks one up, [delete] takes entries away, whether it
    is in IndexedDB or in memory. *)

From stdpp Require Import sorting.
From S2P Require Import Prelude KsError Entity Browser.
Open Scope Z_scope.

(** ** Fields, read back by name and type *)

Definition get_bytes (name : string) (s : sfields) : option bytes :=
  match sfield name s with Some (SBytes b) => Some b | _ => None end.
Definition get_str (name : string) (s : sfields) : option bytes :=
  match sfield name s with Some (SStr b) => Some b | _ => None end.
Definition get_opt (name : string) (s : sfields) : option (option bytes) :=
  match sfield name s with Some (SOpt o) => Some o | _ => None end.
Definition get_num (max : Z) (name : string) (s : sfields) : option Z :=
  match sfield name s with
  | Some (SNum n) => if Z.leb 0 n && Z.leb n max then Some n else None
  | _ => None
  end.
Definition get_u16 : string -> sfields -> option Z := get_num u16_max.
Definition get_u64 : string -> sfields -> option Z := get_num u64_max.

Section base.
Context `{Wb : WasmBindgen} `{Ib : !IndexedDb} `{Ag : AesGcm}.

Abbreviation wasm := (stm Browser WasmError).

(** ** [EntityBase], with its default bodies *)

Class WasmEntityBase (E : Type) := {
  WAutoGeneratedFields : Type;
  w_missing_key_kind : MissingKeyErrorKind;
  w_save : E -> wasm ();
  w_insert : E -> wasm WAutoGeneratedFields;
  w_find_all : EntityFindParams -> wasm (list E);
  w_find_one : bytes -> wasm (option E);
  w_find_many : list bytes -> wasm (list E);
  w_count : wasm Z;
  w_delete_ids : list bytes -> wasm ();
}.

Definition wasm_default_insert {E} (e : E) : wasm () := st_fail (WKs NotImplemented).

Fixpoint wasm_default_find_many {E} (find_one : bytes -> wasm (option E)) (ids : list bytes) :
    wasm (list E) :=
  match ids with
  | [] => mret []
  | id :: ids =>
      o ← find_one id;
      rest ← wasm_default_find_many find_one ids;
      mret (match o with Some e => e :: rest | None => rest end)
  end.

(** ** [Connection] *)

Section connection.
Context {E : Type} `{!WasmEntityBase E}.

Definition WasmConnection_save (entity : E) : wasm E := w_save entity;; mret entity.
Definition WasmConnection_insert (entity : E) : wasm WAutoGeneratedFields :=
  fields ← w_insert entity; mret fields.
Definition WasmConnection_find (id : bytes) : wasm (option E) := w_find_one id.
Definition WasmConnection_find_all (params : EntityFindParams) : wasm (list E) := w_find_all params.
Definition WasmConnection_find_many (ids : list bytes) : wasm (list E) := w_find_many ids.
End connection.

Definition WasmConnection_remove (E : Type) `{!WasmEntityBase E} (id : bytes) : wasm () :=
  w_delete_ids (E := E) [id];; mret ().
Definition WasmConnection_count (E : Type) `{!WasmEntityBase E} : wasm Z := w_count (E := E).

(** ** The map a collection is *)

(** The values of a collection, wherever they are kept. *)
Definition content (s : WasmStorageWrapper) (c : string) : gmap bytes JsValue :=
  match s with
  | Persistent r => default ∅ (idb_stores (rexie_view r) !! c)
  | InMemory m => default ∅ (m !! c)
  end.

(** The database has the stores [open] declares. *)
Definition has_stores (d : idb) : Prop :=
  idb_schema d = wasm_schema /\ forall s, s ∈ wasm_schema -> is_Some (idb_stores d !! os_name s).

Definition ready (s : WasmStorageWrapper) : Prop :=
  match s with Persistent r => has_stores (rexie_view r) | InMemory _ => True end.

(** The browser does not fail by itself. *)
Definition storage_ok (s : WasmStorageWrapper) : Prop :=
  match s with Persistent r => rexie_healthy r | InMemory _ => True end.

Definition browser_ok (b : Browser) : Prop := storage_ok (br_storage b).

(** The other collections, the key and the clock are the same. *)
Definition only_collection (c : string) (b b' : Browser) : Prop :=
  (forall c', c' <> c -> content (br_storage b') c' = content (br_storage b) c') /\
  br_cipher b' = br_cipher b /\ br_now b' = br_now b.

(** What the encryption and the fields of a kind of entity promise. *)
Class WasmCodec (E : Type) `{!WasmEntity E} := {
  wl_decl : store_decl;
  (** integers in range, derived fields as they were derived *)
  wl_ok : E -> Prop;
  (** what is encrypted passes [check_buffer_size] *)
  wl_fits : E -> bool;
  wl_declared : find_decl (os_name wl_decl) (Idb wasm_schema ∅) = Some wl_decl;
  wl_fields e : wl_ok e ->
    of_fields (to_fields e) = Some e /\ forallb (fun p => js_safe p.2) (to_fields e) = true;
  wl_encrypt c (e e' : E) g g' : encrypt c e g = (Ok e', g') ->
    decrypt c e' = Ok e /\ id_raw e' = id_raw e /\ (wl_ok e -> wl_ok e');
  wl_encrypt_fits c e g : wl_fits e = true -> exists e' g', encrypt c e g = (Ok e', g');
  (** an attribute with a unique index tells the keys apart *)
  wl_unique ix x (e e' : E) : ix ∈ os_indexes wl_decl -> ix_unique ix = true -> wl_ok e -> wl_ok e' ->
    sfield (ix_key_path ix) (to_fields e) ≫= sval_key = Some x ->
    sfield (ix_key_path ix) (to_fields e') ≫= sval_key = Some x -> id_raw e = id_raw e';
}.

(** Its operations are those of the collection. *)
Class WasmLaws (E : Type) `{!WasmEntityBase E} `{WasmCodec E} := {
  wl_save e : w_save e = storage_save (os_name wl_decl) [e];
  wl_find_one id : w_find_one id = storage_get (os_name wl_decl) id;
  wl_delete ids : w_delete_ids ids = storage_delete (os_name wl_decl) ids;
}.

Class WasmListLaws (E : Type) `{!WasmEntityBase E} `{WasmCodec E} := {
  wl_find_all p : w_find_all p = storage_get_all (os_name wl_decl) (Some p);
  wl_count : w_count (E := E) = storage_count (os_name wl_decl);
}.

Section holds.
Context {E : Type} `{WasmCodec E}.

(** A stored value that is the entity, encrypted under its key. *)
Definition sealed (c : Cipher) (k : bytes) (e : E) (v : JsValue) : Prop :=
  wl_ok e /\ id_raw e = k /\
  exists e', wl_ok e' /\ id_raw e' = k /\ js_serialize (to_fields e') = Ok v /\ decrypt c e' = Ok e.

(** The collection of [E] is the map [m]. *)
Definition holds (b : Browser) (m : gmap bytes E) : Prop :=
  ready (br_storage b) /\
  map_Forall2 (sealed (br_cipher b)) m (content (br_storage b) (os_name wl_decl)).

(** A call does what it should, with an answer as it should be and the map [m'] afterwards, or
    fails and leaves the map [m]; it does not fail while the browser is well and [fits] holds. *)
Definition outcome {A : Type} (b : Browser) (m m' : gmap bytes E) (Q : A -> Prop) (fits : bool)
    (x : result WasmError A * Browser) : Prop :=
  only_collection (os_name wl_decl) b x.2 /\ (browser_ok b -> browser_ok x.2) /\
  match x.1 with
  | Ok a => Q a /\ holds x.2 m'
  | Err _ => holds x.2 m /\ ~ (browser_ok b /\ fits = true)
  end.
End holds.
End base.
