(* ===== verification/BrowserMap.v ===== *)
(** * A collection in a browser is a map

    What the calls on the collection of a lawful kind of entity ([WasmCodec]) do to the map its collection is,
    proved once for all of them: every call either does what the map does and answers with it,
    or fails and leaves the map as it was, and it fails only when the browser does or when the
    entity is too big. *)

From stdpp Require Import sorting.
From S2P Require Import Prelude KsError Entity Browser BrowserEntity.
Open Scope Z_scope.

Section requests.
Context `{Wb : WasmBindgen} `{Ib : !IndexedDb}.

Lemma idb_sem_err {X} (q : idb_request X) d e d' : idb_sem q d = (Err e, d') -> d' = d.
Proof. unfold idb_sem. destruct q; repeat case_match; intros; by simplify_eq. Qed.

(** A request does what it means, or it fails and the browser is not well. *)
Lemma rexie_cases {X} (q : idb_request X) r :
  exists a r', rexie_run X q r = (a, r') /\ (rexie_healthy r -> rexie_healthy r') /\
    (idb_sem q (rexie_view r) = (a, rexie_view r') \/
     is_ok a = false /\ rexie_view r' = rexie_view r /\ ~ rexie_healthy r).
Proof.
  destruct (rexie_run X q r) as [a r'] eqn:Hr. exists a, r'. split; [done|].
  pose proof (rexie_ok X q r) as Hok. rewrite Hr in Hok. cbn [fst snd] in Hok.
  split; [by intros (_ & ?)%Hok|]. destruct a as [a|e].
  - left. by eapply rexie_sound.
  - destruct (idb_sem q (rexie_view r)) as [[a|e'] d] eqn:Hs.
    + right. split_and!; [done|by eapply rexie_fail|]. by intros (? & _)%Hok.
    + destruct (decide (e = e')) as [->|Hne].
      * left. apply idb_sem_err in Hs as ->. f_equal. symmetry. by eapply rexie_fail.
      * right. split_and!; [done|by eapply rexie_fail|]. intros (? & _)%Hok. by simplify_eq/=.
Qed.

Lemma has_stores_content (d : idb) o :
  has_stores d -> find_decl (os_name o) (Idb wasm_schema ∅) = Some o ->
  exists m, find_decl (os_name o) d = Some o /\ idb_stores d !! os_name o = Some m.
Proof.
  intros [Hs Ha] Ho. unfold find_decl in *. cbn [idb_schema] in Ho. rewrite Hs.
  destruct (Ha o) as [m Hm]; [|by exists m].
  by apply first_Some in Ho as [? _].
Qed.

Lemma has_stores_change (d : idb) c m :
  has_stores d -> has_stores (Idb (idb_schema d) (<[c := m]> (idb_stores d))).
Proof.
  intros [Hs Ha]. split; [done|]. intros s Hin. cbn [idb_stores].
  destruct (decide (c = os_name s)) as [->|]; [rewrite lookup_insert_eq|rewrite lookup_insert_ne by done];
    [by eexists|by apply Ha].
Qed.
End requests.

Section maps.
Context `{Wb : WasmBindgen} `{Ib : !IndexedDb} `{Ag : AesGcm} `{!WasmBindgenLaws}.
Context {E : Type} `{!WasmEntity E} `{!WasmCodec E}.
Implicit Types (b : Browser) (m : gmap bytes E) (e : E).
Abbreviation coll := (os_name (wl_decl (E := E))).

(** A sealed value is read back. *)
Lemma sealed_open c k e v : sealed c k e v ->
  js_is_null v = false /\ exists e', from_value v = Ok e' /\ decrypt c e' = Ok e.
Proof.
  intros (_ & _ & e' & Hok & _ & Hv & Hd). destruct (js_from_serialize _ _ Hv) as [Hf Hn].
  split; [done|]. exists e'. split; [|done]. unfold from_value. rewrite Hf. cbn.
  by rewrite (proj1 (wl_fields e' Hok)).
Qed.

Lemma sealed_open_entity c k e v : sealed c k e v -> open_entity c v = Some e.
Proof.
  intros (_ & e' & Hf & Hd)%sealed_open. unfold open_entity. rewrite Hf. cbn. by rewrite Hd.
Qed.

Lemma holds_lookup b m k : holds b m ->
  option_Forall2 (sealed (br_cipher b) k) (m !! k) (content (br_storage b) coll !! k).
Proof. intros [_ Hm]. apply Hm. Qed.

(** ** Requests that only look *)

(** A request that leaves the database as it is, with the answer it means. *)
Lemma look_persistent {A X} b m r (q : idb_request X) (f : X -> result WasmError A) Q x :
  holds b m -> br_storage b = Persistent r ->
  idb_sem q (rexie_view r) = (Ok x, rexie_view r) -> (exists a, f x = Ok a /\ Q a) ->
  outcome b m m Q true
    (let (res, r') := (y ← rexie_run _ q; st_lift (f y)) r in
     (res, with_storage b (Persistent r') (br_rng b))).
Proof.
  intros [Hr Hm] Hb Hq (a & Hf & HQ). destruct (rexie_cases q r) as (y & r' & Hrun & Hh & Hc).
  unfold mbind, stm_bind. rewrite Hrun.
  assert (rexie_view r' = rexie_view r) as Hv by (destruct Hc as [Hc|(_ & Hv & _)]; congruence).
  assert (forall (res : result WasmError A), holds (with_storage b (Persistent r') (br_rng b)) m /\
    only_collection coll b (with_storage b (Persistent r') (br_rng b))) as Hsame.
  { intros _. unfold holds, ready, only_collection in *. rewrite Hb in *. cbn in *.
    rewrite Hv. by split_and!. }
  unfold outcome. destruct Hc as [Hc|(He & _ & Hn)].
  - rewrite Hq in Hc. injection Hc as <- _. unfold st_lift. rewrite Hf. cbn [fst snd].
    split_and!; [by apply (Hsame (Ok a))|unfold browser_ok; by rewrite Hb|done|by apply (Hsame (Ok a))].
  - destruct y as [?|err]; [done|]. cbn [fst snd].
    split_and!; [by apply (Hsame (Err err))|unfold browser_ok; by rewrite Hb|by apply (Hsame (Err err))|].
    intros [Hok _]. unfold browser_ok in Hok. by rewrite Hb in Hok.
Qed.

Lemma look_memory {A} b m mem (r : result WasmError A) Q :
  holds b m -> br_storage b = InMemory mem -> (exists a, r = Ok a /\ Q a) ->
  outcome b m m Q true (r, b).
Proof. intros Hm Hb (a & -> & HQ). by split_and!. Qed.

Lemma holds_content b m r :
  holds b m -> br_storage b = Persistent r ->
  exists st, find_decl coll (rexie_view r) = Some wl_decl /\ idb_stores (rexie_view r) !! coll = Some st /\
    map_Forall2 (sealed (br_cipher b)) m st.
Proof.
  intros [Hr Hm] Hb. unfold ready in Hr. rewrite Hb in *.
  destruct (has_stores_content _ wl_decl Hr wl_declared) as (st & Hd & Hst).
  exists st. split_and!; [done|done|]. cbn in Hm. by rewrite Hst in Hm.
Qed.

Lemma storage_get_holds b m id : holds b m ->
  outcome b m m (fun o => o = m !! id) true (storage_get coll id b).
Proof.
  intros Hm. pose proof (holds_lookup _ _ id Hm) as Hk. unfold storage_get.
  destruct (br_storage b) as [r|mem] eqn:Hb.
  - destruct (holds_content _ _ _ Hm Hb) as (st & Hd & Hst & _). cbn in Hk. rewrite Hst in Hk.
    pose (f := fun raw : option JsValue => match raw with
      | Some v => match from_value (E := E) v with
                  | Ok e => Some <$> decrypt (br_cipher b) e
                  | Err err => Err err
                  end
      | None => Ok None end).
    pose proof (look_persistent b m r (IdbGet coll id) f (fun o => o = m !! id) (st !! id) Hm Hb) as Hl.
    assert (persistent_get (br_cipher b) coll id r = (y ← rexie_run _ (IdbGet coll id); st_lift (f y)) r) as ->.
    { unfold persistent_get, mbind, stm_bind, f. destruct (rexie_run _ _ r) as [[[v|]|err] r']; [|done..].
      unfold st_lift. destruct (from_value v) as [e|]; [|done]. by destruct (decrypt _ e). }
    apply Hl; [cbn; by rewrite Hd, Hst|]. cbn in Hk. unfold f.
    inversion Hk as [e v Hs He Hv|He Hv]; [|by eexists].
      destruct (sealed_open _ _ _ _ Hs) as (_ & e' & Hf & Hdec). rewrite Hf. cbn. rewrite Hdec.
      by eexists.
  - apply (look_memory _ _ mem); [done..|]. unfold memory_get. cbn in Hk.
    destruct (mem !! coll) as [st|]; cbn in Hk.
    + inversion Hk as [e v Hs He Hv|He Hv]; [|by eexists].
      destruct (sealed_open _ _ _ _ Hs) as (Hn & e' & Hf & Hdec).
      unfold from_value_option. rewrite Hn, Hf. cbn. rewrite Hdec. by eexists.
    + rewrite lookup_empty in Hk. inversion Hk. by eexists.
Qed.

(** The listing of a collection that is a map: the entities in the order of the rows. *)
Lemma omap_sealed c m st (l : list (bytes * JsValue)) (f : bytes * JsValue -> option E) :
  map_Forall2 (sealed c) m st -> l ≡ₚ map_to_list st ->
  (forall k v e, sealed c k e v -> f (k, v) = Some e) ->
  omap (M := list) f l ≡ₚ snd <$> map_to_list m.
Proof.
  intros Hm Hl Hf. rewrite Hl. clear l Hl. revert m Hm.
  induction st as [|k v st Hk IH] using map_ind; intros m Hm.
  - apply map_Forall2_empty_inv_r in Hm as ->. by rewrite !map_to_list_empty.
  - apply map_Forall2_insert_inv_r in Hm as (e & m' & -> & Hk' & Hs & Hm); [|done].
    rewrite !map_to_list_insert by done. cbn. rewrite (Hf _ _ _ Hs). cbn.
    constructor. by apply IH.
Qed.

Lemma in_key_order_perm (st : gmap bytes JsValue) : in_key_order st ≡ₚ map_to_list st.
Proof. apply merge_sort_Permutation. Qed.

Lemma storage_get_all_holds b m : holds b m ->
  outcome b m m (fun l => l ≡ₚ snd <$> map_to_list m) true
    (storage_get_all coll (Some EntityFindParams_default) b).
Proof.
  intros Hm. unfold storage_get_all. destruct (br_storage b) as [r|mem] eqn:Hb.
  - destruct (holds_content _ _ _ Hm Hb) as (st & Hd & Hst & Hf).
    unfold persistent_get_all. cbn [default EntityFindParams_default limit offset reverse_order].
    apply (look_persistent b m r (IdbGetAll coll None None false) (fun raw => Ok (omap (M := list)
      (fun p : bytes * JsValue => if js_is_null p.2 then None else open_entity (br_cipher b) p.2) raw))
      _ (in_key_order st)); [done|done|cbn; by rewrite Hd, Hst|].
    eexists. split; [reflexivity|]. apply (omap_sealed (br_cipher b) m st); [done|apply in_key_order_perm|].
    intros k v e Hs. cbn. destruct (sealed_open _ _ _ _ Hs) as [-> _]. by eapply sealed_open_entity.
  - apply (look_memory _ _ mem); [done..|]. eexists. split; [reflexivity|]. unfold memory_get_all.
    destruct Hm as [_ Hm]. rewrite Hb in Hm. cbn in Hm. destruct (mem !! coll) as [st|]; cbn in Hm.
    + apply (omap_sealed (br_cipher b) m st); [done|apply hash_iter_perm|].
      intros k v e Hs. destruct (sealed_open _ _ _ _ Hs) as (Hn & e' & Hf & Hdec). cbn.
      unfold from_value_option. rewrite Hn, Hf. cbn. by rewrite Hdec.
    + apply map_Forall2_empty_inv_r in Hm as ->. by rewrite map_to_list_empty.
Qed.

Lemma map_Forall2_size {K A B} `{Countable K} (R : K -> A -> B -> Prop) (m1 : gmap K A) (m2 : gmap K B) :
  map_Forall2 R m1 m2 -> size m1 = size m2.
Proof.
  revert m1. induction m2 as [|k v m2 Hk IH] using map_ind; intros m1 Hm.
  - by apply map_Forall2_empty_inv_r in Hm as ->.
  - apply map_Forall2_insert_inv_r in Hm as (e & m' & -> & Hk' & _ & Hm); [|done].
    by rewrite !map_size_insert_None, (IH _ Hm).
Qed.

Lemma storage_count_holds b m : holds b m ->
  outcome b m m (fun n => n = Z.of_nat (size m)) true (storage_count coll b).
Proof.
  intros Hm. unfold storage_count. destruct (br_storage b) as [r|mem] eqn:Hb.
  - destruct (holds_content _ _ _ Hm Hb) as (st & Hd & Hst & Hf).
    pose proof (look_persistent b m r (IdbCount coll) (fun n => Ok n) (fun n => n = Z.of_nat (size m))
      (Z.of_nat (size st)) Hm Hb) as Hl.
    unfold mbind, stm_bind, st_lift in Hl.
    destruct (rexie_run Z (IdbCount coll) r) as [[n|err] r'] eqn:Hq; apply Hl;
      first [cbn; by rewrite Hd, Hst | exists (Z.of_nat (size st)); split; [done|]];
      by rewrite (map_Forall2_size _ _ _ Hf).
  - apply (look_memory _ _ mem); [done..|]. eexists. split; [reflexivity|].
    destruct Hm as [_ Hm]. rewrite Hb in Hm. cbn in Hm. by rewrite (map_Forall2_size _ _ _ Hm).
Qed.

(** ** Changing the map *)

(** A value of the entity clashes with no other one of the collection. *)
Lemma no_clash c m st (e e' : E) v :
  map_Forall2 (sealed c) m st -> wl_ok e' -> id_raw e' = id_raw e -> js_serialize (to_fields e') = Ok v ->
  clash wl_decl v (id_raw e) st = false.
Proof.
  intros Hm Hok Hid Hv. apply not_true_iff_false. unfold clash.
  intros (ix & Hix & [Hu Hx]%andb_true_iff)%existsb_exists.
  rewrite (js_attribute_serialize _ _ _ Hv) in Hx.
  destruct (sfield _ _ ≫= sval_key) as [x|] eqn:Hs; [|done].
  apply existsb_exists in Hx as ([k w] & Hin & [Hk Ha]%andb_true_iff).
  apply negb_true_iff, bool_decide_eq_false in Hk. apply bool_decide_eq_true in Ha. cbn in Hk, Ha.
  apply list_elem_of_In, elem_of_map_to_list in Hin. specialize (Hm k). rewrite Hin in Hm.
  inversion Hm as [e1 w1 Hsealed Heq1 Heq2|]. destruct Hsealed as (_ & _ & e2 & Hok2 & Hid2 & Hw & _).
  rewrite (js_attribute_serialize _ _ _ Hw) in Ha.
  apply Hk. rewrite <-Hid2, <-Hid. symmetry.
  apply list_elem_of_In in Hix. by eapply (wl_unique ix x e' e2).
Qed.

(** The encryption and the serialization of an entity, which every [save] begins with. *)
Lemma encrypt_serialize c (e : E) g : wl_ok e ->
  (exists e' v g', encrypt c e g = (Ok e', g') /\ js_serialize (to_fields e') = Ok v /\
     wl_ok e' /\ id_raw e' = id_raw e /\ sealed c (id_raw e) e v) \/
  (exists err g', encrypt c e g = (Err err, g') /\ wl_fits e = false).
Proof.
  intros Hok. destruct (encrypt c e g) as [[e'|err] g'] eqn:He.
  - left. destruct (wl_encrypt _ _ _ _ _ He) as (Hd & Hid & Hok'). specialize (Hok' Hok).
    pose proof (js_serialize_ok _ (proj2 (wl_fields _ Hok'))) as Hs.
    destruct (js_serialize (to_fields e')) as [v|] eqn:Hv; [|done].
    exists e', v, g'. split_and!; try done. split; [done|]. split; [done|]. by exists e'.
  - right. exists err, g'. split; [done|]. destruct (wl_fits e) eqn:Hf; [|done].
    destruct (wl_encrypt_fits c e g Hf) as (e' & g2 & H'). congruence.
Qed.

(** The two ways a call can end. *)
Lemma outcome_fails {A : Type} b m m' (Q : A -> Prop) fits err b' :
  holds b' m -> only_collection coll b b' -> (browser_ok b -> browser_ok b') ->
  ~ (browser_ok b /\ fits = true) -> outcome b m m' Q fits (Err err, b').
Proof. intros. by split_and!. Qed.

Lemma outcome_does {A : Type} b m m' (Q : A -> Prop) fits a b' :
  holds b' m' -> only_collection coll b b' -> (browser_ok b -> browser_ok b') -> Q a ->
  outcome b m m' Q fits (Ok a, b').
Proof. intros. by split_and!. Qed.

(** The state of a browser that differs in one collection. *)
Lemma holds_with_storage b m s g :
  holds b m -> ready s -> content s coll = content (br_storage b) coll -> holds (with_storage b s g) m.
Proof. intros [Hr Hm] Hs Hc. split; [done|]. cbn [with_storage br_storage]. cbn. by rewrite Hc. Qed.

Lemma same_content b r' g :
  (forall c, content (Persistent r') c = content (br_storage b) c) ->
  only_collection coll b (with_storage b (Persistent r') g).
Proof. intros Hc. split_and!; [|done..]. intros c _. apply Hc. Qed.

Lemma holds_same b m r r' g :
  holds b m -> br_storage b = Persistent r -> rexie_view r' = rexie_view r ->
  holds (with_storage b (Persistent r') g) m /\ only_collection coll b (with_storage b (Persistent r') g).
Proof.
  intros Hm Hb Hv. split.
  - destruct Hm as [Hr Hm]. unfold holds. rewrite Hb in *. cbn in *. by rewrite Hv.
  - apply same_content. intros c. rewrite Hb. cbn. by rewrite Hv.
Qed.

Lemma holds_change b m r r' g st :
  holds b m -> br_storage b = Persistent r ->
  rexie_view r' = Idb (idb_schema (rexie_view r)) (<[coll := st]> (idb_stores (rexie_view r))) ->
  forall m', map_Forall2 (sealed (br_cipher b)) m' st ->
  holds (with_storage b (Persistent r') g) m' /\ only_collection coll b (with_storage b (Persistent r') g).
Proof.
  intros [Hr _] Hb Hv m' Hm'. unfold holds, only_collection. rewrite Hb in *. cbn in *. rewrite Hv.
  split_and!; [by apply has_stores_change| |intros c Hc|done..]; cbn.
  - by rewrite lookup_insert_eq.
  - by rewrite lookup_insert_ne.
Qed.

Lemma holds_memory b mem mem' g m' :
  br_storage b = InMemory mem -> (forall c, c <> coll -> mem' !! c = mem !! c) ->
  map_Forall2 (sealed (br_cipher b)) m' (default ∅ (mem' !! coll)) ->
  holds (with_storage b (InMemory mem') g) m' /\ only_collection coll b (with_storage b (InMemory mem') g).
Proof.
  intros Hb Hc Hm. unfold holds, only_collection. rewrite Hb. cbn. split_and!; try done.
  intros c Hne. by rewrite Hc.
Qed.

Lemma storage_save_holds b m e : holds b m -> wl_ok e ->
  outcome b m (<[id_raw e := e]> m) (fun _ => True) (wl_fits e) (storage_save coll [e] b).
Proof.
  intros Hm Hok. unfold storage_save. destruct (br_storage b) as [r|mem] eqn:Hb.
  - destruct (holds_content _ _ _ Hm Hb) as (st & Hd & Hst & Hf).
    unfold persistent_save. cbn [st_iter]. unfold mbind, stm_bind. cbn [fst snd].
    destruct (encrypt_serialize (br_cipher b) e (br_rng b) Hok)
      as [(e' & v & g' & -> & Hv & Hok' & Hid & Hs)|(err & g' & -> & Hfit)].
    + rewrite Hv. destruct (rexie_cases (IdbPut coll v (id_raw e)) r) as (a & r' & -> & Hh & Hc).
      destruct Hc as [Hc|(Ha & Hview & Hn)].
      * cbn in Hc. rewrite Hd, Hst, (no_clash _ _ _ _ _ _ Hf Hok' Hid Hv) in Hc.
        injection Hc as <- Hview.
        destruct (holds_change _ _ _ r' g' _ Hm Hb (eq_sym Hview) (<[id_raw e := e]> m)) as [Hm' Ho].
        { by apply map_Forall2_insert_2. }
        apply outcome_does; [done|done| |done]. unfold browser_ok. by rewrite Hb.
      * destruct a; [done|]. destruct (holds_same _ _ _ r' g' Hm Hb Hview) as [Hm' Ho].
        apply outcome_fails; [done|done| |]; unfold browser_ok; rewrite Hb; [done|by intros []].
    + destruct (holds_same _ _ _ r g' Hm Hb eq_refl) as [Hm' Ho].
      apply outcome_fails; [done|done| |]; unfold browser_ok; rewrite Hb; [done|by rewrite Hfit; intros []].
  - unfold memory_save, st_modify, mbind, stm_bind. cbn [st_iter fst snd].
    unfold mbind, stm_bind. cbn [fst snd].
    pose proof (proj2 Hm) as Hf. rewrite Hb in Hf. cbn in Hf.
    assert (forall c, c <> coll -> <[coll := default ∅ (mem !! coll)]> mem !! c = mem !! c) as Hother.
    { intros c Hc. by rewrite lookup_insert_ne. }
    destruct (encrypt_serialize (br_cipher b) e (br_rng b) Hok)
      as [(e' & v & g' & -> & Hv & Hok' & Hid & Hs)|(err & g' & -> & Hfit)].
    + rewrite Hv. cbn [fst snd]. rewrite lookup_insert_eq. cbn [default].
      rewrite insert_insert_eq.
      destruct (holds_memory b mem (<[coll := <[id_raw e := v]> (default ∅ (mem !! coll))]> mem) g'
        (<[id_raw e := e]> m) Hb) as [Hm' Ho].
      { intros c Hc. by rewrite lookup_insert_ne. }
      { rewrite lookup_insert_eq. by apply map_Forall2_insert_2. }
      by apply outcome_does.
    + destruct (holds_memory b mem (<[coll := default ∅ (mem !! coll)]> mem) g' m Hb Hother) as [Hm' Ho].
      { by rewrite lookup_insert_eq. }
      apply outcome_fails; [done..|]. rewrite Hfit. by intros [].
Qed.

Lemma storage_delete_holds b m id : holds b m ->
  outcome b m (delete id m) (fun _ => True) true (storage_delete coll [id] b).
Proof.
  intros Hm. unfold storage_delete. destruct (br_storage b) as [r|mem] eqn:Hb.
  - destruct (holds_content _ _ _ Hm Hb) as (st & Hd & Hst & Hf).
    cbn [st_iter]. unfold mbind, stm_bind.
    destruct (rexie_cases (IdbDelete coll id) r) as (a & r' & -> & Hh & Hc).
    destruct Hc as [Hc|(Ha & Hview & Hn)].
    + cbn in Hc. rewrite Hd, Hst in Hc. injection Hc as <- Hview.
      destruct (holds_change _ _ _ r' (br_rng b) _ Hm Hb (eq_sym Hview) (delete id m)) as [Hm' Ho].
      { by apply map_Forall2_delete. }
      apply outcome_does; [done|done| |done]. unfold browser_ok. by rewrite Hb.
    + destruct a; [done|]. destruct (holds_same _ _ _ r' (br_rng b) Hm Hb Hview) as [Hm' Ho].
      apply outcome_fails; [done|done| |]; unfold browser_ok; rewrite Hb; [done|by intros []].
  - pose proof (proj2 Hm) as Hf. rewrite Hb in Hf. cbn in Hf.
    destruct (holds_memory b mem (memory_delete mem coll [id]) (br_rng b) (delete id m) Hb) as [Hm' Ho].
    { intros c Hc. unfold memory_delete. by rewrite lookup_alter_ne. }
    { unfold memory_delete. rewrite lookup_alter_eq. cbn.
      destruct (mem !! coll) as [st|]; cbn in *; [by apply map_Forall2_delete|].
      apply map_Forall2_empty_inv_r in Hf as ->. rewrite delete_empty. apply map_Forall2_empty. }
    by apply outcome_does.
Qed.
End maps.

(** ** Discharging the laws of a kind of entity *)

Section codec.
Context `{Ag : AesGcm} `{!AesGcmLaws}.

(** The sizes a secret may have: 12 bytes of nonce and 16 of tag are added to it. *)
Definition fits_sealed (m : bytes) : bool := Z.ltb (blen m + 28) MAX_BLOB_LEN.

Lemma encrypt_field_inv {E} (mk : bytes -> E) c m k g e' g' :
  (x ← encrypt_data c m k; st_lift (wasm_check_buffer_size (blen x));; mret (mk x)) g = (Ok e', g') ->
  exists x, e' = mk x /\ forall kind, decrypt_data kind c x k = Ok m.
Proof.
  intros (x & g1 & Hx & Hr)%stm_bind_inv. exists x. split; [|intros kind; by eapply encrypt_data_decrypt].
  apply stm_bind_inv in Hr as ([] & g2 & _ & Hr). by injection Hr.
Qed.

Lemma encrypt_field_fits {E} (mk : bytes -> E) c m k g : fits_sealed m = true ->
  exists e' g',
    (x ← encrypt_data c m k; st_lift (wasm_check_buffer_size (blen x));; mret (mk x)) g = (Ok e', g').
Proof.
  intros Hf%Z.ltb_lt. destruct (encrypt_data_ok c m k g) as [x Hx]; [lia|].
  exists (mk x), (snd (random_nonce g)). rewrite (stm_bind_ok _ _ _ _ _ Hx).
  apply encrypt_data_length in Hx. unfold wasm_check_buffer_size.
  by rewrite (proj2 (Z.leb_gt _ _)) by lia.
Qed.

(** The same without the check of the size. *)
Lemma encrypt_unchecked_inv {E} (mk : bytes -> E) c m k g e' g' :
  (x ← encrypt_data c m k; mret (mk x)) g = (Ok e', g') ->
  exists x, e' = mk x /\ forall kind, decrypt_data kind c x k = Ok m.
Proof.
  intros (x & g1 & Hx & Hr)%stm_bind_inv. exists x. split; [|intros kind; by eapply encrypt_data_decrypt].
  by injection Hr.
Qed.

Lemma encrypt_unchecked_fits {E} (mk : bytes -> E) c m k g : Z.ltb (blen m) MAX_BLOB_LEN = true ->
  exists e' g', (x ← encrypt_data c m k; mret (mk x)) g = (Ok e', g').
Proof.
  intros Hf%Z.ltb_lt. destruct (encrypt_data_ok c m k g Hf) as [x Hx].
  exists (mk x), (snd (random_nonce g)). by rewrite (stm_bind_ok _ _ _ _ _ Hx).
Qed.
End codec.

Lemma byte_vals_inj (a b : bytes) : byte_val <$> a = byte_val <$> b -> a = b.
Proof.
  apply list_fmap_eq_inj. intros x y Hxy. by rewrite <-(byte_of_val x), Hxy, byte_of_val.
Qed.

(** [wl_encrypt]: the one secret field is decrypted again, the others are the same. *)
Ltac wasm_encrypt :=
  let c := fresh "c" in let e := fresh "e" in let e' := fresh "e'" in
  let g := fresh "g" in let g' := fresh "g'" in let He := fresh "He" in
  let x := fresh "x" in let Hd := fresh "Hd" in
  intros c e e' g g' He;
  first [apply encrypt_field_inv in He as (x & -> & Hd)
        |apply encrypt_unchecked_inv in He as (x & -> & Hd)];
  split_and!; [cbn in *; lazymatch goal with |- ?f c _ = _ => unfold f end; cbn in *; rewrite Hd; by destruct e
              |done|done].

(** [wl_unique]: the only unique index is on the attribute the key is made of. *)
Ltac wasm_unique :=
  intros ix x e e' Hix Hu ? ?; cbn in Hix;
  repeat (apply elem_of_cons in Hix as [->|Hix]); try apply elem_of_nil in Hix;
  try done; cbn; intros [= <-] [= Hx]; first [by apply byte_vals_inj in Hx | done].

(** [wl_fields] for an entity with an integer field: it is in range. *)
Ltac wasm_fields_num :=
  let Hok := fresh "Hok" in
  intros [] Hok; cbn in Hok; split; cbn; unfold get_u16, get_num, sfield, js_safe; cbn;
  repeat match goal with
  | |- context [Z.leb ?a ?b] => destruct (Z.leb_spec a b); [|unfold u16_max in *; lia]
  end; done.
