(* ===== verification/BrowserKeys.v ===== *)
(** * Key material in a browser

    [keystore/src/entities/platform/wasm/mls/]: [keypackage.rs], [psk_bundle.rs],
    [hpke_private_key.rs], [encryption_keypair.rs], [epoch_encryption_keypair.rs] and
    [signature_keypair.rs]: what is encrypted, under which key, in which collection. The fields
    are those of [entities/mls.rs], as [derive(Serialize, Deserialize)] names them. *)

From S2P Require Import Prelude KsError Entity MlsKeys MlsCredentials.
From S2P Require Import Browser BrowserEntity BrowserMap.
Open Scope Z_scope.

Section entities.
Context `{Wb : WasmBindgen} `{Ib : !IndexedDb} `{Ag : AesGcm}.

Abbreviation wasm := (stm Browser WasmError).

(** ** [MlsKeyPackage] *)

Definition wasm_MlsKeyPackage_to_fields (self : MlsKeyPackage) : sfields :=
  [("keypackage_ref", SBytes (kp_keypackage_ref self));
   ("keypackage", SBytes (kp_keypackage self))].

Definition wasm_MlsKeyPackage_of_fields (s : sfields) : option MlsKeyPackage :=
  keypackage_ref ← get_bytes "keypackage_ref" s;
  keypackage ← get_bytes "keypackage" s;
  Some (MkMlsKeyPackage keypackage_ref keypackage).

Definition wasm_MlsKeyPackage_encrypt (cipher : Cipher) (self : MlsKeyPackage) : stm Rng WasmError MlsKeyPackage :=
  keypackage ← encrypt_data cipher (kp_keypackage self) (kp_keypackage_ref self);
  st_lift (wasm_check_buffer_size (blen keypackage));;
  mret (MkMlsKeyPackage (kp_keypackage_ref self) keypackage).

Definition wasm_MlsKeyPackage_decrypt (cipher : Cipher) (self : MlsKeyPackage) : result WasmError MlsKeyPackage :=
  keypackage ← decrypt_data MlsKeyPackageBundle cipher (kp_keypackage self) (kp_keypackage_ref self);
  Ok (MkMlsKeyPackage (kp_keypackage_ref self) keypackage).

#[export] Instance wasm_MlsKeyPackage : WasmEntity MlsKeyPackage := {|
  id_raw := kp_keypackage_ref;
  encrypt := wasm_MlsKeyPackage_encrypt;
  decrypt := wasm_MlsKeyPackage_decrypt;
  to_fields := wasm_MlsKeyPackage_to_fields;
  of_fields := wasm_MlsKeyPackage_of_fields;
|}.

Definition wasm_MlsKeyPackage_find_all (params : EntityFindParams) : wasm (list MlsKeyPackage) :=
  storage_get_all "mls_keypackages" (Some params).

Definition wasm_MlsKeyPackage_save (self : MlsKeyPackage) : wasm () := storage_save "mls_keypackages" [self].

Definition wasm_MlsKeyPackage_find_one (id : bytes) : wasm (option MlsKeyPackage) := storage_get "mls_keypackages" id.

Definition wasm_MlsKeyPackage_count : wasm Z := storage_count "mls_keypackages".

Definition wasm_MlsKeyPackage_delete (ids : list bytes) : wasm () := storage_delete "mls_keypackages" ids.

#[export] Instance wasm_MlsKeyPackage_base : WasmEntityBase MlsKeyPackage := {|
  WAutoGeneratedFields := ();
  w_missing_key_kind := MlsKeyPackageBundle;
  w_save := wasm_MlsKeyPackage_save;
  w_insert := wasm_default_insert;
  w_find_all := wasm_MlsKeyPackage_find_all;
  w_find_one := wasm_MlsKeyPackage_find_one;
  w_find_many := wasm_default_find_many wasm_MlsKeyPackage_find_one;
  w_count := wasm_MlsKeyPackage_count;
  w_delete_ids := wasm_MlsKeyPackage_delete;
|}.

(** ** [MlsPskBundle] *)

Definition wasm_MlsPskBundle_to_fields (self : MlsPskBundle) : sfields :=
  [("psk_id", SBytes (psk_psk_id self));
   ("psk", SBytes (psk_psk self))].

Definition wasm_MlsPskBundle_of_fields (s : sfields) : option MlsPskBundle :=
  psk_id ← get_bytes "psk_id" s;
  psk ← get_bytes "psk" s;
  Some (MkMlsPskBundle psk_id psk).

Definition wasm_MlsPskBundle_encrypt (cipher : Cipher) (self : MlsPskBundle) : stm Rng WasmError MlsPskBundle :=
  psk ← encrypt_data cipher (psk_psk self) (psk_psk_id self);
  st_lift (wasm_check_buffer_size (blen psk));;
  mret (MkMlsPskBundle (psk_psk_id self) psk).

Definition wasm_MlsPskBundle_decrypt (cipher : Cipher) (self : MlsPskBundle) : result WasmError MlsPskBundle :=
  psk ← decrypt_data MissingMlsPskBundle cipher (psk_psk self) (psk_psk_id self);
  Ok (MkMlsPskBundle (psk_psk_id self) psk).

#[export] Instance wasm_MlsPskBundle : WasmEntity MlsPskBundle := {|
  id_raw := psk_psk_id;
  encrypt := wasm_MlsPskBundle_encrypt;
  decrypt := wasm_MlsPskBundle_decrypt;
  to_fields := wasm_MlsPskBundle_to_fields;
  of_fields := wasm_MlsPskBundle_of_fields;
|}.

Definition wasm_MlsPskBundle_find_all (params : EntityFindParams) : wasm (list MlsPskBundle) :=
  storage_get_all "mls_psk_bundles" (Some params).

Definition wasm_MlsPskBundle_save (self : MlsPskBundle) : wasm () := storage_save "mls_psk_bundles" [self].

Definition wasm_MlsPskBundle_find_one (id : bytes) : wasm (option MlsPskBundle) := storage_get "mls_psk_bundles" id.

Definition wasm_MlsPskBundle_count : wasm Z := storage_count "mls_psk_bundles".

Definition wasm_MlsPskBundle_delete (ids : list bytes) : wasm () := storage_delete "mls_psk_bundles" ids.

#[export] Instance wasm_MlsPskBundle_base : WasmEntityBase MlsPskBundle := {|
  WAutoGeneratedFields := ();
  w_missing_key_kind := MissingMlsPskBundle;
  w_save := wasm_MlsPskBundle_save;
  w_insert := wasm_default_insert;
  w_find_all := wasm_MlsPskBundle_find_all;
  w_find_one := wasm_MlsPskBundle_find_one;
  w_find_many := wasm_default_find_many wasm_MlsPskBundle_find_one;
  w_count := wasm_MlsPskBundle_count;
  w_delete_ids := wasm_MlsPskBundle_delete;
|}.

(** ** [MlsHpkePrivateKey] *)

Definition wasm_MlsHpkePrivateKey_to_fields (self : MlsHpkePrivateKey) : sfields :=
  [("sk", SBytes (hpke_sk self));
   ("pk", SBytes (hpke_pk self))].

Definition wasm_MlsHpkePrivateKey_of_fields (s : sfields) : option MlsHpkePrivateKey :=
  sk ← get_bytes "sk" s;
  pk ← get_bytes "pk" s;
  Some (MkMlsHpkePrivateKey sk pk).

Definition wasm_MlsHpkePrivateKey_encrypt (cipher : Cipher) (self : MlsHpkePrivateKey) : stm Rng WasmError MlsHpkePrivateKey :=
  sk ← encrypt_data cipher (hpke_sk self) (hpke_pk self);
  st_lift (wasm_check_buffer_size (blen sk));;
  mret (MkMlsHpkePrivateKey sk (hpke_pk self)).

Definition wasm_MlsHpkePrivateKey_decrypt (cipher : Cipher) (self : MlsHpkePrivateKey) : result WasmError MlsHpkePrivateKey :=
  sk ← decrypt_data MissingMlsHpkePrivateKey cipher (hpke_sk self) (hpke_pk self);
  Ok (MkMlsHpkePrivateKey sk (hpke_pk self)).

#[export] Instance wasm_MlsHpkePrivateKey : WasmEntity MlsHpkePrivateKey := {|
  id_raw := hpke_pk;
  encrypt := wasm_MlsHpkePrivateKey_encrypt;
  decrypt := wasm_MlsHpkePrivateKey_decrypt;
  to_fields := wasm_MlsHpkePrivateKey_to_fields;
  of_fields := wasm_MlsHpkePrivateKey_of_fields;
|}.

Definition wasm_MlsHpkePrivateKey_find_all (params : EntityFindParams) : wasm (list MlsHpkePrivateKey) :=
  storage_get_all "mls_hpke_private_keys" (Some params).

Definition wasm_MlsHpkePrivateKey_save (self : MlsHpkePrivateKey) : wasm () := storage_save "mls_hpke_private_keys" [self].

Definition wasm_MlsHpkePrivateKey_find_one (id : bytes) : wasm (option MlsHpkePrivateKey) := storage_get "mls_hpke_private_keys" id.

Definition wasm_MlsHpkePrivateKey_count : wasm Z := storage_count "mls_hpke_private_keys".

Definition wasm_MlsHpkePrivateKey_delete (ids : list bytes) : wasm () := storage_delete "mls_hpke_private_keys" ids.

#[export] Instance wasm_MlsHpkePrivateKey_base : WasmEntityBase MlsHpkePrivateKey := {|
  WAutoGeneratedFields := ();
  w_missing_key_kind := MissingMlsHpkePrivateKey;
  w_save := wasm_MlsHpkePrivateKey_save;
  w_insert := wasm_default_insert;
  w_find_all := wasm_MlsHpkePrivateKey_find_all;
  w_find_one := wasm_MlsHpkePrivateKey_find_one;
  w_find_many := wasm_default_find_many wasm_MlsHpkePrivateKey_find_one;
  w_count := wasm_MlsHpkePrivateKey_count;
  w_delete_ids := wasm_MlsHpkePrivateKey_delete;
|}.

(** ** [MlsEncryptionKeyPair] *)

Definition wasm_MlsEncryptionKeyPair_to_fields (self : MlsEncryptionKeyPair) : sfields :=
  [("sk", SBytes (ek_sk self));
   ("pk", SBytes (ek_pk self))].

Definition wasm_MlsEncryptionKeyPair_of_fields (s : sfields) : option MlsEncryptionKeyPair :=
  sk ← get_bytes "sk" s;
  pk ← get_bytes "pk" s;
  Some (MkMlsEncryptionKeyPair sk pk).

Definition wasm_MlsEncryptionKeyPair_encrypt (cipher : Cipher) (self : MlsEncryptionKeyPair) : stm Rng WasmError MlsEncryptionKeyPair :=
  sk ← encrypt_data cipher (ek_sk self) (ek_pk self);
  st_lift (wasm_check_buffer_size (blen sk));;
  mret (MkMlsEncryptionKeyPair sk (ek_pk self)).

Definition wasm_MlsEncryptionKeyPair_decrypt (cipher : Cipher) (self : MlsEncryptionKeyPair) : result WasmError MlsEncryptionKeyPair :=
  sk ← decrypt_data MissingMlsEncryptionKeyPair cipher (ek_sk self) (ek_pk self);
  Ok (MkMlsEncryptionKeyPair sk (ek_pk self)).

#[export] Instance wasm_MlsEncryptionKeyPair : WasmEntity MlsEncryptionKeyPair := {|
  id_raw := ek_pk;
  encrypt := wasm_MlsEncryptionKeyPair_encrypt;
  decrypt := wasm_MlsEncryptionKeyPair_decrypt;
  to_fields := wasm_MlsEncryptionKeyPair_to_fields;
  of_fields := wasm_MlsEncryptionKeyPair_of_fields;
|}.

Definition wasm_MlsEncryptionKeyPair_find_all (params : EntityFindParams) : wasm (list MlsEncryptionKeyPair) :=
  storage_get_all "mls_encryption_keypairs" (Some params).

Definition wasm_MlsEncryptionKeyPair_save (self : MlsEncryptionKeyPair) : wasm () := storage_save "mls_encryption_keypairs" [self].

Definition wasm_MlsEncryptionKeyPair_find_one (id : bytes) : wasm (option MlsEncryptionKeyPair) := storage_get "mls_encryption_keypairs" id.

Definition wasm_MlsEncryptionKeyPair_count : wasm Z := storage_count "mls_encryption_keypairs".

Definition wasm_MlsEncryptionKeyPair_delete (ids : list bytes) : wasm () := storage_delete "mls_encryption_keypairs" ids.

#[export] Instance wasm_MlsEncryptionKeyPair_base : WasmEntityBase MlsEncryptionKeyPair := {|
  WAutoGeneratedFields := ();
  w_missing_key_kind := MissingMlsEncryptionKeyPair;
  w_save := wasm_MlsEncryptionKeyPair_save;
  w_insert := wasm_default_insert;
  w_find_all := wasm_MlsEncryptionKeyPair_find_all;
  w_find_one := wasm_MlsEncryptionKeyPair_find_one;
  w_find_many := wasm_default_find_many wasm_MlsEncryptionKeyPair_find_one;
  w_count := wasm_MlsEncryptionKeyPair_count;
  w_delete_ids := wasm_MlsEncryptionKeyPair_delete;
|}.

(** ** [MlsEpochEncryptionKeyPair] *)

Definition wasm_MlsEpochEncryptionKeyPair_to_fields (self : MlsEpochEncryptionKeyPair) : sfields :=
  [("id", SBytes (eek_id self));
   ("keypairs", SBytes (eek_keypairs self))].

Definition wasm_MlsEpochEncryptionKeyPair_of_fields (s : sfields) : option MlsEpochEncryptionKeyPair :=
  id ← get_bytes "id" s;
  keypairs ← get_bytes "keypairs" s;
  Some (MkMlsEpochEncryptionKeyPair id keypairs).

Definition wasm_MlsEpochEncryptionKeyPair_encrypt (cipher : Cipher) (self : MlsEpochEncryptionKeyPair) : stm Rng WasmError MlsEpochEncryptionKeyPair :=
  keypairs ← encrypt_data cipher (eek_keypairs self) (eek_id self);
  st_lift (wasm_check_buffer_size (blen keypairs));;
  mret (MkMlsEpochEncryptionKeyPair (eek_id self) keypairs).

Definition wasm_MlsEpochEncryptionKeyPair_decrypt (cipher : Cipher) (self : MlsEpochEncryptionKeyPair) : result WasmError MlsEpochEncryptionKeyPair :=
  keypairs ← decrypt_data MissingMlsEpochEncryptionKeyPair cipher (eek_keypairs self) (eek_id self);
  Ok (MkMlsEpochEncryptionKeyPair (eek_id self) keypairs).

#[export] Instance wasm_MlsEpochEncryptionKeyPair : WasmEntity MlsEpochEncryptionKeyPair := {|
  id_raw := eek_id;
  encrypt := wasm_MlsEpochEncryptionKeyPair_encrypt;
  decrypt := wasm_MlsEpochEncryptionKeyPair_decrypt;
  to_fields := wasm_MlsEpochEncryptionKeyPair_to_fields;
  of_fields := wasm_MlsEpochEncryptionKeyPair_of_fields;
|}.

Definition wasm_MlsEpochEncryptionKeyPair_find_all (params : EntityFindParams) : wasm (list MlsEpochEncryptionKeyPair) :=
  storage_get_all "mls_epoch_encryption_keypairs" (Some params).

Definition wasm_MlsEpochEncryptionKeyPair_save (self : MlsEpochEncryptionKeyPair) : wasm () := storage_save "mls_epoch_encryption_keypairs" [self].

Definition wasm_MlsEpochEncryptionKeyPair_find_one (id : bytes) : wasm (option MlsEpochEncryptionKeyPair) := storage_get "mls_epoch_encryption_keypairs" id.

Definition wasm_MlsEpochEncryptionKeyPair_count : wasm Z := storage_count "mls_epoch_encryption_keypairs".

Definition wasm_MlsEpochEncryptionKeyPair_delete (ids : list bytes) : wasm () := storage_delete "mls_epoch_encryption_keypairs" ids.

#[export] Instance wasm_MlsEpochEncryptionKeyPair_base : WasmEntityBase MlsEpochEncryptionKeyPair := {|
  WAutoGeneratedFields := ();
  w_missing_key_kind := MissingMlsEpochEncryptionKeyPair;
  w_save := wasm_MlsEpochEncryptionKeyPair_save;
  w_insert := wasm_default_insert;
  w_find_all := wasm_MlsEpochEncryptionKeyPair_find_all;
  w_find_one := wasm_MlsEpochEncryptionKeyPair_find_one;
  w_find_many := wasm_default_find_many wasm_MlsEpochEncryptionKeyPair_find_one;
  w_count := wasm_MlsEpochEncryptionKeyPair_count;
  w_delete_ids := wasm_MlsEpochEncryptionKeyPair_delete;
|}.

(** ** [MlsSignatureKeyPair] *)

Definition wasm_MlsSignatureKeyPair_to_fields (self : MlsSignatureKeyPair) : sfields :=
  [("signature_scheme", SNum (sk_signature_scheme self));
   ("pk", SBytes (sk_pk self));
   ("keypair", SBytes (sk_keypair self));
   ("credential_id", SBytes (sk_credential_id self))].

Definition wasm_MlsSignatureKeyPair_of_fields (s : sfields) : option MlsSignatureKeyPair :=
  signature_scheme ← get_u16 "signature_scheme" s;
  pk ← get_bytes "pk" s;
  keypair ← get_bytes "keypair" s;
  credential_id ← get_bytes "credential_id" s;
  Some (MkMlsSignatureKeyPair signature_scheme pk keypair credential_id).

Definition wasm_MlsSignatureKeyPair_encrypt (cipher : Cipher) (self : MlsSignatureKeyPair) : stm Rng WasmError MlsSignatureKeyPair :=
  keypair ← encrypt_data cipher (sk_keypair self) (sk_pk self);
  st_lift (wasm_check_buffer_size (blen keypair));;
  mret (MkMlsSignatureKeyPair (sk_signature_scheme self) (sk_pk self) keypair (sk_credential_id self)).

Definition wasm_MlsSignatureKeyPair_decrypt (cipher : Cipher) (self : MlsSignatureKeyPair) : result WasmError MlsSignatureKeyPair :=
  keypair ← decrypt_data MissingMlsSignatureKeyPair cipher (sk_keypair self) (sk_pk self);
  Ok (MkMlsSignatureKeyPair (sk_signature_scheme self) (sk_pk self) keypair (sk_credential_id self)).

#[export] Instance wasm_MlsSignatureKeyPair : WasmEntity MlsSignatureKeyPair := {|
  id_raw := sk_pk;
  encrypt := wasm_MlsSignatureKeyPair_encrypt;
  decrypt := wasm_MlsSignatureKeyPair_decrypt;
  to_fields := wasm_MlsSignatureKeyPair_to_fields;
  of_fields := wasm_MlsSignatureKeyPair_of_fields;
|}.

Definition wasm_MlsSignatureKeyPair_find_all (params : EntityFindParams) : wasm (list MlsSignatureKeyPair) :=
  storage_get_all "mls_signature_keypairs" (Some params).

Definition wasm_MlsSignatureKeyPair_save (self : MlsSignatureKeyPair) : wasm () := storage_save "mls_signature_keypairs" [self].

Definition wasm_MlsSignatureKeyPair_find_one (id : bytes) : wasm (option MlsSignatureKeyPair) := storage_get "mls_signature_keypairs" id.

Definition wasm_MlsSignatureKeyPair_count : wasm Z := storage_count "mls_signature_keypairs".

Definition wasm_MlsSignatureKeyPair_delete (ids : list bytes) : wasm () := storage_delete "mls_signature_keypairs" ids.

#[export] Instance wasm_MlsSignatureKeyPair_base : WasmEntityBase MlsSignatureKeyPair := {|
  WAutoGeneratedFields := ();
  w_missing_key_kind := MissingMlsSignatureKeyPair;
  w_save := wasm_MlsSignatureKeyPair_save;
  w_insert := wasm_default_insert;
  w_find_all := wasm_MlsSignatureKeyPair_find_all;
  w_find_one := wasm_MlsSignatureKeyPair_find_one;
  w_find_many := wasm_default_find_many wasm_MlsSignatureKeyPair_find_one;
  w_count := wasm_MlsSignatureKeyPair_count;
  w_delete_ids := wasm_MlsSignatureKeyPair_delete;
|}.

(** ** The laws of a map *)

Context `{!AesGcmLaws}.

#[export] Program Instance wasm_MlsKeyPackage_codec : WasmCodec MlsKeyPackage := {|
  wl_decl := ObjectStore "mls_keypackages" [Index "keypackage_ref" "keypackage_ref" true];
  wl_ok := fun _ => True;
  wl_fits := fun e => fits_sealed (kp_keypackage e);
|}.
Next Obligation. done. Qed.
Next Obligation. intros [] _. by split. Qed.
Next Obligation. wasm_encrypt. Qed.
Next Obligation. intros c e g Hf. by apply encrypt_field_fits. Qed.
Next Obligation. wasm_unique. Qed.

#[export] Instance wasm_MlsKeyPackage_laws : WasmLaws MlsKeyPackage.
Proof. by constructor. Qed.

#[export] Instance wasm_MlsKeyPackage_list : WasmListLaws MlsKeyPackage.
Proof. by constructor. Qed.

#[export] Program Instance wasm_MlsPskBundle_codec : WasmCodec MlsPskBundle := {|
  wl_decl := ObjectStore "mls_psk_bundles" [Index "psk_id" "psk_id" true];
  wl_ok := fun _ => True;
  wl_fits := fun e => fits_sealed (psk_psk e);
|}.
Next Obligation. done. Qed.
Next Obligation. intros [] _. by split. Qed.
Next Obligation. wasm_encrypt. Qed.
Next Obligation. intros c e g Hf. by apply encrypt_field_fits. Qed.
Next Obligation. wasm_unique. Qed.

#[export] Instance wasm_MlsPskBundle_laws : WasmLaws MlsPskBundle.
Proof. by constructor. Qed.

#[export] Instance wasm_MlsPskBundle_list : WasmListLaws MlsPskBundle.
Proof. by constructor. Qed.

#[export] Program Instance wasm_MlsHpkePrivateKey_codec : WasmCodec MlsHpkePrivateKey := {|
  wl_decl := ObjectStore "mls_hpke_private_keys" [Index "pk" "pk" true];
  wl_ok := fun _ => True;
  wl_fits := fun e => fits_sealed (hpke_sk e);
|}.
Next Obligation. done. Qed.
Next Obligation. intros [] _. by split. Qed.
Next Obligation. wasm_encrypt. Qed.
Next Obligation. intros c e g Hf. by apply encrypt_field_fits. Qed.
Next Obligation. wasm_unique. Qed.

#[export] Instance wasm_MlsHpkePrivateKey_laws : WasmLaws MlsHpkePrivateKey.
Proof. by constructor. Qed.

#[export] Instance wasm_MlsHpkePrivateKey_list : WasmListLaws MlsHpkePrivateKey.
Proof. by constructor. Qed.

#[export] Program Instance wasm_MlsEncryptionKeyPair_codec : WasmCodec MlsEncryptionKeyPair := {|
  wl_decl := ObjectStore "mls_encryption_keypairs" [Index "pk" "pk" true];
  wl_ok := fun _ => True;
  wl_fits := fun e => fits_sealed (ek_sk e);
|}.
Next Obligation. done. Qed.
Next Obligation. intros [] _. by split. Qed.
Next Obligation. wasm_encrypt. Qed.
Next Obligation. intros c e g Hf. by apply encrypt_field_fits. Qed.
Next Obligation. wasm_unique. Qed.

#[export] Instance wasm_MlsEncryptionKeyPair_laws : WasmLaws MlsEncryptionKeyPair.
Proof. by constructor. Qed.

#[export] Instance wasm_MlsEncryptionKeyPair_list : WasmListLaws MlsEncryptionKeyPair.
Proof. by constructor. Qed.

#[export] Program Instance wasm_MlsEpochEncryptionKeyPair_codec : WasmCodec MlsEpochEncryptionKeyPair := {|
  wl_decl := ObjectStore "mls_epoch_encryption_keypairs" [Index "id" "id" true];
  wl_ok := fun _ => True;
  wl_fits := fun e => fits_sealed (eek_keypairs e);
|}.
Next Obligation. done. Qed.
Next Obligation. intros [] _. by split. Qed.
Next Obligation. wasm_encrypt. Qed.
Next Obligation. intros c e g Hf. by apply encrypt_field_fits. Qed.
Next Obligation. wasm_unique. Qed.

#[export] Instance wasm_MlsEpochEncryptionKeyPair_laws : WasmLaws MlsEpochEncryptionKeyPair.
Proof. by constructor. Qed.

#[export] Instance wasm_MlsEpochEncryptionKeyPair_list : WasmListLaws MlsEpochEncryptionKeyPair.
Proof. by constructor. Qed.

#[export] Program Instance wasm_MlsSignatureKeyPair_codec : WasmCodec MlsSignatureKeyPair := {|
  wl_decl := ObjectStore "mls_signature_keypairs" [Index "mls_id" "mls_id" false; Index "signature_scheme" "signature_scheme" false; Index "pk" "pk" true];
  wl_ok := fun e => 0 <= sk_signature_scheme e <= u16_max;
  wl_fits := fun e => fits_sealed (sk_keypair e);
|}.
Next Obligation. done. Qed.
Next Obligation. wasm_fields_num. Qed.
Next Obligation. wasm_encrypt. Qed.
Next Obligation. intros c e g Hf. by apply encrypt_field_fits. Qed.
Next Obligation. wasm_unique. Qed.

#[export] Instance wasm_MlsSignatureKeyPair_laws : WasmLaws MlsSignatureKeyPair.
Proof. by constructor. Qed.

#[export] Instance wasm_MlsSignatureKeyPair_list : WasmListLaws MlsSignatureKeyPair.
Proof. by constructor. Qed.

End entities.
