(* ===== verification/BrowserMls.v ===== *)
(** * Groups and certificates in a browser

    [keystore/src/entities/platform/wasm/mls/]: [group.rs], [pending_message.rs],
    [e2ei_intermediate_cert.rs], [e2ei_crl.rs], [enrollment.rs], the collections of one entity
    [e2ei_acme_ca.rs] and [refresh_token.rs], and [credential.rs]. *)

From S2P Require Import Prelude KsError Entity MlsGroups MlsPending MlsCredentials E2eiEntities.
From S2P Require Import Browser BrowserEntity BrowserMap.
Open Scope Z_scope.

Section entities.
Context `{Wb : WasmBindgen} `{Ib : !IndexedDb} `{Ag : AesGcm}.

Abbreviation wasm := (stm Browser WasmError).

(** ** [PersistedMlsGroup] *)

Definition wasm_PersistedMlsGroup_to_fields (self : PersistedMlsGroup) : sfields :=
  [("id", SBytes (pg_id self));
   ("state", SBytes (pg_state self));
   ("parent_id", SOpt (pg_parent_id self))].

Definition wasm_PersistedMlsGroup_of_fields (s : sfields) : option PersistedMlsGroup :=
  id ← get_bytes "id" s;
  state ← get_bytes "state" s;
  parent_id ← get_opt "parent_id" s;
  Some (MkPersistedMlsGroup id state parent_id).

Definition wasm_PersistedMlsGroup_encrypt (cipher : Cipher) (self : PersistedMlsGroup) : stm Rng WasmError PersistedMlsGroup :=
  state ← encrypt_data cipher (pg_state self) (pg_id self);
  st_lift (wasm_check_buffer_size (blen state));;
  mret (MkPersistedMlsGroup (pg_id self) state (pg_parent_id self)).

Definition wasm_PersistedMlsGroup_decrypt (cipher : Cipher) (self : PersistedMlsGroup) : result WasmError PersistedMlsGroup :=
  state ← decrypt_data MlsGroupMissing cipher (pg_state self) (pg_id self);
  Ok (MkPersistedMlsGroup (pg_id self) state (pg_parent_id self)).

#[export] Instance wasm_PersistedMlsGroup : WasmEntity PersistedMlsGroup := {|
  id_raw := pg_id;
  encrypt := wasm_PersistedMlsGroup_encrypt;
  decrypt := wasm_PersistedMlsGroup_decrypt;
  to_fields := wasm_PersistedMlsGroup_to_fields;
  of_fields := wasm_PersistedMlsGroup_of_fields;
|}.

Definition wasm_PersistedMlsGroup_find_all (params : EntityFindParams) : wasm (list PersistedMlsGroup) :=
  storage_get_all "mls_groups" (Some params).

Definition wasm_PersistedMlsGroup_save (self : PersistedMlsGroup) : wasm () := storage_save "mls_groups" [self].

Definition wasm_PersistedMlsGroup_find_one (id : bytes) : wasm (option PersistedMlsGroup) := storage_get "mls_groups" id.

Definition wasm_PersistedMlsGroup_find_many (ids : list bytes) : wasm (list PersistedMlsGroup) :=
  storage_get_all "mls_groups" None.

Definition wasm_PersistedMlsGroup_count : wasm Z := storage_count "mls_groups".

Definition wasm_PersistedMlsGroup_delete (ids : list bytes) : wasm () := storage_delete "mls_groups" ids.

#[export] Instance wasm_PersistedMlsGroup_base : WasmEntityBase PersistedMlsGroup := {|
  WAutoGeneratedFields := ();
  w_missing_key_kind := MlsGroupMissing;
  w_save := wasm_PersistedMlsGroup_save;
  w_insert := wasm_default_insert;
  w_find_all := wasm_PersistedMlsGroup_find_all;
  w_find_one := wasm_PersistedMlsGroup_find_one;
  w_find_many := wasm_PersistedMlsGroup_find_many;
  w_count := wasm_PersistedMlsGroup_count;
  w_delete_ids := wasm_PersistedMlsGroup_delete;
|}.

(** ** [PersistedMlsPendingGroup] *)

Definition wasm_PersistedMlsPendingGroup_to_fields (self : PersistedMlsPendingGroup) : sfields :=
  [("id", SBytes (ppg_id self));
   ("state", SBytes (ppg_state self));
   ("parent_id", SOpt (ppg_parent_id self));
   ("custom_configuration", SBytes (ppg_custom_configuration self))].

Definition wasm_PersistedMlsPendingGroup_of_fields (s : sfields) : option PersistedMlsPendingGroup :=
  id ← get_bytes "id" s;
  state ← get_bytes "state" s;
  parent_id ← get_opt "parent_id" s;
  custom_configuration ← get_bytes "custom_configuration" s;
  Some (MkPersistedMlsPendingGroup id state parent_id custom_configuration).

Definition wasm_PersistedMlsPendingGroup_encrypt (cipher : Cipher) (self : PersistedMlsPendingGroup) : stm Rng WasmError PersistedMlsPendingGroup :=
  state ← encrypt_data cipher (ppg_state self) (ppg_id self);
  mret (MkPersistedMlsPendingGroup (ppg_id self) state (ppg_parent_id self) (ppg_custom_configuration self)).

Definition wasm_PersistedMlsPendingGroup_decrypt (cipher : Cipher) (self : PersistedMlsPendingGroup) : result WasmError PersistedMlsPendingGroup :=
  state ← decrypt_data MlsPendingGroupMissing cipher (ppg_state self) (ppg_id self);
  Ok (MkPersistedMlsPendingGroup (ppg_id self) state (ppg_parent_id self) (ppg_custom_configuration self)).

#[export] Instance wasm_PersistedMlsPendingGroup : WasmEntity PersistedMlsPendingGroup := {|
  id_raw := ppg_id;
  encrypt := wasm_PersistedMlsPendingGroup_encrypt;
  decrypt := wasm_PersistedMlsPendingGroup_decrypt;
  to_fields := wasm_PersistedMlsPendingGroup_to_fields;
  of_fields := wasm_PersistedMlsPendingGroup_of_fields;
|}.

Definition wasm_PersistedMlsPendingGroup_find_all (params : EntityFindParams) : wasm (list PersistedMlsPendingGroup) :=
  storage_get_all "mls_pending_groups" (Some params).

Definition wasm_PersistedMlsPendingGroup_save (self : PersistedMlsPendingGroup) : wasm () := storage_save "mls_pending_groups" [self].

Definition wasm_PersistedMlsPendingGroup_find_one (id : bytes) : wasm (option PersistedMlsPendingGroup) := storage_get "mls_pending_groups" id.

Definition wasm_PersistedMlsPendingGroup_find_many (ids : list bytes) : wasm (list PersistedMlsPendingGroup) :=
  storage_get_all "mls_pending_groups" None.

Definition wasm_PersistedMlsPendingGroup_count : wasm Z := storage_count "mls_pending_groups".

Definition wasm_PersistedMlsPendingGroup_delete (ids : list bytes) : wasm () := storage_delete "mls_pending_groups" ids.

#[export] Instance wasm_PersistedMlsPendingGroup_base : WasmEntityBase PersistedMlsPendingGroup := {|
  WAutoGeneratedFields := ();
  w_missing_key_kind := MlsPendingGroupMissing;
  w_save := wasm_PersistedMlsPendingGroup_save;
  w_insert := wasm_default_insert;
  w_find_all := wasm_PersistedMlsPendingGroup_find_all;
  w_find_one := wasm_PersistedMlsPendingGroup_find_one;
  w_find_many := wasm_PersistedMlsPendingGroup_find_many;
  w_count := wasm_PersistedMlsPendingGroup_count;
  w_delete_ids := wasm_PersistedMlsPendingGroup_delete;
|}.

(** ** [MlsPendingMessage] *)

Definition wasm_MlsPendingMessage_to_fields (self : MlsPendingMessage) : sfields :=
  [("id", SBytes (pm_id self));
   ("message", SBytes (pm_message self))].

Definition wasm_MlsPendingMessage_of_fields (s : sfields) : option MlsPendingMessage :=
  id ← get_bytes "id" s;
  message ← get_bytes "message" s;
  Some (MkMlsPendingMessage id message).

Definition wasm_MlsPendingMessage_encrypt (cipher : Cipher) (self : MlsPendingMessage) : stm Rng WasmError MlsPendingMessage :=
  message ← encrypt_data cipher (pm_message self) (pm_id self);
  mret (MkMlsPendingMessage (pm_id self) message).

Definition wasm_MlsPendingMessage_decrypt (cipher : Cipher) (self : MlsPendingMessage) : result WasmError MlsPendingMessage :=
  message ← decrypt_data MlsPendingMessages cipher (pm_message self) (pm_id self);
  Ok (MkMlsPendingMessage (pm_id self) message).

#[export] Instance wasm_MlsPendingMessage : WasmEntity MlsPendingMessage := {|
  id_raw := pm_id;
  encrypt := wasm_MlsPendingMessage_encrypt;
  decrypt := wasm_MlsPendingMessage_decrypt;
  to_fields := wasm_MlsPendingMessage_to_fields;
  of_fields := wasm_MlsPendingMessage_of_fields;
|}.

Definition wasm_MlsPendingMessage_find_all (params : EntityFindParams) : wasm (list MlsPendingMessage) :=
  storage_get_all "mls_pending_messages" (Some params).

Definition wasm_MlsPendingMessage_save (self : MlsPendingMessage) : wasm () := storage_save "mls_pending_messages" [self].

Definition wasm_MlsPendingMessage_find_one (id : bytes) : wasm (option MlsPendingMessage) := storage_get "mls_pending_messages" id.

Definition wasm_MlsPendingMessage_find_many (ids : list bytes) : wasm (list MlsPendingMessage) :=
  storage_get_all "mls_pending_messages" None.

Definition wasm_MlsPendingMessage_count : wasm Z := storage_count "mls_pending_messages".

Definition wasm_MlsPendingMessage_delete (ids : list bytes) : wasm () := storage_delete "mls_pending_messages" ids.

#[export] Instance wasm_MlsPendingMessage_base : WasmEntityBase MlsPendingMessage := {|
  WAutoGeneratedFields := ();
  w_missing_key_kind := MlsPendingMessages;
  w_save := wasm_MlsPendingMessage_save;
  w_insert := wasm_default_insert;
  w_find_all := wasm_MlsPendingMessage_find_all;
  w_find_one := wasm_MlsPendingMessage_find_one;
  w_find_many := wasm_MlsPendingMessage_find_many;
  w_count := wasm_MlsPendingMessage_count;
  w_delete_ids := wasm_MlsPendingMessage_delete;
|}.

(** ** [E2eiIntermediateCert] *)

Definition wasm_E2eiIntermediateCert_to_fields (self : E2eiIntermediateCert) : sfields :=
  [("ski_aki_pair", SStr (ic_ski_aki_pair self));
   ("content", SBytes (ic_content self))].

Definition wasm_E2eiIntermediateCert_of_fields (s : sfields) : option E2eiIntermediateCert :=
  ski_aki_pair ← get_str "ski_aki_pair" s;
  content ← get_bytes "content" s;
  Some (MkE2eiIntermediateCert ski_aki_pair content).

Definition wasm_E2eiIntermediateCert_encrypt (cipher : Cipher) (self : E2eiIntermediateCert) : stm Rng WasmError E2eiIntermediateCert :=
  content ← encrypt_data cipher (ic_content self) (ic_ski_aki_pair self);
  st_lift (wasm_check_buffer_size (blen content));;
  mret (MkE2eiIntermediateCert (ic_ski_aki_pair self) content).

Definition wasm_E2eiIntermediateCert_decrypt (cipher : Cipher) (self : E2eiIntermediateCert) : result WasmError E2eiIntermediateCert :=
  content ← decrypt_data MissingE2eiIntermediateCert cipher (ic_content self) (ic_ski_aki_pair self);
  Ok (MkE2eiIntermediateCert (ic_ski_aki_pair self) content).

#[export] Instance wasm_E2eiIntermediateCert : WasmEntity E2eiIntermediateCert := {|
  id_raw := ic_ski_aki_pair;
  encrypt := wasm_E2eiIntermediateCert_encrypt;
  decrypt := wasm_E2eiIntermediateCert_decrypt;
  to_fields := wasm_E2eiIntermediateCert_to_fields;
  of_fields := wasm_E2eiIntermediateCert_of_fields;
|}.

Definition wasm_E2eiIntermediateCert_find_all (params : EntityFindParams) : wasm (list E2eiIntermediateCert) :=
  storage_get_all "e2ei_intermediate_certs" (Some params).

Definition wasm_E2eiIntermediateCert_save (self : E2eiIntermediateCert) : wasm () := storage_save "e2ei_intermediate_certs" [self].

Definition wasm_E2eiIntermediateCert_find_one (id : bytes) : wasm (option E2eiIntermediateCert) := storage_get "e2ei_intermediate_certs" id.

Definition wasm_E2eiIntermediateCert_count : wasm Z := storage_count "e2ei_intermediate_certs".

Definition wasm_E2eiIntermediateCert_delete (ids : list bytes) : wasm () := storage_delete "e2ei_intermediate_certs" ids.

#[export] Instance wasm_E2eiIntermediateCert_base : WasmEntityBase E2eiIntermediateCert := {|
  WAutoGeneratedFields := ();
  w_missing_key_kind := MissingE2eiIntermediateCert;
  w_save := wasm_E2eiIntermediateCert_save;
  w_insert := wasm_default_insert;
  w_find_all := wasm_E2eiIntermediateCert_find_all;
  w_find_one := wasm_E2eiIntermediateCert_find_one;
  w_find_many := wasm_default_find_many wasm_E2eiIntermediateCert_find_one;
  w_count := wasm_E2eiIntermediateCert_count;
  w_delete_ids := wasm_E2eiIntermediateCert_delete;
|}.

(** ** [E2eiCrl] *)

Definition wasm_E2eiCrl_to_fields (self : E2eiCrl) : sfields :=
  [("distribution_point", SStr (crl_distribution_point self));
   ("content", SBytes (crl_content self))].

Definition wasm_E2eiCrl_of_fields (s : sfields) : option E2eiCrl :=
  distribution_point ← get_str "distribution_point" s;
  content ← get_bytes "content" s;
  Some (MkE2eiCrl distribution_point content).

Definition wasm_E2eiCrl_encrypt (cipher : Cipher) (self : E2eiCrl) : stm Rng WasmError E2eiCrl :=
  content ← encrypt_data cipher (crl_content self) (crl_distribution_point self);
  st_lift (wasm_check_buffer_size (blen content));;
  mret (MkE2eiCrl (crl_distribution_point self) content).

Definition wasm_E2eiCrl_decrypt (cipher : Cipher) (self : E2eiCrl) : result WasmError E2eiCrl :=
  content ← decrypt_data MissingE2eiCrl cipher (crl_content self) (crl_distribution_point self);
  Ok (MkE2eiCrl (crl_distribution_point self) content).

#[export] Instance wasm_E2eiCrl : WasmEntity E2eiCrl := {|
  id_raw := crl_distribution_point;
  encrypt := wasm_E2eiCrl_encrypt;
  decrypt := wasm_E2eiCrl_decrypt;
  to_fields := wasm_E2eiCrl_to_fields;
  of_fields := wasm_E2eiCrl_of_fields;
|}.

Definition wasm_E2eiCrl_find_all (params : EntityFindParams) : wasm (list E2eiCrl) :=
  storage_get_all "e2ei_crls" (Some params).

Definition wasm_E2eiCrl_save (self : E2eiCrl) : wasm () := storage_save "e2ei_crls" [self].

Definition wasm_E2eiCrl_find_one (id : bytes) : wasm (option E2eiCrl) := storage_get "e2ei_crls" id.

Definition wasm_E2eiCrl_count : wasm Z := storage_count "e2ei_crls".

Definition wasm_E2eiCrl_delete (ids : list bytes) : wasm () := storage_delete "e2ei_crls" ids.

#[export] Instance wasm_E2eiCrl_base : WasmEntityBase E2eiCrl := {|
  WAutoGeneratedFields := ();
  w_missing_key_kind := MissingE2eiCrl;
  w_save := wasm_E2eiCrl_save;
  w_insert := wasm_default_insert;
  w_find_all := wasm_E2eiCrl_find_all;
  w_find_one := wasm_E2eiCrl_find_one;
  w_find_many := wasm_default_find_many wasm_E2eiCrl_find_one;
  w_count := wasm_E2eiCrl_count;
  w_delete_ids := wasm_E2eiCrl_delete;
|}.

(** ** [E2eiEnrollment] *)

Definition wasm_E2eiEnrollment_to_fields (self : E2eiEnrollment) : sfields :=
  [("id", SBytes (en_id self));
   ("content", SBytes (en_content self))].

Definition wasm_E2eiEnrollment_of_fields (s : sfields) : option E2eiEnrollment :=
  id ← get_bytes "id" s;
  content ← get_bytes "content" s;
  Some (MkE2eiEnrollment id content).

Definition wasm_E2eiEnrollment_encrypt (cipher : Cipher) (self : E2eiEnrollment) : stm Rng WasmError E2eiEnrollment :=
  content ← encrypt_data cipher (en_content self) (en_id self);
  st_lift (wasm_check_buffer_size (blen content));;
  mret (MkE2eiEnrollment (en_id self) content).

Definition wasm_E2eiEnrollment_decrypt (cipher : Cipher) (self : E2eiEnrollment) : result WasmError E2eiEnrollment :=
  content ← decrypt_data MissingE2eiEnrollment cipher (en_content self) (en_id self);
  Ok (MkE2eiEnrollment (en_id self) content).

#[export] Instance wasm_E2eiEnrollment : WasmEntity E2eiEnrollment := {|
  id_raw := en_id;
  encrypt := wasm_E2eiEnrollment_encrypt;
  decrypt := wasm_E2eiEnrollment_decrypt;
  to_fields := wasm_E2eiEnrollment_to_fields;
  of_fields := wasm_E2eiEnrollment_of_fields;
|}.

Definition wasm_E2eiEnrollment_find_all (params : EntityFindParams) : wasm (list E2eiEnrollment) :=
  st_fail (WKs KsImplementationError).

Definition wasm_E2eiEnrollment_save (self : E2eiEnrollment) : wasm () := storage_save "e2ei_enrollment" [self].

Definition wasm_E2eiEnrollment_find_one (id : bytes) : wasm (option E2eiEnrollment) := storage_get "e2ei_enrollment" id.

Definition wasm_E2eiEnrollment_count : wasm Z := st_fail (WKs KsImplementationError).

Definition wasm_E2eiEnrollment_delete (ids : list bytes) : wasm () := storage_delete "e2ei_enrollment" ids.

#[export] Instance wasm_E2eiEnrollment_base : WasmEntityBase E2eiEnrollment := {|
  WAutoGeneratedFields := ();
  w_missing_key_kind := MissingE2eiEnrollment;
  w_save := wasm_E2eiEnrollment_save;
  w_insert := wasm_default_insert;
  w_find_all := wasm_E2eiEnrollment_find_all;
  w_find_one := wasm_E2eiEnrollment_find_one;
  w_find_many := wasm_default_find_many wasm_E2eiEnrollment_find_one;
  w_count := wasm_E2eiEnrollment_count;
  w_delete_ids := wasm_E2eiEnrollment_delete;
|}.

(** ** [E2eiAcmeCA], of which there is one, under the key [0] *)

Definition wasm_E2eiAcmeCA_id_raw (self : E2eiAcmeCA) : bytes := [byte_of 0].

Definition wasm_E2eiAcmeCA_to_fields (self : E2eiAcmeCA) : sfields := [("content", SBytes (aca_content self))].

Definition wasm_E2eiAcmeCA_of_fields (s : sfields) : option E2eiAcmeCA :=
  content ← get_bytes "content" s;
  Some (MkE2eiAcmeCA content).

Definition wasm_E2eiAcmeCA_encrypt (cipher : Cipher) (self : E2eiAcmeCA) : stm Rng WasmError E2eiAcmeCA :=
  content ← encrypt_data cipher (aca_content self) (wasm_E2eiAcmeCA_id_raw self);
  st_lift (wasm_check_buffer_size (blen content));;
  mret (MkE2eiAcmeCA content).

Definition wasm_E2eiAcmeCA_decrypt (cipher : Cipher) (self : E2eiAcmeCA) : result WasmError E2eiAcmeCA :=
  content ← decrypt_data MissingE2eiAcmeCA cipher (aca_content self) (wasm_E2eiAcmeCA_id_raw self);
  Ok (MkE2eiAcmeCA content).

#[export] Instance wasm_E2eiAcmeCA : WasmEntity E2eiAcmeCA := {|
  id_raw := wasm_E2eiAcmeCA_id_raw;
  encrypt := wasm_E2eiAcmeCA_encrypt;
  decrypt := wasm_E2eiAcmeCA_decrypt;
  to_fields := wasm_E2eiAcmeCA_to_fields;
  of_fields := wasm_E2eiAcmeCA_of_fields;
|}.

#[export] Instance wasm_E2eiAcmeCA_base : WasmEntityBase E2eiAcmeCA := {|
  WAutoGeneratedFields := ();
  w_missing_key_kind := MissingE2eiAcmeCA;
  w_save _ := st_fail (WKs NotImplemented);
  w_insert := wasm_default_insert;
  w_find_all _ := st_fail (WKs NotImplemented);
  w_find_one _ := st_fail (WKs NotImplemented);
  w_find_many := wasm_default_find_many (fun _ => st_fail (WKs NotImplemented));
  w_count := st_fail (WKs NotImplemented);
  w_delete_ids _ := st_fail (WKs NotImplemented);
|}.

Definition wasm_E2eiAcmeCA_find_unique : wasm E2eiAcmeCA :=
  o ← storage_get "e2ei_acme_ca" [byte_of 0];
  st_lift (ok_or (WKs KsNotFound) o).

Definition wasm_E2eiAcmeCA_replace (self : E2eiAcmeCA) : wasm () := storage_save "e2ei_acme_ca" [self].

(** ** [E2eiRefreshToken], of which there is one, under the key [0] *)

Definition wasm_E2eiRefreshToken_id_raw (self : E2eiRefreshToken) : bytes := [byte_of 0].

Definition wasm_E2eiRefreshToken_to_fields (self : E2eiRefreshToken) : sfields := [("content", SBytes (rt_content self))].

Definition wasm_E2eiRefreshToken_of_fields (s : sfields) : option E2eiRefreshToken :=
  content ← get_bytes "content" s;
  Some (MkE2eiRefreshToken content).

Definition wasm_E2eiRefreshToken_encrypt (cipher : Cipher) (self : E2eiRefreshToken) : stm Rng WasmError E2eiRefreshToken :=
  content ← encrypt_data cipher (rt_content self) (wasm_E2eiRefreshToken_id_raw self);
  st_lift (wasm_check_buffer_size (blen content));;
  mret (MkE2eiRefreshToken content).

Definition wasm_E2eiRefreshToken_decrypt (cipher : Cipher) (self : E2eiRefreshToken) : result WasmError E2eiRefreshToken :=
  content ← decrypt_data MissingE2eiRefreshToken cipher (rt_content self) (wasm_E2eiRefreshToken_id_raw self);
  Ok (MkE2eiRefreshToken content).

#[export] Instance wasm_E2eiRefreshToken : WasmEntity E2eiRefreshToken := {|
  id_raw := wasm_E2eiRefreshToken_id_raw;
  encrypt := wasm_E2eiRefreshToken_encrypt;
  decrypt := wasm_E2eiRefreshToken_decrypt;
  to_fields := wasm_E2eiRefreshToken_to_fields;
  of_fields := wasm_E2eiRefreshToken_of_fields;
|}.

#[export] Instance wasm_E2eiRefreshToken_base : WasmEntityBase E2eiRefreshToken := {|
  WAutoGeneratedFields := ();
  w_missing_key_kind := MissingE2eiRefreshToken;
  w_save _ := st_fail (WKs NotImplemented);
  w_insert := wasm_default_insert;
  w_find_all _ := st_fail (WKs NotImplemented);
  w_find_one _ := st_fail (WKs NotImplemented);
  w_find_many := wasm_default_find_many (fun _ => st_fail (WKs NotImplemented));
  w_count := st_fail (WKs NotImplemented);
  w_delete_ids _ := st_fail (WKs NotImplemented);
|}.

Definition wasm_E2eiRefreshToken_find_unique : wasm E2eiRefreshToken :=
  o ← storage_get "e2ei_refresh_token" [byte_of 0];
  st_lift (ok_or (WKs KsNotFound) o).

Definition wasm_E2eiRefreshToken_replace (self : E2eiRefreshToken) : wasm () := storage_save "e2ei_refresh_token" [self].

(** ** [MlsCredential]

    Kept under the id of the client, with the time it is inserted at. *)

Definition wasm_MlsCredential_to_fields (self : MlsCredential) : sfields :=
  [("id", SBytes (cr_id self));
   ("credential", SBytes (cr_credential self));
   ("created_at", SNum (cr_created_at self))].

Definition wasm_MlsCredential_of_fields (s : sfields) : option MlsCredential :=
  id ← get_bytes "id" s;
  credential ← get_bytes "credential" s;
  created_at ← get_u64 "created_at" s;
  Some (MkMlsCredential id credential created_at).

Definition wasm_MlsCredential_encrypt (cipher : Cipher) (self : MlsCredential) :
    stm Rng WasmError MlsCredential :=
  credential ← encrypt_data cipher (cr_credential self) (cr_id self);
  st_lift (wasm_check_buffer_size (blen credential));;
  mret (MkMlsCredential (cr_id self) credential (cr_created_at self)).

Definition wasm_MlsCredential_decrypt (cipher : Cipher) (self : MlsCredential) :
    result WasmError MlsCredential :=
  credential ← decrypt_data MissingMlsCredential cipher (cr_credential self) (cr_id self);
  Ok (MkMlsCredential (cr_id self) credential (cr_created_at self)).

#[export] Instance wasm_MlsCredential : WasmEntity MlsCredential := {|
  id_raw := cr_id;
  encrypt := wasm_MlsCredential_encrypt;
  decrypt := wasm_MlsCredential_decrypt;
  to_fields := wasm_MlsCredential_to_fields;
  of_fields := wasm_MlsCredential_of_fields;
|}.

Definition wasm_MlsCredential_find_all (params : EntityFindParams) : wasm (list MlsCredential) :=
  storage_get_all "mls_credentials" (Some params).

(** A clock before the epoch is an error. *)
Definition wasm_MlsCredential_insert (self : MlsCredential) : wasm Z :=
  b ← st_get;
  created_at ← st_lift (if Z.ltb (br_now b) 0 then Err (WKs TimestampError) else Ok (br_now b));
  let to_insert := MkMlsCredential (cr_id self) (cr_credential self) created_at in
  storage_save "mls_credentials" [to_insert];;
  mret created_at.

Definition wasm_MlsCredential_save (self : MlsCredential) : wasm () :=
  wasm_MlsCredential_insert self;; mret ().

Definition wasm_MlsCredential_find_one (id : bytes) : wasm (option MlsCredential) :=
  storage_get "mls_credentials" id.

Definition wasm_MlsCredential_count : wasm Z := storage_count "mls_credentials".

Definition wasm_MlsCredential_delete (ids : list bytes) : wasm () :=
  storage_delete "mls_credentials" ids.

#[export] Instance wasm_MlsCredential_base : WasmEntityBase MlsCredential := {|
  WAutoGeneratedFields := Z;
  w_missing_key_kind := MissingMlsCredential;
  w_save := wasm_MlsCredential_save;
  w_insert := wasm_MlsCredential_insert;
  w_find_all := wasm_MlsCredential_find_all;
  w_find_one := wasm_MlsCredential_find_one;
  w_find_many := wasm_default_find_many wasm_MlsCredential_find_one;
  w_count := wasm_MlsCredential_count;
  w_delete_ids := wasm_MlsCredential_delete;
|}.

(** The credential is looked up as a [Uint8Array] in the index of the encrypted credentials;
    nothing is done in memory. *)
Definition wasm_delete_by_credential (credential : bytes) : wasm () := fun b =>
  match br_storage b with
  | Persistent r =>
      let (res, r') :=
        (raw ← rexie_run _ (IdbIndexGet "mls_credentials" "credential" (JsBinary credential));
         match raw with
         | None => st_fail (WKs KsNotFound)
         | Some entity_raw =>
             credential ← st_lift (from_value (E := MlsCredential) entity_raw);
             credential ← st_lift (decrypt (br_cipher b) credential);
             rexie_run _ (IdbDelete "mls_credentials" (cr_id credential))
         end) r in
      (res, with_storage b (Persistent r') (br_rng b))
  | InMemory _ => (Ok (), b)
  end.

(** ** The laws of a map *)

Context `{!AesGcmLaws}.

#[export] Program Instance wasm_PersistedMlsGroup_codec : WasmCodec PersistedMlsGroup := {|
  wl_decl := ObjectStore "mls_groups" [Index "id" "id" true];
  wl_ok := fun _ => True;
  wl_fits := fun e => fits_sealed (pg_state e);
|}.
Next Obligation. done. Qed.
Next Obligation. intros [] _. by split. Qed.
Next Obligation. wasm_encrypt. Qed.
Next Obligation. intros c e g Hf. by apply encrypt_field_fits. Qed.
Next Obligation. wasm_unique. Qed.

#[export] Instance wasm_PersistedMlsGroup_laws : WasmLaws PersistedMlsGroup.
Proof. by constructor. Qed.

#[export] Instance wasm_PersistedMlsGroup_list : WasmListLaws PersistedMlsGroup.
Proof. by constructor. Qed.

#[export] Program Instance wasm_PersistedMlsPendingGroup_codec : WasmCodec PersistedMlsPendingGroup := {|
  wl_decl := ObjectStore "mls_pending_groups" [Index "id" "id" true];
  wl_ok := fun _ => True;
  wl_fits := fun e => Z.ltb (blen (ppg_state e)) MAX_BLOB_LEN;
|}.
Next Obligation. done. Qed.
Next Obligation. intros [] _. by split. Qed.
Next Obligation. wasm_encrypt. Qed.
Next Obligation. intros c e g Hf. by apply encrypt_unchecked_fits. Qed.
Next Obligation. wasm_unique. Qed.

#[export] Instance wasm_PersistedMlsPendingGroup_laws : WasmLaws PersistedMlsPendingGroup.
Proof. by constructor. Qed.

#[export] Instance wasm_PersistedMlsPendingGroup_list : WasmListLaws PersistedMlsPendingGroup.
Proof. by constructor. Qed.

#[export] Program Instance wasm_MlsPendingMessage_codec : WasmCodec MlsPendingMessage := {|
  wl_decl := ObjectStore "mls_pending_messages" [Index "id" "id" false];
  wl_ok := fun _ => True;
  wl_fits := fun e => Z.ltb (blen (pm_message e)) MAX_BLOB_LEN;
|}.
Next Obligation. done. Qed.
Next Obligation. intros [] _. by split. Qed.
Next Obligation. wasm_encrypt. Qed.
Next Obligation. intros c e g Hf. by apply encrypt_unchecked_fits. Qed.
Next Obligation. wasm_unique. Qed.

#[export] Instance wasm_MlsPendingMessage_laws : WasmLaws MlsPendingMessage.
Proof. by constructor. Qed.

#[export] Instance wasm_MlsPendingMessage_list : WasmListLaws MlsPendingMessage.
Proof. by constructor. Qed.

#[export] Program Instance wasm_E2eiIntermediateCert_codec : WasmCodec E2eiIntermediateCert := {|
  wl_decl := ObjectStore "e2ei_intermediate_certs" [Index "ski_aki_pair" "ski_aki_pair" true];
  wl_ok := fun _ => True;
  wl_fits := fun e => fits_sealed (ic_content e);
|}.
Next Obligation. done. Qed.
Next Obligation. intros [] _. by split. Qed.
Next Obligation. wasm_encrypt. Qed.
Next Obligation. intros c e g Hf. by apply encrypt_field_fits. Qed.
Next Obligation. wasm_unique. Qed.

#[export] Instance wasm_E2eiIntermediateCert_laws : WasmLaws E2eiIntermediateCert.
Proof. by constructor. Qed.

#[export] Instance wasm_E2eiIntermediateCert_list : WasmListLaws E2eiIntermediateCert.
Proof. by constructor. Qed.

#[export] Program Instance wasm_E2eiCrl_codec : WasmCodec E2eiCrl := {|
  wl_decl := ObjectStore "e2ei_crls" [Index "distribution_point" "distribution_point" true];
  wl_ok := fun _ => True;
  wl_fits := fun e => fits_sealed (crl_content e);
|}.
Next Obligation. done. Qed.
Next Obligation. intros [] _. by split. Qed.
Next Obligation. wasm_encrypt. Qed.
Next Obligation. intros c e g Hf. by apply encrypt_field_fits. Qed.
Next Obligation. wasm_unique. Qed.

#[export] Instance wasm_E2eiCrl_laws : WasmLaws E2eiCrl.
Proof. by constructor. Qed.

#[export] Instance wasm_E2eiCrl_list : WasmListLaws E2eiCrl.
Proof. by constructor. Qed.

#[export] Program Instance wasm_E2eiEnrollment_codec : WasmCodec E2eiEnrollment := {|
  wl_decl := ObjectStore "e2ei_enrollment" [Index "id" "id" true];
  wl_ok := fun _ => True;
  wl_fits := fun e => fits_sealed (en_content e);
|}.
Next Obligation. done. Qed.
Next Obligation. intros [] _. by split. Qed.
Next Obligation. wasm_encrypt. Qed.
Next Obligation. intros c e g Hf. by apply encrypt_field_fits. Qed.
Next Obligation. wasm_unique. Qed.

#[export] Instance wasm_E2eiEnrollment_laws : WasmLaws E2eiEnrollment.
Proof. by constructor. Qed.

#[export] Program Instance wasm_E2eiAcmeCA_codec : WasmCodec E2eiAcmeCA := {|
  wl_decl := ObjectStore "e2ei_acme_ca" [Index "id" "id" true];
  wl_ok := fun _ => True;
  wl_fits := fun e => fits_sealed (aca_content e);
|}.
Next Obligation. done. Qed.
Next Obligation. intros [] _. by split. Qed.
Next Obligation. wasm_encrypt. Qed.
Next Obligation. intros c e g Hf. by apply encrypt_field_fits. Qed.
Next Obligation. wasm_unique. Qed.

#[export] Program Instance wasm_E2eiRefreshToken_codec : WasmCodec E2eiRefreshToken := {|
  wl_decl := ObjectStore "e2ei_refresh_token" [Index "id" "id" true];
  wl_ok := fun _ => True;
  wl_fits := fun e => fits_sealed (rt_content e);
|}.
Next Obligation. done. Qed.
Next Obligation. intros [] _. by split. Qed.
Next Obligation. wasm_encrypt. Qed.
Next Obligation. intros c e g Hf. by apply encrypt_field_fits. Qed.
Next Obligation. wasm_unique. Qed.

End entities.
