(* ===== verification/BrowserProteus.v ===== *)
(** * Proteus in a browser

    [keystore/src/entities/platform/wasm/proteus/]: [prekey.rs], [session.rs], and
    [identity.rs], of which there is one under a fixed key. *)

From S2P Require Import Prelude KsError Entity ProteusEntities.
From S2P Require Import Browser BrowserEntity BrowserMap.
Open Scope Z_scope.

Section entities.
Context `{Wb : WasmBindgen} `{Ib : !IndexedDb} `{Ag : AesGcm}.

Abbreviation wasm := (stm Browser WasmError).

(** ** [ProteusPrekey] *)

Definition wasm_ProteusPrekey_to_fields (self : ProteusPrekey) : sfields :=
  [("id", SNum (prk_id self));
   ("id_bytes", SBytes (prk_id_bytes self));
   ("prekey", SBytes (prk_prekey self))].

Definition wasm_ProteusPrekey_of_fields (s : sfields) : option ProteusPrekey :=
  id ← get_u16 "id" s;
  id_bytes ← get_bytes "id_bytes" s;
  prekey ← get_bytes "prekey" s;
  Some (MkProteusPrekey id id_bytes prekey).

Definition wasm_ProteusPrekey_encrypt (cipher : Cipher) (self : ProteusPrekey) : stm Rng WasmError ProteusPrekey :=
  prekey ← encrypt_data cipher (prk_prekey self) (prk_id_bytes self);
  st_lift (wasm_check_buffer_size (blen prekey));;
  mret (MkProteusPrekey (prk_id self) (prk_id_bytes self) prekey).

Definition wasm_ProteusPrekey_decrypt (cipher : Cipher) (self : ProteusPrekey) : result WasmError ProteusPrekey :=
  prekey ← decrypt_data MissingProteusPrekey cipher (prk_prekey self) (prk_id_bytes self);
  Ok (MkProteusPrekey (prk_id self) (prk_id_bytes self) prekey).

#[export] Instance wasm_ProteusPrekey : WasmEntity ProteusPrekey := {|
  id_raw := prk_id_bytes;
  encrypt := wasm_ProteusPrekey_encrypt;
  decrypt := wasm_ProteusPrekey_decrypt;
  to_fields := wasm_ProteusPrekey_to_fields;
  of_fields := wasm_ProteusPrekey_of_fields;
|}.

Definition wasm_ProteusPrekey_find_all (params : EntityFindParams) : wasm (list ProteusPrekey) :=
  storage_get_all "proteus_prekeys" (Some params).

Definition wasm_ProteusPrekey_save (self : ProteusPrekey) : wasm () := storage_save "proteus_prekeys" [self].

Definition wasm_ProteusPrekey_find_one (id : bytes) : wasm (option ProteusPrekey) := storage_get "proteus_prekeys" id.

Definition wasm_ProteusPrekey_count : wasm Z := storage_count "proteus_prekeys".

Definition wasm_ProteusPrekey_delete (ids : list bytes) : wasm () := storage_delete "proteus_prekeys" ids.

#[export] Instance wasm_ProteusPrekey_base : WasmEntityBase ProteusPrekey := {|
  WAutoGeneratedFields := ();
  w_missing_key_kind := MissingProteusPrekey;
  w_save := wasm_ProteusPrekey_save;
  w_insert := wasm_default_insert;
  w_find_all := wasm_ProteusPrekey_find_all;
  w_find_one := wasm_ProteusPrekey_find_one;
  w_find_many := wasm_default_find_many wasm_ProteusPrekey_find_one;
  w_count := wasm_ProteusPrekey_count;
  w_delete_ids := wasm_ProteusPrekey_delete;
|}.

(** ** [ProteusSession] *)

Definition wasm_ProteusSession_to_fields (self : ProteusSession) : sfields :=
  [("id", SStr (ps_id self));
   ("session", SBytes (ps_session self))].

Definition wasm_ProteusSession_of_fields (s : sfields) : option ProteusSession :=
  id ← get_str "id" s;
  session ← get_bytes "session" s;
  Some (MkProteusSession id session).

Definition wasm_ProteusSession_encrypt (cipher : Cipher) (self : ProteusSession) : stm Rng WasmError ProteusSession :=
  session ← encrypt_data cipher (ps_session self) (ps_id self);
  st_lift (wasm_check_buffer_size (blen session));;
  mret (MkProteusSession (ps_id self) session).

Definition wasm_ProteusSession_decrypt (cipher : Cipher) (self : ProteusSession) : result WasmError ProteusSession :=
  session ← decrypt_data MissingProteusSession cipher (ps_session self) (ps_id self);
  Ok (MkProteusSession (ps_id self) session).

#[export] Instance wasm_ProteusSession : WasmEntity ProteusSession := {|
  id_raw := ps_id;
  encrypt := wasm_ProteusSession_encrypt;
  decrypt := wasm_ProteusSession_decrypt;
  to_fields := wasm_ProteusSession_to_fields;
  of_fields := wasm_ProteusSession_of_fields;
|}.

Definition wasm_ProteusSession_find_all (params : EntityFindParams) : wasm (list ProteusSession) :=
  storage_get_all "proteus_sessions" (Some params).

Definition wasm_ProteusSession_save (self : ProteusSession) : wasm () := storage_save "proteus_sessions" [self].

Definition wasm_ProteusSession_find_one (id : bytes) : wasm (option ProteusSession) := storage_get "proteus_sessions" id.

Definition wasm_ProteusSession_count : wasm Z := storage_count "proteus_sessions".

Definition wasm_ProteusSession_delete (ids : list bytes) : wasm () := storage_delete "proteus_sessions" ids.

#[export] Instance wasm_ProteusSession_base : WasmEntityBase ProteusSession := {|
  WAutoGeneratedFields := ();
  w_missing_key_kind := MissingProteusSession;
  w_save := wasm_ProteusSession_save;
  w_insert := wasm_default_insert;
  w_find_all := wasm_ProteusSession_find_all;
  w_find_one := wasm_ProteusSession_find_one;
  w_find_many := wasm_default_find_many wasm_ProteusSession_find_one;
  w_count := wasm_ProteusSession_count;
  w_delete_ids := wasm_ProteusSession_delete;
|}.

(** ** [ProteusIdentity]

    One identity under the key [1]; both halves of the key are encrypted. *)

Definition wasm_ProteusIdentity_id_raw (self : ProteusIdentity) : bytes := [byte_of 1].

Definition wasm_ProteusIdentity_to_fields (self : ProteusIdentity) : sfields :=
  [("sk", SBytes (pi_sk self));
   ("pk", SBytes (pi_pk self))].

Definition wasm_ProteusIdentity_of_fields (s : sfields) : option ProteusIdentity :=
  sk ← get_bytes "sk" s;
  pk ← get_bytes "pk" s;
  Some (MkProteusIdentity sk pk).

Definition wasm_ProteusIdentity_encrypt (cipher : Cipher) (self : ProteusIdentity) :
    stm Rng WasmError ProteusIdentity :=
  pk ← encrypt_data cipher (pi_pk self) (wasm_ProteusIdentity_id_raw self);
  st_lift (wasm_check_buffer_size (blen pk));;
  sk ← encrypt_data cipher (pi_sk self) (wasm_ProteusIdentity_id_raw self);
  st_lift (wasm_check_buffer_size (blen sk));;
  mret (MkProteusIdentity sk pk).

Definition wasm_ProteusIdentity_decrypt (cipher : Cipher) (self : ProteusIdentity) :
    result WasmError ProteusIdentity :=
  pk ← decrypt_data MissingProteusIdentity cipher (pi_pk self) (wasm_ProteusIdentity_id_raw self);
  sk ← decrypt_data MissingProteusIdentity cipher (pi_sk self) (wasm_ProteusIdentity_id_raw self);
  Ok (MkProteusIdentity sk pk).

#[export] Instance wasm_ProteusIdentity : WasmEntity ProteusIdentity := {|
  id_raw := wasm_ProteusIdentity_id_raw;
  encrypt := wasm_ProteusIdentity_encrypt;
  decrypt := wasm_ProteusIdentity_decrypt;
  to_fields := wasm_ProteusIdentity_to_fields;
  of_fields := wasm_ProteusIdentity_of_fields;
|}.

Definition wasm_ProteusIdentity_find_all (params : EntityFindParams) : wasm (list ProteusIdentity) :=
  storage_get_all "proteus_identities" None.

Definition wasm_ProteusIdentity_save (self : ProteusIdentity) : wasm () :=
  storage_save "proteus_identities" [self].

(** The id is not looked at: the last identity of the listing. *)
Definition wasm_ProteusIdentity_find_one (id : bytes) : wasm (option ProteusIdentity) :=
  identities ← wasm_ProteusIdentity_find_all EntityFindParams_default;
  mret (head (reverse identities)).

Definition wasm_ProteusIdentity_count : wasm Z := storage_count "proteus_identities".

Definition wasm_ProteusIdentity_delete (ids : list bytes) : wasm () :=
  storage_delete "proteus_identities" ids.

#[export] Instance wasm_ProteusIdentity_base : WasmEntityBase ProteusIdentity := {|
  WAutoGeneratedFields := ();
  w_missing_key_kind := MissingProteusIdentity;
  w_save := wasm_ProteusIdentity_save;
  w_insert := wasm_default_insert;
  w_find_all := wasm_ProteusIdentity_find_all;
  w_find_one := wasm_ProteusIdentity_find_one;
  w_find_many := wasm_default_find_many wasm_ProteusIdentity_find_one;
  w_count := wasm_ProteusIdentity_count;
  w_delete_ids := wasm_ProteusIdentity_delete;
|}.

(** ** The laws of a map *)

Context `{!AesGcmLaws}.

#[export] Program Instance wasm_ProteusPrekey_codec : WasmCodec ProteusPrekey := {|
  wl_decl := ObjectStore "proteus_prekeys" [Index "id" "id" true];
  wl_ok := fun e => 0 <= prk_id e <= u16_max /\ prk_id_bytes e = u16_to_le_bytes (prk_id e);
  wl_fits := fun e => fits_sealed (prk_prekey e);
|}.
Next Obligation. done. Qed.
Next Obligation. wasm_fields_num. Qed.
Next Obligation. wasm_encrypt. Qed.
Next Obligation. intros c e g Hf. by apply encrypt_field_fits. Qed.
Next Obligation.
  intros ix x e e' Hix _ [_ He] [_ He']. cbn in Hix. apply list_elem_of_singleton in Hix as ->.
  cbn. intros [= <-] [= Hx]. by rewrite He, He', Hx.
Qed.

#[export] Instance wasm_ProteusPrekey_laws : WasmLaws ProteusPrekey.
Proof. by constructor. Qed.

#[export] Instance wasm_ProteusPrekey_list : WasmListLaws ProteusPrekey.
Proof. by constructor. Qed.

#[export] Program Instance wasm_ProteusSession_codec : WasmCodec ProteusSession := {|
  wl_decl := ObjectStore "proteus_sessions" [Index "id" "id" true];
  wl_ok := fun _ => True;
  wl_fits := fun e => fits_sealed (ps_session e);
|}.
Next Obligation. done. Qed.
Next Obligation. intros [] _. by split. Qed.
Next Obligation. wasm_encrypt. Qed.
Next Obligation. intros c e g Hf. by apply encrypt_field_fits. Qed.
Next Obligation. wasm_unique. Qed.

#[export] Instance wasm_ProteusSession_laws : WasmLaws ProteusSession.
Proof. by constructor. Qed.

#[export] Instance wasm_ProteusSession_list : WasmListLaws ProteusSession.
Proof. by constructor. Qed.

#[export] Program Instance wasm_ProteusIdentity_codec : WasmCodec ProteusIdentity := {|
  wl_decl := ObjectStore "proteus_identities" [Index "pk" "pk" true];
  wl_ok := fun _ => True;
  wl_fits := fun e => fits_sealed (pi_pk e) && fits_sealed (pi_sk e);
|}.
Next Obligation. done. Qed.
Next Obligation. intros [] _. by split. Qed.
Next Obligation.
  intros c e e' g g' He. cbn in He. unfold wasm_ProteusIdentity_encrypt in He.
  apply stm_bind_inv in He as (pk & g1 & Hpk & He).
  apply stm_bind_inv in He as ([] & g2 & Hg2 & He). injection Hg2 as _ ->.
  apply encrypt_field_inv in He as (sk & -> & Hsk). split_and!; [|done|done].
  cbn. unfold wasm_ProteusIdentity_decrypt. cbn.
  rewrite (encrypt_data_decrypt _ _ _ _ _ _ _ Hpk). cbn. rewrite Hsk. by destruct e.
Qed.
Next Obligation.
  intros c e g [Hp Hs]%andb_true_iff. cbn. unfold wasm_ProteusIdentity_encrypt.
  apply Z.ltb_lt in Hp as Hp'. destruct (encrypt_data_ok c (pi_pk e) (wasm_ProteusIdentity_id_raw e) g) as [pk Hpk]; [lia|].
  rewrite (stm_bind_ok _ _ _ _ _ Hpk). apply encrypt_data_length in Hpk.
  erewrite stm_bind_ok; [by apply encrypt_field_fits|].
  unfold wasm_check_buffer_size, st_lift. by rewrite (proj2 (Z.leb_gt _ _)) by lia.
Qed.
Next Obligation. done. Qed.

End entities.
