(* ===== verification/BrowserSpec.v ===== *)
(** * What the key store promises, on every platform

    A collection is a map from keys to entities: [KvCall] are the calls of [Connection],
    [kv_answers] what they answer, [kv_after] the map after them. The browser's key store
    refines it over any lives of calls, failures of IndexedDB included; the native one does for
    the kinds of entity whose [save] replaces; so both answer the same. *)

From S2P Require Import Prelude KsError Sql SqlSpec Entity Keystore.
From S2P Require Import Browser BrowserEntity BrowserMap.
Open Scope Z_scope.

(** ** The abstract key store *)

Inductive KvCall (E : Type) : Type :=
  | KvSave (e : E)
  | KvFind (id : bytes)
  | KvFindAll
  | KvCount
  | KvRemove (id : bytes).
Arguments KvSave {E} e.
Arguments KvFind {E} id.
Arguments KvFindAll {E}.
Arguments KvCount {E}.
Arguments KvRemove {E} id.

Inductive KvAnswer (E : Type) : Type :=
  | Saved (e : E)
  | Found (o : option E)
  | Listed (l : list E)
  | Counted (n : Z)
  | Removed.
Arguments Saved {E} e.
Arguments Found {E} o.
Arguments Listed {E} l.
Arguments Counted {E} n.
Arguments Removed {E}.

Section kv.
Context {E : Type} (key : E -> bytes).
Implicit Types (m : gmap bytes E) (call : KvCall E).

Definition kv_after m call : gmap bytes E :=
  match call with
  | KvSave e => <[key e := e]> m
  | KvRemove id => delete id m
  | _ => m
  end.

(** A listing is in any order. *)
Definition kv_answers m call (a : KvAnswer E) : Prop :=
  match call, a with
  | KvSave e, Saved e' => e' = e
  | KvFind id, Found o => o = m !! id
  | KvFindAll, Listed l => l ≡ₚ snd <$> map_to_list m
  | KvCount, Counted n => n = Z.of_nat (size m)
  | KvRemove _, Removed => True
  | _, _ => False
  end.

(** A life: every call that succeeds answers and changes as the map does, a call that fails
    changes nothing. *)
Fixpoint kv_life {Err : Type} m (calls : list (KvCall E)) (answers : list (result Err (KvAnswer E)))
    (m' : gmap bytes E) : Prop :=
  match calls, answers with
  | [], [] => m' = m
  | call :: calls, Ok a :: answers =>
      kv_answers m call a /\ kv_life (kv_after m call) calls answers m'
  | _ :: calls, Err _ :: answers => kv_life m calls answers m'
  | _, _ => False
  end.

(** Two answers to one call are the same up to the order of a listing. *)
Lemma kv_answers_alike m call a a' : kv_answers m call a -> kv_answers m call a' ->
  a = a' \/ exists l l', a = Listed l /\ a' = Listed l' /\ l ≡ₚ l'.
Proof.
  destruct call, a, a'; cbn; try done; intros; subst; try by left.
  right. eexists _, _. split_and!; [done|done|]. by etrans.
Qed.
End kv.

(** ** The browser *)

Section browser.
Context `{Wb : WasmBindgen} `{Ib : !IndexedDb} `{Ag : AesGcm} `{!WasmBindgenLaws}.
Context {E : Type} `{!WasmEntity E} `{!WasmEntityBase E} `{!WasmCodec E} `{!WasmLaws E} `{!WasmListLaws E}.
Implicit Types (b : Browser) (m : gmap bytes E) (call : KvCall E).

Definition browser_call call : stm Browser WasmError (KvAnswer E) :=
  match call with
  | KvSave e => e ← WasmConnection_save e; mret (Saved e)
  | KvFind id => o ← WasmConnection_find id; mret (Found o)
  | KvFindAll => l ← WasmConnection_find_all EntityFindParams_default; mret (Listed l)
  | KvCount => n ← WasmConnection_count E; mret (Counted n)
  | KvRemove id => WasmConnection_remove E id;; mret Removed
  end.

Fixpoint browser_run (calls : list (KvCall E)) b : list (result WasmError (KvAnswer E)) * Browser :=
  match calls with
  | [] => ([], b)
  | call :: calls =>
      let (a, b) := browser_call call b in
      let (answers, b) := browser_run calls b in
      (a :: answers, b)
  end.

Definition kv_call_ok call : Prop := match call with KvSave e => wl_ok e | _ => True end.
Definition kv_call_fits call : bool := match call with KvSave e => wl_fits e | _ => true end.

(** The answer of a call is what the storage says. *)
Lemma outcome_then {A B} b m m' (Q : A -> Prop) (R : B -> Prop) fits (p : stm Browser WasmError A) (f : A -> B) :
  outcome b m m' Q fits (p b) -> (forall a, Q a -> R (f a)) ->
  outcome b m m' R fits ((a ← p; mret (f a)) b).
Proof.
  intros (Ho & Hok & Hr) Hf. unfold mbind, stm_bind. destruct (p b) as [[a|err] b']; [|by split_and!].
  destruct Hr as [Ha Hm]. split_and!; [done|done|]. cbn. by auto.
Qed.

Lemma browser_call_outcome call b m : holds b m -> kv_call_ok call ->
  outcome b m (kv_after id_raw m call) (kv_answers m call) (kv_call_fits call) (browser_call call b).
Proof.
  intros Hm Hok. destruct call as [e|id| | |id]; cbn [browser_call kv_after kv_call_fits].
  - apply (outcome_then _ _ _ (fun x => x = e)); [|done]. unfold WasmConnection_save. rewrite wl_save.
    apply (outcome_then _ _ _ (fun _ => True)); [by apply storage_save_holds|done].
  - unfold WasmConnection_find. rewrite wl_find_one.
    apply (outcome_then _ _ _ (fun o => o = m !! id)); [by apply storage_get_holds|done].
  - unfold WasmConnection_find_all. rewrite wl_find_all.
    apply (outcome_then _ _ _ (fun l => l ≡ₚ snd <$> map_to_list m)); [by apply storage_get_all_holds|done].
  - unfold WasmConnection_count. rewrite wl_count.
    apply (outcome_then _ _ _ (fun n => n = Z.of_nat (size m))); [by apply storage_count_holds|done].
  - apply (outcome_then _ _ _ (fun _ => True)); [|done]. unfold WasmConnection_remove. rewrite wl_delete.
    apply (outcome_then _ _ _ (fun _ => True)); [by apply storage_delete_holds|done].
Qed.

Lemma browser_run_life calls b m answers b' :
  holds b m -> Forall kv_call_ok calls -> browser_run calls b = (answers, b') ->
  exists m', kv_life id_raw m calls answers m' /\ holds b' m' /\
    only_collection (os_name wl_decl) b b' /\ (browser_ok b -> browser_ok b') /\
    (browser_ok b -> forallb kv_call_fits calls = true -> forallb is_ok answers = true).
Proof.
  revert b m answers. induction calls as [|call calls IH]; intros b m answers Hm Hok Hrun.
  - injection Hrun as <- <-. by exists m.
  - apply list.Forall_cons in Hok as [Hcall Hok]. cbn in Hrun.
    pose proof (browser_call_outcome call b m Hm Hcall) as Hout.
    destruct (browser_call call b) as [a b1]. destruct (browser_run calls b1) as [rest b2] eqn:Hrest.
    injection Hrun as <- <-. destruct Hout as ((Ho & Hc & Hn) & Hokb & Ha). cbn [fst snd] in *.
    assert (exists m1, holds b1 m1 /\ (forall m', kv_life id_raw m1 calls rest m' ->
      kv_life id_raw m (call :: calls) (a :: rest) m') /\
      (browser_ok b -> kv_call_fits call = true -> is_ok a = true)) as (m1 & Hm1 & Hlife & Hfit).
    { destruct a as [a|err]; destruct Ha as [Ha Hh].
      - by exists (kv_after id_raw m call).
      - exists m. split_and!; [done|done|]. intros Hb Hf. destruct Hh. by split. }
    destruct (IH b1 m1 rest Hm1 Hok Hrest) as (m' & Hl & Hm' & (Ho' & Hc' & Hn') & Hokb' & Hall).
    exists m'. split; [by apply Hlife|]. split; [done|]. split.
    { split_and!; [|congruence..]. intros c Hne. by rewrite Ho', Ho. }
    split; [by auto|]. intros Hb [Hf Hfs]%andb_true_iff. cbn. rewrite Hfit by done. by apply Hall; [apply Hokb|].
Qed.
End browser.

(** C6: the browser's key store is a map. Whether in IndexedDB or in memory, for every kind of
    entity that is saved under its key and for any calls in any order, every call that
    succeeds answers what the map of the entities in the clear would, and changes it as the map
    changes, while a call that fails changes nothing; the collections of the other kinds of
    entities are not touched; and no call fails as long as IndexedDB works and what is saved
    fits, so that everything stored can always be decrypted and read again. *)
Theorem browser_refines_map `{Wb : WasmBindgen} `{Ib : !IndexedDb} `{Ag : AesGcm} `{!WasmBindgenLaws}
    {E : Type} `{!WasmEntity E} `{!WasmEntityBase E} `{!WasmCodec E} `{!WasmLaws E} `{!WasmListLaws E}
    (calls : list (KvCall E)) (b b' : Browser) (m : gmap bytes E) answers :
  holds b m -> Forall kv_call_ok calls -> browser_run calls b = (answers, b') ->
  exists m', kv_life id_raw m calls answers m' /\ holds b' m' /\
    only_collection (os_name wl_decl) b b' /\
    (browser_ok b -> forallb kv_call_fits calls = true -> forallb is_ok answers = true).
Proof.
  intros Hm Hok Hrun.
  destruct (browser_run_life calls b m answers b' Hm Hok Hrun) as (m' & ? & ? & ? & _ & ?).
  by exists m'.
Qed.

(** A connection in memory starts empty. *)
Lemma open_in_memory_holds `{Wb : WasmBindgen} `{Ib : !IndexedDb} `{Ag : AesGcm}
    {E : Type} `{!WasmEntity E} `{!WasmCodec E} name k g now conn :
  WasmConnection_open_in_memory name k = Ok conn ->
  holds (E := E) (MkBrowser conn g now) ∅ /\ browser_ok (MkBrowser conn g now).
Proof. intros [= <-]. split; [|done]. split; [done|]. cbn. rewrite lookup_empty. apply map_Forall2_empty. Qed.

(** ** The native key store, and both *)

Section native.
Context {E : Type} `{UpsertLaws E}.
Implicit Types (m : gmap bytes E) (l : list E) (call : KvCall E).

Definition native_call call : prog (KvAnswer E) :=
  match call with
  | KvSave e => e ← Connection_save e; mret (Saved e)
  | KvFind id => o ← Connection_find id; mret (Found o)
  | KvFindAll => l ← Connection_find_all EntityFindParams_default; mret (Listed l)
  | KvCount => n ← Connection_count (E := E); mret (Counted n)
  | KvRemove id => Connection_remove E id;; mret Removed
  end.

(** What the two agree on: entities that are read back as they are and that fit, and the
    removal of what is there. *)
Definition kv_allowed m call : Prop :=
  match call with
  | KvSave e => ul_fits e = true /\ el_stored e = e
  | KvFind id => el_id_ok id = true
  | KvRemove id => el_id_ok id = true /\ is_Some (m !! id)
  | _ => True
  end.

Fixpoint kv_all_allowed m (calls : list (KvCall E)) : Prop :=
  match calls with
  | [] => True
  | call :: calls => kv_allowed m call /\ kv_all_allowed (kv_after el_key m call) calls
  end.

(** The rows of the table are the entries of the map. *)
Record rows_of m l : Prop := {
  ro_keys : NoDup (el_key <$> l);
  ro_rows k : m !! k = first (with_key k) l;
  ro_stored : Forall (fun e => el_stored e = e) l;
}.

Lemma rows_of_values m l : rows_of m l -> snd <$> map_to_list m ≡ₚ l.
Proof.
  intros [Hk Hr _].
  assert (map_to_list m ≡ₚ (fun e => (el_key e, e)) <$> l) as ->.
  { apply NoDup_Permutation; [apply NoDup_map_to_list| |].
    - apply (NoDup_fmap_1 fst). by rewrite <-list_fmap_compose.
    - intros [k e]. rewrite elem_of_map_to_list, Hr, list_elem_of_fmap. split.
      + intros [Hin Hw%bool_decide_eq_true]%first_Some. exists e. by rewrite Hw.
      + intros (e' & [= -> ->] & Hin). by apply first_key. }
  rewrite <-list_fmap_compose. by rewrite list_fmap_id.
Qed.

Lemma rows_of_size m l : rows_of m l -> Z.of_nat (size m) = Z.of_nat (length l).
Proof.
  intros Hr. rewrite <-(rows_of_values _ _ Hr). by rewrite length_fmap, length_map_to_list.
Qed.

Lemma stored_id m l : rows_of m l -> el_stored <$> l = l.
Proof.
  intros [_ _ Hs]. induction Hs as [|e l He Hs IH]; [done|]. rewrite fmap_cons. by rewrite He, IH.
Qed.

Lemma rows_of_save m l e : rows_of m l -> el_stored e = e ->
  rows_of (<[el_key e := e]> m) (upsert (with_key (el_key e)) (el_stored e) l).
Proof.
  intros [Hk Hr Hs] He. split.
  - rewrite He. by apply NoDup_upsert.
  - intros k. rewrite He. destruct (decide (el_key e = k)) as [<-|Hne].
    + rewrite lookup_insert_eq, first_upsert; [done|]. by apply bool_decide_eq_true.
    + rewrite lookup_insert_ne, first_upsert_other; [apply Hr| | |done].
      * by apply bool_decide_eq_false.
      * intros a Ha%bool_decide_eq_true. apply bool_decide_eq_false. congruence.
  - rewrite He. apply list.Forall_forall. intros x [->|Hx]%elem_of_upsert; [done|].
    rewrite list.Forall_forall in Hs. by apply Hs.
Qed.

Lemma rows_of_remove m l id : rows_of m l ->
  rows_of (delete id m) (List.filter (fun e => negb (bool_decide (el_key e = id))) l).
Proof.
  intros [Hk Hr Hs]. split.
  - by apply NoDup_filter_key.
  - intros k. destruct (decide (id = k)) as [->|Hne].
    + rewrite lookup_delete_eq. symmetry. apply first_None. intros a [_ Ha]%list_elem_of_In%List.filter_In.
      unfold with_key. by apply negb_true_iff.
    + rewrite lookup_delete_ne by done. rewrite first_filter_imp; [apply Hr|].
      intros a Ha%bool_decide_eq_true. apply negb_true_iff, bool_decide_eq_false. congruence.
  - by apply Forall_sub.
Qed.

Lemma native_call_run call v m l :
  rep el_layout v l -> rows_of m l -> kv_allowed m call ->
  exists a v' l', run (native_call call) v = (Ok a, v') /\ kv_answers m call a /\
    rep el_layout v' l' /\ rows_of (kv_after el_key m call) l'.
Proof.
  intros Hl Hr Ha. pose proof (rows_of_values _ _ Hr) as Hv. destruct call as [e|id| | |id]; cbn in Ha; cbn [native_call kv_answers kv_after].
  - destruct Ha as [Hf Hs]. destruct (Connection_save_run v l e Hl Hf) as (v' & Hrun & Hb & _).
    exists (Saved e), v', (upsert (with_key (el_key e)) (el_stored e) l).
    rewrite (run_bind_ok _ _ _ _ _ Hrun). split_and!; [done|done|done|by apply rows_of_save].
  - pose proof (el_find_one v l id Hl Ha) as Hrun. exists (Found (m !! id)), v, l.
    fold (Connection_find (E := E) id) in Hrun. rewrite (run_bind_ok _ _ _ _ _ Hrun).
    split_and!; [|done..]. rewrite (ro_rows _ _ Hr). fold (with_key (E := E) id).
    destruct (first (with_key id) l) as [e|] eqn:Hfst; [|done]. cbn.
    apply first_Some in Hfst as [Hin _]. pose proof (ro_stored _ _ Hr) as Hs.
    rewrite list.Forall_forall in Hs. by rewrite (Hs _ Hin).
  - pose proof (el_find_all v l Hl) as Hrun. rewrite (stored_id _ _ Hr) in Hrun.
    fold (Connection_find_all (E := E) EntityFindParams_default) in Hrun.
    exists (Listed l), v, l. rewrite (run_bind_ok _ _ _ _ _ Hrun). by split_and!.
  - pose proof (el_count v l Hl) as Hrun. fold (Connection_count (E := E)) in Hrun.
    exists (Counted (Z.of_nat (length l))), v, l. rewrite (run_bind_ok _ _ _ _ _ Hrun).
    split_and!; [done|by rewrite (rows_of_size _ _ Hr)|done|done].
  - destruct Ha as [Hid Hin]. destruct (Connection_remove_run v l id Hl Hid) as (v' & Hrun & Hrep).
    rewrite (ro_rows _ _ Hr) in Hin. rewrite (length_filter_key el_key id l (ro_keys _ _ Hr)) in Hrun, Hrep.
    unfold with_key in Hin. destruct Hin as [e He]. rewrite He in Hrun, Hrep.
    assert (length l = S (pred (length l))) as Hlen by (destruct l; [done|cbn; lia]).
    rewrite bool_decide_eq_true_2 in Hrun, Hrep by done.
    exists Removed, v', (List.filter (fun e => negb (bool_decide (el_key e = id))) l).
    rewrite (run_bind_ok _ _ _ _ _ Hrun). split_and!; [done|done|done|by apply rows_of_remove].
Qed.

Context `{En : SqlEngine}.

Fixpoint native_run (calls : list (KvCall E)) (c : conn) :
    list (result CryptoKeystoreError (KvAnswer E)) * conn :=
  match calls with
  | [] => ([], c)
  | call :: calls =>
      let (a, c) := exec_prog (native_call call) c in
      let (answers, c) := native_run calls c in
      (a :: answers, c)
  end.

Lemma native_run_life calls c m l :
  stores E c l -> rows_of m l -> kv_all_allowed m calls ->
  exists answers c' m' l', native_run calls c = (answers, c') /\ kv_life el_key m calls answers m' /\
    forallb is_ok answers = true /\ stores E c' l' /\ rows_of m' l'.
Proof.
  revert c m l. induction calls as [|call calls IH]; intros c m l Hl Hr Ha.
  - by exists [], c, m, l.
  - destruct Ha as [Ha Has]. destruct Hl as [Hc Hl].
    destruct (native_call_run call _ m l Hl Hr Ha) as (a & v1 & l1 & Hrun & Hans & Hl1 & Hr1).
    destruct (exec_prog_run _ _ _ _ Hc Hrun) as (c1 & Hx & Hv1 & Hc1). rewrite <-Hv1 in Hl1.
    destruct (IH c1 _ l1 (conj Hc1 Hl1) Hr1 Has) as (rest & c' & m' & l' & Hrest & Hlife & Hok & Hst & Hr').
    exists (Ok a :: rest), c', m', l'. cbn. rewrite Hx, Hrest. by split_and!.
Qed.
End native.

(** Answers of two stores to one call: neither failed, and they say the same. *)
Definition alike {Err Err' E : Type} (a : result Err (KvAnswer E)) (a' : result Err' (KvAnswer E)) : Prop :=
  exists x x', a = Ok x /\ a' = Ok x' /\
    (x = x' \/ exists l l', x = Listed l /\ x' = Listed l' /\ l ≡ₚ l').

Lemma lives_alike {Err Err' E : Type} (key : E -> bytes) calls m
    (answers : list (result Err (KvAnswer E))) (answers' : list (result Err' (KvAnswer E))) m1 m2 :
  kv_life key m calls answers m1 -> kv_life key m calls answers' m2 ->
  forallb is_ok answers = true -> forallb is_ok answers' = true ->
  Forall2 alike answers answers' /\ m1 = m2.
Proof.
  revert m answers answers'. induction calls as [|call calls IH]; intros m answers answers'.
  - destruct answers, answers'; cbn; try done. by intros -> ->.
  - destruct answers as [|[a|] answers], answers' as [|[a'|] answers']; cbn; try done.
    intros [Ha Hl] [Ha' Hl'] Hok Hok'. destruct (IH _ _ _ Hl Hl' Hok Hok') as [Hall ->].
    split; [|done]. constructor; [|done]. exists a, a'. split_and!; [done|done|].
    by eapply kv_answers_alike.
Qed.

(** C7: the two key stores behind the one interface agree. For every kind of entity that both
    have as a map under the same key, a healthy SQLite engine and a browser that works, holding
    the same entities, answer any calls the same, up to the order of a listing, and hold the
    same entities afterwards; the calls being saves of what fits both, lookups, listings,
    counts, and removals of what is there. *)
Theorem backends_agree `{Wb : WasmBindgen} `{Ib : !IndexedDb} `{Ag : AesGcm} `{!WasmBindgenLaws} `{En : SqlEngine}
    {E : Type} `{UpsertLaws E} `{!WasmEntity E} `{!WasmEntityBase E} `{!WasmCodec E} `{!WasmLaws E}
    `{!WasmListLaws E} (calls : list (KvCall E)) (c : conn) (b : Browser) (m : gmap bytes E) (l : list E) :
  (forall e, id_raw e = el_key e) ->
  stores E c l -> rows_of m l -> holds b m -> browser_ok b ->
  kv_all_allowed m calls -> Forall kv_call_ok calls -> forallb kv_call_fits calls = true ->
  exists answers c' answers' b' m' l',
    native_run calls c = (answers, c') /\ browser_run calls b = (answers', b') /\
    Forall2 alike answers answers' /\
    stores E c' l' /\ rows_of m' l' /\ holds b' m' /\ browser_ok b'.
Proof.
  intros Hkey Hc Hr Hb Hok Ha Hcalls Hfits.
  destruct (native_run_life calls c m l Hc Hr Ha) as (answers & c' & m' & l' & Hn & Hlife & Hans & Hc' & Hr').
  destruct (browser_run calls b) as [answers' b'] eqn:Hrun.
  destruct (browser_run_life calls b m answers' b' Hb Hcalls Hrun) as (m2 & Hlife2 & Hb' & _ & Hok' & Hans').
  assert (kv_life el_key m calls answers' m2) as Hlife2'.
  { clear -Hlife2 Hkey. revert m answers' Hlife2. induction calls as [|call calls IH]; intros m [|[a|] rest]; cbn; try done.
    - intros [? Hl]. split; [done|]. apply IH. by destruct call; cbn in *; rewrite <-?Hkey.
    - apply IH. }
  destruct (lives_alike el_key calls m answers answers' m' m2 Hlife Hlife2' Hans (Hans' Hok Hfits)) as [Hall ->].
  exists answers, c', answers', b', m2, l'. split_and!; try done. by apply Hok'.
Qed.
