(* ===== verification/BrowserVersion.v ===== *)
(** * The version of the browser's database

    IndexedDB refuses to open a database under a lower version number than it was last opened
    under. What [determine_pre_version] and [open] of
    [keystore/src/connection/platform/wasm/mod.rs] make of the versions of the package: the
    numbers grow with the versions as long as their sum fits an [u32], except from the last
    pre-release of a version to its release. *)

From S2P Require Import Prelude KsError Browser.
Open Scope Z_scope.

(** ** The versions *)

(** The identifiers [determine_pre_version] knows, with their base; a pre-release is one of them
    and a number, ["rc.42"]. *)
Inductive pre_kind : Set := Alpha | Beta | Pre | Rc.

Definition pre_name (k : pre_kind) : bytes :=
  ascii_bytes match k with Alpha => "alpha" | Beta => "beta" | Pre => "pre" | Rc => "rc" end.

Definition pre_rank (k : pre_kind) : Z :=
  match k with Alpha => 0 | Beta => 1 | Pre => 2 | Rc => 3 end.

Record version := MkVersion {
  v_major : Z; v_minor : Z; v_patch : Z; v_pre : option (pre_kind * bytes) }.

Definition pre_text (v : version) : bytes :=
  match v_pre v with Some (k, digits) => pre_name k ++ byte_of 46 :: digits | None => [] end.

(** The number of a pre-release; the digits are what [u32] parses. *)
Definition pre_number (v : version) : Z :=
  match v_pre v with Some (_, digits) => default 0 (parse_uint u32_max digits) | None => 0 end.

Definition pre_order (v : version) : Z := match v_pre v with Some (k, _) => pre_rank k | None => 4 end.

(** The versions whose parts keep to the fields they have in the number: two digits for minor and
    patch, and 199 for the number of a pre-release (the comment in [open] stops at 99). The major
    version has no bound here: where the sum no longer fits is part of the theorem. *)
Definition version_ok (v : version) : Prop :=
  0 <= v_major v /\ 0 <= v_minor v <= 99 /\ 0 <= v_patch v <= 99 /\
  match v_pre v with
  | Some (_, digits) => digits <> [] /\ forallb (fun b => bool_decide (is_Some (digit_of b))) digits = true /\
                        pre_number v <= 199
  | None => True
  end.

(** Semantic versioning: lexicographic, a release after its pre-releases. *)
Definition version_lt (v w : version) : Prop :=
  v_major v < v_major w \/ v_major v = v_major w /\
  (v_minor v < v_minor w \/ v_minor v = v_minor w /\
  (v_patch v < v_patch w \/ v_patch v = v_patch w /\
  (pre_order v < pre_order w \/ pre_order v = pre_order w /\ pre_number v < pre_number w))).

Definition version_number (v : version) : Z :=
  idb_version (v_major v) (v_minor v) (v_patch v) (pre_text v).

Definition same_base (v w : version) : Prop :=
  v_major v = v_major w /\ v_minor v = v_minor w /\ v_patch v = v_patch w.

(** The sum of [open] as a number without width. *)
Definition plain_number (v : version) : Z :=
  v_major v * 10000000 + v_minor v * 100000 + v_patch v * 1000 +
    match v_pre v with Some (k, _) => 200 + 200 * pre_rank k + pre_number v | None => 0 end.

(** ** Parsing *)

Lemma split_none (p : Byte.byte -> bool) s : forallb (fun b => negb (p b)) s = true -> split p s = [s].
Proof.
  induction s as [|b s IH]; [done|]. cbn. intros [Hb%negb_true_iff Hs]%andb_true_iff.
  by rewrite Hb, IH.
Qed.

Lemma split_first (p : Byte.byte -> bool) s sep r : forallb (fun b => negb (p b)) s = true -> p sep = true ->
  split p (s ++ sep :: r) = s :: split p r.
Proof.
  intros Hs Hsep. induction s as [|b s IH]; cbn in *; [by rewrite Hsep|].
  apply andb_true_iff in Hs as [Hb%negb_true_iff Hs]. by rewrite Hb, IH.
Qed.

Lemma digits_neither digits :
  forallb (fun b => bool_decide (is_Some (digit_of b))) digits = true ->
  forallb (fun b => negb (is_plus b)) digits = true /\ forallb (fun b => negb (is_dot b)) digits = true.
Proof.
  assert (forall b, implb (bool_decide (is_Some (digit_of b))) (negb (is_plus b) && negb (is_dot b)) = true) as Hd.
  { apply byte_check. by vm_compute. }
  induction digits as [|b digits IH]; [done|]. cbn. intros [Hb Hs]%andb_true_iff.
  specialize (Hd b). rewrite Hb in Hd. cbn in Hd. apply andb_true_iff in Hd as [-> ->]. by apply IH.
Qed.

Lemma base_version_of k :
  (if bool_decide (pre_name k = ascii_bytes "alpha") then 200
   else if bool_decide (pre_name k = ascii_bytes "beta") then 400
   else if bool_decide (pre_name k = ascii_bytes "pre") then 600
   else if bool_decide (pre_name k = ascii_bytes "rc") then 800 else 0) = 200 + 200 * pre_rank k.
Proof. by destruct k; vm_compute. Qed.

Lemma determine_pre_version_spec v : version_ok v ->
  determine_pre_version (pre_text v) =
  (match v_pre v with Some (k, _) => 200 + 200 * pre_rank k + pre_number v | None => 0 end) /\
  0 <= pre_number v <= 199.
Proof.
  intros (_ & _ & _ & Hp). unfold pre_text, pre_number in *. destruct (v_pre v) as [[k digits]|]; [|by split].
  destruct Hp as (Hne & Hd & Hn). destruct (digits_neither digits Hd) as [Hplus Hdot].
  assert (0 <= default 0 (parse_uint u32_max digits)) as H0.
  { destruct (parse_uint u32_max digits) as [n|] eqn:Hpn; [|done]. cbn.
    apply parse_uint_bound in Hpn; [lia|done]. }
  split; [|done]. unfold determine_pre_version.
  rewrite split_none; [|by destruct k; cbn; rewrite Hplus].
  rewrite split_first; [|by destruct k|done]. rewrite (split_none _ digits Hdot). cbn [head option_bind mbind].
  rewrite base_version_of. unfold as_u32. apply Z.mod_small. destruct k; cbn [pre_rank]; lia.
Qed.

Lemma version_number_spec v : version_ok v -> version_number v = as_u32 (plain_number v).
Proof.
  intros Hv. destruct (determine_pre_version_spec v Hv) as [Hp _].
  unfold version_number, idb_version, plain_number. by rewrite Hp.
Qed.

Lemma plain_number_parts v : version_ok v ->
  v_major v * 10000000 + v_minor v * 100000 + v_patch v * 1000 <= plain_number v <=
    v_major v * 10000000 + v_minor v * 100000 + v_patch v * 1000 + 999.
Proof.
  intros Hv. destruct (determine_pre_version_spec v Hv) as [_ Hn]. unfold plain_number.
  destruct (v_pre v) as [[[] digits]|]; cbn [pre_rank]; lia.
Qed.

Lemma fits_iff v : version_ok v -> version_number v = plain_number v <-> plain_number v <= u32_max.
Proof.
  intros Hv. rewrite (version_number_spec v Hv). pose proof (plain_number_parts v Hv).
  destruct Hv as (Hv1 & Hv2 & Hv3 & _). unfold as_u32, u32_max in *. split.
  - intros Heq. pose proof (Z.mod_pos_bound (plain_number v) 4294967296 eq_refl). lia.
  - intros Hm. apply Z.mod_small. lia.
Qed.

Lemma plain_number_grows v w : version_ok v -> version_ok w ->
  version_lt v w -> ~ (same_base v w /\ v_pre w = None) -> plain_number v < plain_number w.
Proof.
  intros Hv Hw. pose proof (plain_number_parts v Hv) as Pv. pose proof (plain_number_parts w Hw) as Pw.
  destruct (determine_pre_version_spec v Hv) as [_ Hnv]. destruct (determine_pre_version_spec w Hw) as [_ Hnw].
  destruct Hv as (Hv1 & Hv2 & Hv3 & _), Hw as (Hw1 & Hw2 & Hw3 & _).
  unfold version_lt, same_base, pre_order.
  intros [Hlt|(HM & [Hlt|(Hm & [Hlt|(Hp & Hpre)])])] Hrel; [lia..|].
  clear Pv Pw. unfold plain_number in *. destruct (v_pre w) as [[k' d']|]; [|tauto].
  destruct (v_pre v) as [[[] d]|], k'; cbn [pre_rank] in *; lia.
Qed.

Lemma plain_release_below v w : version_ok v -> same_base v w -> v_pre w = None -> v_pre v <> None ->
  version_lt v w /\ plain_number w < plain_number v.
Proof.
  intros Hv (HM & Hm & Hp) Hw Hne. destruct (determine_pre_version_spec v Hv) as [_ Hn].
  unfold version_lt, pre_order, plain_number. rewrite Hw, HM, Hm, Hp.
  destruct (v_pre v) as [[[] d]|]; cbn [pre_rank] in *; [lia..|done].
Qed.

