(* ===== verification/BrowserCalls.v ===== *)
(** * Calls of the browser's key store that are not those of a map

    [mls_fetch_keypackages] of [keystore/src/mls.rs] in a browser, and what becomes there of
    the entities of which the native store keeps several or one: buffered messages, the
    certificate authority and the refresh token, credentials. *)

From S2P Require Import Prelude KsError Sql Entity.
From S2P Require Import MlsPending MlsKeys MlsCredentials E2eiEntities Keystore.
From S2P Require Import Browser BrowserEntity BrowserMap BrowserKeys BrowserMls BrowserSpec.
Open Scope Z_scope.

Section calls.
Context `{Wb : WasmBindgen} `{Ib : !IndexedDb} `{Ag : AesGcm}.

Abbreviation wasm := (stm Browser WasmError).

(** One key package of the listing; here an error ends the call. *)
Definition read_keypackage (cipher : Cipher) (p : bytes * JsValue) : result WasmError MlsKeyPackage :=
  kp ← from_value (E := MlsKeyPackage) p.2;
  decrypt cipher kp.

(** The first [count] in the order of their references, those that do not decode left out. *)
Definition wasm_fetch_keypackages {V} `{Serde V} (count : Z) : wasm (list V) := fun b =>
  let decoded (kps : list MlsKeyPackage) : list V :=
    omap (M := list) (fun kpb => res_ok (deser (kp_keypackage kpb))) kps in
  match br_storage b with
  | Persistent r =>
      let (res, r') :=
        (items ← rexie_run _ (IdbGetAll "mls_keypackages" (Some count) None false);
         st_lift (try_map (read_keypackage (br_cipher b)) items)) r in
      (decoded <$> res, with_storage b (Persistent r') (br_rng b))
  | InMemory m =>
      (match m !! "mls_keypackages" with
       | Some collection =>
           decoded <$> try_map (read_keypackage (br_cipher b)) (take (Z.to_nat count) (hash_iter collection))
       | None => Ok []
       end, b)
  end.

Section laws.
Context `{!WasmBindgenLaws, !AesGcmLaws}.

Lemma try_map_ok {A B Err} (f : A -> result Err B) (g : A -> B) (l : list A) :
  (forall x, x ∈ l -> f x = Ok (g x)) -> try_map f l = Ok (g <$> l).
Proof.
  induction l as [|x l IH]; intros Hf; [done|]. cbn. rewrite Hf by set_solver. cbn.
  by rewrite IH by set_solver.
Qed.

(** A part of a listing, read: a part of the entities. *)
Lemma read_part (c : Cipher) (m : gmap bytes MlsKeyPackage) (st : gmap bytes JsValue) (l : list (bytes * JsValue)) (n : nat) :
  map_Forall2 (sealed c) m st -> l ≡ₚ map_to_list st ->
  exists kps rest : list MlsKeyPackage, try_map (read_keypackage c) (take n l) = Ok kps /\
    kps ++ rest ≡ₚ snd <$> map_to_list m /\ length kps = (n `min` size m)%nat.
Proof.
  intros Hm Hl.
  pose (read (p : bytes * JsValue) := default (MkMlsKeyPackage [] []) (open_entity c p.2) : MlsKeyPackage).
  assert (forall p, p ∈ l -> read_keypackage c p = Ok (read p) /\ open_entity c p.2 = Some (read p)) as Hread.
  { intros [k v] Hp. rewrite Hl, elem_of_map_to_list in Hp. specialize (Hm k). rewrite Hp in Hm.
    inversion Hm as [e v' Hs He Hv|]. destruct (sealed_open _ _ _ _ Hs) as (_ & e' & Hf & Hd).
    unfold read, read_keypackage. cbn [snd]. rewrite Hf, (sealed_open_entity _ _ _ _ Hs).
    by cbn [mbind result_bind default]. }
  exists (read <$> take n l), (read <$> drop n l). split_and!.
  - apply try_map_ok. intros p Hp. apply Hread. apply elem_of_take in Hp as (i & Hi & _).
    by eapply list_elem_of_lookup_2.
  - rewrite <-fmap_app, take_drop. rewrite <-(omap_sealed c m st l (fun p => open_entity c p.2) Hm Hl).
    + clear -Hread. induction l as [|p l IH]; [done|]. rewrite fmap_cons. cbn.
      rewrite (proj2 (Hread p ltac:(set_solver))). by rewrite IH by set_solver.
    + intros k v e Hs. by eapply sealed_open_entity.
  - rewrite length_fmap, length_take, (map_Forall2_size _ _ _ Hm), <-length_map_to_list. by rewrite Hl.
Qed.

(** [mls_fetch_keypackages] gives the packages that decode among [count] of the stored ones, or
    all when there are fewer; it changes nothing. *)
Lemma wasm_fetch_keypackages_holds {V : Type} `{Serde V} (b : Browser) (m : gmap bytes MlsKeyPackage) (count : Z) :
  holds b m ->
  outcome b m m (fun l => exists kps rest : list MlsKeyPackage, kps ++ rest ≡ₚ snd <$> map_to_list m /\
      length kps = (Z.to_nat count `min` size m)%nat /\
      l = omap (M := list) (fun kpb => res_ok (deser (V := V) (kp_keypackage kpb))) kps) true
    (wasm_fetch_keypackages count b).
Proof.
  intros Hm. unfold wasm_fetch_keypackages.
  set (decoded := omap (M := list) (fun kpb => res_ok (deser (V := V) (kp_keypackage kpb)))).
  destruct (br_storage b) as [r|mem] eqn:Hb.
  - destruct (holds_content _ _ _ Hm Hb) as (st & Hd & Hst & Hf). cbn in Hd, Hst.
    pose (read (items : list (bytes * JsValue)) := decoded <$> try_map (read_keypackage (br_cipher b)) items : result WasmError (list V)).
    destruct (read_part _ _ _ (in_key_order st) (Z.to_nat count) Hf (in_key_order_perm st))
      as (kps & rest & Hread & Hperm & Hlen).
    pose proof (look_persistent b m r (IdbGetAll "mls_keypackages" (Some count) None false) read
      (fun l => exists kps rest : list MlsKeyPackage, kps ++ rest ≡ₚ snd <$> map_to_list m /\
        length kps = (Z.to_nat count `min` size m)%nat /\ l = decoded kps)
      (take (Z.to_nat count) (in_key_order st)) Hm Hb) as Hlook.
    unfold mbind, stm_bind, st_lift in *.
    destruct (rexie_run _ _ r) as [[items|err] r']; apply Hlook;
      try (cbn; by rewrite Hd, Hst); unfold read; rewrite Hread; eexists; (split; [done|by exists kps, rest]).
  - apply (look_memory _ _ mem); [done..|]. pose proof (proj2 Hm) as Hf. rewrite Hb in Hf. cbn in Hf.
    destruct (mem !! "mls_keypackages") as [st|] eqn:Hst; cbn in Hf.
    + destruct (read_part _ _ _ (hash_iter st) (Z.to_nat count) Hf (hash_iter_perm st))
        as (kps & rest & Hread & Hperm & Hlen).
      rewrite Hread. eexists. split; [done|]. by exists kps, rest.
    + apply map_Forall2_empty_inv_r in Hf as ->. exists []. split; [done|]. exists [], [].
      rewrite map_to_list_empty, map_size_empty. split_and!; [done|cbn; lia|done].
Qed.

(** ** Collections of one entity *)

(** What is saved is found: the second of two calls on a browser that works. *)
Lemma save_then_get {E : Type} `{!WasmEntity E} `{!WasmCodec E} (b : Browser) (m : gmap bytes E) (e : E) :
  holds b m -> wl_ok e -> wl_fits e = true -> browser_ok b ->
  exists b1 b2, storage_save (os_name wl_decl) [e] b = (Ok (), b1) /\
    storage_get (os_name wl_decl) (id_raw e) b1 = (Ok (Some e), b2) /\
    holds b1 (<[id_raw e := e]> m) /\ browser_ok b1.
Proof.
  intros Hm Hok Hf Hb. pose proof (storage_save_holds b m e Hm Hok) as (_ & Hb1 & Hs).
  destruct (storage_save (os_name wl_decl) [e] b) as [[[]|err] b1] eqn:Hsave; cbn [fst snd] in *;
    [|by destruct Hs as [_ []]].
  destruct Hs as [_ Hm1].
  pose proof (storage_get_holds b1 _ (id_raw e) Hm1) as (_ & _ & Hg).
  destruct (storage_get (os_name wl_decl) (id_raw e) b1) as [[o|err] b2] eqn:Hget; cbn [fst snd] in *.
  - destruct Hg as [-> _]. rewrite lookup_insert_eq in Hget. exists b1, b2. by split_and!; [| | |apply Hb1].
  - destruct Hg as [_ []]. by split; [apply Hb1|].
Qed.

(** The root certificate and the refresh token can be replaced any number of times, which the
    native store refuses the second time. *)
Lemma unique_replaced (b : Browser) (m : gmap bytes E2eiAcmeCA) (m' : gmap bytes E2eiRefreshToken)
    (ca : E2eiAcmeCA) (token : E2eiRefreshToken) :
  browser_ok b ->
  (holds b m -> wl_fits ca = true -> exists b1 b2,
     wasm_E2eiAcmeCA_replace ca b = (Ok (), b1) /\ wasm_E2eiAcmeCA_find_unique b1 = (Ok ca, b2) /\
     holds b1 (<[id_raw ca := ca]> m)) /\
  (holds b m' -> wl_fits token = true -> exists b1 b2,
     wasm_E2eiRefreshToken_replace token b = (Ok (), b1) /\
     wasm_E2eiRefreshToken_find_unique b1 = (Ok token, b2) /\
     holds b1 (<[id_raw token := token]> m')).
Proof.
  intros Hb. split; intros Hm Hf; destruct (save_then_get b _ _ Hm I Hf Hb) as (b1 & b2 & Hs & Hg & Hm1 & _);
    exists b1, b2; (split; [done|]; split; [|done]).
  - unfold wasm_E2eiAcmeCA_find_unique. cbn in Hg. by rewrite (stm_bind_ok _ _ _ _ _ Hg).
  - unfold wasm_E2eiRefreshToken_find_unique. cbn in Hg. by rewrite (stm_bind_ok _ _ _ _ _ Hg).
Qed.

(** ** Buffered messages *)

(** Messages of one group have one key: of the messages buffered for a group, the last one is
    left. *)
Lemma buffered_messages_overwrite (b : Browser) (m : gmap bytes MlsPendingMessage) (group m1 m2 : bytes) :
  holds b m -> browser_ok b ->
  wl_fits (MkMlsPendingMessage group m1) = true -> wl_fits (MkMlsPendingMessage group m2) = true ->
  exists b', browser_run [KvSave (MkMlsPendingMessage group m1); KvSave (MkMlsPendingMessage group m2)] b =
      ([Ok (Saved (MkMlsPendingMessage group m1)); Ok (Saved (MkMlsPendingMessage group m2))], b') /\
    holds b' (<[group := MkMlsPendingMessage group m2]> m).
Proof.
  intros Hm Hb Hf1 Hf2.
  set (calls := [KvSave (MkMlsPendingMessage group m1); KvSave (MkMlsPendingMessage group m2)]).
  destruct (browser_run calls b) as [answers b'] eqn:Hrun.
  destruct (browser_run_life calls b m answers b' Hm) as (m' & Hl & Hm' & _ & _ & Hok); [by repeat constructor|done|].
  assert (forallb is_ok answers = true) as Hall by (apply Hok; [done|]; cbn [forallb calls kv_call_fits]; by rewrite Hf1, Hf2).
  exists b'. destruct answers as [|[a1|] [|[a2|] [|]]]; cbn in Hl, Hall; try done;
    try (by destruct Hl as (_ & [])); try (by destruct Hl as (_ & _ & [])).
  destruct Hl as (Ha1 & Ha2 & ->). destruct a1, a2; try done. cbn in Ha1, Ha2. subst.
  split; [done|]. by rewrite insert_insert_eq in Hm'.
Qed.

(** ** Credentials *)

(** The collection of credentials as [insert] fills it. *)
Definition credentials_serialized (b : Browser) : Prop :=
  forall k v, content (br_storage b) "mls_credentials" !! k = Some v ->
    exists e : MlsCredential, js_serialize (to_fields e) = Ok v.

Lemma no_credential_key e v credential :
  js_serialize (to_fields (E := MlsCredential) e) = Ok v ->
  js_attribute "credential" v <> Some (JsBinary credential).
Proof. intros Hv. rewrite (js_attribute_serialize _ _ _ Hv). done. Qed.
End laws.
End calls.

(** In a browser [delete_by_credential] deletes nothing. In IndexedDB it looks the credential
    up as a byte array, while the attribute of every credential stored is an array of numbers
    (of the encrypted credential, besides): whatever is stored and whichever credential is
    given, it ends in an error and leaves every collection as it is. In memory it succeeds and
    leaves every collection as it is. *)
Lemma delete_by_credential_deletes_nothing `{Wb : WasmBindgen} `{Ib : !IndexedDb} `{Ag : AesGcm}
    `{!WasmBindgenLaws} (b : Browser) (credential : bytes) :
  ready (br_storage b) -> credentials_serialized b ->
  exists r b', wasm_delete_by_credential credential b = (r, b') /\
    (forall c, content (br_storage b') c = content (br_storage b) c) /\
    is_ok r = negb (is_persistent (wc_conn (br_conn b))).
Proof.
  intros Hr Hs. unfold wasm_delete_by_credential, credentials_serialized, is_persistent in *.
  change (storage (wc_conn (br_conn b))) with (br_storage b).
  destruct (br_storage b) as [r|mem] eqn:Hb; [|by eexists _, _; split_and!; [|rewrite Hb|]].
  destruct (has_stores_content (rexie_view r) (ObjectStore "mls_credentials"
    [Index "id" "id" false; Index "credential" "credential" true]) Hr eq_refl) as (st & Hd & Hst).
  cbn in Hd, Hst, Hs. rewrite Hst in Hs. cbn in Hs.
  destruct (rexie_cases (IdbIndexGet "mls_credentials" "credential" (JsBinary credential)) r)
    as (a & r' & Hrun & _ & Hc).
  assert (rexie_view r' = rexie_view r /\ match a with Ok (Some _) => False | _ => True end) as [Hv Ha].
  { destruct Hc as [Hc|(He & Hv & _)]; [|by destruct a]. cbn in Hc. rewrite Hd, Hst in Hc. cbn in Hc.
    injection Hc as <- Hv. split; [done|].
    destruct (first _ (in_key_order st)) as [[k v]|] eqn:Hf; [|done].
    apply first_Some in Hf as [Hin Hk%bool_decide_eq_true]. cbn in Hk.
    rewrite in_key_order_perm, elem_of_map_to_list in Hin. destruct (Hs _ _ Hin) as [e He].
    by apply (no_credential_key e v credential He). }
  unfold mbind, stm_bind. rewrite Hrun.
  destruct a as [[v|]|err]; [done| |]; eexists _, _; (split; [reflexivity|]; split; [|done]);
    intros c; cbn; by rewrite Hv.
Qed.
