(* ===== verification/BrowserExample.v ===== *)
(** * Concrete browsers

    A serializer, an IndexedDB and a cipher in which the laws of [Browser] hold, connections in
    IndexedDB and in memory, and the theorems on the browser's key store applied to them. *)

From S2P Require Import Prelude KsError Sql SqlSpec Entity MlsGroups MlsKeys MlsCredentials Keystore.
From S2P Require Import Browser BrowserEntity BrowserMap BrowserKeys BrowserMls BrowserSpec BrowserVersion BrowserCalls.
Open Scope Z_scope.

(** ** The platform *)

(** A JavaScript value is the fields it was made from. *)
#[export] Instance ex_bindgen : WasmBindgen := {|
  JsValue := sfields;
  js_serialize := fun s =>
    if forallb (fun p : string * sval => js_safe p.2) s then Ok s else Err SerdeWasmBindgenError;
  js_from_value := Ok;
  js_is_null := fun _ => false;
  js_attribute := fun name v => sfield name v ≫= sval_key;
  hash_iter := map_to_list;
|}.

#[export] Program Instance ex_bindgen_laws : WasmBindgenLaws.
Next Obligation. intros s Hs. unfold js_serialize, ex_bindgen. by rewrite Hs. Qed.
Next Obligation.
  intros s j. unfold js_serialize, ex_bindgen. destruct (forallb _ s); [|done]. by intros [= ->].
Qed.
Next Obligation.
  intros s j name. unfold js_serialize, ex_bindgen. destruct (forallb _ s); [|done]. by intros [= ->].
Qed.
Next Obligation. done. Qed.

(** An IndexedDB that never fails by itself. *)
#[export] Program Instance ex_indexed_db : IndexedDb := {|
  rexie := idb;
  rexie_view := id;
  rexie_healthy := fun _ => True;
  rexie_run := fun X q d => idb_sem q d;
  rexie_build := fun name version schema =>
    Ok (Idb schema (list_to_map ((fun s => (os_name s, ∅)) <$> schema)));
|}.
Next Obligation. done. Qed.
Next Obligation. intros X q r e r' Hr. by apply (idb_sem_err q r e r'). Qed.
Next Obligation. done. Qed.

(** A cipher that turns the message around and adds a tag of 16 bytes. *)
#[export] Instance ex_cipher : AesGcm := {|
  Cipher := bytes;
  Rng := nat;
  sha256 := id;
  cipher_new := id;
  random_nonce := fun n => (replicate AES_GCM_256_NONCE_SIZE (byte_of (Z.of_nat n)), S n);
  aes_encrypt := fun c n m a => Some (reverse m ++ replicate 16 Byte.x00);
  aes_decrypt := fun c n x a => Some (reverse (take (length x - 16) x));
|}.

#[export] Program Instance ex_cipher_laws : AesGcmLaws.
Next Obligation. intros g. by apply length_replicate. Qed.
Next Obligation.
  intros c n m a x [= <-]. cbn [aes_decrypt ex_cipher]. f_equal. rewrite length_app. cbn [length].
  replace (length (reverse m) + 16 - 16)%nat with (length (reverse m)) by lia.
  by rewrite take_app_length, reverse_involutive.
Qed.
Next Obligation. intros c n m a _ _. by eexists. Qed.
Next Obligation.
  intros c n m a x [= <-]. unfold blen, AES_GCM_TAG_SIZE.
  rewrite length_app, length_reverse. cbn [length]. lia.
Qed.

(** ** Connections *)

Definition ex_key : bytes := ascii_bytes "key".

(** A new database, as [open] makes it. *)
Definition ex_database : idb :=
  Idb wasm_schema (list_to_map ((fun s => (os_name s, ∅)) <$> wasm_schema)).

Definition ex_persistent : Browser :=
  MkBrowser (MkWasmConnection "db" (WasmEncryptedStorage_new ex_key (Persistent (ex_database : rexie)))) 0%nat 1700000000.

Definition ex_in_memory : Browser :=
  MkBrowser (MkWasmConnection "db" (WasmEncryptedStorage_new ex_key (InMemory ∅))) 0%nat 1700000000.

Lemma ex_open : WasmConnection_open 1 0 0 (ascii_bytes "rc.42") "db" ex_key = Ok (br_conn ex_persistent).
Proof. reflexivity. Qed.

Lemma ex_has_stores : has_stores ex_database.
Proof.
  split; [done|]. intros s Hs.
  assert (forallb (fun s => bool_decide (is_Some (idb_stores ex_database !! os_name s))) wasm_schema = true) as Hall.
  { by vm_compute. }
  rewrite forallb_forall in Hall. apply list_elem_of_In in Hs. by apply Hall, bool_decide_eq_true in Hs.
Qed.

Lemma ex_content c : content (br_storage ex_persistent) c = ∅.
Proof.
  change (content (br_storage ex_persistent) c) with (default ∅ (idb_stores ex_database !! c)).
  destruct (idb_stores ex_database !! c) as [m|] eqn:Hm; [|done]. cbn.
  apply elem_of_list_to_map_2 in Hm. apply list_elem_of_fmap in Hm as (s & [= _ ->] & _). done.
Qed.

Lemma ex_persistent_holds {E : Type} `{!WasmEntity E} `{!WasmCodec E} : holds (E := E) ex_persistent ∅.
Proof. split; [exact ex_has_stores|]. rewrite ex_content. apply map_Forall2_empty. Qed.

Lemma ex_in_memory_holds {E : Type} `{!WasmEntity E} `{!WasmCodec E} : holds (E := E) ex_in_memory ∅.
Proof. by apply (open_in_memory_holds "db" ex_key). Qed.

(** ** The theorems *)

Definition ex_package : MlsKeyPackage := MkMlsKeyPackage (ascii_bytes "ref") (ascii_bytes "package").

Definition ex_calls : list (KvCall MlsKeyPackage) :=
  [KvSave ex_package; KvFind (ascii_bytes "ref"); KvCount; KvRemove (ascii_bytes "ref"); KvFindAll].

Lemma ex_calls_run : fst (browser_run ex_calls ex_persistent) =
  [Ok (Saved ex_package); Ok (Found (Some ex_package)); Ok (Counted 1); Ok Removed; Ok (Listed [])].
Proof. by vm_compute. Qed.

Lemma browser_refines_map_witness :
  exists m', kv_life id_raw ∅ ex_calls (fst (browser_run ex_calls ex_persistent)) m' /\
    holds (snd (browser_run ex_calls ex_persistent)) m' /\
    only_collection (os_name (wl_decl (E := MlsKeyPackage))) ex_persistent (snd (browser_run ex_calls ex_persistent)) /\
    (browser_ok ex_persistent -> forallb kv_call_fits ex_calls = true ->
     forallb is_ok (fst (browser_run ex_calls ex_persistent)) = true).
Proof.
  apply (browser_refines_map ex_calls ex_persistent _ ∅); [exact ex_persistent_holds|by repeat constructor|].
  by destruct (browser_run ex_calls ex_persistent).
Defined.

Definition ex_group : PersistedMlsGroup := MkPersistedMlsGroup (ascii_bytes "group") (ascii_bytes "state") None.

Definition ex_group_calls : list (KvCall PersistedMlsGroup) :=
  [KvSave ex_group; KvFind (ascii_bytes "group"); KvFindAll; KvCount; KvRemove (ascii_bytes "group")].

Lemma ex_rows : rows_of (∅ : gmap bytes PersistedMlsGroup) [].
Proof. split; [constructor|intros k; by rewrite lookup_empty|constructor]. Qed.

Lemma ex_group_allowed : kv_all_allowed ∅ ex_group_calls.
Proof. cbn. by split_and!. Qed.

Lemma backends_agree_witness :
  exists answers c' answers' b' m' l',
    native_run ex_group_calls (fresh_conn : @conn ref_engine) = (answers, c') /\
    browser_run ex_group_calls ex_in_memory = (answers', b') /\
    Forall2 alike answers answers' /\
    stores PersistedMlsGroup c' l' /\ rows_of m' l' /\ holds b' m' /\ browser_ok b'.
Proof.
  apply (backends_agree ex_group_calls (fresh_conn : @conn ref_engine) ex_in_memory ∅ []);
    [done|exact fresh_stores_groups|exact ex_rows|exact ex_in_memory_holds|done|exact ex_group_allowed
    |by repeat constructor|by vm_compute].
Defined.

Definition ex_version (pre : option (pre_kind * bytes)) : version := MkVersion 1 0 0 pre.

Lemma ex_version_ok n : n ∈ ["42"; "43"] -> version_ok (ex_version (Some (Rc, ascii_bytes n))).
Proof.
  intros Hn. repeat (apply elem_of_cons in Hn as [->|Hn]); [| |by apply elem_of_nil in Hn];
    cbn; split_and!; try lia; vm_compute; done.
Qed.


(** A browser with one credential in IndexedDB. *)
Definition ex_credential : MlsCredential := MkMlsCredential (ascii_bytes "alice") (ascii_bytes "credential") 0.

Definition ex_with_credential : Browser := snd (wasm_MlsCredential_save ex_credential ex_persistent).

Lemma ex_credential_counted : fst (wasm_MlsCredential_count ex_with_credential) = Ok 1.
Proof. by vm_compute. Qed.

Lemma ex_with_credential_ready : ready (br_storage ex_with_credential).
Proof. apply (has_stores_change ex_database), ex_has_stores. Qed.

(** What is stored of it. *)
Definition ex_stored_credential : MlsCredential :=
  MkMlsCredential (ascii_bytes "alice")
    (replicate 12 Byte.x00 ++ reverse (ascii_bytes "credential") ++ replicate 16 Byte.x00) 1700000000.

Lemma ex_with_credential_serialized : credentials_serialized ex_with_credential.
Proof.
  intros k v Hv.
  assert (forallb (fun p : bytes * JsValue => bool_decide ((p.2 : sfields) = to_fields ex_stored_credential))
    (map_to_list (content (br_storage ex_with_credential) "mls_credentials")) = true) as Hall.
  { by vm_compute. }
  rewrite forallb_forall in Hall. apply elem_of_map_to_list, list_elem_of_In, Hall, bool_decide_eq_true in Hv.
  exists ex_stored_credential. cbn [snd] in Hv. rewrite Hv. by vm_compute.
Qed.

Lemma delete_by_credential_deletes_nothing_witness :
  exists r b', wasm_delete_by_credential (ascii_bytes "credential") ex_with_credential = (r, b') /\
    (forall c, content (br_storage b') c = content (br_storage ex_with_credential) c) /\
    is_ok r = negb (is_persistent (wc_conn (br_conn ex_with_credential))).
Proof.
  apply (delete_by_credential_deletes_nothing ex_with_credential (ascii_bytes "credential"));
    [exact ex_with_credential_ready|exact ex_with_credential_serialized].
Defined.
