(* ===== verification/CcError.v ===== *)
(** * CoreCrypto errors

    [crypto/src/error.rs] and [crypto/src/e2e_identity/error.rs]: the error types of the crypto
    crate, and how an OpenMLS error becomes one of them. An error value of another crate is an
    [ext_error], except where the code looks into it. *)

From S2P Require Import Prelude KsError.
Open Scope Z_scope.

(** An error of another crate, by its text. *)
Abbreviation ext_error := string.

(** [MlsCredentialType] of [crypto/src/mls/credential/typ.rs]. *)
Inductive MlsCredentialType : Set :=
  | Basic
  | X509.

#[export] Instance MlsCredentialType_eq_dec : EqDecision MlsCredentialType.
Proof. solve_decision. Defined.

(** ** Errors of OpenMLS, as far as the code tells them apart *)

(** [SecretTreeError] and [MessageDecryptionError] *)
Inductive SecretTreeError : Set :=
  | TooDistantInThePast
  | SecretTreeOther (e : ext_error).

Inductive MessageDecryptionError : Set :=
  | GenerationOutOfBound
  | AeadError
  | DecryptionSecretTreeError (e : SecretTreeError)
  | MessageDecryptionOther (e : ext_error).

Inductive ValidationError : Set :=
  | UnableToDecrypt (e : MessageDecryptionError)
  | ValidationWrongEpoch
  | ValidationOther (e : ext_error).

Inductive ProcessMessageError : Set :=
  | ProcessValidationError (e : ValidationError)
  | IncompatibleWireFormat
  | ProcessMessageOther (e : ext_error).

(** [AddMembersError]: the one case that says that a credential did not validate, and the rest. *)
Inductive AddMembersError : Set :=
  | AuthenticationServiceInvalid
  | AddMembersOther (e : ext_error).

Inductive WelcomeError : Set :=
  | NoMatchingKeyPackage
  | WelcomeOther (e : ext_error).

Inductive MlsGroupStateError : Set :=
  | GroupPendingProposalNotFound
  | GroupStateOther (e : ext_error).

#[export] Instance SecretTreeError_eq_dec : EqDecision SecretTreeError.
Proof. solve_decision. Defined.
#[export] Instance MessageDecryptionError_eq_dec : EqDecision MessageDecryptionError.
Proof. solve_decision. Defined.
#[export] Instance ValidationError_eq_dec : EqDecision ValidationError.
Proof. solve_decision. Defined.
#[export] Instance ProcessMessageError_eq_dec : EqDecision ProcessMessageError.
Proof. solve_decision. Defined.
#[export] Instance AddMembersError_eq_dec : EqDecision AddMembersError.
Proof. solve_decision. Defined.
#[export] Instance WelcomeError_eq_dec : EqDecision WelcomeError.
Proof. solve_decision. Defined.
#[export] Instance MlsGroupStateError_eq_dec : EqDecision MlsGroupStateError.
Proof. solve_decision. Defined.

(** [MlsError] *)
Inductive MlsError : Set :=
  | MlsWelcomeError (e : WelcomeError)
  | MlsLibraryError (e : ext_error)
  | MlsInvalidMessageError (e : ext_error)
  | MlsEmptyInputError (e : ext_error)
  | MlsCredentialError (e : ext_error)
  | MlsNewGroupError (e : ext_error)
  | MlsAddMembersError (e : AddMembersError)
  | MlsRemoveMembersError (e : ext_error)
  | MlsMessageError (e : ProcessMessageError)
  | MlsKeyPackageBundleNewError (e : ext_error)
  | MlsSelfUpdateError (e : ext_error)
  | MlsMlsGroupStateError (e : MlsGroupStateError)
  | ProposeAddMemberError (e : ext_error)
  | ProposeSelfUpdateError (e : ext_error)
  | ProposeRemoveMemberError (e : ext_error)
  | MlsCommitToPendingProposalsError (e : ext_error)
  | MlsExportGroupInfoError (e : ext_error)
  | MlsTlsCodecError (e : ext_error)
  | MlsKeystoreSerializationError (e : ext_error)
  | MlsErrorString (e : ext_error)
  | MlsExternalCommitError (e : ext_error)
  | MlsCryptoError (e : ext_error)
  | MlsExportSecretError (e : ext_error)
  | MlsMergeCommitError (e : ext_error)
  | MlsKeyPackageValidationError (e : ext_error)
  | MlsMergePendingCommitError (e : ext_error)
  | MlsEncryptMessageError (e : ext_error)
  | MlsDeleteKeyPackageError (e : ext_error)
  | MlsUpdateExtensionsError (e : ext_error)
  | MlsLeafNodeValidationError (e : ext_error)
  | RatchetTreeError (e : ext_error)
  | GroupInfoError (e : ext_error).

#[export] Instance MlsError_eq_dec : EqDecision MlsError.
Proof. solve_decision. Defined.

(** [ProteusError]: the codes of the foreign errors are what is looked at. *)
Inductive ProteusError : Set :=
  | ProteusDecodeError (code : Z)
  | ProteusEncodeError (code : Z)
  | ProteusInternalError (code : Z)
  | ProteusSessionError (code : Z).

Definition ProteusError_error_code (e : ProteusError) : Z :=
  match e with
  | ProteusDecodeError c => c
  | ProteusEncodeError c => c
  | ProteusSessionError c => c
  | ProteusInternalError c => c
  end.

(** [E2eIdentityError] *)
Inductive E2eIdentityError : Set :=
  | E2eImplementationError
  | NotYetSupported
  | MissingExistingClient (ct : MlsCredentialType)
  | E2eInvalidIdentity
  | InvalidSignatureKey
  | OutOfOrderEnrollment (msg : string)
  | E2eiInvalidDomain
  | InvalidRefreshToken
  | E2eKeyStoreError (e : CryptoKeystoreError)
  | E2eCryptoError (e : ext_error)
  | IdentityError (e : ext_error)
  | X509Error (e : ext_error)
  | UrlError (e : ext_error)
  | E2eJsonError (e : ext_error)
  | E2eUtf8Error
  | E2eLockPoisonError
  | TrustAnchorAlreadyRegistered.

#[export] Instance ProteusError_eq_dec : EqDecision ProteusError.
Proof. solve_decision. Defined.
#[export] Instance E2eIdentityError_eq_dec : EqDecision E2eIdentityError.
Proof. solve_decision. Defined.

(** [CryptoboxMigrationError], but for the errors of the browser's data base. *)
Inductive CryptoboxMigrationError : Set :=
  | MissingKeyInValue (key : string)
  | WrongValueType (expected : string)
  | ProvidedPathDoesNotExist (path : bytes)
  | IdentityNotFound (path : bytes).

#[export] Instance CryptoboxMigrationError_eq_dec : EqDecision CryptoboxMigrationError.
Proof. solve_decision. Defined.

(** [CryptoError], without the variants that only tests have. *)
Inductive CryptoError : Set :=
  | E2eiError (e : E2eIdentityError)
  | ConversationNotFound (id : bytes)
  | ConversationAlreadyExists (id : bytes)
  | ClientNotFound (id : bytes)
  | PendingProposalNotFound (proposal_ref : bytes)
  | PendingCommitNotFound
  | MalformedIdentifier (what : string)
  | ClientSignatureNotFound
  | IdentityAlreadyPresent
  | NoProvisionalIdentityFound
  | TooManyIdentitiesPresent
  | CcLockPoisonError
  | ImplementationError
  | CredentialBundleConflict
  | ConsumerError
  | MlsProviderError (e : ext_error)
  | KeyStoreError (e : CryptoKeystoreError)
  | MlsErrorC (e : MlsError)
  | Utf8Error
  | StringUtf8Error
  | ParseIntError
  | ConvertIntError
  | HexDecodeError
  | InvalidByteArrayError (size : Z)
  | CcIoError
  | Unauthorized
  | CallbacksNotSet
  | UnauthorizedExternalAddProposal
  | UnauthorizedExternalCommit
  | InvalidHashReference
  | DecryptionError
  | WrongEpoch
  | BufferedFutureMessage
  | ProteusErrorC (e : ProteusError)
  | CryptoboxMigrationErrorC (e : CryptoboxMigrationError)
  | ProteusNotInitialized
  | ProteusSupportNotEnabled (feature : string)
  | MlsNotInitialized
  | InvalidKeyPackage
  | InvalidIdentity
  | IdentityInitializationError
  | ParentGroupNotFound
  | MessageEpochTooOld
  | E2eiEnrollmentNotDone
  | CredentialNotFound (ct : MlsCredentialType)
  | InternalMlsError
  | DuplicateMessage
  | ClearingPendingCommitError
  | SelfCommitIgnored
  | UnmergedPendingGroup
  | X509CertDerError (e : ext_error)
  | PemError (e : ext_error)
  | DomainNameNotFound
  | DomainNamesDontMatch
  | DuplicateDomainName
  | InvalidCertificateChain
  | EmptyTrustAnchorUpdate
  | DuplicateCertificateChain
  | OrphanWelcome
  | InvalidClientId
  | JsonError (e : ext_error)
  | StaleCommit
  | StaleProposal
  | MissingExternalSenderExtension.

#[export] Instance CryptoError_eq_dec : EqDecision CryptoError.
Proof. solve_decision. Defined.

(** [impl From<MlsError> for CryptoError] *)
Definition CryptoError_from_MlsError (err : MlsError) : CryptoError :=
  match err with
  | MlsAddMembersError AuthenticationServiceInvalid => InvalidIdentity
  | e => MlsErrorC e
  end.

(** [CryptoError::proteus_error_code] *)
Definition CryptoError_proteus_error_code (self : CryptoError) : Z :=
  match self with
  | ProteusErrorC e => ProteusError_error_code e
  | _ => 0
  end.

Abbreviation CryptoResult := (result CryptoError).
