(* ===== verification/Ids.v ===== *)
(** * Identifiers of clients and users

    [crypto/src/mls/client/id.rs], [client/user_id.rs] and [crypto/src/e2e_identity/id.rs]: client
    ids and their hexadecimal text, the user part of an id, and the two notations of a qualified
    client id: [<base64 of the uuid>:<device>@<domain>] in credentials and
    [<hyphenated uuid>:<device>@<domain>] for the application. *)

From S2P Require Import Prelude KsError CcError.
Open Scope Z_scope.

Definition COLON : Byte.byte := byte_of 58.
Definition is_colon (b : Byte.byte) : bool := Byte.eqb b COLON.

(** ** The codecs

    Base64 (URL alphabet, no padding) is the crate [base64], UUIDs are the crate [uuid] and
    hexadecimal the crate [hex]. The laws are what their documentation promises: decoding
    undoes encoding, only the canonical base64 text decodes, and encodings are free of [':']. *)

Class IdCodecs := {
  base64_encode : bytes -> bytes;
  base64_decode : bytes -> option bytes;
  uuid_parse : bytes -> option bytes;              (* [str::parse::<Uuid>] *)
  uuid_hyphenated : bytes -> bytes;                (* [hyphenated().encode_lower] *)
  hex_encode : bytes -> bytes;
  hex_decode : bytes -> option bytes;

  base64_decode_encode x : base64_decode (base64_encode x) = Some x;
  base64_encode_decode s x : base64_decode s = Some x -> base64_encode x = s;
  base64_no_colon x : forallb (fun b => negb (is_colon b)) (base64_encode x) = true;
  uuid_parse_hyphenated u : length u = 16%nat -> uuid_parse (uuid_hyphenated u) = Some u;
  uuid_parse_length s u : uuid_parse s = Some u -> length u = 16%nat;
  uuid_no_colon u : forallb (fun b => negb (is_colon b)) (uuid_hyphenated u) = true;
  uuid_utf8 u : utf8_valid (uuid_hyphenated u) = true;
  hex_decode_encode x : hex_decode (hex_encode x) = Some x;
}.

Section ids.
Context `{IdCodecs}.

(** ** [ClientId] *)

Abbreviation ClientId := bytes.

Definition ClientId_fmt (self : ClientId) : bytes := hex_encode self.

(** Hexadecimal text is decoded; any other text stands for itself. *)
Definition ClientId_from_str (s : bytes) : CryptoResult ClientId :=
  Ok (match hex_decode s with Some id => id | None => s end).

(** ** [UserId] *)

(** [Uuid::from_slice] *)
Definition uuid_from_slice (b : bytes) : option bytes :=
  if Nat.eqb (length b) 16 then Some b else None.

Definition UserId_try_from (id : bytes) : CryptoResult bytes :=
  found ← ok_or InvalidClientId (head (splitn2 is_colon id));
  if Nat.eqb (length found) (length id) then Err InvalidClientId else Ok found.

Definition UserId_to_String (uid : bytes) : CryptoResult bytes :=
  if utf8_valid uid then Ok uid else Err Utf8Error.

(** ** The two notations of a qualified id *)

Definition WireQualifiedClientId_try_from (b : bytes) : CryptoResult ClientId :=
  let parts := split is_colon b in
  user_id ← ok_or InvalidClientId (head parts);
  user_id ← ok_or InvalidClientId (base64_decode user_id);
  user_id ← ok_or InvalidClientId (uuid_from_slice user_id);
  let user_id := uuid_hyphenated user_id in
  rest ← ok_or InvalidClientId (parts !! 1%nat);
  match parts !! 2%nat with
  | Some _ => Err InvalidClientId
  | None => Ok (user_id ++ [COLON] ++ rest)
  end.

Definition QualifiedE2eiClientId_try_from (b : bytes) : CryptoResult ClientId :=
  let parts := split is_colon b in
  user_id ← ok_or InvalidClientId (head parts);
  user_id ← (if utf8_valid user_id then Ok user_id else Err Utf8Error);
  user_id ← ok_or InvalidClientId (uuid_parse user_id);
  let user_id := base64_encode user_id in
  rest ← ok_or InvalidClientId (parts !! 1%nat);
  match parts !! 2%nat with
  | Some _ => Err InvalidClientId
  | None => Ok (user_id ++ [COLON] ++ rest)
  end.

Definition QualifiedClientId_to_String (id : ClientId) : CryptoResult bytes :=
  if utf8_valid id then Ok id else Err StringUtf8Error.

(** ** Splitting *)

Definition colon_free (s : bytes) : bool := forallb (fun b => negb (is_colon b)) s.

Lemma is_colon_eq b : is_colon b = true <-> b = COLON.
Proof.
  unfold is_colon. split; [apply Byte.byte_dec_bl|intros ->; by apply Byte.byte_dec_lb].
Qed.

Lemma split_colon_free s : colon_free s = true -> split is_colon s = [s].
Proof.
  induction s as [|b s IH]; simpl; [done|]. intros [Hb Hs]%andb_prop.
  destruct (is_colon b); [done|]. by rewrite IH.
Qed.

Lemma split_cons_colon u s : colon_free u = true ->
  split is_colon (u ++ [COLON] ++ s) = u :: split is_colon s.
Proof.
  induction u as [|b u IH]; simpl; [done|]. intros [Hb Hu]%andb_prop.
  destruct (is_colon b); [done|]. simpl in IH. by rewrite IH.
Qed.

(** A string has two pieces exactly when it has one colon. *)
Lemma split_two s u r : split is_colon s = [u; r] ->
  s = u ++ [COLON] ++ r /\ colon_free u = true /\ colon_free r = true.
Proof.
  assert (forall s u, split is_colon s = [u] -> s = u /\ colon_free u = true) as Hone.
  { clear. induction s as [|b s IH]; intros u; simpl; [by intros [= <-]|].
    destruct (is_colon b) eqn:Hb.
    - intros [= _ Hs]. destruct s as [|c s]; simpl in Hs; [done|].
      destruct (is_colon c), (split is_colon s); done.
    - destruct (split is_colon s) as [|p [|q l]] eqn:Hs; [|intros [= <-]|done].
      { destruct s as [|c s]; simpl in Hs; [done|]. destruct (is_colon c), (split is_colon s); done. }
      destruct (IH p eq_refl) as [-> Hp]. simpl. by rewrite Hb. }
  revert u. induction s as [|b s IH]; intros u; simpl; [done|].
  destruct (is_colon b) eqn:Hb.
  - intros [= <- Hs]. apply Hone in Hs as [-> Hr]. apply is_colon_eq in Hb as ->. done.
  - destruct (split is_colon s) as [|p l] eqn:Hs; [done|]. intros [= <- ->].
    destruct (IH p eq_refl) as (-> & Hp & Hr). simpl. by rewrite Hb.
Qed.

Lemma splitn2_head s : exists r, splitn2 is_colon s = match r with
  | Some r => [take (length s - S (length r)) s; r] | None => [s] end /\
  match r with
  | Some r => s = take (length s - S (length r)) s ++ [COLON] ++ r /\
              colon_free (take (length s - S (length r)) s) = true
  | None => colon_free s = true
  end.
Proof.
  induction s as [|b s IH]; [by exists None|]. cbn [splitn2]. destruct (is_colon b) eqn:Hb.
  - exists (Some s). simpl. rewrite Nat.sub_diag. simpl. apply is_colon_eq in Hb as ->. done.
  - destruct IH as ([r|] & -> & Hr).
    + exists (Some r). destruct Hr as [Hs Hr]. assert (length r < length s)%nat as Hlen.
      { pose proof (f_equal length Hs) as Hl. rewrite length_app in Hl. simpl in Hl. lia. }
      replace (length (b :: s) - S (length r))%nat with (S (length s - S (length r)))
        by (simpl; lia).
      cbn [take colon_free forallb]. rewrite Hb. split; [done|]. split; [|exact Hr].
      cbn [app]. f_equal. exact Hs.
    + exists None. split; [done|]. simpl. by rewrite Hb.
Qed.

(** ** Theorems *)

(** The text of a client id, hexadecimal, reads back as the id. *)
Theorem ClientId_display_from_str (id : ClientId) : ClientId_from_str (ClientId_fmt id) = Ok id.
Proof. unfold ClientId_from_str, ClientId_fmt. by rewrite hex_decode_encode. Qed.

(** The user part of a client id is what stands before its first colon; an id without a
    colon is refused. *)
Theorem UserId_try_from_spec (id : bytes) :
  match UserId_try_from id with
  | Ok uid => exists rest, id = uid ++ [COLON] ++ rest /\ colon_free uid = true
  | Err e => e = InvalidClientId /\ colon_free id = true
  end.
Proof.
  unfold UserId_try_from. destruct (splitn2_head id) as ([r|] & Hs & Hr); rewrite Hs; simpl.
  - destruct Hr as [Hid Hu]. rewrite length_take.
    destruct (Nat.eqb_spec (Init.Nat.min (length id - S (length r)) (length id)) (length id)) as [He|He].
    + exfalso. pose proof (f_equal length Hid) as Hl.
      rewrite length_app, length_take in Hl. simpl in Hl. lia.
    + by exists r.
  - by rewrite Nat.eqb_refl.
Qed.

(** C38: the notations translate into each other: an id in the credentials' notation that is
    accepted is given back by the opposite translation, and so is every id in the application's
    notation written with a lower-case hyphenated uuid. Anything accepted has exactly one colon. *)
Theorem qualified_client_id_roundtrip :
  (forall s id, WireQualifiedClientId_try_from s = Ok id ->
     QualifiedE2eiClientId_try_from id = Ok s) /\
  (forall u rest, length u = 16%nat -> colon_free rest = true ->
     exists s, QualifiedE2eiClientId_try_from (uuid_hyphenated u ++ [COLON] ++ rest) = Ok s /\
       WireQualifiedClientId_try_from s = Ok (uuid_hyphenated u ++ [COLON] ++ rest)) /\
  (forall s id, WireQualifiedClientId_try_from s = Ok id \/
                QualifiedE2eiClientId_try_from s = Ok id ->
     exists u rest, s = u ++ [COLON] ++ rest /\ colon_free u = true /\ colon_free rest = true).
Proof.
  split_and!.
  - intros s id. unfold WireQualifiedClientId_try_from.
    destruct (split is_colon s) as [|u [|r [|? ?]]] eqn:Hs; simpl; try done;
      destruct (base64_decode u) as [x|] eqn:Hx; try done; simpl;
      unfold uuid_from_slice; destruct (Nat.eqb_spec (length x) 16); try done; simpl.
    intros [= <-]. apply split_two in Hs as (-> & Hu & Hr).
    unfold QualifiedE2eiClientId_try_from. change (?a ++ COLON :: ?b) with (a ++ [COLON] ++ b).
    rewrite split_cons_colon, split_colon_free by (done || apply uuid_no_colon). simpl.
    rewrite uuid_utf8. simpl. rewrite uuid_parse_hyphenated by done. simpl.
    by rewrite (base64_encode_decode _ _ Hx).
  - intros u rest Hu Hr. exists (base64_encode u ++ [COLON] ++ rest).
    unfold QualifiedE2eiClientId_try_from, WireQualifiedClientId_try_from.
    rewrite !split_cons_colon, !split_colon_free
      by (done || apply uuid_no_colon || apply base64_no_colon). simpl.
    rewrite uuid_utf8. simpl. rewrite uuid_parse_hyphenated by done. simpl. split; [done|].
    rewrite base64_decode_encode. simpl. unfold uuid_from_slice. by rewrite Hu.
  - intros s id Hs. assert (exists u r, split is_colon s = [u; r]) as (u & r & Hsp).
    { destruct Hs as [Hs|Hs]; revert Hs.
      - unfold WireQualifiedClientId_try_from.
        destruct (split is_colon s) as [|u [|r [|? ?]]]; simpl; try done; try (by eauto);
          destruct (base64_decode u) as [x|]; simpl; try done;
          destruct (uuid_from_slice x); done.
      - unfold QualifiedE2eiClientId_try_from.
        destruct (split is_colon s) as [|u [|r [|? ?]]]; simpl; try done; try (by eauto);
          destruct (utf8_valid u); simpl; try done; destruct (uuid_parse u); done. }
    apply split_two in Hsp as (-> & Hu & Hr). by exists u, r.
Qed.
End ids.

(** ** Concrete codecs

    Lower-case hexadecimal stands for all three codecs: it satisfies every law. *)

Definition hex_digit (n : Z) : Byte.byte := byte_of (if Z.ltb n 10 then n + 48 else n + 87).

Definition hex_value (b : Byte.byte) : option Z :=
  if in_range 48 57 b then Some (byte_val b - 48)
  else if in_range 97 102 b then Some (byte_val b - 87)
  else None.

Fixpoint lower_hex (s : bytes) : bytes :=
  match s with
  | [] => []
  | b :: s => hex_digit (byte_val b / 16) :: hex_digit (byte_val b mod 16) :: lower_hex s
  end.

Fixpoint of_lower_hex (s : bytes) : option bytes :=
  match s with
  | [] => Some []
  | a :: b :: s => x ← hex_value a; y ← hex_value b; l ← of_lower_hex s; Some (byte_of (16 * x + y) :: l)
  | _ => None
  end.

Lemma hex_digits b :
  hex_value (hex_digit (byte_val b / 16)) = Some (byte_val b / 16) /\
  hex_value (hex_digit (byte_val b mod 16)) = Some (byte_val b mod 16) /\
  byte_of (16 * (byte_val b / 16) + byte_val b mod 16) = b /\
  (forall c, c = hex_digit (byte_val b / 16) \/ c = hex_digit (byte_val b mod 16) ->
     in_range 0 127 c = true /\ is_colon c = false).
Proof.
  split_and!.
  - apply (bool_decide_unpack (hex_value (hex_digit (byte_val b / 16)) = Some (byte_val b / 16))),
      Is_true_true. revert b. apply byte_check. by vm_compute.
  - apply (bool_decide_unpack (hex_value (hex_digit (byte_val b mod 16)) = Some (byte_val b mod 16))),
      Is_true_true. revert b. apply byte_check. by vm_compute.
  - apply (bool_decide_unpack (byte_of (16 * (byte_val b / 16) + byte_val b mod 16) = b)),
      Is_true_true. revert b. apply byte_check. by vm_compute.
  - assert (let ok c := in_range 0 127 c && negb (is_colon c) in
            ok (hex_digit (byte_val b / 16)) && ok (hex_digit (byte_val b mod 16)) = true) as Hb.
    { revert b. apply (byte_check (fun b => let ok c := in_range 0 127 c && negb (is_colon c) in
            ok (hex_digit (byte_val b / 16)) && ok (hex_digit (byte_val b mod 16)))). by vm_compute. }
    apply andb_prop in Hb as [[H1 H2]%andb_prop [H3 H4]%andb_prop].
    apply negb_true_iff in H2, H4. by intros c [->| ->].
Qed.

Lemma hex_digit_value a u : hex_value a = Some u -> hex_digit u = a /\ 0 <= u < 16.
Proof.
  intros Ha. assert (match hex_value a with
    | Some u => Byte.eqb (hex_digit u) a && Z.leb 0 u && Z.ltb u 16 | None => true end = true) as Hc.
  { clear. revert a. apply (byte_check (fun a => match hex_value a with
    | Some u => Byte.eqb (hex_digit u) a && Z.leb 0 u && Z.ltb u 16 | None => true end)).
    by vm_compute. }
  rewrite Ha in Hc. apply andb_prop in Hc as [[Hd%Byte.byte_dec_bl Hl]%andb_prop Hu].
  split; [done|lia].
Qed.

Lemma of_lower_hex_lower_hex s : of_lower_hex (lower_hex s) = Some s.
Proof.
  induction s as [|b s IH]; [done|]. cbn [lower_hex of_lower_hex].
  destruct (hex_digits b) as (-> & -> & Hb & _). simpl. rewrite IH. simpl. by rewrite Hb.
Qed.

Lemma lower_hex_of_lower_hex s x : of_lower_hex s = Some x -> lower_hex x = s.
Proof.
  revert x. induction s as [s IH] using (induction_ltof1 _ length). unfold ltof in IH. intros x.
  destruct s as [|a [|b s]]; simpl; [by intros [= <-]|done|].
  destruct (hex_value a) as [u|] eqn:Ha; [|done]. destruct (hex_value b) as [v|] eqn:Hb; [|done].
  simpl. destruct (of_lower_hex s) as [l|] eqn:Hl; [|done]. intros [= <-].
  apply hex_digit_value in Ha as [Ha Hu], Hb as [Hb Hv]. cbn [lower_hex].
  rewrite byte_val_of, Z.mod_small by lia.
  rewrite (Z.mul_comm 16), Z.div_add_l, (Z.div_small v), Z.add_0_r by lia.
  rewrite Z.add_comm, Z.mod_add, Z.mod_small by lia. rewrite Ha, Hb. f_equal. f_equal.
  apply IH; [simpl; lia|done].
Qed.

Lemma lower_hex_free s : colon_free (lower_hex s) = true /\ utf8_valid (lower_hex s) = true.
Proof.
  induction s as [|b s [IH1 IH2]]; [done|].
  destruct (hex_digits b) as (_ & _ & _ & Hd).
  destruct (Hd _ (or_introl eq_refl)) as [H1 H2], (Hd _ (or_intror eq_refl)) as [H3 H4].
  cbn [lower_hex utf8_valid colon_free forallb]. fold (colon_free (lower_hex s)).
  by rewrite H1, H2, H3, H4, IH1.
Qed.

Definition hex_uuid_parse (s : bytes) : option bytes :=
  x ← of_lower_hex s; if Nat.eqb (length x) 16 then Some x else None.

Lemma hex_uuid_parse_hyphenated u : length u = 16%nat -> hex_uuid_parse (lower_hex u) = Some u.
Proof. intros Hu. unfold hex_uuid_parse. rewrite of_lower_hex_lower_hex. simpl. by rewrite Hu. Qed.

Lemma hex_uuid_parse_length s u : hex_uuid_parse s = Some u -> length u = 16%nat.
Proof.
  unfold hex_uuid_parse. destruct (of_lower_hex s) as [x|]; simpl; [|done].
  destruct (Nat.eqb_spec (length x) 16); [|done]. by intros [= <-].
Qed.

#[export] Instance example_codecs : IdCodecs := {|
  base64_encode := lower_hex;
  base64_decode := of_lower_hex;
  uuid_parse := hex_uuid_parse;
  uuid_hyphenated := lower_hex;
  hex_encode := lower_hex;
  hex_decode := of_lower_hex;
  base64_decode_encode := of_lower_hex_lower_hex;
  base64_encode_decode := lower_hex_of_lower_hex;
  base64_no_colon x := proj1 (lower_hex_free x);
  uuid_parse_hyphenated := hex_uuid_parse_hyphenated;
  uuid_parse_length := hex_uuid_parse_length;
  uuid_no_colon u := proj1 (lower_hex_free u);
  uuid_utf8 u := proj2 (lower_hex_free u);
  hex_decode_encode := of_lower_hex_lower_hex;
|}.

Lemma ClientId_display_from_str_witness :
  ClientId_from_str (ascii_bytes "616c696365") = Ok (ascii_bytes "alice").
Proof. exact (ClientId_display_from_str (ascii_bytes "alice")). Defined.

Lemma qualified_client_id_roundtrip_witness :
  let u := ascii_bytes "0123456789abcdef" in
  WireQualifiedClientId_try_from (lower_hex u ++ ascii_bytes ":4959bc6ab12f2846@wire.com") =
    Ok (lower_hex u ++ ascii_bytes ":4959bc6ab12f2846@wire.com") /\
  QualifiedE2eiClientId_try_from (lower_hex u ++ ascii_bytes ":4959bc6ab12f2846@wire.com") =
    Ok (lower_hex u ++ ascii_bytes ":4959bc6ab12f2846@wire.com").
Proof.
  assert (WireQualifiedClientId_try_from (lower_hex (ascii_bytes "0123456789abcdef") ++
    ascii_bytes ":4959bc6ab12f2846@wire.com") =
    Ok (lower_hex (ascii_bytes "0123456789abcdef") ++ ascii_bytes ":4959bc6ab12f2846@wire.com"))
    as Hw by (vm_compute; reflexivity).
  split; [exact Hw|]. exact (proj1 qualified_client_id_roundtrip _ _ Hw).
Defined.
