(* ===== verification/Backend.v ===== *)
(** * The crypto provider, and computations over it

    [MlsCryptoProvider] of [mls-provider/src/lib.rs]: the key store, the random generator and the
    PKI environment that every operation of the crypto crate is given as [backend]; the type of
    computations of the crypto crate, which can return an error, panic or wait for ever on a
    lock; and how a call of the key store is made from there. *)

From S2P Require Import Prelude KsError Sql SqlSpec Entity TableFrame Keystore CcError.
Open Scope Z_scope.

(** ** Computations

    The state is kept when a computation stops: Rust has no rollback. [?] passes every stop on;
    [.ok()], [.is_ok()] and a [match] on the result only see errors. *)

Inductive Stop : Set :=
  | Throw (e : CryptoError)
  | Panic
  | Deadlock.

#[export] Instance Stop_eq_dec : EqDecision Stop.
Proof. solve_decision. Defined.

Abbreviation cc S A := (stm S Stop A).

Definition throw {S A} (e : CryptoError) : cc S A := st_fail (Throw e).

(** [result?] and [option.ok_or(e)?] *)
Definition lift_res {S A} (r : CryptoResult A) : cc S A := st_lift (map_err Throw r).
Definition some_or {S A} (e : CryptoError) (o : option A) : cc S A := lift_res (ok_or e o).

(** [option.unwrap()] *)
Definition unwrap {S A} (o : option A) : cc S A := fun s =>
  match o with Some a => (Ok a, s) | None => (Err Panic, s) end.

(** The result of a call, for the code to look at. *)
Definition attempt {S A} (m : cc S A) : cc S (CryptoResult A) := fun s =>
  match m s with
  | (Ok a, s') => (Ok (Ok a), s')
  | (Err (Throw e), s') => (Ok (Err e), s')
  | (Err stop, s') => (Err stop, s')
  end.

(** A computation on a part of the state. *)
Definition on {S T A} (get : S -> T) (set : T -> S -> S) (m : cc T A) : cc S A := fun s =>
  let (r, t) := m (get s) in (r, set t s).

Lemma on_ok {S T A} get set (m : cc T A) (s : S) a t :
  m (get s) = (Ok a, t) -> on get set m s = (Ok a, set t s).
Proof. unfold on. by intros ->. Qed.

Lemma on_err {S T A} get set (m : cc T A) (s : S) e t :
  m (get s) = (Err e, t) -> on get set m s = (Err e, set t s).
Proof. unfold on. by intros ->. Qed.

Lemma on_inv {S T A} get set (m : cc T A) (s s' : S) r :
  on get set m s = (r, s') -> exists t, m (get s) = (r, t) /\ s' = set t s.
Proof. unfold on. destruct (m (get s)) as [r' t]. intros [= <- <-]. by eexists. Qed.

(** ** What a computation respects

    [within R m]: whatever [m] answers, the states before and after it are related by [R]. *)

Definition within {S} (R : relation S) {A} (m : cc S A) : Prop :=
  forall s r s', m s = (r, s') -> R s s'.

Section within.
Context {S : Type} (R : relation S) `{!PreOrder R}.

Lemma within_pure {A} (f : S -> result Stop A) : within R (fun s => (f s, s)).
Proof. intros s r s' [= _ <-]. reflexivity. Qed.

Lemma within_ret {A} (a : A) : within R (mret a).
Proof. apply (within_pure (fun _ => Ok a)). Qed.
Lemma within_fail {A} (e : Stop) : within R (st_fail e : cc _ A).
Proof. apply (within_pure (fun _ => Err e)). Qed.
Lemma within_lift {A} (r : CryptoResult A) : within R (lift_res r).
Proof. apply (within_pure (fun _ => map_err Throw r)). Qed.
Lemma within_some_or {A} e (o : option A) : within R (some_or e o).
Proof. apply within_lift. Qed.
Lemma within_unwrap {A} (o : option A) : within R (unwrap o).
Proof. destruct o; [apply within_ret|apply (within_fail Panic)]. Qed.
Lemma within_bind {A B} (m : cc S A) (f : A -> cc S B) :
  within R m -> (forall a, within R (f a)) -> within R (m ≫= f).
Proof.
  intros Hm Hf s r s'. unfold mbind, stm_bind. destruct (m s) as [[a|e] s1] eqn:Hx.
  - intros Hy. etrans; [by eapply Hm|by eapply Hf].
  - intros [= _ <-]. by eapply Hm.
Qed.

Lemma within_attempt {A} (m : cc S A) : within R m -> within R (attempt m).
Proof.
  intros Hm s r s'. unfold attempt. destruct (m s) as [r1 s1] eqn:Hx. apply Hm in Hx.
  destruct r1 as [|[| |]]; by intros [= _ <-].
Qed.

Lemma within_st_map {A B} (f : A -> cc S B) l :
  (forall a, within R (f a)) -> within R (st_map f l).
Proof.
  intros Hf. induction l as [|a l IH]; simpl; [apply within_ret|].
  repeat (apply within_bind; [done|intros ?]). apply within_ret.
Qed.

Lemma within_st_iter {A} (f : A -> cc S ()) l :
  (forall a, within R (f a)) -> within R (st_iter f l).
Proof.
  intros Hf. induction l as [|a l IH]; simpl; [apply within_ret|]. apply within_bind; [done|].
  intros _. done.
Qed.

Lemma within_modify (f : S -> S) : (forall s, R s (f s)) -> within R (st_modify f).
Proof. by intros Hf s r s' [= _ <-]. Qed.
End within.

(** A computation on a part of the state. *)
Lemma within_on {S T A} (R : relation S) (Q : relation T) get set (m : cc T A) :
  within Q m -> (forall s t, Q (get s) t -> R s (set t s)) -> within R (on get set m).
Proof. intros Hm Hq s r s' (t & Hx & ->)%on_inv. apply Hq. by eapply Hm. Qed.

Create HintDb within.
#[export] Hint Resolve within_ret within_fail within_lift within_some_or within_unwrap : within.
#[export] Hint Extern 0 (PreOrder _) => typeclasses eauto : within.

Ltac solve_within :=
  repeat match goal with
  | |- forall _, _ => intros ?
  | |- PreOrder _ => typeclasses eauto
  | |- within _ (_ ≫= _) => apply within_bind
  | |- within _ (st_iter _ _) => apply within_st_iter
  | |- within _ (st_map _ _) => apply within_st_map
  | |- within _ (attempt _) => apply within_attempt
  | |- within _ (throw _) => apply within_fail
  | |- within _ (let _ := _ in _) => cbv zeta
  | |- within _ (match ?x with _ => _ end) => destruct x
  | |- within _ _ => solve [eauto with within nocore]
  end.

(** ** The provider *)

(** The PKI environment is [wire_e2e_identity]'s, the random generator ChaCha20's. *)
Class Provider := {
  Rng : Type;
  PkiEnvironment : Type;
  debug_assertions_on : bool;    (* was the crate compiled with [debug_assertions]? *)
}.

Section provider.
Context `{SqlEngine, Provider}.

Record MlsCryptoProvider := MkProvider {
  crypto_rng : Rng;
  key_store : conn;
  pki_env : option PkiEnvironment;
}.

Definition set_key_store (c : conn) (b : MlsCryptoProvider) : MlsCryptoProvider :=
  MkProvider (crypto_rng b) c (pki_env b).

(** A call of the key store: its error becomes [CryptoError::KeyStoreError] by [?]. *)
Definition ks {A} (p : prog A) : cc MlsCryptoProvider A :=
  on key_store set_key_store (st_map_err (fun e => Throw (KeyStoreError e)) (exec_prog p)).

(** [PkiEnvironmentProvider::is_env_setup] and [update_env] *)
Definition is_env_setup (b : MlsCryptoProvider) : bool := bool_decide (is_Some (pki_env b)).

Definition update_env (env : PkiEnvironment) (b : MlsCryptoProvider) : MlsCryptoProvider :=
  MkProvider (crypto_rng b) (key_store b) (Some env).

(** On a healthy engine a call does what the program means. *)
Lemma ks_ok {A} (p : prog A) b a v' :
  healthy (key_store b) -> run p (conn_view (key_store b)) = (Ok a, v') ->
  exists c', ks p b = (Ok a, set_key_store c' b) /\ conn_view c' = v' /\ healthy c'.
Proof.
  intros Hb Hr. destruct (exec_prog_run _ _ _ _ Hb Hr) as (c' & Hx & Hv & Hc).
  exists c'. split; [|done]. unfold ks. apply on_ok. unfold st_map_err. by rewrite Hx.
Qed.

Lemma ks_err {A} (p : prog A) b e v' :
  healthy (key_store b) -> run p (conn_view (key_store b)) = (Err e, v') ->
  exists c', ks p b = (Err (Throw (KeyStoreError e)), set_key_store c' b) /\
    conn_view c' = v' /\ healthy c'.
Proof.
  intros Hb Hr. destruct (exec_prog_run _ _ _ _ Hb Hr) as (c' & Hx & Hv & Hc).
  exists c'. split; [|done]. unfold ks. apply on_err. unfold st_map_err. by rewrite Hx.
Qed.

(** ** What a step may do to the tables

    [tables ts b b']: the tables named in [ts] are the same in [b'] as in [b], no transaction is
    left open, and a healthy engine stays healthy. *)
Definition tables (ts : list string) (b b' : MlsCryptoProvider) : Prop :=
  healthy (key_store b) -> v_tx (conn_view (key_store b)) = None ->
  healthy (key_store b') /\ v_tx (conn_view (key_store b')) = None /\
  forall t, t ∈ ts ->
    v_db (conn_view (key_store b')) !! t = v_db (conn_view (key_store b)) !! t.

Lemma tables_refl ts b : tables ts b b.
Proof. by intros Hh Htx. Qed.

Lemma tables_trans ts b1 b2 b3 : tables ts b1 b2 -> tables ts b2 b3 -> tables ts b1 b3.
Proof.
  intros H1 H2 Hh Htx. destruct (H1 Hh Htx) as (Hh2 & Htx2 & E2).
  destruct (H2 Hh2 Htx2) as (Hh3 & Htx3 & E3). split_and!; [done..|].
  intros t Ht. by rewrite E3, E2.
Qed.

Lemma tables_sub ts ts' b b' : ts' ⊆ ts -> tables ts b b' -> tables ts' b b'.
Proof. intros Hs Ht Hh Htx. destruct (Ht Hh Htx) as (? & ? & Heq). split_and!; auto. Qed.

(** A program of the key store that works on another table. *)
Lemma ks_frame t ts {A} (p : prog A) b r b' :
  only t p -> closes p -> t ∉ ts -> ks p b = (r, b') -> tables ts b b'.
Proof.
  intros Ho Hcl Hts (c & Hx & ->)%on_inv Hh Htx. unfold st_map_err in Hx.
  destruct (run p (conn_view (key_store b))) as [r0 v'] eqn:Hr.
  destruct (exec_prog_run _ _ _ _ Hh Hr) as (c' & Hx' & Hv & Hc). rewrite Hx' in Hx.
  injection Hx as _ <-. simpl. rewrite Hv.
  destruct (run_frame _ _ _ _ _ Ho Hcl Htx Hr) as [Htx' Heq]. split_and!; [done..|].
  intros t' Ht'. apply Heq. by intros ->.
Qed.

(** A table that is untouched represents the same entities. *)
Lemma tables_rep {E} (ly : layout E) ts b b' l :
  healthy (key_store b) -> rep ly (conn_view (key_store b)) l -> tables ts b b' ->
  ly_table ly ∈ ts ->
  healthy (key_store b') /\ rep ly (conn_view (key_store b')) l.
Proof.
  intros Hh (k & (Htx & Ht & Hk) & ->) Hts Hin. destruct (Hts Hh Htx) as (Hh' & Htx' & Heq).
  split; [done|]. exists k. split; [|done]. split; [done|]. by rewrite Heq.
Qed.

(** ** Saving an entity *)

Lemma rep_same_table {E} (ly : layout E) v v' l :
  rep ly v l -> v_tx v' = None -> v_db v' !! ly_table ly = v_db v !! ly_table ly -> rep ly v' l.
Proof.
  intros (k & (_ & Ht & Hk) & ->) Htx Heq. exists k. split; [|done]. split; [done|].
  split; [|done]. by rewrite Heq.
Qed.

(** A call, whatever its program answers: only the connection moves on. *)
Lemma ks_run {A} (p : prog A) b r v' :
  healthy (key_store b) -> run p (conn_view (key_store b)) = (r, v') ->
  exists c, ks p b = (map_err (fun e => Throw (KeyStoreError e)) r, set_key_store c b) /\
    conn_view c = v' /\ healthy c.
Proof.
  intros Hb Hr. destruct r as [a|e]; [by apply ks_ok|by apply ks_err].
Qed.

(** The entity is put in its place, or is too big and nothing happens; the other tables, and
    everything that is not in the store, stay. *)
Lemma ks_save `{UpsertLaws E} b l (e : E) r b' :
  healthy (key_store b) -> rep el_layout (conn_view (key_store b)) l ->
  ks (Connection_save e) b = (r, b') ->
  exists c, b' = set_key_store c b /\ healthy c /\
    (forall t, t <> ly_table (el_layout (E := E)) ->
       v_db (conn_view c) !! t = v_db (conn_view (key_store b)) !! t) /\
    (r = Ok e /\ rep el_layout (conn_view c) (upsert (with_key (el_key e)) (el_stored e) l) \/
     r = Err (Throw (KeyStoreError BlobTooBig)) /\ conn_view c = conn_view (key_store b)).
Proof.
  intros Hh Hl Hx. destruct (ul_fits e) eqn:Hf.
  - destruct (Connection_save_run _ _ _ Hl Hf) as (v' & Hr & (Hrep & Hother & _)).
    destruct (ks_run _ _ _ _ Hh Hr) as (c & Hk & <- & Hc). rewrite Hk in Hx.
    injection Hx as <- <-. exists c. split_and!; [done..|by left].
  - pose proof (ul_save_big _ _ _ Hl Hf) as Hr.
    assert (run (Connection_save e) (conn_view (key_store b)) = (Err BlobTooBig, conn_view (key_store b)))
      as Hr' by (unfold Connection_save; by rewrite (run_bind_err _ _ _ _ _ Hr)).
    destruct (ks_run _ _ _ _ Hh Hr') as (c & Hk & Hv & Hc). rewrite Hk in Hx. injection Hx as <- <-.
    exists c. split_and!; [done..|by rewrite Hv|by right].
Qed.
End provider.

#[export] Hint Resolve tables_refl : core.
