(* ===== verification/GroupStore.v ===== *)
(** * The group store

    [crypto/src/group_store.rs]: the conversations and sessions that are in memory, in a cache
    that forgets the least recently used ones, above the key store. What is in memory is shared:
    a value is behind an [Arc<RwLock<_>>], the cache and the callers hold the same one. The
    cache itself is the crate [schnellru]. *)

From S2P Require Import Prelude KsError Sql SqlSpec Entity CcError Backend.
Open Scope Z_scope.

(** An [Arc]: the number of a cell. *)
Abbreviation Arc := nat.

(** ** [schnellru] *)

(** The trait [Limiter], for keys of bytes and values that are [Arc]s. *)
Record Limiter := MkLimiter {
  is_over_the_limit : Z -> bool;
  on_insert : Z -> bytes -> Arc -> option (bytes * Arc);
  on_replace : Z -> bytes -> bytes -> Arc -> Arc -> bool;
  on_grow : Z -> bool;
}.

(** The limiters the crate comes with, and the size of the memory that [sysinfo] tells. *)
Class SchnellruLimits := {
  ByLength : Type;
  ByLength_new : Z -> ByLength;
  ByLength_limiter : ByLength -> Limiter;
  ByMemoryUsage : Type;
  ByMemoryUsage_new : Z -> ByMemoryUsage;
  ByMemoryUsage_limiter : ByMemoryUsage -> Limiter;
  available_memory : Z;
}.

Class Schnellru := {
  LruMap : Type;
  lru_new : Limiter -> LruMap;
  lru_peek : bytes -> LruMap -> option Arc;
  lru_get : bytes -> LruMap -> option Arc * LruMap;
  lru_insert : bytes -> Arc -> LruMap -> bool * LruMap;
  lru_try_insert : bytes -> Arc -> LruMap -> bool * LruMap;
  lru_remove : bytes -> LruMap -> option Arc * LruMap;
}.

(** What is relied on: a cache is a finite map that an insertion may take other entries out of,
    and that is never over the limit of its length. *)
Class SchnellruLaws `{SchnellruLimits, Schnellru} := {
  lru_contents : LruMap -> gmap bytes Arc;
  lru_limiter : LruMap -> Limiter;
  ByLength_over n len : is_over_the_limit (ByLength_limiter (ByLength_new n)) len = Z.ltb n len;
  lru_new_contents l : lru_contents (lru_new l) = ∅;
  lru_new_limiter l : lru_limiter (lru_new l) = l;
  lru_peek_contents k m : lru_peek k m = lru_contents m !! k;
  lru_get_contents k m : (lru_get k m).1 = lru_contents m !! k /\
    lru_contents (lru_get k m).2 = lru_contents m /\ lru_limiter (lru_get k m).2 = lru_limiter m;
  lru_insert_contents k a m : let (ok, m') := lru_insert k a m in
    lru_contents m' ⊆ <[k := a]> (lru_contents m) /\
    lru_contents m' !! k = (if ok then Some a else None) /\ lru_limiter m' = lru_limiter m;
  (** only an insertion that would be over the limit takes anything out or is refused, and one
      that is not refused gets below the limit *)
  lru_insert_limit k a m : let (ok, m') := lru_insert k a m in
    is_over_the_limit (lru_limiter m) (Z.of_nat (size (lru_contents m))) = false ->
    is_over_the_limit (lru_limiter m) (Z.of_nat (size (lru_contents m'))) = false;
  lru_try_insert_contents k a m : let (ok, m') := lru_try_insert k a m in
    lru_contents m' = (if ok then <[k := a]> (lru_contents m) else lru_contents m) /\
    lru_limiter m' = lru_limiter m;
  lru_try_insert_limit k a m : let (ok, m') := lru_try_insert k a m in
    is_over_the_limit (lru_limiter m) (Z.of_nat (size (lru_contents m))) = false ->
    is_over_the_limit (lru_limiter m) (Z.of_nat (size (lru_contents m'))) = false;
  lru_remove_contents k m : (lru_remove k m).1 = lru_contents m !! k /\
    lru_contents (lru_remove k m).2 = delete k (lru_contents m) /\
    lru_limiter (lru_remove k m).2 = lru_limiter m;
}.

(** ** [HybridMemoryLimiter] *)

Definition MEMORY_LIMIT : Z := 100000000.
Definition ITEM_LIMIT : Z := 100.

Section limiter.
Context `{SchnellruLimits}.

Record HybridMemoryLimiter := MkHybrid { hl_mem : ByMemoryUsage; hl_len : ByLength }.

Definition HybridMemoryLimiter_new (count memory : option Z) : HybridMemoryLimiter :=
  let maybe_memory_limit := match memory with
    | Some m => Some m
    | None =>
        let available_sys_memory := available_memory in
        if Z.ltb 0 available_sys_memory then Some available_sys_memory else None
    end in
  let mem := ByMemoryUsage_new (default MEMORY_LIMIT maybe_memory_limit) in
  let len := ByLength_new (default ITEM_LIMIT count) in
  MkHybrid mem len.

Definition HybridMemoryLimiter_default : HybridMemoryLimiter := HybridMemoryLimiter_new None None.

(** [impl Limiter for HybridMemoryLimiter]; [on_removed] and [on_cleared] do nothing. *)
Definition HybridMemoryLimiter_limiter (self : HybridMemoryLimiter) : Limiter := {|
  is_over_the_limit := is_over_the_limit (ByLength_limiter (hl_len self));
  on_insert := on_insert (ByLength_limiter (hl_len self));
  on_replace := fun _ _ _ _ _ => true;
  on_grow := on_grow (ByMemoryUsage_limiter (hl_mem self));
|}.
End limiter.

(** ** [GroupStoreEntity]

    [None] as the id is an [unreachable!()]. *)
Class GroupStoreEntity `{SqlEngine} (V : Type) := {
  IdentityType : Type;
  gse_id : V -> option bytes;
  fetch_from_id : bytes -> option IdentityType -> cc conn (option V);
  fetch_all : cc conn (list V);
}.


(** A program of the key store on its connection, as [?] passes its error on. *)
Definition on_conn `{SqlEngine} {A} (p : prog A) : cc conn A :=
  st_map_err (fun e => Throw (KeyStoreError e)) (exec_prog p).

Lemma on_conn_run `{SqlEngine} {A} (p : prog A) (cn : conn) r v' :
  healthy cn -> run p (conn_view cn) = (r, v') ->
  exists cn', on_conn p cn = (map_err (fun e => Throw (KeyStoreError e)) r, cn') /\
    conn_view cn' = v' /\ healthy cn'.
Proof.
  intros Hb Hr. destruct (exec_prog_run _ _ _ _ Hb Hr) as (c' & Hx & Hv & Hc). exists c'.
  split; [|done]. unfold on_conn, st_map_err. by rewrite Hx.
Qed.

Section group_store.
Context `{SqlEngine, SchnellruLimits, Schnellru} {V : Type} `{!GroupStoreEntity V}.

(** The cache, and the cells that were ever made. *)
Record GroupStore := MkGroupStore { gs_lru : LruMap; gs_cells : list V }.

Definition GroupStore_new (count memory : option Z) (cells : list V) : GroupStore :=
  let limiter := HybridMemoryLimiter_new count memory in
  MkGroupStore (lru_new (HybridMemoryLimiter_limiter limiter)) cells.

Definition GroupStore_new_with_limit (len : Z) (cells : list V) : GroupStore :=
  let limiter := HybridMemoryLimiter_new (Some len) None in
  MkGroupStore (lru_new (HybridMemoryLimiter_limiter limiter)) cells.

Definition GroupStore_default (cells : list V) : GroupStore :=
  MkGroupStore (lru_new (HybridMemoryLimiter_limiter HybridMemoryLimiter_default)) cells.

(** [Arc::new(RwLock::new(v))] *)
Definition arc_new (v : V) (self : GroupStore) : Arc * GroupStore :=
  (length (gs_cells self), MkGroupStore (gs_lru self) (gs_cells self ++ [v])).

(** What is behind a lock, read and written. *)
Definition arc_read (a : Arc) (self : GroupStore) : option V := gs_cells self !! a.
Definition arc_write (a : Arc) (v : V) (self : GroupStore) : GroupStore :=
  MkGroupStore (gs_lru self) (<[a := v]> (gs_cells self)).

Definition set_lru (m : LruMap) (self : GroupStore) : GroupStore := MkGroupStore m (gs_cells self).

Definition contains_key (k : bytes) (self : GroupStore) : bool :=
  bool_decide (is_Some (lru_peek k (gs_lru self))).

Definition insert_prepped (k : bytes) (prepped_entity : Arc) (self : GroupStore) : GroupStore :=
  set_lru (lru_insert k prepped_entity (gs_lru self)).2 self.

Definition gs_insert (k : bytes) (entity : V) (self : GroupStore) : GroupStore :=
  let (value_to_insert, self) := arc_new entity self in
  insert_prepped k value_to_insert self.

(** The value is given back when it is refused. *)
Definition gs_try_insert (k : bytes) (entity : V) (self : GroupStore) : result V () * GroupStore :=
  let (value_to_insert, self) := arc_new entity self in
  let (ok, lru) := lru_try_insert k value_to_insert (gs_lru self) in
  (if ok : bool then Ok () else Err entity, set_lru lru self).

Definition gs_remove (k : bytes) (self : GroupStore) : option Arc * GroupStore :=
  let (o, lru) := lru_remove k (gs_lru self) in (o, set_lru lru self).

Definition gs_get (k : bytes) (self : GroupStore) : option Arc * GroupStore :=
  let (o, lru) := lru_get k (gs_lru self) in (o, set_lru lru self).

(** A step on the store alone, and one on the connection alone. *)
Definition in_store {A} (f : GroupStore -> A * GroupStore) : cc (conn * GroupStore) A := fun s =>
  let (a, gs) := f s.2 in (Ok a, (s.1, gs)).
Definition in_conn {A} (m : cc conn A) : cc (conn * GroupStore) A :=
  on fst (fun c s => (c, s.2)) m.

Definition get_fetch (k : bytes) (identity : option IdentityType) :
    cc (conn * GroupStore) (option Arc) :=
  cached ← in_store (gs_get k);
  match cached with
  | Some value => mret (Some value)
  | None =>
      value ← in_conn (fetch_from_id (V := V) k identity);
      match value with
      | Some value =>
          value_to_insert ← in_store (arc_new value);
          in_store (fun gs => ((), insert_prepped k value_to_insert gs));;
          mret (Some value_to_insert)
      | None => mret None
      end
  end.

Definition get_fetch_all : cc (conn * GroupStore) (list Arc) :=
  all ← in_conn (fetch_all (V := V));
  st_map (fun g =>
    id ← unwrap (gse_id g);
    to_insert ← in_store (arc_new g);
    in_store (fun gs => ((), insert_prepped id to_insert gs));;
    mret to_insert) all.
End group_store.
Arguments GroupStore {_} V.

(** ** What is in the store *)

Section spec.
Context `{En : SqlEngine, Li : SchnellruLimits, Sc : Schnellru} `{!SchnellruLaws}.
Context {V : Type} `{!GroupStoreEntity V}.
Implicit Types (gs : GroupStore V) (k : bytes) (a : Arc) (v : V).

Abbreviation cached gs := (lru_contents (gs_lru gs)).

(** Every [Arc] in the cache is that of a cell, whose value is as [P] says for its key. *)
Definition holds (P : bytes -> V -> Prop) gs : Prop :=
  forall k a, cached gs !! k = Some a -> exists v, gs_cells gs !! a = Some v /\ P k v.

(** The cache is within the limit of its length. *)
Definition within_limit gs : Prop :=
  is_over_the_limit (lru_limiter (gs_lru gs)) (Z.of_nat (size (cached gs))) = false.

Lemma holds_subset P gs m :
  (lru_contents m : gmap bytes Arc) ⊆ cached gs -> holds P gs -> holds P (set_lru m gs).
Proof. intros Hs Hg k a Ha. apply (Hg k). by eapply lookup_weaken. Qed.

Lemma holds_impl (P Q : bytes -> V -> Prop) gs :
  (forall k v, P k v -> Q k v) -> holds P gs -> holds Q gs.
Proof. intros HPQ Hg k a (v & Hv & HP)%Hg. eauto. Qed.

Lemma arc_new_cells v gs a gs' :
  arc_new v gs = (a, gs') ->
  gs_cells gs' !! a = Some v /\ cached gs' = cached gs /\ gs_lru gs' = gs_lru gs /\
  a = length (gs_cells gs) /\ forall a', a' ≠ a -> gs_cells gs' !! a' = gs_cells gs !! a'.
Proof.
  intros [= <- <-]. simpl. split_and!; [by apply list_lookup_middle|done..|].
  intros a' Ha. destruct (decide (a' < length (gs_cells gs)))%nat as [Hl|Hl].
  - by rewrite lookup_app_l.
  - rewrite (lookup_ge_None_2 (gs_cells gs)) by lia. apply lookup_ge_None_2.
    rewrite length_app. simpl. lia.
Qed.

Lemma holds_new P v gs : holds P gs -> holds P (arc_new v gs).2.
Proof.
  intros Hg k a Ha. destruct (Hg k a Ha) as (v' & Hv & HP). exists v'. split; [|done].
  simpl. apply lookup_app_l_Some. done.
Qed.

Lemma holds_insert_prepped P k a v gs :
  holds P gs -> gs_cells gs !! a = Some v -> P k v -> holds P (insert_prepped k a gs).
Proof.
  intros Hg Ha HP k' a' Hc. unfold insert_prepped in *. pose proof (lru_insert_contents k a (gs_lru gs)) as Hi.
  destruct (lru_insert k a (gs_lru gs)) as [ok m]. destruct Hi as (Hs & _). simpl in *.
  eapply lookup_weaken in Hc; [|exact Hs].
  destruct (decide (k' = k)) as [->|Hk].
  - rewrite lookup_insert_eq in Hc. injection Hc as <-. eauto.
  - rewrite lookup_insert_ne in Hc by done. by apply Hg.
Qed.

Lemma holds_insert P k v gs : holds P gs -> P k v -> holds P (gs_insert k v gs).
Proof.
  intros Hg HP. unfold gs_insert. destruct (arc_new v gs) as [a gs'] eqn:Hn.
  eapply holds_insert_prepped; [|by apply (arc_new_cells _ _ _ _ Hn)|done].
  replace gs' with (arc_new v gs).2 by by rewrite Hn. by apply holds_new.
Qed.

Lemma holds_try_insert P k v gs :
  holds P gs -> P k v -> holds P (gs_try_insert k v gs).2.
Proof.
  intros Hg HP. unfold gs_try_insert. destruct (arc_new v gs) as [a gs'] eqn:Hn.
  pose proof (arc_new_cells _ _ _ _ Hn) as (Ha & Hc & _).
  assert (holds P gs') as Hg'.
  { replace gs' with (arc_new v gs).2 by by rewrite Hn. by apply holds_new. }
  pose proof (lru_try_insert_contents k a (gs_lru gs')) as Hi.
  destruct (lru_try_insert k a (gs_lru gs')) as [ok m]. destruct Hi as (Hm & _). simpl.
  intros k' a'. simpl. rewrite Hm. destruct ok; [|apply Hg'].
  destruct (decide (k' = k)) as [->|Hk].
  - rewrite lookup_insert_eq. intros [= <-]. eauto.
  - rewrite lookup_insert_ne by done. apply Hg'.
Qed.

Lemma holds_remove P k gs : holds P gs -> holds P (gs_remove k gs).2.
Proof.
  intros Hg. unfold gs_remove. pose proof (lru_remove_contents k (gs_lru gs)) as (_ & Hc & _).
  destruct (lru_remove k (gs_lru gs)) as [o m]. apply holds_subset; [|done]. simpl in Hc.
  rewrite Hc. apply delete_subseteq.
Qed.

Lemma holds_get P k gs : holds P gs -> holds P (gs_get k gs).2.
Proof.
  intros Hg. unfold gs_get. pose proof (lru_get_contents k (gs_lru gs)) as (_ & Hc & _).
  destruct (lru_get k (gs_lru gs)) as [o m]. apply holds_subset; [|done]. simpl in Hc. by rewrite Hc.
Qed.

(** Writing behind a lock: [P] says what a key's value may be, so the other keys are those whose
    value stays good. *)
Lemma holds_write P a v gs :
  holds P gs -> (forall k, cached gs !! k = Some a -> P k v) -> holds P (arc_write a v gs).
Proof.
  intros Hg Hv k a' Ha. destruct (Hg k a' Ha) as (v' & Hv' & HP). simpl.
  destruct (decide (a = a')) as [<-|Hne].
  - exists v. split; [|by apply Hv]. apply list_lookup_insert_eq. by eapply lookup_lt_Some.
  - exists v'. by rewrite list_lookup_insert_ne.
Qed.

(** ** The limit *)

(** The cache was made with a limit of [n] entries and has no more than that. *)
Definition bounded (n : Z) gs : Prop :=
  (exists mem, lru_limiter (gs_lru gs) = HybridMemoryLimiter_limiter (MkHybrid mem (ByLength_new n))) /\
  Z.of_nat (size (cached gs)) <= n.

Lemma bounded_over n gs :
  (exists mem, lru_limiter (gs_lru gs) = HybridMemoryLimiter_limiter (MkHybrid mem (ByLength_new n))) ->
  forall len, is_over_the_limit (lru_limiter (gs_lru gs)) len = false <-> len <= n.
Proof. intros [mem ->] len. simpl. rewrite ByLength_over. apply Z.ltb_ge. Qed.

Lemma bounded_default cells : bounded ITEM_LIMIT (GroupStore_default cells).
Proof.
  split.
  - eexists. unfold GroupStore_default, HybridMemoryLimiter_default, HybridMemoryLimiter_new. simpl.
    by rewrite lru_new_limiter.
  - simpl. rewrite lru_new_contents. done.
Qed.

Lemma holds_default P cells : holds P (GroupStore_default cells).
Proof. intros k a. simpl. by rewrite lru_new_contents, lookup_empty. Qed.

Lemma bounded_insert_prepped n k a gs : bounded n gs -> bounded n (insert_prepped k a gs).
Proof.
  intros [Hm Hn]. pose proof (bounded_over _ _ Hm) as Hover. unfold bounded, insert_prepped.
  pose proof (lru_insert_limit k a (gs_lru gs)) as Hl.
  pose proof (lru_insert_contents k a (gs_lru gs)) as Hc.
  destruct (lru_insert k a (gs_lru gs)) as [ok m]. simpl. destruct Hc as (_ & _ & ->).
  split; [done|]. by apply Hover, Hl, Hover.
Qed.

Lemma bounded_insert n k v gs : bounded n gs -> bounded n (gs_insert k v gs).
Proof. intros Hw. by apply bounded_insert_prepped. Qed.

Lemma bounded_try_insert n k v gs : bounded n gs -> bounded n (gs_try_insert k v gs).2.
Proof.
  intros [Hm Hn]. pose proof (bounded_over _ _ Hm) as Hover. unfold bounded, gs_try_insert. simpl.
  pose proof (lru_try_insert_limit k (length (gs_cells gs)) (gs_lru gs)) as Hl.
  pose proof (lru_try_insert_contents k (length (gs_cells gs)) (gs_lru gs)) as Hc.
  destruct (lru_try_insert k _ _) as [ok m]. simpl. destruct Hc as (_ & ->).
  split; [done|]. by apply Hover, Hl, Hover.
Qed.

Lemma bounded_remove n k gs : bounded n gs -> bounded n (gs_remove k gs).2.
Proof.
  intros [Hm Hn]. unfold bounded, gs_remove.
  pose proof (lru_remove_contents k (gs_lru gs)) as (_ & Hc & Hli).
  destruct (lru_remove k (gs_lru gs)) as [o m]. simpl in *. rewrite Hc, Hli. split; [done|].
  rewrite map_size_delete. by destruct (cached gs !! k); unfold id; lia.
Qed.

Lemma bounded_get n k gs : bounded n gs -> bounded n (gs_get k gs).2.
Proof.
  intros Hb. unfold gs_get, bounded. pose proof (lru_get_contents k (gs_lru gs)) as (_ & Hc & Hli).
  destruct (lru_get k (gs_lru gs)) as [o m]. simpl in *. by rewrite Hc, Hli.
Qed.

(** ** Fetching *)

(** A key that is cached is answered from the cache; for another one the key store is asked, and
    what it has becomes a new cell, which is cached, perhaps at the cost of other entries. *)
Lemma get_fetch_run k i c gs :
  exists gs1, cached gs1 = cached gs /\ gs_cells gs1 = gs_cells gs /\
    (forall n, bounded n gs -> bounded n gs1) /\
    get_fetch k i (c, gs) =
    match cached gs !! k with
    | Some a => (Ok (Some a), (c, gs1))
    | None =>
        match fetch_from_id k i c with
        | (Ok (Some v), c') =>
            (Ok (Some (length (gs_cells gs))),
             (c', insert_prepped k (length (gs_cells gs)) (arc_new v gs1).2))
        | (Ok None, c') => (Ok None, (c', gs1))
        | (Err e, c') => (Err e, (c', gs1))
        end
    end.
Proof.
  pose proof (lru_get_contents k (gs_lru gs)) as (Hk & Hc & Hl).
  exists (set_lru (lru_get k (gs_lru gs)).2 gs).
  split; [done|]. split; [done|]. split.
  { intros n Hb. pose proof (bounded_get n k gs Hb) as Hb'. unfold gs_get in Hb'.
    by destruct (lru_get k (gs_lru gs)). }
  rewrite <-Hk. unfold get_fetch, mbind, stm_bind, in_store at 1, gs_get. simpl.
  destruct (lru_get k (gs_lru gs)) as [[a|] m]; simpl; [done|].
  unfold in_conn, on. simpl. destruct (fetch_from_id k i c) as [[[v|]|e] c']; done.
Qed.

Lemma get_fetch_holds P k i c gs r c' gs' :
  holds P gs -> get_fetch k i (c, gs) = (r, (c', gs')) ->
  (forall v cf, fetch_from_id k i c = (Ok (Some v), cf) -> P k v) -> holds P gs'.
Proof.
  intros Hg Hx HP. destruct (get_fetch_run k i c gs) as (gs1 & Hc & Hcells & _ & Hr).
  rewrite Hr in Hx. clear Hr.
  assert (holds P gs1) as Hg1.
  { intros k' a Ha. rewrite Hc in Ha. rewrite Hcells. by apply Hg. }
  destruct (cached gs !! k); [by injection Hx as _ _ <-|].
  destruct (fetch_from_id k i c) as [[[v|]|e] cf] eqn:Hf; injection Hx as _ _ <-; [|done..].
  eapply holds_insert_prepped; [by apply holds_new| |by eapply HP].
  simpl. rewrite <-Hcells. by apply list_lookup_middle.
Qed.

Lemma get_fetch_bounded n k i c gs r c' gs' :
  bounded n gs -> get_fetch k i (c, gs) = (r, (c', gs')) -> bounded n gs'.
Proof.
  intros Hb Hx. destruct (get_fetch_run k i c gs) as (gs1 & _ & _ & Hb1 & Hr).
  rewrite Hr in Hx. specialize (Hb1 n Hb).
  destruct (cached gs !! k); [by injection Hx as _ _ <-|].
  destruct (fetch_from_id k i c) as [[[v|]|e] cf]; injection Hx as _ _ <-; [|done..].
  by apply bounded_insert_prepped.
Qed.

(** What is fetched is put in the cache one by one, each in a cell of its own. *)
Definition insert_fetched (g : V) : cc (conn * GroupStore V) Arc :=
  id ← unwrap (gse_id g);
  to_insert ← in_store (arc_new g);
  in_store (fun gs => ((), insert_prepped id to_insert gs));;
  mret to_insert.

Lemma insert_fetched_run g c gs :
  insert_fetched g (c, gs) =
  match gse_id g with
  | Some id => (Ok (length (gs_cells gs)), (c, gs_insert id g gs))
  | None => (Err Panic, (c, gs))
  end.
Proof. unfold insert_fetched. by destruct (gse_id g). Qed.

Lemma insert_all_inv (Q : GroupStore V -> Prop) all c gs r c' gs' :
  (forall g id gs, g ∈ all -> gse_id g = Some id -> Q gs -> Q (gs_insert id g gs)) ->
  Q gs -> st_map insert_fetched all (c, gs) = (r, (c', gs')) -> Q gs' /\ c' = c.
Proof.
  intros HQ. revert gs r c' gs'. induction all as [|g all IH]; intros gs r c' gs' Hg; simpl.
  { by intros [= _ <- <-]. }
  unfold mbind, stm_bind. rewrite insert_fetched_run. destruct (gse_id g) as [id|] eqn:Hid.
  2: { by intros [= _ <- <-]. }
  destruct (st_map insert_fetched all (c, gs_insert id g gs)) as [r1 [c1 gs1]] eqn:Hx.
  apply IH in Hx as [HQ1 ->].
  - destruct r1; by intros [= _ <- <-].
  - intros g' id' gs0 Hin. apply HQ. by right.
  - apply HQ; [by left|done..].
Qed.

Lemma get_fetch_all_inv (Q : GroupStore V -> Prop) c gs r c' gs' :
  (forall all cf g id gs, fetch_all c = (Ok all, cf) -> g ∈ all -> gse_id g = Some id ->
     Q gs -> Q (gs_insert id g gs)) ->
  Q gs -> get_fetch_all (c, gs) = (r, (c', gs')) -> Q gs' /\ c' = (fetch_all c).2.
Proof.
  intros HQ Hg. unfold get_fetch_all, mbind, stm_bind, in_conn, on. simpl.
  destruct (fetch_all c) as [[all|e] cf] eqn:Hf; simpl.
  - intros Hx. eapply (insert_all_inv Q all) in Hx; [done| |done]. intros g id gs0. by eapply HQ.
  - by intros [= _ <- <-].
Qed.

Lemma insert_prepped_cached k a gs k' a' :
  cached (insert_prepped k a gs) !! k' = Some a' ->
  if decide (k' = k) then a' = a else cached gs !! k' = Some a'.
Proof.
  unfold insert_prepped. pose proof (lru_insert_contents k a (gs_lru gs)) as Hi.
  destruct (lru_insert k a (gs_lru gs)) as [ok m]. destruct Hi as (Hs & _). simpl.
  intros Hc. eapply lookup_weaken in Hc; [|exact Hs]. case_decide as Hk.
  - subst. rewrite lookup_insert_eq in Hc. by injection Hc.
  - by rewrite lookup_insert_ne in Hc.
Qed.

Lemma gs_insert_cached k g gs k' a :
  cached (gs_insert k g gs) !! k' = Some a ->
  if decide (k' = k) then a = length (gs_cells gs) else cached gs !! k' = Some a.
Proof.
  unfold gs_insert, insert_prepped. simpl. pose proof (lru_insert_contents k (length (gs_cells gs)) (gs_lru gs)) as Hi.
  destruct (lru_insert _ _ _) as [ok m]. destruct Hi as (Hs & _). simpl. intros Hc.
  eapply lookup_weaken in Hc; [|exact Hs]. case_decide as Hk.
  - subst. rewrite lookup_insert_eq in Hc. by injection Hc.
  - by rewrite lookup_insert_ne in Hc.
Qed.

Lemma gs_insert_cells k g gs a v : gs_cells gs !! a = Some v -> gs_cells (gs_insert k g gs) !! a = Some v.
Proof. apply lookup_app_l_Some. Qed.

(** The caller of [get_fetch_all] holds what the cache has for each of the ids. *)
Lemma insert_all_arcs all c gs r c' gs' :
  NoDup (gse_id <$> all) -> (forall g, g ∈ all -> is_Some (gse_id g)) ->
  st_map insert_fetched all (c, gs) = (r, (c', gs')) ->
  exists arcs, r = Ok arcs /\ Forall2 (fun g a => gs_cells gs' !! a = Some g /\
    forall id a', gse_id g = Some id -> cached gs' !! id = Some a' -> a' = a) all arcs.
Proof.
  revert gs r c' gs'. induction all as [|g all IH]; intros gs r c' gs' Hnd Hid; simpl.
  { intros [= <- _ _]. by exists []. }
  rewrite fmap_cons in Hnd. apply list.NoDup_cons in Hnd as [Hg Hnd].
  destruct (Hid g) as [id Hi]; [by left|].
  unfold mbind, stm_bind. rewrite insert_fetched_run, Hi.
  destruct (st_map insert_fetched all (c, gs_insert id g gs)) as [r1 [c1 gs1]] eqn:Hx.
  destruct (IH _ _ _ _ Hnd (fun g' H' => Hid g' (list_elem_of_further _ _ _ H')) Hx) as (arcs & -> & Hall).
  intros [= <- <- <-]. eexists. split; [done|]. constructor; [|done].
  assert (forall g' id', g' ∈ all -> gse_id g' = Some id' -> id' <> id) as Hne.
  { intros g' id' Hin' Hi' ->. apply Hg. rewrite Hi, <-Hi'. by apply list_elem_of_fmap_2. }
  split.
  - eapply (insert_all_inv (fun gs0 => gs_cells gs0 !! length (gs_cells gs) = Some g)) in Hx; [by apply Hx| |].
    + intros g' id' gs0 _ _. apply gs_insert_cells.
    + by apply list_lookup_middle.
  - intros id' a' Hi' Hc. rewrite Hi in Hi'. injection Hi' as <-.
    eapply (insert_all_inv (fun gs0 => cached gs0 !! id = Some a' -> a' = length (gs_cells gs))) in Hx as [Hq _];
      [by apply Hq| |].
    + intros g' id' gs0 Hin' Hi' Hq Hc'. apply gs_insert_cached in Hc'. rewrite decide_False in Hc'; [by apply Hq|].
      intros ->. by eapply Hne.
    + intros Hc'. apply gs_insert_cached in Hc'. by rewrite decide_True in Hc'.
Qed.

(** ** Any use of a store *)

Inductive gs_step : relation (conn * GroupStore V) :=
  | step_insert c gs k v : gs_step (c, gs) (c, gs_insert k v gs)
  | step_try_insert c gs k v : gs_step (c, gs) (c, (gs_try_insert k v gs).2)
  | step_remove c gs k : gs_step (c, gs) (c, (gs_remove k gs).2)
  | step_get c gs k : gs_step (c, gs) (c, (gs_get k gs).2)
  | step_fetch s k i r s' : get_fetch k i s = (r, s') -> gs_step s s'
  | step_fetch_all s r s' : get_fetch_all s = (r, s') -> gs_step s s'
  | step_write c gs a v : gs_step (c, gs) (c, arc_write a v gs)
  | step_keystore c c' gs : gs_step (c, gs) (c', gs).

Definition sound (n : Z) (s : conn * GroupStore V) : Prop :=
  bounded n s.2 /\ holds (fun _ _ => True) s.2.

Lemma gs_step_sound n s s' : gs_step s s' -> sound n s -> sound n s'.
Proof.
  assert (forall k v gs, bounded n gs /\ holds (fun _ _ => True) gs ->
    bounded n (gs_insert k v gs) /\ holds (fun _ _ => True) (gs_insert k v gs)) as Hins.
  { intros k v gs [Hb Hh]. split; [by apply bounded_insert|by apply holds_insert]. }
  intros Hs. unfold sound. destruct Hs as [c gs k v|c gs k v|c gs k|c gs k|[c gs] k i r [c' gs'] Hx
    |[c gs] r [c' gs'] Hx|c gs a v|c c' gs]; simpl; intros [Hb Hh].
  - by apply Hins.
  - split; [by apply bounded_try_insert|by apply holds_try_insert].
  - split; [by apply bounded_remove|by apply holds_remove].
  - split; [by apply bounded_get|by apply holds_get].
  - split; [by eapply get_fetch_bounded|by eapply get_fetch_holds].
  - eapply (get_fetch_all_inv (fun gs => bounded n gs /\ holds (fun _ _ => True) gs)); [|done..].
    intros _ _ g id gs0 _ _ _. apply Hins.
  - split; [done|by apply holds_write].
  - done.
Qed.

(** C32: however a store that was made by [default] is used (insertions, removals, lookups, fetches
    that fail, writes through a shared cell, changes of the key store in between), the cache never
    has more than [ITEM_LIMIT] entries, and never a cell that does not exist. *)
Theorem group_store_bounded cells c s :
  rtc gs_step (c, GroupStore_default cells) s ->
  Z.of_nat (size (cached s.2)) <= ITEM_LIMIT /\
  forall k a, cached s.2 !! k = Some a -> is_Some (arc_read a s.2).
Proof.
  intros Hs. assert (sound ITEM_LIMIT s) as [[_ Hb] Hh].
  { assert (sound ITEM_LIMIT (c, GroupStore_default cells)) as H0.
    { split; [apply bounded_default|apply holds_default]. }
    induction Hs as [|s1 s2 s3 Hstep _ IH]; [done|]. apply IH. by eapply gs_step_sound. }
  split; [done|]. intros k a (v & Hv & _)%Hh. by exists v.
Qed.
End spec.
