(* ===== verification/Proteus.v ===== *)
(** * Proteus

    [crypto/src/proteus.rs]: the sessions of the Proteus protocol, in a [GroupStore] above the key
    store, with the identity and the prekeys. The protocol itself is the crate [proteus-wasm]: a
    parameter. It reads and removes prekeys while a session decrypts: such a computation is a tree
    of these calls, which is run on the key store. *)

From S2P Require Import Prelude KsError Sql SqlSpec Entity TableFrame ProteusEntities Keystore.
From S2P Require Import CcError Backend GroupStore.
Open Scope Z_scope.

(** ** [proteus-wasm] *)

(** A computation that asks a [PreKeyStore]. *)
Inductive prekey_prog (A : Type) :=
  | PkRet (a : A)
  | PkPrekey (id : Z) (k : result CryptoKeystoreError (option bytes) -> prekey_prog A)
  | PkRemove (id : Z) (k : result CryptoKeystoreError () -> prekey_prog A).
Arguments PkRet {_} a.
Arguments PkPrekey {_} id k.
Arguments PkRemove {_} id k.

(** The crate's types; the random generator it uses is the system's. *)
Class ProteusTypes := {
  IdentityKeyPair : Type;
  IdentityKey : Type;
  ProteusSessionState : Type;       (* [Session<Arc<IdentityKeyPair>>] *)
  PreKey : Type;
  PreKeyBundle : Type;
  Envelope : Type;
  OsRng : Type;
}.

(** Its functions; of an error its code is kept. *)
Class ProteusLib `{ProteusTypes} := {
  IdentityKeyPair_new : OsRng -> IdentityKeyPair * OsRng;
  from_raw_key_pair : bytes -> bytes -> result Z IdentityKeyPair;
  public_key : IdentityKeyPair -> IdentityKey;
  to_keypair_bytes : IdentityKeyPair -> bytes;
  public_key_bytes : IdentityKey -> bytes;
  key_fingerprint : IdentityKey -> bytes;
  Session_deserialise : IdentityKeyPair -> bytes -> result Z ProteusSessionState;
  Session_serialise : ProteusSessionState -> result Z bytes;
  init_from_prekey : IdentityKeyPair -> PreKeyBundle -> OsRng -> result Z ProteusSessionState * OsRng;
  init_from_message : IdentityKeyPair -> Envelope -> OsRng ->
    prekey_prog (result Z (ProteusSessionState * bytes) * OsRng);
  Session_encrypt : ProteusSessionState -> bytes -> OsRng -> result Z Envelope * ProteusSessionState * OsRng;
  Session_decrypt : ProteusSessionState -> Envelope -> OsRng ->
    prekey_prog (result Z bytes * ProteusSessionState * OsRng);
  local_identity : ProteusSessionState -> IdentityKey;
  remote_identity : ProteusSessionState -> IdentityKey;
  Envelope_serialise : Envelope -> result Z bytes;
  Envelope_deserialise : bytes -> result Z Envelope;
  PreKey_new : Z -> OsRng -> PreKey * OsRng;
  PreKey_last_resort : OsRng -> PreKey * OsRng;
  PreKey_serialise : PreKey -> result Z bytes;
  PreKey_deserialise : bytes -> result Z PreKey;
  PreKeyBundle_new : IdentityKey -> PreKey -> PreKeyBundle;
  PreKeyBundle_serialise : PreKeyBundle -> result Z bytes;
  PreKeyBundle_deserialise : bytes -> result Z PreKeyBundle;
  bundle_identity_key : PreKeyBundle -> IdentityKey;
  MAX_PREKEY_ID : Z;
}.

(** [map_err(ProteusError::from)?] *)
Definition encode_err {A} (r : result Z A) : CryptoResult A :=
  map_err (fun c => ProteusErrorC (ProteusEncodeError c)) r.
Definition decode_err {A} (r : result Z A) : CryptoResult A :=
  map_err (fun c => ProteusErrorC (ProteusDecodeError c)) r.
Definition session_err {A} (r : result Z A) : CryptoResult A :=
  map_err (fun c => ProteusErrorC (ProteusSessionError c)) r.
Definition internal_err {A} (r : result Z A) : CryptoResult A :=
  map_err (fun c => ProteusErrorC (ProteusInternalError c)) r.

(** [ProteusIdentity::sk_raw] and [pk_raw] *)
Definition sk_raw (identity : ProteusIdentity) : option bytes :=
  if Z.leb SK_KEY_SIZE (blen (pi_sk identity)) then Some (take (Z.to_nat SK_KEY_SIZE) (pi_sk identity)) else None.
Definition pk_raw (identity : ProteusIdentity) : option bytes :=
  if Z.leb PK_KEY_SIZE (blen (pi_pk identity)) then Some (take (Z.to_nat PK_KEY_SIZE) (pi_pk identity)) else None.

(** ** The key store *)

Section keystore.
Context `{SqlEngine}.

(** The prekeys as the crate gets at them. *)
Fixpoint with_prekeys {A} (p : prekey_prog A) : cc conn A := fun c =>
  match p with
  | PkRet a => (Ok a, c)
  | PkPrekey id k =>
      match PreKeyStore_prekey id with
      | Some find => let (r, c) := exec_prog find c in with_prekeys (k r) c
      | None => (Err Panic, c)
      end
  | PkRemove id k =>
      match PreKeyStore_remove id with
      | Some remove => let (r, c) := exec_prog remove c in with_prekeys (k r) c
      | None => (Err Panic, c)
      end
  end.

(** [keystore.find::<ProteusPrekey>(id)] *)
Definition find_prekey (id : Z) : cc conn (option ProteusPrekey) := fun c =>
  match ProteusPrekey_find_one (u16_to_le_bytes id) with
  | Some find => on_conn find c
  | None => (Err Panic, c)
  end.
End keystore.

(** ** Sessions *)

Section proteus.
Context `{SqlEngine, SchnellruLimits, Schnellru} `{ProteusLib}.

Record ProteusConversationSession := MkSession {
  identifier : bytes;
  session : ProteusSessionState;
}.

(** [impl GroupStoreEntity for ProteusConversationSession] *)
Definition session_fetch_from_id (id : bytes) (identity : option IdentityKeyPair) :
    cc conn (option ProteusConversationSession) :=
  store_value ← on_conn (find_one (E := ProteusSession) id);
  match store_value with
  | None => mret None
  | Some store_value =>
      identity ← some_or ProteusNotInitialized identity;
      session ← lift_res (decode_err (Session_deserialise identity (ps_session store_value)));
      mret (Some (MkSession (ps_id store_value) session))
  end.

(** [unreachable!()] *)
Definition session_fetch_all : cc conn (list ProteusConversationSession) := fun c => (Err Panic, c).

#[export] Instance ProteusConversationSession_group_store_entity :
    GroupStoreEntity ProteusConversationSession := {|
  IdentityType := IdentityKeyPair;
  gse_id _ := None;
  fetch_from_id := session_fetch_from_id;
  fetch_all := session_fetch_all;
|}.

(** What the operations of a session act on: the key store, the random generator, the session. *)
Abbreviation SessionState := (conn * OsRng * ProteusConversationSession)%type.

Definition set_session (s : ProteusSessionState) (c : ProteusConversationSession) : ProteusConversationSession :=
  MkSession (identifier c) s.

Definition conversation_encrypt (plaintext : bytes) : cc SessionState bytes := fun st =>
  let '(c, os, self) := st in
  let '(envelope, s, os) := Session_encrypt (session self) plaintext os in
  (map_err Throw (encode_err (e ← envelope; Envelope_serialise e)), (c, os, set_session s self)).

Definition conversation_decrypt (ciphertext : bytes) : cc SessionState bytes := fun st =>
  let '(c, os, self) := st in
  match Envelope_deserialise ciphertext with
  | Err e => (map_err Throw (decode_err (Err e)), st)
  | Ok envelope =>
      match with_prekeys (Session_decrypt (session self) envelope os) c with
      | (Ok (plaintext, s, os), c) => (map_err Throw (session_err plaintext), (c, os, set_session s self))
      | (Err stop, c) => (Err stop, (c, os, self))
      end
  end.

Definition fingerprint_local (self : ProteusConversationSession) : bytes :=
  key_fingerprint (local_identity (session self)).
Definition fingerprint_remote (self : ProteusConversationSession) : bytes :=
  key_fingerprint (remote_identity (session self)).

(** ** [ProteusCentral] *)

Record ProteusCentral := MkProteusCentral {
  proteus_identity : IdentityKeyPair;
  proteus_sessions : GroupStore ProteusConversationSession;
}.

(** With the key store that it borrows, and the random generator. *)
Record ProteusState := MkProteusState {
  st_conn : conn;
  st_os : OsRng;
  st_central : ProteusCentral;
}.

Definition st_sessions (s : ProteusState) : GroupStore ProteusConversationSession :=
  proteus_sessions (st_central s).

Definition set_sessions (gs : GroupStore ProteusConversationSession) (s : ProteusState) : ProteusState :=
  MkProteusState (st_conn s) (st_os s) (MkProteusCentral (proteus_identity (st_central s)) gs).

Definition in_keystore {A} (m : cc conn A) : cc ProteusState A :=
  on st_conn (fun c s => MkProteusState c (st_os s) (st_central s)) m.
Definition in_sessions {A} (m : cc (conn * GroupStore ProteusConversationSession) A) : cc ProteusState A :=
  on (fun s => (st_conn s, st_sessions s))
    (fun t s => set_sessions t.2 (MkProteusState t.1 (st_os s) (st_central s))) m.

(** [session.write().await.m(..)] *)
Definition with_session {A} (a : Arc) (m : cc SessionState A) : cc ProteusState A := fun s =>
  match arc_read a (st_sessions s) with
  | None => (Err Panic, s)
  | Some conversation =>
      let '(r, (c, os, conversation)) := m (st_conn s, st_os s, conversation) in
      (r, set_sessions (arc_write a conversation (st_sessions s)) (MkProteusState c os (st_central s)))
  end.

Definition read_session (a : Arc) : cc ProteusState ProteusConversationSession := fun s =>
  unwrap (arc_read a (st_sessions s)) s.

(** *** The identity *)

Abbreviation KeystoreState := (conn * OsRng)%type.

Definition in_conn_of {A} (m : cc conn A) : cc KeystoreState A := on fst (fun c s => (c, s.2)) m.

Definition create_identity : cc KeystoreState IdentityKeyPair :=
  kp ← (fun s => let (kp, os) := IdentityKeyPair_new s.2 in (Ok kp, (s.1, os)));
  let pk := public_key_bytes (public_key kp) in
  let ks_identity := MkProteusIdentity (to_keypair_bytes kp) pk in
  in_conn_of (on_conn (Connection_save ks_identity));;
  mret kp.

Definition load_or_create_identity : cc KeystoreState IdentityKeyPair :=
  identity ← in_conn_of (on_conn (Connection_find (E := ProteusIdentity) []));
  match identity with
  | Some identity =>
      sk ← unwrap (sk_raw identity);
      pk ← unwrap (pk_raw identity);
      lift_res (internal_err (from_raw_key_pair sk pk))
  | None => create_identity
  end.

(** *** Restoring *)

(** The loop ends at the first session that does not fit. *)
Fixpoint restore_sessions_loop (identity : IdentityKeyPair) (sessions : list ProteusSession)
    (gs : GroupStore ProteusConversationSession) : CryptoResult (GroupStore ProteusConversationSession) :=
  match sessions with
  | [] => Ok gs
  | stored :: sessions =>
      match decode_err (Session_deserialise identity (ps_session stored)) with
      | Err e => Err e
      | Ok s =>
          let proteus_conversation := MkSession (ps_id stored) s in
          match gs_try_insert (ps_id stored) proteus_conversation gs with
          | (Ok (), gs) => restore_sessions_loop identity sessions gs
          | (Err _, gs) => Ok gs
          end
      end
  end.

(** The cells of the sessions that were in memory before stay. *)
Definition restore_sessions (identity : IdentityKeyPair) (cells : list ProteusConversationSession) :
    cc conn (GroupStore ProteusConversationSession) :=
  sessions ← on_conn (Connection_find_all (E := ProteusSession) EntityFindParams_default);
  lift_res (restore_sessions_loop identity sessions (GroupStore_new_with_limit (ITEM_LIMIT * 2) cells)).

Definition ProteusCentral_try_new : cc KeystoreState ProteusCentral :=
  identity ← load_or_create_identity;
  sessions ← in_conn_of (restore_sessions identity []);
  mret (MkProteusCentral identity sessions).

Definition reload_sessions : cc ProteusState () :=
  s ← st_get;
  gs ← in_keystore (restore_sessions (proteus_identity (st_central s)) (gs_cells (st_sessions s)));
  st_modify (set_sessions gs).

(** *** Sessions *)

(** [self.proteus_sessions.insert(..)], then [.get(..).unwrap().clone()] *)
Definition insert_session (session_id : bytes) (conversation : ProteusConversationSession) : cc ProteusState Arc :=
  st_modify (fun s => set_sessions (gs_insert session_id conversation (st_sessions s)) s);;
  o ← in_sessions (in_store (gs_get session_id));
  unwrap o.

Definition session_from_prekey (session_id key : bytes) : cc ProteusState Arc :=
  prekey ← lift_res (decode_err (PreKeyBundle_deserialise key));
  proteus_session ← (fun s =>
    let (r, os) := init_from_prekey (proteus_identity (st_central s)) prekey (st_os s) in
    (map_err Throw (session_err r), MkProteusState (st_conn s) os (st_central s)));
  insert_session session_id (MkSession session_id proteus_session).

Definition session_from_message (session_id envelope : bytes) : cc ProteusState (Arc * bytes) :=
  message ← lift_res (decode_err (Envelope_deserialise envelope));
  p ← (fun s =>
    match with_prekeys (init_from_message (proteus_identity (st_central s)) message (st_os s)) (st_conn s) with
    | (Ok (r, os), c) => (map_err Throw (session_err r), MkProteusState c os (st_central s))
    | (Err stop, c) => (Err stop, MkProteusState c (st_os s) (st_central s))
    end);
  a ← insert_session session_id (MkSession session_id p.1);
  mret (a, p.2).

Definition session_save_by_ref (a : Arc) : cc ProteusState () :=
  conversation ← read_session a;
  serialised ← lift_res (encode_err (Session_serialise (session conversation)));
  in_keystore (on_conn (Connection_save (MkProteusSession (identifier conversation) serialised)));;
  mret ().

Definition session_get (session_id : bytes) : cc ProteusState (option Arc) :=
  s ← st_get;
  in_sessions (get_fetch session_id (Some (proteus_identity (st_central s)))).

Definition session_save (session_id : bytes) : cc ProteusState () :=
  o ← session_get session_id;
  match o with
  | Some a => session_save_by_ref a
  | None => mret ()
  end.

(** A failure to remove it from the key store is not an error. *)
Definition session_delete (session_id : bytes) : cc ProteusState () :=
  r ← attempt (in_keystore (on_conn (Connection_remove ProteusSession session_id)));
  match r with
  | Ok _ => st_modify (fun s => set_sessions (gs_remove session_id (st_sessions s)).2 s)
  | Err _ => mret ()
  end.

Definition session_exists (session_id : bytes) : cc ProteusState bool :=
  r ← attempt (session_get session_id);
  mret (match r with Ok (Some _) => true | _ => false end).

Definition pc_decrypt (session_id ciphertext : bytes) : cc ProteusState bytes :=
  o ← session_get session_id;
  match o with
  | Some a =>
      plaintext ← with_session a (conversation_decrypt ciphertext);
      session_save_by_ref a;;
      mret plaintext
  | None => throw (ConversationNotFound session_id)
  end.

Definition pc_encrypt (session_id plaintext : bytes) : cc ProteusState bytes :=
  o ← session_get session_id;
  match o with
  | Some a =>
      ciphertext ← with_session a (conversation_encrypt plaintext);
      session_save_by_ref a;;
      mret ciphertext
  | None => throw (ConversationNotFound session_id)
  end.

Fixpoint encrypt_batched_loop (sessions : list bytes) (plaintext : bytes) (acc : gmap bytes bytes) :
    cc ProteusState (gmap bytes bytes) :=
  match sessions with
  | [] => mret acc
  | session_id :: sessions =>
      o ← session_get session_id;
      match o with
      | Some a =>
          conversation ← read_session a;
          ciphertext ← with_session a (conversation_encrypt plaintext);
          session_save_by_ref a;;
          encrypt_batched_loop sessions plaintext (<[identifier conversation := ciphertext]> acc)
      | None => encrypt_batched_loop sessions plaintext acc
      end
  end.

Definition encrypt_batched (sessions : list bytes) (plaintext : bytes) : cc ProteusState (gmap bytes bytes) :=
  encrypt_batched_loop sessions plaintext ∅.

(** *** Prekeys *)

Definition with_os {A} (f : OsRng -> A * OsRng) : cc ProteusState A := fun s =>
  let (a, os) := f (st_os s) in (Ok a, MkProteusState (st_conn s) os (st_central s)).

Definition prekey_bundle (prekey : PreKey) : cc ProteusState bytes :=
  s ← st_get;
  let bundle := PreKeyBundle_new (public_key (proteus_identity (st_central s))) prekey in
  lift_res (encode_err (PreKeyBundle_serialise bundle)).

Definition new_prekey (id : Z) : cc ProteusState bytes :=
  prekey ← with_os (PreKey_new id);
  serialised ← lift_res (encode_err (PreKey_serialise prekey));
  let keystore_prekey := ProteusPrekey_from_raw id serialised in
  bundle ← prekey_bundle prekey;
  in_keystore (on_conn (ProteusPrekey_save keystore_prekey));;
  mret bundle.

Definition new_prekey_auto : cc ProteusState (Z * bytes) :=
  id ← in_keystore (on_conn ProteusPrekey_get_free_id);
  bundle ← new_prekey id;
  mret (id, bundle).

Definition last_resort_prekey_id : Z := MAX_PREKEY_ID.

Definition last_resort_prekey : cc ProteusState bytes :=
  o ← in_keystore (find_prekey last_resort_prekey_id);
  last_resort ← match o with
    | Some last_resort => lift_res (decode_err (PreKey_deserialise (prk_prekey last_resort)))
    | None =>
        last_resort ← with_os PreKey_last_resort;
        serialised ← lift_res (encode_err (PreKey_serialise last_resort));
        in_keystore (on_conn (proteus_store_prekey last_resort_prekey_id serialised));;
        mret last_resort
    end;
  prekey_bundle last_resort.

(** *** Fingerprints *)

Definition pc_fingerprint (self : ProteusCentral) : bytes := key_fingerprint (public_key (proteus_identity self)).

Definition pc_fingerprint_local (session_id : bytes) : cc ProteusState bytes :=
  o ← session_get session_id;
  match o with
  | Some a => conversation ← read_session a; mret (fingerprint_local conversation)
  | None => throw (ConversationNotFound session_id)
  end.

Definition pc_fingerprint_remote (session_id : bytes) : cc ProteusState bytes :=
  o ← session_get session_id;
  match o with
  | Some a => conversation ← read_session a; mret (fingerprint_remote conversation)
  | None => throw (ConversationNotFound session_id)
  end.

Definition fingerprint_prekeybundle (prekey : bytes) : CryptoResult bytes :=
  prekey ← decode_err (PreKeyBundle_deserialise prekey);
  Ok (key_fingerprint (bundle_identity_key prekey)).
End proteus.

(** ** The calls of [CoreCrypto] that make a session

    A new session is saved by the caller of [ProteusCentral]. *)
Section core_crypto.
Context `{SqlEngine, SchnellruLimits, Schnellru} `{ProteusLib}.

Definition saved_session_from_prekey (session_id prekey : bytes) : cc ProteusState Arc :=
  session ← session_from_prekey session_id prekey;
  session_save_by_ref session;;
  mret session.

Definition saved_session_from_message (session_id envelope : bytes) : cc ProteusState (Arc * bytes) :=
  p ← session_from_message session_id envelope;
  session_save_by_ref p.1;;
  mret p.
End core_crypto.
