(* ===== verification/ProteusSpec.v ===== *)
(** * What [ProteusCentral] promises

    The abstract machine of the Proteus client has no cache, no cells and no tables: it maps the
    ids of sessions to the sessions, and the ids of prekeys to the prekeys. [ProteusCentral]
    refines it: that a session can be evicted from memory and be read back from the key store,
    or that the client is started again, is invisible. *)

From S2P Require Import Prelude KsError Sql SqlSpec Entity TableFrame ProteusEntities Keystore.
From S2P Require Import CcError Backend GroupStore Proteus.
Open Scope Z_scope.

(** ** What is relied on of [proteus-wasm] *)

(** Every way a computation can end is as [P] says, whatever the prekeys are. *)
Fixpoint pk_all {A} (P : A -> Prop) (p : prekey_prog A) : Prop :=
  match p with
  | PkRet a => P a
  | PkPrekey _ k => forall r, pk_all P (k r)
  | PkRemove _ k => forall r, pk_all P (k r)
  end.

(** A session is that of an identity, which it keeps; what is serialised is read back; the keys of
    an identity have their sizes; prekeys are small and their ids are of 16 bits. *)
Class ProteusLaws `{ProteusLib} := {
  session_owner : ProteusSessionState -> IdentityKeyPair;
  owner_from_prekey me key os s os' : init_from_prekey me key os = (Ok s, os') -> session_owner s = me;
  owner_from_message me e os : pk_all (fun p => forall s m, p.1 = Ok (s, m) -> session_owner s = me)
    (init_from_message me e os);
  owner_encrypt s m os : session_owner (Session_encrypt s m os).1.2 = session_owner s;
  owner_decrypt s e os : pk_all (fun p => session_owner p.1.2 = session_owner s) (Session_decrypt s e os);
  owner_deserialise me b s : Session_deserialise me b = Ok s -> session_owner s = me;
  session_roundtrip s b : Session_serialise s = Ok b -> Session_deserialise (session_owner s) b = Ok s;
  identity_sizes kp : blen (to_keypair_bytes kp) = SK_KEY_SIZE /\
    blen (public_key_bytes (public_key kp)) = PK_KEY_SIZE;
  identity_roundtrip kp :
    from_raw_key_pair (to_keypair_bytes kp) (public_key_bytes (public_key kp)) = Ok kp;
  prekey_small pk b : PreKey_serialise pk = Ok b -> blen b <= i32_max;
  max_prekey_id : MAX_PREKEY_ID = u16_max;
}.

(** ** The abstract machine *)

Section abstract.
Context `{Pl : ProteusLib}.

Record ProteusAbs := MkAbs {
  ab_identity : IdentityKeyPair;
  ab_sessions : gmap bytes ProteusSessionState;
  ab_prekeys : gmap Z bytes;
  ab_os : OsRng;
}.

Definition put_session (id : bytes) (s : ProteusSessionState) (ab : ProteusAbs) : ProteusAbs :=
  MkAbs (ab_identity ab) (<[id := s]> (ab_sessions ab)) (ab_prekeys ab) (ab_os ab).
Definition drop_session (id : bytes) (ab : ProteusAbs) : ProteusAbs :=
  MkAbs (ab_identity ab) (delete id (ab_sessions ab)) (ab_prekeys ab) (ab_os ab).
Definition set_prekeys (m : gmap Z bytes) (ab : ProteusAbs) : ProteusAbs :=
  MkAbs (ab_identity ab) (ab_sessions ab) m (ab_os ab).
Definition set_os (os : OsRng) (ab : ProteusAbs) : ProteusAbs :=
  MkAbs (ab_identity ab) (ab_sessions ab) (ab_prekeys ab) os.

(** The prekeys a computation reads and removes are those of the map; an id has 16 bits. *)
Fixpoint spec_prekeys {A} (p : prekey_prog A) (m : gmap Z bytes) : A * gmap Z bytes :=
  match p with
  | PkRet a => (a, m)
  | PkPrekey id k => spec_prekeys (k (Ok (m !! (id mod 65536)))) m
  | PkRemove id k =>
      match m !! (id mod 65536) with
      | Some _ => spec_prekeys (k (Ok ())) (delete (id mod 65536) m)
      | None => spec_prekeys (k (Err (MissingKeyInStore MissingProteusPrekey))) m
      end
  end.

Definition spec_run {A} (f : IdentityKeyPair -> OsRng -> A * OsRng) : cc ProteusAbs A := fun ab =>
  let (a, os) := f (ab_identity ab) (ab_os ab) in (Ok a, set_os os ab).

Definition spec_session (id : bytes) : cc ProteusAbs ProteusSessionState := fun ab =>
  match ab_sessions ab !! id with
  | Some s => (Ok s, ab)
  | None => (Err (Throw (ConversationNotFound id)), ab)
  end.

(** A session is kept if it can be serialised and is not too big for the key store. *)
Definition spec_save (id : bytes) (s : ProteusSessionState) : cc ProteusAbs () :=
  serialised ← lift_res (encode_err (Session_serialise s));
  if ProteusSession_fits (MkProteusSession id serialised) then st_modify (put_session id s)
  else throw (KeyStoreError BlobTooBig).

Definition spec_encrypt (id plaintext : bytes) : cc ProteusAbs bytes :=
  s ← spec_session id;
  p ← spec_run (fun _ os => let '(e, s, os) := Session_encrypt s plaintext os in ((e, s), os));
  ciphertext ← lift_res (encode_err (e ← p.1; Envelope_serialise e));
  spec_save id p.2;;
  mret ciphertext.

(** What a computation of the crate does to the abstract state. *)
Definition spec_consume {A} (f : IdentityKeyPair -> OsRng -> prekey_prog (A * OsRng)) : cc ProteusAbs A :=
  fun ab =>
    let (p, m) := spec_prekeys (f (ab_identity ab) (ab_os ab)) (ab_prekeys ab) in
    (Ok p.1, set_os p.2 (set_prekeys m ab)).

Definition spec_decrypt (id ciphertext : bytes) : cc ProteusAbs bytes :=
  s ← spec_session id;
  envelope ← lift_res (decode_err (Envelope_deserialise ciphertext));
  p ← spec_consume (fun _ => Session_decrypt s envelope);
  plaintext ← lift_res (session_err p.1);
  spec_save id p.2;;
  mret plaintext.

Definition spec_from_prekey (id key : bytes) : cc ProteusAbs () :=
  prekey ← lift_res (decode_err (PreKeyBundle_deserialise key));
  r ← spec_run (fun me => init_from_prekey me prekey);
  s ← lift_res (session_err r);
  spec_save id s;;
  mret ().

(** The parts that come before the new session is inserted: what is used up of the random
    generator and of the prekeys is used up, even when the session is not kept. *)
Definition spec_made_from_prekey (key : bytes) : cc ProteusAbs () :=
  prekey ← lift_res (decode_err (PreKeyBundle_deserialise key));
  r ← spec_run (fun me => init_from_prekey me prekey);
  lift_res (session_err r);;
  mret ().

Definition spec_made_from_message (envelope : bytes) : cc ProteusAbs () :=
  message ← lift_res (decode_err (Envelope_deserialise envelope));
  r ← spec_consume (fun me => init_from_message me message);
  lift_res (session_err r);;
  mret ().

Definition spec_from_message (id envelope : bytes) : cc ProteusAbs bytes :=
  message ← lift_res (decode_err (Envelope_deserialise envelope));
  r ← spec_consume (fun me => init_from_message me message);
  p ← lift_res (session_err r);
  spec_save id p.1;;
  mret p.2.

Definition spec_session_save (id : bytes) : cc ProteusAbs () := fun ab =>
  match ab_sessions ab !! id with
  | Some s => spec_save id s ab
  | None => (Ok (), ab)
  end.

Definition spec_exists (id : bytes) : cc ProteusAbs bool := fun ab =>
  (Ok (bool_decide (is_Some (ab_sessions ab !! id))), ab).

(** One after the other, those that there are; of equal ids the last counts. *)
Fixpoint spec_encrypt_batched (ids : list bytes) (plaintext : bytes) (acc : gmap bytes bytes) :
    cc ProteusAbs (gmap bytes bytes) :=
  match ids with
  | [] => mret acc
  | id :: ids =>
      there ← spec_exists id;
      if there : bool then
        ciphertext ← spec_encrypt id plaintext;
        spec_encrypt_batched ids plaintext (<[id := ciphertext]> acc)
      else spec_encrypt_batched ids plaintext acc
  end.

Definition spec_bundle (prekey : PreKey) : cc ProteusAbs bytes := fun ab =>
  lift_res (encode_err (PreKeyBundle_serialise (PreKeyBundle_new (public_key (ab_identity ab)) prekey))) ab.

Definition spec_put_prekey (id : Z) (serialised : bytes) : cc ProteusAbs () :=
  st_modify (fun ab => set_prekeys (<[id := serialised]> (ab_prekeys ab)) ab).

Definition spec_new_prekey (id : Z) : cc ProteusAbs bytes :=
  prekey ← spec_run (fun _ => PreKey_new id);
  serialised ← lift_res (encode_err (PreKey_serialise prekey));
  bundle ← spec_bundle prekey;
  spec_put_prekey id serialised;;
  mret bundle.

(** The first id that is free; the last id is kept for the prekey of last resort. *)
Definition free_prekey_id (m : gmap Z bytes) : option Z :=
  first (fun id => bool_decide (m !! id = None)) (seqZ 1 (u16_max - 1)).

Definition spec_new_prekey_auto : cc ProteusAbs (Z * bytes) :=
  ab ← st_get;
  id ← some_or (KeyStoreError NoFreePrekeyId) (free_prekey_id (ab_prekeys ab));
  bundle ← spec_new_prekey id;
  mret (id, bundle).

Definition spec_last_resort : cc ProteusAbs bytes :=
  ab ← st_get;
  last_resort ← match ab_prekeys ab !! u16_max with
    | Some b => lift_res (decode_err (PreKey_deserialise b))
    | None =>
        last_resort ← spec_run (fun _ => PreKey_last_resort);
        serialised ← lift_res (encode_err (PreKey_serialise last_resort));
        spec_put_prekey u16_max serialised;;
        mret last_resort
    end;
  spec_bundle last_resort.

Definition spec_fingerprint (f : ProteusSessionState -> IdentityKey) (id : bytes) : cc ProteusAbs bytes :=
  s ← spec_session id;
  mret (key_fingerprint (f s)).
End abstract.

(** ** The relation *)

Section refinement.
Context `{En : SqlEngine, Li : SchnellruLimits, Sc : Schnellru} `{!SchnellruLaws} `{Pl : ProteusLib, !ProteusLaws}.
Implicit Types (ab : ProteusAbs) (v : view).

Definition session_with (id : bytes) (x : ProteusSession) : bool := bool_decide (ps_id x = id).
Definition prekey_with (id : Z) (x : ProteusPrekey) : bool := bool_decide (prk_id x = id).

(** The rows of the sessions, in which every one can be read, are those of the map. *)
Record sessions_kept ab (ls : list ProteusSession) : Prop := {
  sk_distinct : NoDup (ps_id <$> ls);
  sk_read x : x ∈ ls -> exists y, Session_deserialise (ab_identity ab) (ps_session x) = Ok y;
  sk_rows id : ab_sessions ab !! id =
    (x ← first (session_with id) ls; res_ok (Session_deserialise (ab_identity ab) (ps_session x)));
}.

Record prekeys_kept ab (lp : list ProteusPrekey) : Prop := {
  pk_distinct : NoDup (prk_id <$> lp);
  pk_rows id : ab_prekeys ab !! id = prk_prekey <$> first (prekey_with id) lp;
}.

(** The row of the identity; what is stored would be read as the identity. *)
Definition identity_kept (me : IdentityKeyPair) (li : list ProteusIdentity) : Prop :=
  exists x, li = [x] /\ blen (pi_sk x) = SK_KEY_SIZE /\ blen (pi_pk x) = PK_KEY_SIZE /\
    from_raw_key_pair (pi_sk x) (pi_pk x) = Ok me.

Definition stored ab v : Prop :=
  (exists li, rep ProteusIdentity_layout v li /\ identity_kept (ab_identity ab) li) /\
  (exists ls, rep ProteusSession_layout v ls /\ sessions_kept ab ls) /\
  (exists lp, rep ProteusPrekey_layout v lp /\ prekeys_kept ab lp).

Definition on_disk ab (s : ProteusState) : Prop :=
  healthy (st_conn s) /\ st_os s = ab_os ab /\ proteus_identity (st_central s) = ab_identity ab /\
  stored ab (conn_view (st_conn s)).

Definition in_memory ab (s : ProteusState) : Prop :=
  holds (fun k c => identifier c = k /\ ab_sessions ab !! k = Some (session c)) (st_sessions s).

Definition refines ab (s : ProteusState) : Prop := on_disk ab s /\ in_memory ab s.

(** *** The tables *)

Lemma becomes_other {E F} (ly : layout E) (ly' : layout F) v v' l m :
  becomes ly v v' l -> ly_table ly' <> ly_table ly -> rep ly' v m -> rep ly' v' m.
Proof.
  intros (Hr & Ho & _) Ht Hm. eapply rep_same_table; [exact Hm| |by apply Ho].
  by destruct Hr as (k & (Htx & _) & _).
Qed.

Lemma stored_put_session ab v v' ls id b s :
  stored ab v -> rep ProteusSession_layout v ls -> sessions_kept ab ls ->
  becomes ProteusSession_layout v v' (upsert (session_with id) (MkProteusSession id b) ls) ->
  Session_deserialise (ab_identity ab) b = Ok s -> stored (put_session id s ab) v'.
Proof.
  intros (Hi & _ & Hp) Hls Hk Hb Hs. split; [|split].
  - destruct Hi as (li & Hli & Hi). exists li. split; [|done]. by eapply becomes_other.
  - eexists. split; [by apply Hb|]. constructor.
    + apply (NoDup_upsert ps_id (MkProteusSession id b)), Hk.
    + intros x [->|Hx]%elem_of_upsert; [by exists s|]. by eapply (sk_read _ _ Hk).
    + intros id'. simpl. destruct (decide (id = id')) as [<-|Hne].
      * rewrite lookup_insert_eq, first_upsert by exact (bool_decide_eq_true_2 (id = id) eq_refl).
        simpl. by rewrite Hs.
      * rewrite lookup_insert_ne, (sk_rows _ _ Hk) by done.
        rewrite first_upsert_other; [done|by apply bool_decide_eq_false|].
        intros x Hx%bool_decide_eq_true. apply bool_decide_eq_false. congruence.
  - destruct Hp as (lp & Hlp & Hp). exists lp. split; [by eapply becomes_other|]. by destruct Hp.
Qed.

Lemma stored_drop_session ab v v' ls id :
  stored ab v -> rep ProteusSession_layout v ls -> sessions_kept ab ls ->
  becomes ProteusSession_layout v v' (List.filter (fun x => negb (session_with id x)) ls) ->
  stored (drop_session id ab) v'.
Proof.
  intros (Hi & _ & Hp) Hls Hk Hb. split; [|split].
  - destruct Hi as (li & Hli & Hi). exists li. split; [|done]. by eapply becomes_other.
  - eexists. split; [by apply Hb|]. constructor.
    + apply NoDup_filter_key, Hk.
    + intros x [Hx _]%list_elem_of_In%List.filter_In. apply list_elem_of_In in Hx. by eapply (sk_read _ _ Hk).
    + intros id'. simpl. destruct (decide (id = id')) as [<-|Hne].
      * rewrite lookup_delete_eq, (proj2 (first_None _ _)); [done|].
        intros x [_ Hx%negb_true_iff]%list_elem_of_In%List.filter_In. done.
      * rewrite lookup_delete_ne, (sk_rows _ _ Hk) by done. f_equal.
        symmetry. apply first_filter_imp. intros x Hx%bool_decide_eq_true.
        apply negb_true_iff, bool_decide_eq_false. congruence.
  - destruct Hp as (lp & Hlp & Hp). exists lp. split; [by eapply becomes_other|]. by destruct Hp.
Qed.

Lemma stored_prekeys ab v v' lp l' m :
  stored ab v -> rep ProteusPrekey_layout v lp -> prekeys_kept ab lp ->
  becomes ProteusPrekey_layout v v' l' -> prekeys_kept (set_prekeys m ab) l' ->
  stored (set_prekeys m ab) v'.
Proof.
  intros (Hi & Hs & _) Hlp Hk Hb Hk'. split; [|split].
  - destruct Hi as (li & Hli & Hi). exists li. split; [|done]. by eapply becomes_other.
  - destruct Hs as (ls & Hls & Hs). exists ls. split; [by eapply becomes_other|]. by destruct Hs.
  - eexists. split; [by apply Hb|done].
Qed.

(** *** Prekeys *)

Lemma set_prekeys_id ab : set_prekeys (ab_prekeys ab) ab = ab.
Proof. by destruct ab. Qed.

Lemma mod_u16 id : 0 <= id mod 65536 <= u16_max.
Proof. pose proof (Z.mod_pos_bound id 65536). unfold u16_max. lia. Qed.

Lemma find_prekey_row ab v id :
  stored ab v -> exists p o, ProteusPrekey_find_one (u16_to_le_bytes id) = Some p /\
    run p v = (Ok o, v) /\ prk_prekey <$> o = ab_prekeys ab !! (id mod 65536).
Proof.
  intros (_ & _ & lp & Hlp & Hk). unfold ProteusPrekey_find_one.
  rewrite u16_to_le_bytes_mod, ProteusPrekey_id_from_slice_le by apply mod_u16.
  do 2 eexists. split; [done|]. split; [by apply ProteusPrekey_find_id_ok|].
  by rewrite (pk_rows _ _ Hk).
Qed.

Lemma put_prekey_kept ab lp id b :
  prekeys_kept ab lp ->
  prekeys_kept (set_prekeys (<[id := b]> (ab_prekeys ab)) ab)
    (upsert (prekey_with id) (ProteusPrekey_from_raw id b) lp).
Proof.
  intros Hk. constructor.
  - apply (NoDup_upsert prk_id (ProteusPrekey_from_raw id b)), Hk.
  - intros id'. simpl. destruct (decide (id = id')) as [<-|Hne].
    + by rewrite lookup_insert_eq, first_upsert by exact (bool_decide_eq_true_2 (id = id) eq_refl).
    + rewrite lookup_insert_ne, (pk_rows _ _ Hk) by done.
      rewrite first_upsert_other; [done|by apply bool_decide_eq_false|].
      intros x Hx%bool_decide_eq_true. apply bool_decide_eq_false. congruence.
Qed.

Lemma drop_prekey_kept ab lp id :
  prekeys_kept ab lp ->
  prekeys_kept (set_prekeys (delete id (ab_prekeys ab)) ab)
    (List.filter (fun x => negb (prekey_with id x)) lp).
Proof.
  intros Hk. constructor.
  - apply NoDup_filter_key, Hk.
  - intros id'. simpl. destruct (decide (id = id')) as [<-|Hne].
    + rewrite lookup_delete_eq, (proj2 (first_None _ _)); [done|].
      by intros x [_ Hx%negb_true_iff]%list_elem_of_In%List.filter_In.
    + rewrite lookup_delete_ne, (pk_rows _ _ Hk) by done. f_equal.
      symmetry. apply first_filter_imp. intros x Hx%bool_decide_eq_true.
      apply negb_true_iff, bool_decide_eq_false. congruence.
Qed.

(** Removing a prekey that there is, or that there is not. *)
Lemma remove_prekey_row ab v id :
  stored ab v -> exists p, PreKeyStore_remove id = Some p /\
    match ab_prekeys ab !! (id mod 65536) with
    | Some _ => exists v', run p v = (Ok (), v') /\
        stored (set_prekeys (delete (id mod 65536) (ab_prekeys ab)) ab) v'
    | None => run p v = (Err (MissingKeyInStore MissingProteusPrekey), v)
    end.
Proof.
  intros Hst. pose proof Hst as (_ & _ & lp & Hlp & Hk).
  destruct (ProteusPrekey_delete_ok v lp (id mod 65536) Hlp (mod_u16 id)) as (p & Hp & Hr).
  unfold PreKeyStore_remove. rewrite u16_to_le_bytes_mod. exists p. split; [done|].
  rewrite (length_filter_key prk_id) in Hr by apply Hk. rewrite (pk_rows _ _ Hk). unfold prekey_with.
  destruct (first _ lp) as [x|] eqn:Hf; simpl.
  - assert (length lp = S (pred (length lp))) as Hl.
    { apply first_Some in Hf as [Hin _]. destruct lp; [by apply not_elem_of_nil in Hin|done]. }
    rewrite bool_decide_eq_true_2 in Hr by done. destruct Hr as (v' & Hr & Hb). exists v'.
    split; [done|]. eapply stored_prekeys; [done..|]. by apply drop_prekey_kept.
  - rewrite bool_decide_eq_false_2 in Hr by lia. done.
Qed.

(** A computation of the crate, on the key store, does what it does on the map. *)
Lemma with_prekeys_run {A} (p : prekey_prog A) ab (c : conn) :
  healthy c -> stored ab (conn_view c) ->
  exists c', with_prekeys p c = (Ok (spec_prekeys p (ab_prekeys ab)).1, c') /\ healthy c' /\
    stored (set_prekeys (spec_prekeys p (ab_prekeys ab)).2 ab) (conn_view c').
Proof.
  revert ab c. induction p as [a|id k IH|id k IH]; intros ab c Hh Hst; cbn [with_prekeys spec_prekeys].
  - exists c. split_and!; [done..|]. simpl. by rewrite set_prekeys_id.
  - destruct (find_prekey_row _ _ id Hst) as (p & o & Hp & Hr & Ho).
    unfold PreKeyStore_prekey. rewrite Hp. cbn [option_map].
    destruct (exec_prog_run (o ← p; mret (option_map prk_prekey o)) c (Ok (prk_prekey <$> o)) (conn_view c) Hh)
      as (c' & Hx & Hv & Hc).
    { by rewrite (run_bind_ok _ _ _ _ _ Hr). }
    rewrite Hx, <-Ho. apply IH; [done|]. by rewrite Hv.
  - destruct (remove_prekey_row _ _ id Hst) as (p & -> & Hr).
    destruct (ab_prekeys ab !! (id mod 65536)).
    + destruct Hr as (v' & Hr & Hst'). destruct (exec_prog_run _ _ _ _ Hh Hr) as (c' & -> & <- & Hc).
      destruct (IH (Ok ()) _ c' Hc Hst') as (c2 & Hx & Hc2 & Hst2). exists c2. done.
    + destruct (exec_prog_run _ _ _ _ Hh Hr) as (c' & -> & Hv & Hc). apply IH; [done|]. by rewrite Hv.
Qed.

(** *** Sessions in memory *)

(** The [Arc] of a session: if the session is cached, then in this cell. An older [Arc] of the
    session, from before it was evicted, is another cell. *)
Definition owns (id : bytes) (x : ProteusSessionState) (a : Arc) (s : ProteusState) : Prop :=
  arc_read a (st_sessions s) = Some (MkSession id x) /\
  forall a', lru_contents (gs_lru (st_sessions s)) !! id = Some a' -> a' = a.

(** The session behind its [Arc] changes: the cache is ahead of the key store. *)
Lemma in_memory_write ab s s' a id x y :
  in_memory ab s -> owns id x a s ->
  st_sessions s' = arc_write a (MkSession id y) (st_sessions s) ->
  in_memory (put_session id y ab) s' /\ owns id y a s'.
Proof.
  intros Hm [Ha Hown] Hs'. unfold in_memory, owns. rewrite Hs'.
  assert (gs_cells (arc_write a (MkSession id y) (st_sessions s)) !! a = Some (MkSession id y)) as Hw.
  { by apply list_lookup_insert_eq, (lookup_lt_Some _ _ _ Ha). }
  split; [|done]. intros k a' Hk. simpl in Hk. destruct (decide (k = id)) as [->|Hne].
  - rewrite (Hown _ Hk). exists (MkSession id y). split; [done|]. simpl. by rewrite lookup_insert_eq.
  - destruct (Hm _ _ Hk) as (c & Hc & <- & Hs). exists c. simpl. rewrite lookup_insert_ne by done.
    split; [|done]. rewrite list_lookup_insert_ne; [done|]. intros ->.
    unfold arc_read in Ha. rewrite Hc in Ha. by injection Ha as ->.
Qed.

(** *** Looking a session up *)

Lemma session_row ab (c : conn) id :
  healthy c -> stored ab (conn_view c) -> utf8_valid id = true ->
  exists c', session_fetch_from_id id (Some (ab_identity ab)) c =
    (Ok (MkSession id <$> ab_sessions ab !! id), c') /\ healthy c' /\ conn_view c' = conn_view c.
Proof.
  intros Hh (_ & (ls & Hls & Hk) & _) Hid.
  pose proof (el_find_one (E := ProteusSession) _ ls id Hls Hid) as Hr.
  destruct (on_conn_run _ _ _ _ Hh Hr) as (c' & Hx & Hv & Hc). exists c'. split; [|done].
  unfold session_fetch_from_id. rewrite (stm_bind_ok _ _ _ _ _ Hx), (sk_rows _ _ Hk).
  change (fun e : ProteusSession => bool_decide (el_key e = id)) with (session_with id).
  destruct (first (session_with id) ls) as [x|] eqn:Hf; [|done].
  apply first_Some in Hf as [Hin Hid'%bool_decide_eq_true]. destruct (sk_read _ _ Hk x Hin) as [y Hy].
  cbn [mbind option_bind fmap option_fmap option_map el_stored ProteusSession_laws]. unfold Datatypes.id.
  erewrite (stm_bind_ok (some_or ProteusNotInitialized (Some (ab_identity ab)))) by reflexivity.
  rewrite Hy. by subst.
Qed.

Lemma session_get_run ab s id :
  refines ab s -> utf8_valid id = true ->
  exists o s', session_get id s = (Ok o, s') /\ refines ab s' /\
    match ab_sessions ab !! id with
    | Some x => exists a, o = Some a /\ owns id x a s'
    | None => o = None
    end.
Proof.
  intros [(Hh & Hos & Hme & Hst) Hm] Hid.
  destruct (session_row _ _ _ Hh Hst Hid) as (c' & Hf & Hc' & Hv).
  pose proof (get_fetch_run (V := ProteusConversationSession) id) as Hget.
  destruct (Hget (Some (ab_identity ab)) (st_conn s) (st_sessions s)) as (gs1 & Hca & Hce & _ & Hr).
  assert (forall c gs, healthy c -> conn_view c = conn_view (st_conn s) ->
    in_memory ab (set_sessions gs (MkProteusState c (st_os s) (st_central s))) ->
    refines ab (set_sessions gs (MkProteusState c (st_os s) (st_central s)))) as Hkeep.
  { intros c gs Hc Hcv Hg. split; [|done]. split_and!; [done..|]. simpl. by rewrite Hcv. }
  assert (holds (fun k c => identifier c = k /\ ab_sessions ab !! k = Some (session c)) gs1) as Hm1.
  { intros k a. rewrite Hca, Hce. apply Hm. }
  change (session_get id s) with (in_sessions (get_fetch id (Some (proteus_identity (st_central s)))) s).
  unfold in_sessions, on. rewrite Hme, Hr.
  destruct (lru_contents (gs_lru (st_sessions s)) !! id) as [a|] eqn:Hcached.
  - do 2 eexists. split; [done|]. split; [by apply Hkeep|].
    destruct (Hm _ _ Hcached) as (c & Hc & <- & ->). exists a. split; [done|]. split; simpl.
    + change (gs_cells gs1 !! a = Some (MkSession (identifier c) (session c))). rewrite Hce, Hc. by destruct c.
    + intros a'. change (lru_contents (gs_lru gs1) !! identifier c = Some a' -> a' = a).
      rewrite Hca, Hcached. by intros [= <-].
  - cbn [fetch_from_id ProteusConversationSession_group_store_entity]. rewrite Hf.
    destruct (ab_sessions ab !! id) as [x|] eqn:Hx; cbn [fmap option_fmap option_map].
    + do 2 eexists. split; [done|]. split.
      * apply Hkeep; [done..|]. apply holds_insert_prepped with (MkSession id x).
        -- by apply (holds_new _ (MkSession id x)).
        -- simpl. rewrite <-Hce. by apply list_lookup_middle.
        -- by split.
      * eexists. split; [done|]. split; simpl.
        -- change ((gs_cells gs1 ++ [MkSession id x]) !! length (gs_cells (st_sessions s)) = Some (MkSession id x)).
           by apply list_lookup_middle; rewrite Hce.
        -- intros a' Ha'. apply insert_prepped_cached in Ha'. by rewrite decide_True in Ha'.
    + do 2 eexists. split; [done|]. split; [by apply Hkeep|done].
Qed.

(** *** Saving *)

Lemma stored_same ab ab' v :
  ab_identity ab' = ab_identity ab -> ab_sessions ab' = ab_sessions ab -> ab_prekeys ab' = ab_prekeys ab ->
  stored ab v -> stored ab' v.
Proof.
  destruct ab, ab'. simpl. intros -> -> -> (Hi & (ls & Hls & Hs) & (lp & Hlp & Hp)).
  split; [done|]. split; [exists ls|exists lp]; (split; [done|]); [by destruct Hs|by destruct Hp].
Qed.

Lemma stored_owner ab v id x :
  stored ab v -> ab_sessions ab !! id = Some x -> session_owner x = ab_identity ab.
Proof.
  intros (_ & (ls & _ & Hk) & _). rewrite (sk_rows _ _ Hk).
  destruct (first (session_with id) ls) as [row|] eqn:Hf; [|done].
  apply first_Some in Hf as [Hin _]. destruct (sk_read _ _ Hk row Hin) as [y Hy].
  cbn [mbind option_bind]. rewrite Hy. intros [= <-]. by eapply owner_deserialise.
Qed.

(** A computation does what the abstract one says, with the same answer, errors included. When it
    fails, what is in memory may be ahead of the key store. *)
Definition outcome {A} (p : cc ProteusAbs A) ab (r : result Stop A) (s' : ProteusState) : Prop :=
  exists ab', p ab = (r, ab') /\ on_disk ab' s' /\ (is_ok r = true -> in_memory ab' s').

Definition sim {A} (m : cc ProteusState A) (p : cc ProteusAbs A) : Prop :=
  forall ab s r s', refines ab s -> m s = (r, s') -> outcome p ab r s'.

Lemma outcome_bind {A B} (p : cc ProteusAbs A) (q : A -> cc ProteusAbs B) a ab ab1 r s' :
  p ab = (Ok a, ab1) -> outcome (q a) ab1 r s' -> outcome (p ≫= q) ab r s'.
Proof. intros Hp. unfold outcome. by rewrite (stm_bind_ok _ _ _ _ _ Hp). Qed.

Lemma outcome_err {A B} (p : cc ProteusAbs A) (q : A -> cc ProteusAbs B) e ab ab' s' :
  p ab = (Err e, ab') -> on_disk ab' s' -> outcome (p ≫= q) ab (Err e) s'.
Proof. intros Hp Hd. exists ab'. by rewrite (stm_bind_err _ _ _ _ _ Hp). Qed.

(** A step that fails or not, and leaves the state as it is. *)
Lemma outcome_lift {A B} (x : CryptoResult A) (m : A -> cc ProteusState B) (q : A -> cc ProteusAbs B) ab s r s' :
  (lift_res x ≫= m) s = (r, s') -> on_disk ab s ->
  (forall a, x = Ok a -> m a s = (r, s') -> outcome (q a) ab r s') ->
  outcome (lift_res x ≫= q) ab r s'.
Proof.
  intros Hx Hd Hm. destruct x as [a|e].
  - eapply outcome_bind; [done|]. by apply Hm.
  - injection Hx as <- <-. by eapply outcome_err.
Qed.

Lemma sim_bind {A B} (m : cc ProteusState A) p (f : A -> cc ProteusState B) q :
  sim m p -> (forall a, sim (f a) (q a)) -> sim (m ≫= f) (p ≫= q).
Proof.
  intros Hm Hf ab s r s' Hr. unfold mbind at 1, stm_bind at 1.
  destruct (m s) as [[a|e] s1] eqn:Hx; destruct (Hm _ _ _ _ Hr Hx) as (ab1 & Hp & Hd & Hi).
  - intros Hy. eapply outcome_bind; [exact Hp|]. eapply Hf; [|exact Hy]. split; [done|by apply Hi].
  - intros [= <- <-]. by eapply outcome_err.
Qed.

Lemma sim_ret {A} (a : A) : sim (mret a) (mret a).
Proof. intros ab s r s' [Hd Hm] [= <- <-]. by exists ab. Qed.

Lemma sim_lift {A} (x : CryptoResult A) : sim (lift_res x) (lift_res x).
Proof. intros ab s r s' [Hd Hm] [= <- <-]. by exists ab. Qed.

(** The session that is in memory is put in the key store. *)
Lemma save_by_ref_outcome ab s a id x r s' :
  on_disk ab s -> in_memory (put_session id x ab) s -> owns id x a s ->
  session_owner x = ab_identity ab ->
  session_save_by_ref a s = (r, s') -> outcome (spec_save id x) ab r s'.
Proof.
  intros Hd Hm [Ha _] Hown. unfold session_save_by_ref, read_session.
  rewrite (stm_bind_ok _ _ _ (MkSession id x) s) by (unfold unwrap; by rewrite Ha). cbn [session identifier].
  intros Hx. eapply outcome_lift; [exact Hx|done|]. clear Hx. intros b Hb Hx.
  destruct (Session_serialise x) as [b'|] eqn:Hser; [|done]. injection Hb as ->.
  destruct Hd as (Hh & Hos & Hme & Hst). pose proof Hst as (_ & (ls & Hls & Hk) & _).
  assert (rep (el_layout (E := ProteusSession)) (conn_view (st_conn s)) ls) as Hl by exact Hls.
  unfold in_keystore, on in Hx. unfold mbind, stm_bind in Hx.
  destruct (ProteusSession_fits (MkProteusSession id b)) eqn:Hf.
  - assert (ul_fits (MkProteusSession id b) = true) as Hf' by exact Hf.
    destruct (Connection_save_run _ _ (MkProteusSession id b) Hl Hf') as (v' & Hr & Hb).
    destruct (on_conn_run _ _ _ _ Hh Hr) as (c' & Hcn & <- & Hc). rewrite Hcn in Hx. cbn [map_err] in Hx.
    injection Hx as <- <-. exists (put_session id x ab). split; [reflexivity|]. split; [|done].
    split_and!; [done..|]. apply (stored_put_session _ _ _ _ _ _ _ Hst Hls Hk Hb). rewrite <-Hown. by apply session_roundtrip.
  - assert (ul_fits (MkProteusSession id b) = false) as Hf' by exact Hf.
    pose proof (ul_save_big _ _ (MkProteusSession id b) Hl Hf') as Hr.
    assert (run (Connection_save (MkProteusSession id b)) (conn_view (st_conn s)) =
      (Err BlobTooBig, conn_view (st_conn s))) as Hr'.
    { unfold Connection_save. by rewrite (run_bind_err _ _ _ _ _ Hr). }
    destruct (on_conn_run _ _ _ _ Hh Hr') as (c' & Hcn & Hv & Hc). rewrite Hcn in Hx.
    cbn [map_err] in Hx. injection Hx as <- <-. exists ab. split; [reflexivity|]. split; [|done].
    split_and!; [done..|]. cbn [st_conn]. by rewrite Hv.
Qed.

(** A session is computed with, behind its [Arc], and what it became is saved. *)
Lemma session_written ab ab1 s a id x y (c : conn) :
  refines ab s -> owns id x a s -> healthy c -> stored ab1 (conn_view c) ->
  ab_identity ab1 = ab_identity ab -> ab_sessions ab1 = ab_sessions ab ->
  let s1 := set_sessions (arc_write a (MkSession id y) (st_sessions s))
              (MkProteusState c (ab_os ab1) (st_central s)) in
  on_disk ab1 s1 /\ in_memory (put_session id y ab1) s1 /\ owns id y a s1.
Proof.
  intros [(Hh & Hos & Hme & Hst) Hm] Ha Hc Hst1 Hi Hs s1.
  destruct (in_memory_write ab s s1 a id x y Hm Ha eq_refl) as [Hm1 Ha1].
  split_and!; [|by unfold in_memory, put_session in *; simpl in *; rewrite Hs|done].
  split_and!; [done..|by rewrite Hi|done].
Qed.

(** With the answer of the computation, the session is saved and the answer is given. *)
Lemma answer_outcome {A} ab1 s1 a id y (x : CryptoResult A) r s' :
  on_disk ab1 s1 /\ in_memory (put_session id y ab1) s1 /\ owns id y a s1 ->
  session_owner y = ab_identity ab1 ->
  (lift_res x ≫= fun ans => session_save_by_ref a;; mret ans) s1 = (r, s') ->
  outcome (lift_res x ≫= fun ans => spec_save id y;; mret ans) ab1 r s'.
Proof.
  intros (Hd & Hm & Ha) Hown Hx. eapply outcome_lift; [exact Hx|done|]. clear Hx. intros ans _ Hx.
  unfold mbind, stm_bind in Hx. destruct (session_save_by_ref a s1) as [[u|e] s2] eqn:Hs;
    pose proof (save_by_ref_outcome _ _ _ _ _ _ _ Hd Hm Ha Hown Hs) as (ab2 & Hp & Hd2 & Hm2);
    injection Hx as <- <-.
  - eapply outcome_bind; [exact Hp|]. exists ab2. auto.
  - by eapply outcome_err.
Qed.

(** *** The calls *)

(** A call that looks a session up first. *)
Lemma get_outcome {B} ab s id (k : option Arc -> cc ProteusState B) (p : cc ProteusAbs B) r s' :
  refines ab s -> utf8_valid id = true -> (session_get id ≫= k) s = (r, s') ->
  (forall s1 a x, refines ab s1 -> ab_sessions ab !! id = Some x -> owns id x a s1 ->
     k (Some a) s1 = (r, s') -> outcome p ab r s') ->
  (forall s1, refines ab s1 -> ab_sessions ab !! id = None -> k None s1 = (r, s') -> outcome p ab r s') ->
  outcome p ab r s'.
Proof.
  intros Hr Hid Hx Hsome Hnone. destruct (session_get_run _ _ _ Hr Hid) as (o & s1 & Hg & Hr1 & Ho).
  rewrite (stm_bind_ok _ _ _ _ _ Hg) in Hx. destruct (ab_sessions ab !! id) as [x|] eqn:Hl.
  - destruct Ho as (a & -> & Ha). by eapply Hsome.
  - subst. by eapply Hnone.
Qed.

Lemma sim_session {B} id (f : Arc -> cc ProteusState B) (q : ProteusSessionState -> cc ProteusAbs B) :
  utf8_valid id = true ->
  (forall ab s a x r s', refines ab s -> ab_sessions ab !! id = Some x -> owns id x a s ->
     f a s = (r, s') -> outcome (q x) ab r s') ->
  sim (o ← session_get id; match o with Some a => f a | None => throw (ConversationNotFound id) end)
    (x ← spec_session id; q x).
Proof.
  intros Hid Hf ab s r s' Hr Hx. eapply get_outcome; [exact Hr|exact Hid|exact Hx|..].
  - intros s1 a x Hr1 Hl Ha Hk. eapply outcome_bind; [|by eapply Hf]. unfold spec_session. by rewrite Hl.
  - intros s1 [Hd _] Hl [= <- <-]. eapply outcome_err; [|done]. unfold spec_session. by rewrite Hl.
Qed.

Lemma with_session_encrypt s a c m :
  arc_read a (st_sessions s) = Some c ->
  with_session a (conversation_encrypt m) s =
  let '(e, y, os) := Session_encrypt (session c) m (st_os s) in
  (map_err Throw (encode_err (e ← e; Envelope_serialise e)),
   set_sessions (arc_write a (MkSession (identifier c) y) (st_sessions s))
     (MkProteusState (st_conn s) os (st_central s))).
Proof.
  intros Ha. unfold with_session, conversation_encrypt. rewrite Ha.
  by destruct (Session_encrypt (session c) m (st_os s)) as [[e y] os].
Qed.

Lemma encrypt_body ab s a id x m r s' :
  refines ab s -> ab_sessions ab !! id = Some x -> owns id x a s ->
  (ciphertext ← with_session a (conversation_encrypt m); session_save_by_ref a;; mret ciphertext) s = (r, s') ->
  outcome (p ← spec_run (fun _ os => let '(e, s, os) := Session_encrypt x m os in ((e, s), os));
    ciphertext ← lift_res (encode_err (e ← p.1; Envelope_serialise e));
    spec_save id p.2;; mret ciphertext) ab r s'.
Proof.
  intros Hr Hl Ha. pose proof Hr as [(Hh & Hos & Hme & Hst) _].
  unfold mbind at 1, stm_bind at 1. rewrite (with_session_encrypt _ _ _ _ (proj1 Ha)). cbn [session identifier].
  rewrite Hos. pose proof (owner_encrypt x m (ab_os ab)) as Hown.
  destruct (Session_encrypt x m (ab_os ab)) as [[e y] os] eqn:He. cbn [fst snd] in Hown. intros Hx.
  eapply outcome_bind with (a := (e, y)) (ab1 := set_os os ab); [unfold spec_run; by rewrite He|].
  cbn [fst snd]. eapply answer_outcome; [|rewrite Hown; exact (stored_owner _ _ _ _ Hst Hl)|exact Hx].
  apply (session_written ab (set_os os ab) s a id x y _ Hr Ha Hh); [|done|done].
  exact (stored_same ab (set_os os ab) _ eq_refl eq_refl eq_refl Hst).
Qed.

Lemma encrypt_sim id m : utf8_valid id = true -> sim (pc_encrypt id m) (spec_encrypt id m).
Proof. intros Hid. apply sim_session; [done|]. intros ab s a x r s'. apply encrypt_body. Qed.

(** A message is decrypted: the prekeys it asks for are those of the key store. *)
Lemma with_session_decrypt ab s a c m envelope :
  arc_read a (st_sessions s) = Some c -> healthy (st_conn s) -> stored ab (conn_view (st_conn s)) ->
  Envelope_deserialise m = Ok envelope ->
  let '((plain, y, os), prekeys) := spec_prekeys (Session_decrypt (session c) envelope (st_os s)) (ab_prekeys ab) in
  exists cn, healthy cn /\ stored (set_prekeys prekeys ab) (conn_view cn) /\
  with_session a (conversation_decrypt m) s =
    (map_err Throw (session_err plain),
     set_sessions (arc_write a (MkSession (identifier c) y) (st_sessions s))
       (MkProteusState cn os (st_central s))).
Proof.
  intros Ha Hh Hst He.
  destruct (with_prekeys_run (Session_decrypt (session c) envelope (st_os s)) ab _ Hh Hst) as (cn & Hx & Hc & Hst').
  destruct (spec_prekeys _ _) as [[[plain y] os] prekeys]. exists cn. split_and!; [done..|].
  unfold with_session, conversation_decrypt. rewrite Ha, He, Hx. done.
Qed.

Lemma spec_prekeys_all {A} (P : A -> Prop) (p : prekey_prog A) m : pk_all P p -> P (spec_prekeys p m).1.
Proof.
  revert m. induction p as [a|id k IH|id k IH]; intros m Hp; simpl in *; [done|by apply IH|].
  destruct (m !! _); by apply IH.
Qed.

Lemma decrypt_sim id m : utf8_valid id = true -> sim (pc_decrypt id m) (spec_decrypt id m).
Proof.
  intros Hid. apply sim_session; [done|]. intros ab s a x r s' Hr Hl Ha.
  pose proof Hr as [(Hh & Hos & Hme & Hst) _].
  destruct (Envelope_deserialise m) as [envelope|e] eqn:He.
  2: { unfold mbind at 1, stm_bind at 1, with_session, conversation_decrypt. rewrite (proj1 Ha), He.
    intros Hx. injection Hx as <- <-. eapply outcome_err; [done|]. destruct Hr as [Hd _].
    destruct Hd as (_ & _ & _ & _). split_and!; done. }
  pose proof (with_session_decrypt ab s a _ m envelope (proj1 Ha) Hh Hst He) as Hw. cbn [session identifier] in Hw.
  rewrite Hos in Hw. pose proof (spec_prekeys_all _ _ (ab_prekeys ab) (owner_decrypt x envelope (ab_os ab))) as Hown.
  unfold mbind at 1, stm_bind at 1.
  destruct (spec_prekeys _ _) as [[[plain y] os] prekeys] eqn:Hp. destruct Hw as (cn & Hc & Hst' & ->).
  cbn [fst snd] in Hown. intros Hx. eapply outcome_bind; [done|]. cbv beta.
  eapply outcome_bind with (a := (plain, y)) (ab1 := set_os os (set_prekeys prekeys ab));
    [unfold spec_consume; by rewrite Hp|].
  cbn [fst snd]. eapply answer_outcome; [|rewrite Hown; exact (stored_owner _ _ _ _ Hst Hl)|exact Hx].
  apply (session_written ab (set_os os (set_prekeys prekeys ab)) s a id x y _ Hr Ha Hc); [|done|done].
  exact (stored_same (set_prekeys prekeys ab) (set_os os (set_prekeys prekeys ab)) _ eq_refl eq_refl eq_refl Hst').
Qed.

(** A new session goes in the cache; the cache may refuse it, which the code does not expect. *)
Lemma insert_session_run ab s id x r s' :
  on_disk ab s -> in_memory ab s -> insert_session id (MkSession id x) s = (r, s') ->
  (r = Err Panic /\ on_disk ab s') \/
  exists a, r = Ok a /\ on_disk ab s' /\ in_memory (put_session id x ab) s' /\ owns id x a s'.
Proof.
  intros Hd Hm. unfold insert_session, mbind, stm_bind, st_modify, in_sessions, on, in_store. simpl.
  set (gs := gs_insert id (MkSession id x) (st_sessions s)).
  change (st_sessions (set_sessions gs s)) with gs.
  pose proof (lru_get_contents id (gs_lru gs)) as (Hk & Hc & _). unfold gs_get.
  destruct (lru_get id (gs_lru gs)) as [[a|] m]; simpl in *; intros [= <- <-]; [right|by left].
  symmetry in Hk. pose proof (gs_insert_cached id (MkSession id x) (st_sessions s) _ _ Hk) as Ha. rewrite decide_True in Ha by done.
  assert (gs_cells gs !! a = Some (MkSession id x)) as Hcell.
  { subst a. by apply list_lookup_middle. }
  exists a. split; [done|]. split; [done|]. split; [|split].
  - intros k a'. change (lru_contents m !! k = Some a' -> exists c, gs_cells gs !! a' = Some c /\
      identifier c = k /\ ab_sessions (put_session id x ab) !! k = Some (session c)).
    rewrite Hc. intros Hka. pose proof (gs_insert_cached id (MkSession id x) (st_sessions s) _ _ Hka) as Hka'. case_decide as Hki.
    + subst. exists (MkSession id x). by simpl; rewrite lookup_insert_eq.
    + destruct (Hm _ _ Hka') as (c & Hcc & Hid & Hs). exists c. split; [by apply gs_insert_cells|].
      split; [done|]. simpl. by rewrite lookup_insert_ne.
  - exact Hcell.
  - intros a'. change (lru_contents m !! id = Some a' -> a' = a). rewrite Hc, Hk. by intros [= <-].
Qed.

(** What the abstract machine does, or a panic after the first part [q] of it. *)
Definition sim_or_panic {A} (m : cc ProteusState A) (p : cc ProteusAbs A) (q : cc ProteusAbs ()) : Prop :=
  forall ab s r s', refines ab s -> m s = (r, s') ->
    (r = Err Panic /\ exists ab', q ab = (Ok (), ab') /\ on_disk ab' s') \/ outcome p ab r s'.

(** The session that a computation made is inserted and saved. *)
Lemma made_outcome {B} (k : Arc -> cc ProteusState B) b ab s id x r s' :
  on_disk ab s -> in_memory ab s -> session_owner x = ab_identity ab ->
  (forall a s, k a s = match session_save_by_ref a s with
                       | (Ok _, s) => (Ok b, s)
                       | (Err e, s) => (Err e, s)
                       end) ->
  (insert_session id (MkSession id x) ≫= k) s = (r, s') ->
  (r = Err Panic /\ on_disk ab s') \/ outcome (spec_save id x;; mret b) ab r s'.
Proof.
  intros Hd Hm Hown Hk. unfold mbind at 1, stm_bind at 1.
  destruct (insert_session id (MkSession id x) s) as [r1 s1] eqn:Hi.
  destruct (insert_session_run _ _ _ _ _ _ Hd Hm Hi) as [[-> Hd1]|(a & -> & Hd1 & Hm1 & Ha)].
  { intros [= <- <-]. by left. }
  rewrite Hk. right. destruct (session_save_by_ref a s1) as [[u|e] s2] eqn:Hs; simplify_eq/=;
    destruct (save_by_ref_outcome _ _ _ _ _ _ _ Hd1 Hm1 Ha Hown Hs) as (ab2 & Hp & Hd2 & Hm2).
  - eapply outcome_bind; [exact Hp|]. exists ab2. auto.
  - by eapply outcome_err.
Qed.

Lemma on_disk_os ab s os :
  on_disk ab s -> on_disk (set_os os ab) (MkProteusState (st_conn s) os (st_central s)).
Proof.
  intros (Hh & Hos & Hme & Hst). split_and!; [done..|].
  exact (stored_same ab (set_os os ab) _ eq_refl eq_refl eq_refl Hst).
Qed.

Lemma from_prekey_sim id key :
  sim_or_panic (saved_session_from_prekey id key;; mret ()) (spec_from_prekey id key)
    (spec_made_from_prekey key).
Proof.
  intros ab s r s' Hr. pose proof Hr as [(Hh & Hos & Hme & Hst) Hm].
  unfold saved_session_from_prekey, session_from_prekey, spec_from_prekey. rewrite !stm_bind_assoc.
  intros Hx. destruct (decode_err (PreKeyBundle_deserialise key)) as [prekey|e] eqn:Hk.
  2: { injection Hx as <- <-. right. eapply outcome_err; [done|apply Hr]. }
  erewrite stm_bind_ok in Hx by reflexivity. rewrite stm_bind_assoc in Hx.
  unfold mbind at 1, stm_bind at 1 in Hx. rewrite Hme, Hos in Hx.
  pose proof (on_disk_os _ _ (init_from_prekey (ab_identity ab) prekey (ab_os ab)).2 (proj1 Hr)) as Hd.
  destruct (init_from_prekey (ab_identity ab) prekey (ab_os ab)) as [[x|e] os] eqn:Hi; simpl in Hx, Hd.
  - eapply made_outcome with (b := ()) in Hx as [[-> Hd']|Ho]; [| |exact Hd|done|by eapply owner_from_prekey|].
    + left. split; [done|]. exists (set_os os ab). split; [|exact Hd'].
      unfold spec_made_from_prekey. rewrite Hk. erewrite stm_bind_ok by reflexivity.
      erewrite stm_bind_ok by (unfold spec_run; rewrite Hi; reflexivity). done.
    + right. eapply outcome_bind; [done|]. eapply outcome_bind; [unfold spec_run; by rewrite Hi|].
      by eapply outcome_bind.
    + intros a s0. unfold mbind, stm_bind. by destruct (session_save_by_ref a s0) as [[]].
  - injection Hx as <- <-. right. eapply outcome_bind; [done|].
    eapply outcome_bind; [unfold spec_run; by rewrite Hi|]. by eapply outcome_err.
Qed.

Lemma from_message_sim id m :
  sim_or_panic (p ← saved_session_from_message id m; mret p.2) (spec_from_message id m)
    (spec_made_from_message m).
Proof.
  intros ab s r s' Hr. pose proof Hr as [(Hh & Hos & Hme & Hst) Hm].
  unfold saved_session_from_message, session_from_message, spec_from_message. rewrite !stm_bind_assoc.
  intros Hx. destruct (decode_err (Envelope_deserialise m)) as [envelope|e] eqn:Hk.
  2: { injection Hx as <- <-. right. eapply outcome_err; [done|apply Hr]. }
  erewrite stm_bind_ok in Hx by reflexivity. rewrite stm_bind_assoc in Hx.
  unfold mbind at 1, stm_bind at 1 in Hx. rewrite Hme, Hos in Hx.
  destruct (with_prekeys_run (init_from_message (ab_identity ab) envelope (ab_os ab)) ab _ Hh Hst)
    as (cn & Hp & Hc & Hst').
  pose proof (spec_prekeys_all _ _ (ab_prekeys ab) (owner_from_message (ab_identity ab) envelope (ab_os ab))) as Hown.
  rewrite Hp in Hx. destruct (spec_prekeys _ _) as [[made os] prekeys] eqn:Hsp. cbn [fst snd] in *.
  assert (on_disk (set_os os (set_prekeys prekeys ab)) (MkProteusState cn os (st_central s))) as Hd.
  { split_and!; [done..|].
    exact (stored_same (set_prekeys prekeys ab) (set_os os (set_prekeys prekeys ab)) _ eq_refl eq_refl eq_refl Hst'). }
  destruct made as [[x plain]|e]; simpl in Hx.
  - rewrite stm_bind_assoc in Hx. eapply made_outcome with (b := plain) in Hx as [[-> Hd']|Ho];
      [| |exact Hd|done|by eapply Hown|].
    + left. split; [done|]. eexists. split; [|exact Hd'].
      unfold spec_made_from_message. rewrite Hk. erewrite stm_bind_ok by reflexivity.
      erewrite stm_bind_ok by (unfold spec_consume; rewrite Hsp; reflexivity). done.
    + right. eapply outcome_bind; [done|]. eapply outcome_bind; [unfold spec_consume; by rewrite Hsp|].
      by eapply outcome_bind.
    + intros a s0. unfold mbind, stm_bind. simpl. by destruct (session_save_by_ref a s0) as [[]].
  - injection Hx as <- <-. right. eapply outcome_bind; [done|].
    eapply outcome_bind; [unfold spec_consume; by rewrite Hsp|]. by eapply outcome_err.
Qed.

Lemma session_save_sim id : utf8_valid id = true -> sim (session_save id) (spec_session_save id).
Proof.
  intros Hid ab s r s' Hr Hx. eapply get_outcome; [exact Hr|exact Hid|exact Hx|..]; clear Hx.
  - intros s1 a x [Hd Hm] Hl Ha Hx. unfold outcome, spec_session_save. rewrite Hl.
    eapply save_by_ref_outcome; [done| |done| |exact Hx].
    + unfold in_memory, put_session. simpl. by rewrite insert_id.
    + destruct Hd as (_ & _ & _ & Hst). by eapply stored_owner.
  - intros s1 [Hd Hm] Hl [= <- <-]. exists ab. unfold spec_session_save. by rewrite Hl.
Qed.

Lemma session_exists_sim id : utf8_valid id = true -> sim (session_exists id) (spec_exists id).
Proof.
  intros Hid ab s r s' Hr Hx. unfold session_exists, mbind, stm_bind, attempt in Hx.
  destruct (session_get_run _ _ _ Hr Hid) as (o & s1 & Hg & [Hd Hm] & Ho). rewrite Hg in Hx.
  exists ab. unfold spec_exists. destruct (ab_sessions ab !! id) as [x|].
  - destruct Ho as (a & -> & _). by injection Hx as <- <-.
  - subst o. by injection Hx as <- <-.
Qed.

(** Both a session that is there and one that is not are gone. *)
Lemma remove_session_run ab (c : conn) id :
  healthy c -> stored ab (conn_view c) -> utf8_valid id = true ->
  exists r c', on_conn (Connection_remove ProteusSession id) c = (r, c') /\ healthy c' /\
    stored (drop_session id ab) (conn_view c') /\
    match r with Ok _ => True | Err e => (exists e', e = Throw e') /\ drop_session id ab = ab end.
Proof.
  intros Hh Hst Hid. pose proof Hst as (_ & (ls & Hls & Hk) & _).
  assert (forall i, i ∈ [id] -> el_id_ok (E := ProteusSession) i = true) as Hids.
  { by intros i ->%list_elem_of_singleton. }
  pose proof (el_delete (E := ProteusSession) _ ls [id] Hls Hids) as Hdel. cbv zeta in Hdel.
  rewrite remove_keys_one in Hdel. cbn [length] in Hdel. rewrite Nat.add_1_r in Hdel.
  change (fun e : ProteusSession => negb (bool_decide (el_key e = id)))
    with (fun x => negb (session_with id x)) in Hdel.
  rewrite bool_decide_decide in Hdel. case_decide as Hlen.
  - destruct Hdel as (v' & Hrun & Hb).
    assert (run (Connection_remove ProteusSession id) (conn_view c) = (Ok (), v')) as Hrun'.
    { unfold Connection_remove. by rewrite (run_bind_ok _ _ _ _ _ Hrun). }
    destruct (on_conn_run _ _ _ _ Hh Hrun') as (cn & Hcn & <- & Hc). do 2 eexists. split; [done|].
    split; [done|]. split; [|done]. exact (stored_drop_session _ _ _ _ _ Hst Hls Hk Hb).
  - assert (run (Connection_remove ProteusSession id) (conn_view c) =
      (Err (MissingKeyInStore (to_missing_key_err_kind ProteusSession)), conn_view c)) as Hrun'.
    { unfold Connection_remove. by rewrite (run_bind_err _ _ _ _ _ Hdel). }
    destruct (on_conn_run _ _ _ _ Hh Hrun') as (cn & Hcn & Hv & Hc). do 2 eexists. split; [done|].
    assert (drop_session id ab = ab) as ->; [|rewrite Hv; split_and!; [done|exact Hst|split; [by eexists|done]]].
    unfold drop_session. rewrite delete_id; [by destruct ab|]. rewrite (sk_rows _ _ Hk).
    unfold session_with in Hlen. rewrite (length_filter_key ps_id) in Hlen by apply Hk. unfold session_with.
    destruct (first _ ls) as [x|] eqn:Hf; [|done]. exfalso. apply Hlen.
    apply first_Some in Hf as [Hin _]. destruct ls; [by apply not_elem_of_nil in Hin|done].
Qed.

Lemma session_delete_sim id :
  utf8_valid id = true -> sim (session_delete id) (st_modify (drop_session id)).
Proof.
  intros Hid ab s r s' [(Hh & Hos & Hme & Hst) Hm] Hx.
  destruct (remove_session_run _ _ _ Hh Hst Hid) as (x & cn & Hcn & Hc & Hst' & Hr).
  unfold session_delete, mbind, stm_bind, attempt, in_keystore, on in Hx. rewrite Hcn in Hx.
  exists (drop_session id ab). destruct x as [u|e].
  - injection Hx as <- <-. split; [done|]. split; [split_and!; [done..|exact Hst']|]. intros _ k a.
    pose proof (lru_remove_contents id (gs_lru (st_sessions s))) as (_ & Hrem & _).
    unfold st_sessions, gs_remove in *. simpl.
    destruct (lru_remove id _) as [o m]. simpl in *. rewrite Hrem.
    intros [Hne Hka]%lookup_delete_Some. rewrite lookup_delete_ne by done. by apply Hm.
  - destruct Hr as ((e' & ->) & Hdrop). injection Hx as <- <-. split; [done|]. rewrite Hdrop in *.
    split; [split_and!; [done..|exact Hst']|done].
Qed.

Lemma encrypt_batched_sim ids m acc :
  Forall (fun id => utf8_valid id = true) ids ->
  sim (encrypt_batched_loop ids m acc) (spec_encrypt_batched ids m acc).
Proof.
  intros Hids. revert acc. induction Hids as [|id ids Hid Hids IH]; intros acc; [apply sim_ret|].
  intros ab s r s' Hr Hx. cbn [encrypt_batched_loop spec_encrypt_batched] in *.
  eapply get_outcome; [exact Hr|exact Hid|exact Hx|..]; clear Hx.
  - intros s1 a x Hr1 Hl Ha. cbv beta iota.
    rewrite (stm_bind_ok (read_session a) _ s1 (MkSession id x) s1)
      by (unfold read_session, unwrap; by rewrite (proj1 Ha)). intros Hx.
    assert (spec_exists id ab = (Ok true, ab)) as Hex.
    { unfold spec_exists. by rewrite Hl. }
    eapply outcome_bind; [exact Hex|]. cbv beta iota.
    destruct ((ciphertext ← with_session a (conversation_encrypt m); session_save_by_ref a;; mret ciphertext) s1)
      as [r2 s2] eqn:He.
    pose proof (encrypt_body _ _ _ _ _ _ _ _ Hr1 Hl Ha He) as (ab2 & Hp & Hd2 & Hm2).
    assert (spec_encrypt id m ab = (r2, ab2)) as Hp'.
    { unfold spec_encrypt. erewrite stm_bind_ok; [exact Hp|]. unfold spec_session. by rewrite Hl. }
    unfold mbind, stm_bind in He, Hx. simpl in Hx.
    destruct (with_session a (conversation_encrypt m) s1) as [[ct|e] s3]; simplify_eq/=;
      [|by eapply outcome_err].
    destruct (session_save_by_ref a s3) as [[u|e] s4]; simplify_eq/=; [|by eapply outcome_err].
    injection He as <- <-. eapply outcome_bind; [exact Hp'|]. eapply IH; [|exact Hx]. split; [done|by apply Hm2].
  - intros s1 Hr1 Hl Hx. eapply outcome_bind with (a := false) (ab1 := ab).
    { unfold spec_exists. by rewrite Hl. }
    by eapply IH.
Qed.

(** *** The prekeys *)

Lemma with_os_sim {A} (f : OsRng -> A * OsRng) : sim (with_os f) (spec_run (fun _ => f)).
Proof.
  intros ab s r s' Hr Hx. pose proof Hr as [Hd Hm]. unfold with_os in Hx.
  pose proof (on_disk_os _ _ (f (ab_os ab)).2 Hd) as Hd'. destruct Hd as (_ & Hos & _). rewrite Hos in Hx.
  exists (set_os (f (ab_os ab)).2 ab). unfold spec_run. destruct (f (ab_os ab)) as [a os].
  by injection Hx as <- <-.
Qed.

Lemma bundle_sim prekey : sim (prekey_bundle prekey) (spec_bundle prekey).
Proof.
  intros ab s r s' Hr Hx. pose proof Hr as [(Hh & Hos & Hme & Hst) Hm].
  unfold prekey_bundle in Hx. change (st_get ≫= ?f) with (fun s : ProteusState => f s s) in Hx.
  cbv beta in Hx. rewrite Hme in Hx. eapply sim_lift; [exact Hr|exact Hx].
Qed.

(** Any program that saves the prekey. *)
Lemma save_prekey_sim (save : prog ()) id b :
  (forall v v', run (ProteusPrekey_save (ProteusPrekey_from_raw id b)) v = (Ok (), v') -> run save v = (Ok (), v')) ->
  0 <= id <= u16_max -> blen b <= i32_max ->
  sim (in_keystore (on_conn save)) (spec_put_prekey id b).
Proof.
  intros Hsave Hid Hb ab s r s' [(Hh & Hos & Hme & Hst) Hm] Hx. pose proof Hst as (_ & _ & lp & Hlp & Hk).
  destruct (ProteusPrekey_save_ok _ _ (ProteusPrekey_from_raw id b) Hlp Hb (conj Hid eq_refl)) as (v' & Hr & Hbc).
  destruct (on_conn_run _ _ _ _ Hh (Hsave _ _ Hr)) as (c' & Hcn & <- & Hc).
  unfold in_keystore, on in Hx. rewrite Hcn in Hx. injection Hx as <- <-.
  eexists. split; [done|]. split; [|done]. split_and!; [done..|].
  exact (stored_prekeys _ _ _ _ _ _ Hst Hlp Hk Hbc (put_prekey_kept _ _ _ _ Hk)).
Qed.

(** The result of a serialisation is used with the knowledge that it is one. *)
Lemma sim_lift_bind {A B} (x : CryptoResult A) (f : A -> cc ProteusState B) q :
  (forall a, x = Ok a -> sim (f a) (q a)) -> sim (lift_res x ≫= f) (lift_res x ≫= q).
Proof.
  intros Hf ab s r s' Hr Hx. eapply outcome_lift; [exact Hx|apply Hr|]. intros a Ha. by apply Hf.
Qed.

Lemma prekey_serialised prekey b : encode_err (PreKey_serialise prekey) = Ok b -> blen b <= i32_max.
Proof. destruct (PreKey_serialise prekey) eqn:Hp; [|done]. intros [= <-]. by eapply prekey_small. Qed.

Lemma new_prekey_sim id : 0 <= id <= u16_max -> sim (new_prekey id) (spec_new_prekey id).
Proof.
  intros Hid. apply sim_bind; [apply with_os_sim|]. intros prekey.
  apply sim_lift_bind. intros b Hb. apply sim_bind; [apply bundle_sim|]. intros bundle.
  apply sim_bind; [|intros _; apply sim_ret]. apply save_prekey_sim; [done..|by eapply prekey_serialised].
Qed.

(** The id that is found is the first one that is free. *)
Lemma first_seqZ (p : Z -> bool) n start len :
  start <= n < start + len -> p n = true -> (forall m, start <= m < n -> p m = false) ->
  first p (seqZ start len) = Some n.
Proof.
  intros Hn Hp Hm. replace len with ((n - start) + (start + len - n)) by lia.
  rewrite seqZ_app by lia. rewrite first_app, (proj2 (first_None _ _)).
  - replace (start + (n - start)) with n by lia. rewrite seqZ_cons by lia. simpl. by rewrite Hp.
  - intros m Hin%elem_of_seqZ. apply Hm. lia.
Qed.

Lemma elem_of_prekeys ab lp n : prekeys_kept ab lp -> n ∈ prk_id <$> lp <-> is_Some (ab_prekeys ab !! n).
Proof.
  intros Hk. rewrite (pk_rows _ _ Hk), fmap_is_Some, list_elem_of_fmap. unfold prekey_with. split.
  - intros (x & -> & Hx). destruct (first _ lp) eqn:Hf; [by eexists|].
    rewrite first_None in Hf. specialize (Hf x Hx). by apply bool_decide_eq_false in Hf.
  - intros [x [Hx Hn%bool_decide_eq_true]%first_Some]. by exists x.
Qed.

Lemma free_id_run ab (c : conn) :
  healthy c -> stored ab (conn_view c) ->
  exists c', on_conn ProteusPrekey_get_free_id c =
    (map_err Throw (ok_or (KeyStoreError NoFreePrekeyId) (free_prekey_id (ab_prekeys ab))), c') /\
    healthy c' /\ conn_view c' = conn_view c.
Proof.
  intros Hh (_ & _ & lp & Hlp & Hk). destruct (ProteusPrekey_get_free_id_ok _ _ Hlp) as (r & Hr & Hspec).
  destruct (on_conn_run _ _ _ _ Hh Hr) as (c' & Hx & Hv & Hc). exists c'. split; [|done]. rewrite Hx.
  assert (forall m, m ∈ prk_id <$> lp <-> bool_decide (ab_prekeys ab !! m = None) = false) as Hin.
  { intros m. rewrite (elem_of_prekeys _ _ m Hk), bool_decide_eq_false. by destruct (ab_prekeys ab !! m). }
  unfold free_prekey_id. destruct r as [n|e].
  - destruct Hspec as (Hn & Hfree & Hall). rewrite (first_seqZ _ n); [done|lia| |].
    + apply not_false_is_true. intros Hf%Hin. done.
    + intros m Hm. by apply Hin, Hall.
  - destruct Hspec as (-> & Hall). rewrite (proj2 (first_None _ _)); [done|].
    intros m Hm%elem_of_seqZ. apply Hin, Hall. lia.
Qed.

Lemma free_id_range m n : free_prekey_id m = Some n -> 1 <= n < u16_max /\ m !! n = None.
Proof.
  intros [Hin Hp%bool_decide_eq_true]%first_Some. apply elem_of_seqZ in Hin. split; [lia|done].
Qed.

Lemma new_prekey_auto_sim : sim new_prekey_auto spec_new_prekey_auto.
Proof.
  intros ab s r s' Hr. pose proof Hr as [(Hh & Hos & Hme & Hst) Hm].
  destruct (free_id_run _ _ Hh Hst) as (c' & Hx & Hc & Hv).
  unfold new_prekey_auto, spec_new_prekey_auto. unfold mbind at 1, stm_bind at 1, in_keystore, on. rewrite Hx.
  set (s1 := MkProteusState c' (st_os s) (st_central s)).
  assert (refines ab s1) as Hr1.
  { split; [|done]. split_and!; [done..|]. simpl. by rewrite Hv. }
  intros Hy. eapply outcome_bind; [done|]. cbv beta.
  destruct (free_prekey_id (ab_prekeys ab)) as [n|] eqn:Hf; simpl in Hy.
  - eapply outcome_bind; [done|]. refine (sim_bind _ _ _ _ (new_prekey_sim n _) _ _ _ _ _ Hr1 Hy).
    + pose proof (free_id_range _ _ Hf). lia.
    + intros bundle. apply sim_ret.
  - injection Hy as <- <-. eapply outcome_err; [done|apply Hr1].
Qed.

Lemma last_resort_sim : sim last_resort_prekey spec_last_resort.
Proof.
  intros ab s r s' Hr. pose proof Hr as [(Hh & Hos & Hme & Hst) Hm].
  destruct (find_prekey_row _ _ u16_max Hst) as (p & o & Hp & Hrun & Ho).
  destruct (on_conn_run _ _ _ _ Hh Hrun) as (c' & Hx & Hv & Hc).
  unfold last_resort_prekey, spec_last_resort, last_resort_prekey_id. rewrite max_prekey_id.
  unfold mbind at 1, stm_bind at 1, in_keystore at 1, on at 1, find_prekey. rewrite Hp, Hx. cbn [map_err].
  set (s1 := MkProteusState c' (st_os s) (st_central s)).
  assert (refines ab s1) as Hr1.
  { split; [|done]. split_and!; [done..|]. simpl. by rewrite Hv. }
  intros Hy. eapply outcome_bind; [done|]. cbv beta. change (u16_max mod 65536) with u16_max in Ho.
  refine (sim_bind _ _ _ _ _ bundle_sim _ _ _ _ Hr1 Hy). rewrite <-Ho.
  destruct o as [x|]; cbn [fmap option_fmap option_map]; [apply sim_lift|].
  apply sim_bind; [apply with_os_sim|]. intros prekey. apply sim_lift_bind. intros b Hb.
  apply sim_bind; [|intros _; apply sim_ret].
  apply save_prekey_sim; [|by unfold u16_max; lia|by eapply prekey_serialised].
  intros v v' Hs. unfold proteus_store_prekey. by rewrite (run_bind_ok _ _ _ _ _ Hs).
Qed.

(** *** Fingerprints *)

Lemma fingerprint_sim (f : ProteusSessionState -> IdentityKey) id :
  utf8_valid id = true ->
  sim (o ← session_get id; match o with
       | Some a => conversation ← read_session a; mret (key_fingerprint (f (session conversation)))
       | None => throw (ConversationNotFound id)
       end) (spec_fingerprint f id).
Proof.
  intros Hid. apply sim_session; [done|]. intros ab s a x r s' [Hd Hm] Hl Ha.
  rewrite (stm_bind_ok (read_session a) _ s (MkSession id x) s)
    by (unfold read_session, unwrap; by rewrite (proj1 Ha)).
  intros [= <- <-]. by exists ab.
Qed.
End refinement.
