(* ===== verification/ProteusRefinement.v ===== *)
(** * [ProteusCentral] refines its abstract machine

    Starting the client from the key store, all the calls, and what follows for those who use
    them: answers do not depend on the cache, no session is lost by a restart, and a prekey that
    is made takes an id that is free. *)

From S2P Require Import Prelude KsError Sql SqlSpec Entity TableFrame ProteusEntities Keystore.
From S2P Require Import CcError Backend GroupStore Proteus ProteusSpec.
Open Scope Z_scope.

Section refinement.
Context `{En : SqlEngine, Li : SchnellruLimits, Sc : Schnellru} `{!SchnellruLaws} `{Pl : ProteusLib, !ProteusLaws}.
Implicit Types (ab : ProteusAbs) (v : view).

(** ** Starting again *)

(** What the rows are, they are in memory: as many as fit. *)
Lemma restore_loop_run (P : bytes -> ProteusConversationSession -> Prop) me ls gs :
  (forall x, x ∈ ls -> exists y, Session_deserialise me (ps_session x) = Ok y /\ P (ps_id x) (MkSession (ps_id x) y)) ->
  holds P gs -> exists gs', restore_sessions_loop me ls gs = Ok gs' /\ holds P gs'.
Proof.
  revert gs. induction ls as [|x ls IH]; intros gs Hls Hgs; [by exists gs|].
  cbn [restore_sessions_loop]. destruct (Hls x) as (y & Hy & HP); [by left|]. rewrite Hy. cbn [decode_err map_err].
  pose proof (holds_try_insert P (ps_id x) (MkSession (ps_id x) y) gs Hgs HP) as Hgs'.
  destruct (gs_try_insert _ _ gs) as [[[]|v] gs']; [|by eexists].
  apply IH; [|done]. intros x' Hx'. apply Hls. by right.
Qed.

Lemma kept_in_map ab ls x y :
  sessions_kept ab ls -> x ∈ ls -> Session_deserialise (ab_identity ab) (ps_session x) = Ok y ->
  ab_sessions ab !! ps_id x = Some y.
Proof.
  intros Hk Hx Hy. rewrite (sk_rows _ _ Hk). unfold session_with.
  rewrite (first_key ps_id x) by (done || apply Hk). cbn [mbind option_bind]. by rewrite Hy.
Qed.

Lemma restore_sessions_run ab (c : conn) cells :
  healthy c -> stored ab (conn_view c) ->
  exists gs c', restore_sessions (ab_identity ab) cells c = (Ok gs, c') /\
    healthy c' /\ conn_view c' = conn_view c /\
    holds (fun k c => identifier c = k /\ ab_sessions ab !! k = Some (session c)) gs.
Proof.
  intros Hh (_ & (ls & Hls & Hk) & _).
  pose proof (el_find_all (E := ProteusSession) _ ls Hls) as Hr.
  destruct (on_conn_run _ _ _ _ Hh Hr) as (c' & Hx & Hv & Hc). unfold restore_sessions.
  rewrite (stm_bind_ok _ _ _ _ _ Hx).
  destruct (restore_loop_run (fun k c => identifier c = k /\ ab_sessions ab !! k = Some (session c))
    (ab_identity ab) ls (GroupStore_new_with_limit (ITEM_LIMIT * 2) cells)) as (gs & Hl & Hgs).
  - intros x Hin. destruct (sk_read _ _ Hk x Hin) as [y Hy]. exists y. split; [done|]. split; [done|].
    by eapply kept_in_map.
  - intros k a. simpl. by rewrite lru_new_contents, lookup_empty.
  - exists gs, c'. split; [|done].
    change (el_stored <$> ls) with ((fun x : ProteusSession => x) <$> ls). rewrite list_fmap_id. by rewrite Hl.
Qed.

Lemma identity_row (c : conn) li me :
  healthy c -> rep ProteusIdentity_layout (conn_view c) li -> identity_kept me li ->
  forall os, exists c', load_or_create_identity (c, os) = (Ok me, (c', os)) /\
    healthy c' /\ conn_view c' = conn_view c.
Proof.
  intros Hh Hli (x & -> & Hsk & Hpk & Hraw) os.
  pose proof (ProteusIdentity_find_one_ok _ _ [] Hli) as Hr. cbv beta iota in Hr.
  rewrite Hpk, Hsk, !Z.eqb_refl in Hr.
  destruct (on_conn_run _ _ _ _ Hh Hr) as (c' & Hx & Hv & Hc). exists c'. split; [|done].
  unfold load_or_create_identity, in_conn_of, on. unfold mbind at 1, stm_bind at 1. cbn [fst snd].
  unfold Connection_find. cbn [find_one ProteusIdentity_entity]. rewrite Hx. cbn [map_err].
  unfold sk_raw, pk_raw. rewrite Hsk, Hpk, !Z.leb_refl, !take_ge by (unfold blen in *; lia).
  unfold mbind, stm_bind, unwrap, lift_res, st_lift. by rewrite Hraw.
Qed.

(** An identity is made when there is none. *)
Lemma fresh_identity_row (c : conn) os :
  healthy c -> rep ProteusIdentity_layout (conn_view c) [] ->
  let me := (IdentityKeyPair_new os).1 in
  exists c' li, load_or_create_identity (c, os) = (Ok me, (c', (IdentityKeyPair_new os).2)) /\ healthy c' /\
    becomes ProteusIdentity_layout (conn_view c) (conn_view c') li /\ identity_kept me li.
Proof.
  intros Hh Hli me. pose proof (ProteusIdentity_find_one_ok _ _ [] Hli) as Hr.
  destruct (on_conn_run _ _ _ _ Hh Hr) as (c1 & Hx & Hv & Hc1). rewrite <-Hv in Hli.
  destruct (identity_sizes me) as [Hsk Hpk].
  set (x := MkProteusIdentity (to_keypair_bytes me) (public_key_bytes (public_key me))).
  pose proof (ProteusIdentity_save_ok _ _ x Hli) as Hs.
  cbn [length] in Hs. destruct Hs as (v' & Hs & Hb).
  { unfold x. cbn [pi_sk]. by rewrite Hsk. }
  { unfold x. cbn [pi_pk]. by rewrite Hpk. }
  assert (run (Connection_save x) (conn_view c1) = (Ok x, v')) as Hs'.
  { unfold Connection_save. cbn [save ProteusIdentity_entity]. by rewrite (run_bind_ok _ _ _ _ _ Hs). }
  destruct (on_conn_run _ _ _ _ Hc1 Hs') as (c2 & Hx2 & <- & Hc2).
  exists c2, [x]. split; [|split; [done|]]; [|split; [by rewrite <-Hv|]].
  - unfold load_or_create_identity, in_conn_of, on. unfold mbind at 1, stm_bind at 1. cbn [fst snd].
    unfold Connection_find. cbn [find_one ProteusIdentity_entity]. rewrite Hx. cbn [map_err].
    unfold create_identity, mbind, stm_bind, in_conn_of, on. cbn [fst snd].
    fold me in x. unfold x, me in Hx2 |- *. destruct (IdentityKeyPair_new os) as [kp os']. cbn [fst snd] in *.
    by rewrite Hx2.
  - exists x. split_and!; [done..|]. apply identity_roundtrip.
Qed.
Lemma start_kept ab (c : conn) os :
  healthy c -> stored ab (conn_view c) -> exists central c',
    ProteusCentral_try_new (c, os) = (Ok central, (c', os)) /\
    refines (set_os os ab) (MkProteusState c' os central).
Proof.
  intros Hh Hst. pose proof Hst as ((li & Hli & Hi) & _).
  destruct (identity_row _ _ _ Hh Hli Hi os) as (c1 & Hx1 & Hc1 & Hv1).
  rewrite <-Hv1 in Hst. destruct (restore_sessions_run _ _ [] Hc1 Hst) as (gs & c2 & Hx2 & Hc2 & Hv2 & Hgs).
  unfold ProteusCentral_try_new. rewrite (stm_bind_ok _ _ _ _ _ Hx1).
  unfold mbind, stm_bind, in_conn_of, on. cbn [fst snd]. rewrite Hx2. do 2 eexists. split; [done|].
  split; [|exact Hgs]. split_and!; [done..|]. cbn [st_conn]. rewrite Hv2.
  exact (stored_same ab (set_os os ab) _ eq_refl eq_refl eq_refl Hst).
Qed.

Lemma start_fresh (c : conn) os :
  healthy c -> rep ProteusIdentity_layout (conn_view c) [] -> rep ProteusSession_layout (conn_view c) [] ->
  rep ProteusPrekey_layout (conn_view c) [] ->
  let (me, os') := IdentityKeyPair_new os in
  exists central c', ProteusCentral_try_new (c, os) = (Ok central, (c', os')) /\
    refines (MkAbs me ∅ ∅ os') (MkProteusState c' os' central).
Proof.
  intros Hh Hli Hls Hlp.
  destruct (fresh_identity_row c os Hh Hli) as (c1 & li & Hx1 & Hc1 & Hb & Hi).
  destruct (IdentityKeyPair_new os) as [me os']. cbn [fst snd] in *.
  assert (stored (MkAbs me ∅ ∅ os') (conn_view c1)) as Hst.
  { split; [exists li; by split; [apply Hb|]|]. split; exists [];
      (split; [by eapply becomes_other|]); constructor; try by constructor; try done.
    by intros x Hx%not_elem_of_nil. }
  destruct (restore_sessions_run _ _ [] Hc1 Hst) as (gs & c2 & Hx2 & Hc2 & Hv2 & Hgs).
  unfold ProteusCentral_try_new. rewrite (stm_bind_ok _ _ _ _ _ Hx1).
  unfold mbind, stm_bind, in_conn_of, on. cbn [fst snd]. cbn [ab_identity] in Hx2. rewrite Hx2.
  do 2 eexists. split; [done|]. split; [|exact Hgs]. split_and!; [done..|]. cbn [st_conn]. by rewrite Hv2.
Qed.

(** Memory that is ahead of the key store is put right again. *)
Lemma reload_run ab s :
  on_disk ab s -> exists s', reload_sessions s = (Ok (), s') /\ refines ab s'.
Proof.
  intros (Hh & Hos & Hme & Hst). unfold reload_sessions.
  destruct (restore_sessions_run _ _ (gs_cells (st_sessions s)) Hh Hst) as (gs & c' & Hx & Hc & Hv & Hgs).
  eexists. unfold mbind, stm_bind, st_get, in_keystore, on. rewrite Hme, Hx. split; [done|].
  split; [|exact Hgs]. split_and!; [done..|]. simpl. by rewrite Hv.
Qed.

(** ** The calls of a client *)

Inductive ProteusCall : Type -> Type :=
  | CallEncrypt (session_id plaintext : bytes) : ProteusCall bytes
  | CallEncryptBatched (sessions : list bytes) (plaintext : bytes) : ProteusCall (gmap bytes bytes)
  | CallDecrypt (session_id ciphertext : bytes) : ProteusCall bytes
  | CallFromPrekey (session_id prekey : bytes) : ProteusCall ()
  | CallFromMessage (session_id envelope : bytes) : ProteusCall bytes
  | CallSave (session_id : bytes) : ProteusCall ()
  | CallDelete (session_id : bytes) : ProteusCall ()
  | CallExists (session_id : bytes) : ProteusCall bool
  | CallNewPrekey (id : Z) : ProteusCall bytes
  | CallNewPrekeyAuto : ProteusCall (Z * bytes)
  | CallLastResort : ProteusCall bytes
  | CallFingerprintLocal (session_id : bytes) : ProteusCall bytes
  | CallFingerprintRemote (session_id : bytes) : ProteusCall bytes
  | CallReload : ProteusCall ().

(** The [Arc] of a session that a call gives is left out of its answer. *)
Definition exec_call {A} (c : ProteusCall A) : cc ProteusState A :=
  match c with
  | CallEncrypt id m => pc_encrypt id m
  | CallEncryptBatched ids m => encrypt_batched ids m
  | CallDecrypt id m => pc_decrypt id m
  | CallFromPrekey id key => saved_session_from_prekey id key;; mret ()
  | CallFromMessage id m => p ← saved_session_from_message id m; mret p.2
  | CallSave id => session_save id
  | CallDelete id => session_delete id
  | CallExists id => session_exists id
  | CallNewPrekey id => new_prekey id
  | CallNewPrekeyAuto => new_prekey_auto
  | CallLastResort => last_resort_prekey
  | CallFingerprintLocal id => pc_fingerprint_local id
  | CallFingerprintRemote id => pc_fingerprint_remote id
  | CallReload => reload_sessions
  end.

Definition spec_call {A} (c : ProteusCall A) : cc ProteusAbs A :=
  match c with
  | CallEncrypt id m => spec_encrypt id m
  | CallEncryptBatched ids m => spec_encrypt_batched ids m ∅
  | CallDecrypt id m => spec_decrypt id m
  | CallFromPrekey id key => spec_from_prekey id key
  | CallFromMessage id m => spec_from_message id m
  | CallSave id => spec_session_save id
  | CallDelete id => st_modify (drop_session id)
  | CallExists id => spec_exists id
  | CallNewPrekey id => spec_new_prekey id
  | CallNewPrekeyAuto => spec_new_prekey_auto
  | CallLastResort => spec_last_resort
  | CallFingerprintLocal id => spec_fingerprint local_identity id
  | CallFingerprintRemote id => spec_fingerprint remote_identity id
  | CallReload => mret ()
  end.

(** The arguments are of the types they have in the code: a [&str] is UTF-8, a prekey id a [u16]. *)
Definition call_ok {A} (c : ProteusCall A) : bool :=
  match c with
  | CallEncrypt id _ | CallDecrypt id _ | CallSave id | CallDelete id | CallExists id
  | CallFromPrekey id _ | CallFromMessage id _ | CallFingerprintLocal id | CallFingerprintRemote id => utf8_valid id
  | CallEncryptBatched ids _ => forallb utf8_valid ids
  | CallNewPrekey id => Z.leb 0 id && Z.leb id u16_max
  | _ => true
  end.

(** The calls that insert a session in the cache, and would panic if it were refused. *)
Definition inserts {A} (c : ProteusCall A) : bool :=
  match c with CallFromPrekey _ _ | CallFromMessage _ _ => true | _ => false end.

Lemma call_sim {A} (c : ProteusCall A) : call_ok c = true -> inserts c = false -> sim (exec_call c) (spec_call c).
Proof.
  destruct c; simpl; intros Hok Hins; try discriminate Hins.
  - by apply encrypt_sim.
  - apply (encrypt_batched_sim _ _ ∅). apply Forall_forall. intros id Hin. rewrite forallb_forall in Hok.
    by apply Hok.
  - by apply decrypt_sim.
  - by apply session_save_sim.
  - by apply session_delete_sim.
  - by apply session_exists_sim.
  - apply new_prekey_sim. apply andb_true_iff in Hok as [?%Z.leb_le ?%Z.leb_le]. lia.
  - apply new_prekey_auto_sim.
  - apply last_resort_sim.
  - by apply (fingerprint_sim local_identity).
  - by apply (fingerprint_sim remote_identity).
  - intros ab s r s' [Hd _] Hx. destruct (reload_run _ _ Hd) as (s1 & Hx1 & Hd1 & Hm1).
    rewrite Hx1 in Hx. injection Hx as <- <-. by exists ab.
Qed.

(** What is left when the cache refuses the new session: the session was made, and the prekeys and
    random numbers that took are used up, but it is not kept. *)
Definition spec_made {A} (c : ProteusCall A) : cc ProteusAbs () :=
  match c with
  | CallFromPrekey _ key => spec_made_from_prekey key
  | CallFromMessage _ m => spec_made_from_message m
  | _ => st_fail Panic
  end.

Lemma call_outcome {A} (c : ProteusCall A) ab s r s' :
  call_ok c = true -> refines ab s -> exec_call c s = (r, s') ->
  (inserts c = true /\ r = Err Panic /\ exists ab', spec_made c ab = (Ok (), ab') /\ on_disk ab' s') \/
  outcome (spec_call c) ab r s'.
Proof.
  intros Hok Hr Hx. destruct (inserts c) eqn:Hins; [|right; by eapply call_sim].
  destruct c; try discriminate Hins.
  - destruct (from_prekey_sim _ _ _ _ _ _ Hr Hx); auto.
  - destruct (from_message_sim _ _ _ _ _ _ Hr Hx); auto.
Qed.

(** C4: every call of the Proteus client answers what the abstract machine answers, which has no
    cache and no tables: an encryption, say, is that of the latest state of the session, whether it
    is in memory or had been evicted, and [ConversationNotFound] means that there is no such
    session. Errors are answered as errors, the same ones. The key store then has the abstract
    state; what is in memory agrees with it when the call succeeded. The one other answer is a
    panic, where a new session is refused by the cache. *)
Theorem proteus_call_refines {A} (c : ProteusCall A) ab s r s' :
  call_ok c = true -> refines ab s -> exec_call c s = (r, s') ->
  (inserts c = true /\ r = Err Panic) \/
  exists ab', spec_call c ab = (r, ab') /\ on_disk ab' s' /\ (is_ok r = true -> refines ab' s').
Proof.
  intros Hok Hr Hx. destruct (call_outcome _ _ _ _ _ Hok Hr Hx) as [(? & ? & _)|(ab' & Hp & Hd & Hm)]; [by left|right].
  exists ab'. split; [done|]. split; [done|]. intros Hr'. split; [done|by apply Hm].
Qed.

(** ** A client over its life *)

(** A call and its answer, an error or a panic among them. *)
Definition answer : Type := sigT (fun A : Type => (ProteusCall A * result Stop A)%type).
Definition answered {A} (c : ProteusCall A) (r : result Stop A) : answer := existT A (c, r).

(** Memory agrees with the key store: every session that is cached is the one that fetching it
    would give. *)
Definition in_step (s : ProteusState) : Prop :=
  forall id a, lru_contents (gs_lru (st_sessions s)) !! id = Some a ->
    utf8_valid id = true /\
    exists c, arc_read a (st_sessions s) = Some c /\
      (session_fetch_from_id id (Some (proteus_identity (st_central s))) (st_conn s)).1 = Ok (Some c).

(** After an encryption, a decryption or the making of a session that has not succeeded a session in
    memory may be ahead of the key store, when it could not be saved. The life goes on if none is,
    if the sessions are loaded again, or if the program is started again. *)
Inductive goes_on : relation ProteusState :=
  | goes_on_in_step s : in_step s -> goes_on s s
  | goes_on_reload s s' : reload_sessions s = (Ok (), s') -> goes_on s s'
  | goes_on_restart s central cn os os' :
      ProteusCentral_try_new (st_conn s, os) = (Ok central, (cn, os')) ->
      goes_on s (MkProteusState cn os' central).

(** *** Calls that leave the sessions in memory as they are

    They may fail, and memory is not ahead of the key store afterwards. *)

Definition steady {A} (c : ProteusCall A) : bool :=
  match c with
  | CallSave _ | CallDelete _ | CallExists _ | CallNewPrekey _ | CallNewPrekeyAuto | CallLastResort
  | CallFingerprintLocal _ | CallFingerprintRemote _ | CallReload => true
  | _ => false
  end.

Definition same_sessions (s s' : ProteusState) : Prop := st_sessions s' = st_sessions s.
#[local] Instance same_sessions_preorder : PreOrder same_sessions.
Proof. split; [done|]. intros s1 s2 s3 Eq1 Eq2. unfold same_sessions in *. congruence. Qed.

Definition same_abstract (ab ab' : ProteusAbs) : Prop := ab_sessions ab' = ab_sessions ab.
#[local] Instance same_abstract_preorder : PreOrder same_abstract.
Proof. split; [done|]. intros s1 s2 s3 Eq1 Eq2. unfold same_abstract in *. congruence. Qed.

Lemma in_keystore_same {A} (m : cc conn A) : within same_sessions (in_keystore m).
Proof. intros s r s'. unfold in_keystore, on. destruct (m _). by intros [= _ <-]. Qed.
Lemma with_os_same {A} (f : OsRng -> A * OsRng) : within same_sessions (with_os f).
Proof. intros s r s'. unfold with_os. destruct (f _). by intros [= _ <-]. Qed.
Lemma read_session_same a : within same_sessions (read_session a).
Proof. intros s r s'. unfold read_session, unwrap. by destruct (arc_read _ _); intros [= _ <-]. Qed.
Lemma state_same : within same_sessions (st_get (S := ProteusState)).
Proof. by intros s r s' [= _ <-]. Qed.
#[local] Hint Resolve in_keystore_same with_os_same read_session_same state_same : within.

Lemma save_by_ref_same a : within same_sessions (session_save_by_ref a).
Proof. unfold session_save_by_ref. solve_within. Qed.
Lemma new_prekey_same id : within same_sessions (new_prekey id).
Proof. unfold new_prekey, prekey_bundle. solve_within. Qed.
#[local] Hint Resolve new_prekey_same : within.
Lemma new_prekey_auto_same : within same_sessions new_prekey_auto.
Proof. unfold new_prekey_auto. solve_within. Qed.
Lemma last_resort_same : within same_sessions last_resort_prekey.
Proof. unfold last_resort_prekey, prekey_bundle. solve_within. Qed.

Lemma spec_run_same {A} (f : IdentityKeyPair -> OsRng -> A * OsRng) : within same_abstract (spec_run f).
Proof. intros s r s'. unfold spec_run. destruct (f _ _). by intros [= _ <-]. Qed.
Lemma spec_put_prekey_same id b : within same_abstract (spec_put_prekey id b).
Proof. by intros s r s' [= _ <-]. Qed.
Lemma abstract_same : within same_abstract (st_get (S := ProteusAbs)).
Proof. by intros s r s' [= _ <-]. Qed.
Lemma spec_bundle_same prekey : within same_abstract (spec_bundle prekey).
Proof. intros s r s'. unfold spec_bundle. by apply (within_lift same_abstract). Qed.
#[local] Hint Resolve @spec_run_same spec_put_prekey_same abstract_same spec_bundle_same : within.

Lemma spec_new_prekey_same id : within same_abstract (spec_new_prekey id).
Proof. unfold spec_new_prekey. solve_within. Qed.
#[local] Hint Resolve spec_new_prekey_same : within.
Lemma spec_new_prekey_auto_same : within same_abstract spec_new_prekey_auto.
Proof. unfold spec_new_prekey_auto. solve_within. Qed.
Lemma spec_last_resort_same : within same_abstract spec_last_resort.
Proof. unfold spec_last_resort. solve_within. Qed.

(** Calls that simulate and touch neither the sessions in memory nor the abstract ones. *)
Lemma same_refines {A} (m : cc ProteusState A) p ab s r s' :
  sim m p -> within same_sessions m -> within same_abstract p -> refines ab s -> m s = (r, s') ->
  exists ab', p ab = (r, ab') /\ refines ab' s'.
Proof.
  intros Hsim Hm Hp Hr Hx. destruct (Hsim _ _ _ _ Hr Hx) as (ab' & Hpx & Hd & _).
  exists ab'. split; [done|]. split; [done|]. apply Hm in Hx. apply Hp in Hpx.
  unfold same_sessions, same_abstract in *. unfold in_memory. rewrite Hx, Hpx. apply Hr.
Qed.

(** Calls that do not fail. *)
Lemma sound_refines {A} (m : cc ProteusState A) p ab s r s' :
  sim m p -> is_ok (p ab).1 = true -> refines ab s -> m s = (r, s') ->
  exists ab', p ab = (r, ab') /\ refines ab' s'.
Proof.
  intros Hsim Hok Hr Hx. destruct (Hsim _ _ _ _ Hr Hx) as (ab' & Hpx & Hd & Hm). rewrite Hpx in Hok.
  exists ab'. split; [done|]. split; [done|by apply Hm].
Qed.

(** Saving a session as it is: memory is not ahead whether it succeeds or not. *)
Lemma save_steady id ab s r s' :
  utf8_valid id = true -> refines ab s -> session_save id s = (r, s') ->
  exists ab', spec_session_save id ab = (r, ab') /\ refines ab' s'.
Proof.
  intros Hid Hr Hx. destruct (session_save_sim id Hid _ _ _ _ Hr Hx) as (ab' & Hp & Hd & Hm).
  exists ab'. split; [done|]. split; [done|]. destruct r as [u|e]; [by apply Hm|]. clear Hm.
  assert (ab' = ab) as ->.
  { revert Hp. unfold spec_session_save, spec_save. destruct (ab_sessions ab !! id) as [x|]; [|done].
    unfold mbind, stm_bind, lift_res, st_lift. destruct (map_err _ _); [|by intros [= _ <-]].
    destruct (ProteusSession_fits _); [done|by intros [= _ <-]]. }
  destruct (session_get_run _ _ _ Hr Hid) as (o & s1 & Hg & [_ Hm1] & _).
  unfold session_save in Hx. rewrite (stm_bind_ok _ _ _ _ _ Hg) in Hx.
  destruct o as [a|]; [|done]. apply save_by_ref_same in Hx. unfold in_memory. by rewrite Hx.
Qed.

Lemma fingerprint_steady (f : ProteusSessionState -> IdentityKey) id ab s r s' :
  utf8_valid id = true -> refines ab s ->
  (o ← session_get id; match o with
       | Some a => conversation ← read_session a; mret (key_fingerprint (f (session conversation)))
       | None => throw (ConversationNotFound id)
       end) s = (r, s') ->
  exists ab', spec_fingerprint f id ab = (r, ab') /\ refines ab' s'.
Proof.
  intros Hid Hr Hx. destruct (fingerprint_sim f id Hid _ _ _ _ Hr Hx) as (ab' & Hp & Hd & _).
  exists ab'. split; [done|]. split; [done|].
  assert (ab' = ab) as ->.
  { revert Hp. unfold spec_fingerprint, mbind, stm_bind, spec_session.
    destruct (ab_sessions ab !! id); by intros [= _ <-]. }
  destruct (session_get_run _ _ _ Hr Hid) as (o & s1 & Hg & [_ Hm1] & _).
  rewrite (stm_bind_ok _ _ _ _ _ Hg) in Hx. destruct o as [a|]; [|by injection Hx as _ <-].
  unfold mbind, stm_bind in Hx. destruct (read_session a s1) as [[c|e] s2] eqn:Hs;
    apply read_session_same in Hs; injection Hx as _ <-; unfold in_memory; by rewrite Hs.
Qed.

Lemma steady_refines {A} (c : ProteusCall A) ab s r s' :
  call_ok c = true -> steady c = true -> refines ab s -> exec_call c s = (r, s') ->
  exists ab', spec_call c ab = (r, ab') /\ refines ab' s'.
Proof.
  intros Hok Hst Hr Hx. assert (inserts c = false) as Hins by by destruct c.
  pose proof (call_sim c Hok Hins) as Hsim. destruct c; try discriminate Hst; simpl in Hok, Hx.
  - by apply (save_steady session_id ab s).
  - exact (sound_refines _ _ _ _ _ _ Hsim eq_refl Hr Hx).
  - exact (sound_refines _ _ _ _ _ _ Hsim eq_refl Hr Hx).
  - exact (same_refines _ _ _ _ _ _ Hsim (new_prekey_same id) (spec_new_prekey_same id) Hr Hx).
  - exact (same_refines _ _ _ _ _ _ Hsim new_prekey_auto_same spec_new_prekey_auto_same Hr Hx).
  - exact (same_refines _ _ _ _ _ _ Hsim last_resort_same spec_last_resort_same Hr Hx).
  - by apply (fingerprint_steady local_identity session_id ab s).
  - by apply (fingerprint_steady remote_identity session_id ab s).
  - exact (sound_refines _ _ _ _ _ _ Hsim eq_refl Hr Hx).
Qed.

(** Calls that succeed; calls that fail or panic; and restarts of the program at any time, with a
    random generator in any state. *)
Inductive life : list answer -> relation ProteusState :=
  | life_refl s : life [] s s
  | life_call {A} (c : ProteusCall A) a tr s s1 s' :
      call_ok c = true -> exec_call c s = (Ok a, s1) -> life tr s1 s' ->
      life (answered c (Ok a) :: tr) s s'
  | life_failed {A} (c : ProteusCall A) e tr s s1 s2 s' :
      call_ok c = true -> exec_call c s = (Err e, s1) -> goes_on s1 s2 -> life tr s2 s' ->
      life (answered c (Err e) :: tr) s s'
  | life_steady {A} (c : ProteusCall A) e tr s s1 s' :
      call_ok c = true -> steady c = true -> exec_call c s = (Err e, s1) -> life tr s1 s' ->
      life (answered c (Err e) :: tr) s s'
  | life_restart tr s central cn os os' s' :
      ProteusCentral_try_new (st_conn s, os) = (Ok central, (cn, os')) ->
      life tr (MkProteusState cn os' central) s' -> life tr s s'.

(** The life of the abstract machine: it answers every call as [spec_call] does, or panics after
    the first part of one that makes a session; a restart changes the random generator alone. *)
Inductive abstract_life : list answer -> relation ProteusAbs :=
  | alife_refl ab : abstract_life [] ab ab
  | alife_call {A} (c : ProteusCall A) r tr ab ab1 ab' :
      spec_call c ab = (r, ab1) -> abstract_life tr ab1 ab' ->
      abstract_life (answered c r :: tr) ab ab'
  | alife_panic {A} (c : ProteusCall A) tr ab ab1 ab' :
      inserts c = true -> spec_made c ab = (Ok (), ab1) -> abstract_life tr ab1 ab' ->
      abstract_life (answered c (Err Panic) :: tr) ab ab'
  | alife_restart tr ab os ab' : abstract_life tr (set_os os ab) ab' -> abstract_life tr ab ab'.

Lemma in_step_refines ab s : on_disk ab s -> in_step s -> refines ab s.
Proof.
  intros Hd Hin. split; [done|]. intros id a Ha. destruct (Hin id a Ha) as (Hid & c & Hc & Hf).
  destruct Hd as (Hh & _ & Hme & Hst). destruct (session_row _ _ _ Hh Hst Hid) as (cn & Hx & _).
  rewrite Hme, Hx in Hf. cbn [fst] in Hf. exists c. split; [exact Hc|].
  destruct (ab_sessions ab !! id) as [x|]; [|done]. by injection Hf as <-.
Qed.

(** A restart brings back what is on the disk. *)
Lemma restart_run ab s central cn os os' :
  on_disk ab s -> ProteusCentral_try_new (st_conn s, os) = (Ok central, (cn, os')) ->
  refines (set_os os ab) (MkProteusState cn os' central).
Proof.
  intros (Hh & _ & _ & Hst) Hx. destruct (start_kept _ _ os Hh Hst) as (central' & cn' & Hx' & Hr).
  rewrite Hx in Hx'. by injection Hx' as <- <- ->.
Qed.

Lemma goes_on_run tr ab s s2 :
  on_disk ab s -> goes_on s s2 ->
  exists ab2, refines ab2 s2 /\ (forall ab', abstract_life tr ab2 ab' -> abstract_life tr ab ab').
Proof.
  intros Hd Hg. destruct Hg as [s Hin|s s2 Hrl|s central cn os os' Hx].
  - exists ab. split; [by apply in_step_refines|done].
  - destruct (reload_run _ _ Hd) as (s3 & Hrl' & Hr). rewrite Hrl in Hrl'. injection Hrl' as <-.
    by exists ab.
  - exists (set_os os ab). split; [by eapply restart_run|]. intros ab' Ha. by eapply alife_restart.
Qed.

(** C5: over the whole life of a client the answers that it gives, errors and panics included, are
    those of the abstract machine, in which a restart does nothing to the sessions, the prekeys and
    the identity, and a call that fails does what its first steps do. Most calls may fail at any
    time; after an encryption, a decryption or the making of a session that has not succeeded this
    asks that the sessions in memory are those of the key store, or are loaded again, by
    [reload_sessions] or by a restart; the code does neither by itself. *)
Theorem proteus_life_refines tr s s' ab :
  refines ab s -> life tr s s' -> exists ab', abstract_life tr ab ab' /\ refines ab' s'.
Proof.
  intros Hr Hl. revert ab Hr. induction Hl as [s|A c a tr s s1 s' Hok Hx _ IH|A c e tr s s1 s2 s' Hok Hx Hg _ IH|
    A c e tr s s1 s' Hok Hst Hx _ IH|tr s central cn os os' s' Hx _ IH]; intros ab Hr.
  - exists ab. split; [constructor|done].
  - destruct (call_outcome _ _ _ _ _ Hok Hr Hx) as [(_ & ? & _)|(ab1 & Hp & Hd & Hm)]; [done|].
    destruct (IH ab1) as (ab' & Ha & Hr'); [split; [done|by apply Hm]|]. exists ab'. split; [by econstructor|done].
  - destruct (call_outcome _ _ _ _ _ Hok Hr Hx) as [(Hins & [= ->] & ab1 & Hp & Hd)|(ab1 & Hp & Hd & Hm)];
      destruct (goes_on_run tr _ _ _ Hd Hg) as (ab2 & Hr2 & Hal);
      destruct (IH _ Hr2) as (ab' & Ha & Hr'); exists ab'; split; [|done| |done].
    + by eapply alife_panic, Hal.
    + by eapply alife_call, Hal.
  - destruct (steady_refines _ _ _ _ _ Hok Hst Hr Hx) as (ab1 & Hp & Hr1).
    destruct (IH _ Hr1) as (ab' & Ha & Hr'). exists ab'. split; [by eapply alife_call|done].
  - destruct Hr as [Hd _]. pose proof (restart_run _ _ _ _ _ _ Hd Hx) as Hr1.
    destruct (IH _ Hr1) as (ab' & Ha & Hr'). exists ab'. split; [by eapply alife_restart|done].
Qed.

(** C21: the client starts whenever the key store is well. Over a key store without Proteus data it
    makes an identity, which it keeps, and has no session and no prekey; over one that a client
    left, it has the identity, the sessions and the prekeys that were there. *)
Theorem proteus_starts (c : conn) os :
  healthy c ->
  (rep ProteusIdentity_layout (conn_view c) [] -> rep ProteusSession_layout (conn_view c) [] ->
   rep ProteusPrekey_layout (conn_view c) [] ->
   let (me, os') := IdentityKeyPair_new os in
   exists central c', ProteusCentral_try_new (c, os) = (Ok central, (c', os')) /\
     refines (MkAbs me ∅ ∅ os') (MkProteusState c' os' central)) /\
  (forall ab, stored ab (conn_view c) -> exists central c',
    ProteusCentral_try_new (c, os) = (Ok central, (c', os)) /\
    refines (set_os os ab) (MkProteusState c' os central)).
Proof.
  intros Hh. split; [by apply start_fresh|intros ab; by apply start_kept].
Qed.

Lemma first_seqZ_before (p : Z -> bool) n start len k :
  first p (seqZ start len) = Some n -> start <= k < n -> p k = false.
Proof.
  intros Hf Hk. pose proof Hf as [Hin%elem_of_seqZ _]%first_Some. destruct (p k) eqn:Hp; [exfalso|done].
  replace len with ((k + 1 - start) + (start + len - (k + 1))) in Hf by lia.
  rewrite seqZ_app, first_app in Hf by lia.
  destruct (first p (seqZ start (k + 1 - start))) as [j|] eqn:Hj.
  - injection Hf as ->. apply first_Some in Hj as [Hj%elem_of_seqZ _]. lia.
  - rewrite first_None in Hj. rewrite Hj in Hp; [done|]. apply elem_of_seqZ. lia.
Qed.

Lemma free_id_first m n :
  free_prekey_id m = Some n -> 1 <= n < u16_max /\ m !! n = None /\ forall k, 1 <= k < n -> is_Some (m !! k).
Proof.
  intros Hf. destruct (free_id_range _ _ Hf) as [Hn Hfree]. split; [done|]. split; [done|]. intros k Hk.
  pose proof (first_seqZ_before _ _ _ _ _ Hf Hk) as Hp%bool_decide_eq_false. by apply not_eq_None_Some.
Qed.

Lemma free_id_none m k : free_prekey_id m = None -> 1 <= k < u16_max -> is_Some (m !! k).
Proof.
  intros Hf Hk. unfold free_prekey_id in Hf. rewrite first_None in Hf.
  assert (bool_decide (m !! k = None) = false) as Hp%bool_decide_eq_false; [|by apply not_eq_None_Some].
  apply Hf, elem_of_seqZ. unfold u16_max in *. lia.
Qed.

(** C22: [new_prekey_auto] takes the smallest id from 1 on that no prekey in the key store has, and
    not that of the prekey of last resort; the prekeys that there are stay as they are. It fails
    only when the crate cannot serialise, or when there is no such id. *)
Theorem new_prekey_auto_spec ab s r s' :
  refines ab s -> new_prekey_auto s = (r, s') ->
  match r with
  | Ok (id, bundle) =>
      1 <= id < last_resort_prekey_id /\ ab_prekeys ab !! id = None /\
      (forall m, 1 <= m < id -> is_Some (ab_prekeys ab !! m)) /\
      exists b os, refines (set_os os (set_prekeys (<[id := b]> (ab_prekeys ab)) ab)) s'
  | Err (Throw (KeyStoreError NoFreePrekeyId)) => forall m, 1 <= m < last_resort_prekey_id -> is_Some (ab_prekeys ab !! m)
  | Err e => exists code, e = Throw (ProteusErrorC (ProteusEncodeError code))
  end.
Proof.
  intros Hr Hx. destruct (new_prekey_auto_sim _ _ _ _ Hr Hx) as (ab' & Hp & Hd & Hm).
  unfold last_resort_prekey_id. rewrite max_prekey_id.
  unfold spec_new_prekey_auto in Hp. change (st_get ≫= ?f) with (fun ab : ProteusAbs => f ab ab) in Hp. cbv beta in Hp.
  destruct (free_prekey_id (ab_prekeys ab)) as [n|] eqn:Hf.
  - pose proof (free_id_first _ _ Hf) as (Hn & Hfree & Hall).
    unfold spec_new_prekey, mbind, stm_bind in Hp. simpl in Hp. unfold spec_run in Hp.
    destruct (PreKey_new n (ab_os ab)) as [prekey os]. simpl in Hp.
    destruct (PreKey_serialise prekey) as [b|code]; simpl in Hp; [|injection Hp as <- _; by exists code].
    unfold spec_bundle in Hp. destruct (PreKeyBundle_serialise _) as [bundle|code]; simpl in Hp;
      [|injection Hp as <- _; by exists code].
    injection Hp as <- <-. split_and!; [lia..|done|done|]. exists b, os. split; [done|by apply Hm].
  - injection Hp as <- _. intros m Hm'. by apply free_id_none.
Qed.
End refinement.
