(* ===== verification/ProteusFrame.v ===== *)
(** * What Proteus leaves alone

    Whatever a call of [ProteusCentral] answers, it writes to its own three tables only, and it
    leaves no transaction open: the MLS part of the key store is as it was. *)

From S2P Require Import Prelude KsError Sql SqlSpec Entity TableFrame ProteusEntities Keystore.
From S2P Require Import CcError Backend GroupStore Proteus.
Open Scope Z_scope.

Definition proteus_tables : list string := ["proteus_identities"; "proteus_prekeys"; "proteus_sessions"].

Section frame.
Context `{En : SqlEngine}.

Definition proteus_only (c c' : conn) : Prop :=
  healthy c -> v_tx (conn_view c) = None ->
  healthy c' /\ v_tx (conn_view c') = None /\
  forall t, t ∉ proteus_tables -> v_db (conn_view c') !! t = v_db (conn_view c) !! t.

#[export] Instance proteus_only_preorder : PreOrder proteus_only.
Proof.
  split; [by intros c Hh Htx|]. intros c1 c2 c3 H12 H23 Hh Htx.
  destruct (H12 Hh Htx) as (Hh2 & Htx2 & E2). destruct (H23 Hh2 Htx2) as (Hh3 & Htx3 & E3).
  split_and!; [done..|]. intros t Ht. by rewrite E3, E2.
Qed.

Lemma exec_frame t {A} (p : prog A) c r c' :
  only t p -> closes p -> t ∈ proteus_tables -> exec_prog p c = (r, c') -> proteus_only c c'.
Proof.
  intros Ho Hcl Ht Hx Hh Htx. destruct (run p (conn_view c)) as [r0 v'] eqn:Hr.
  destruct (exec_prog_run _ _ _ _ Hh Hr) as (c1 & Hx' & Hv & Hc). rewrite Hx in Hx'. injection Hx' as <- <-.
  destruct (run_frame _ _ _ _ _ Ho Hcl Htx Hr) as [Htx' Heq]. rewrite Hv.
  split_and!; [done..|]. intros t' Ht'. apply Heq. by intros ->.
Qed.

Lemma on_conn_frame t {A} (p : prog A) :
  only t p -> closes p -> t ∈ proteus_tables -> within proteus_only (on_conn p).
Proof.
  intros Ho Hcl Ht c r c'. unfold on_conn, st_map_err.
  destruct (exec_prog p c) as [r0 c0] eqn:Hx. intros [= _ <-]. by eapply exec_frame.
Qed.
End frame.

Ltac unfold_proteus :=
  unfold Connection_find, Connection_find_all, Connection_save, Connection_remove, proteus_store_prekey;
  cbn [save find_all find_one delete_ids ProteusIdentity_entity ProteusSession_entity];
  unfold ProteusIdentity_find_one, ProteusIdentity_read_key, ProteusIdentity_save, ProteusIdentity_count,
    ProteusSession_find_all, ProteusSession_read, ProteusSession_save, ProteusSession_find_one, ProteusSession_delete,
    ProteusPrekey_save, ProteusPrekey_find_id.

Ltac proteus_program t :=
  apply (on_conn_frame t);
  [ unfold_proteus; repeat (solve_only; try apply only_delete_all_or_nothing)
  | unfold_proteus; repeat (solve_closes; try apply closes_delete_all_or_nothing)
  | unfold proteus_tables; set_solver ].

Section calls.
Context `{En : SqlEngine, Li : SchnellruLimits, Sc : Schnellru} `{Pl : ProteusLib}.

Lemma find_identity_frame : within proteus_only (on_conn (Connection_find (E := ProteusIdentity) [])).
Proof. proteus_program "proteus_identities". Qed.
Lemma save_identity_frame x : within proteus_only (on_conn (Connection_save (E := ProteusIdentity) x)).
Proof. proteus_program "proteus_identities". Qed.
Lemma find_sessions_frame p : within proteus_only (on_conn (Connection_find_all (E := ProteusSession) p)).
Proof. proteus_program "proteus_sessions". Qed.
Lemma find_session_frame id : within proteus_only (on_conn (find_one (E := ProteusSession) id)).
Proof. proteus_program "proteus_sessions". Qed.
Lemma save_session_frame x : within proteus_only (on_conn (Connection_save (E := ProteusSession) x)).
Proof. proteus_program "proteus_sessions". Qed.
Lemma remove_session_frame id : within proteus_only (on_conn (Connection_remove ProteusSession id)).
Proof. proteus_program "proteus_sessions". Qed.
Lemma save_prekey_frame x : within proteus_only (on_conn (ProteusPrekey_save x)).
Proof. proteus_program "proteus_prekeys". Qed.
Lemma store_prekey_frame id b : within proteus_only (on_conn (proteus_store_prekey id b)).
Proof. proteus_program "proteus_prekeys". Qed.
Lemma free_id_frame : within proteus_only (on_conn ProteusPrekey_get_free_id).
Proof.
  unfold ProteusPrekey_get_free_id. generalize (Z.to_nat u16_max) as fuel. intros fuel.
  apply (on_conn_frame "proteus_prekeys"); [| |by set_solver]; generalize 1 as id;
    (induction fuel as [|fuel IH]; intros id; cbn [ProteusPrekey_get_free_id_from]; [by (apply only_ret || apply closes_ret)|]);
    (destruct (Z.eqb id u16_max); [by (apply only_ret || apply closes_ret)|]).
  - apply only_bind; [unfold ProteusPrekey_find_id; repeat solve_only|]. intros [x|]; [apply IH|apply only_ret].
  - apply closes_bind; [unfold ProteusPrekey_find_id; repeat solve_closes|]. intros [x|]; [apply IH|apply closes_ret].
Qed.

Lemma find_prekey_frame id : within proteus_only (find_prekey id).
Proof.
  unfold find_prekey, ProteusPrekey_find_one. destruct (ProteusPrekey_id_from_slice _) as [n|]; simpl.
  - intros c r c'. apply (on_conn_frame "proteus_prekeys"); [unfold ProteusPrekey_find_id; repeat solve_only|
      unfold ProteusPrekey_find_id; repeat solve_closes|set_solver].
  - by intros c r c' [= _ <-].
Qed.

Lemma prekey_program_frame {A} (p : prog A) c : only "proteus_prekeys" p -> closes p ->
  proteus_only c (exec_prog p c).2.
Proof.
  intros Ho Hc. destruct (exec_prog p c) as [r c'] eqn:Hx. eapply (exec_frame "proteus_prekeys"); [done..| |exact Hx].
  set_solver.
Qed.

Lemma with_prekeys_frame {A} (p : prekey_prog A) : within proteus_only (with_prekeys p).
Proof.
  induction p as [a|id k IH|id k IH]; cbn [with_prekeys].
  - by intros c r c' [= _ <-].
  - unfold PreKeyStore_prekey, ProteusPrekey_find_one. destruct (ProteusPrekey_id_from_slice _) as [n|]; simpl.
    2: by intros c r c' [= _ <-].
    intros c r c'. pose proof (prekey_program_frame (o ← ProteusPrekey_find_id n; mret (option_map prk_prekey o)) c) as Hf.
    destruct (exec_prog _ c) as [r0 c0]. intros Hx. etrans; [apply Hf|by eapply IH].
    + apply only_bind; [unfold ProteusPrekey_find_id; repeat solve_only|]. intros x. apply only_ret.
    + apply closes_bind; [unfold ProteusPrekey_find_id; repeat solve_closes|]. intros x. apply closes_ret.
  - unfold PreKeyStore_remove, ProteusPrekey_delete. destruct (forallb _ _); [|by intros c r c' [= _ <-]].
    intros c r c'. set (p := delete_all_or_nothing _ _ _ _ _). pose proof (prekey_program_frame p c) as Hf.
    destruct (exec_prog p c) as [r0 c0]. intros Hx. etrans; [apply Hf|by eapply IH].
    + apply only_delete_all_or_nothing.
    + apply closes_delete_all_or_nothing.
Qed.

(** *** The calls *)

Definition leaves_mls (s s' : ProteusState) : Prop := proteus_only (st_conn s) (st_conn s').
#[export] Instance leaves_mls_preorder : PreOrder leaves_mls.
Proof. split; [intros s; apply proteus_only_preorder|intros s1 s2 s3; apply proteus_only_preorder]. Qed.

Abbreviation calm := (within leaves_mls).

Lemma in_keystore_frame {A} (m : cc conn A) : within proteus_only m -> calm (in_keystore m).
Proof. intros Hm. by apply (within_on _ proteus_only). Qed.

Lemma same_conn_frame {A} (m : cc ProteusState A) : (forall s, st_conn (m s).2 = st_conn s) -> calm m.
Proof.
  intros Hm s r s' Hx. specialize (Hm s). rewrite Hx in Hm. simpl in Hm. unfold leaves_mls.
  rewrite Hm. reflexivity.
Qed.

Lemma read_session_frame a : calm (read_session a).
Proof. apply same_conn_frame. intros s. unfold read_session, unwrap. by destruct (arc_read _ _). Qed.

Lemma with_os_frame {A} (f : OsRng -> A * OsRng) : calm (with_os f).
Proof. apply same_conn_frame. intros s. unfold with_os. by destruct (f _). Qed.

Lemma save_by_ref_frame a : calm (session_save_by_ref a).
Proof.
  apply within_bind; [typeclasses eauto|apply read_session_frame|]. intros c.
  apply within_bind; [typeclasses eauto|apply within_lift; typeclasses eauto|]. intros b.
  apply within_bind; [typeclasses eauto|apply in_keystore_frame, save_session_frame|].
  intros x. apply within_ret. typeclasses eauto.
Qed.

Abbreviation calm_store := (within (fun s s' : conn * GroupStore ProteusConversationSession => proteus_only s.1 s'.1)).
#[export] Instance store_preorder :
  PreOrder (fun s s' : conn * GroupStore ProteusConversationSession => proteus_only s.1 s'.1).
Proof. split; [intros s; apply proteus_only_preorder|intros s1 s2 s3; apply proteus_only_preorder]. Qed.

Lemma in_store_frame {A} (f : GroupStore ProteusConversationSession -> A * GroupStore ProteusConversationSession) :
  calm_store (in_store f).
Proof. intros [c gs] r s'. unfold in_store. simpl. destruct (f gs). intros [= _ <-]. reflexivity. Qed.

Lemma in_conn_frame {A} (m : cc conn A) : within proteus_only m -> calm_store (in_conn m).
Proof. intros Hm. by apply (within_on _ proteus_only). Qed.

Lemma fetch_frame id me : within proteus_only (session_fetch_from_id id me).
Proof.
  unfold session_fetch_from_id. pose proof find_session_frame as Hf. solve_within.
  all: try (by apply within_lift || by apply within_some_or || by apply within_ret).
Qed.

Lemma in_sessions_frame {A} (m : cc _ A) : calm_store m -> calm (in_sessions m).
Proof. intros Hm. by apply (within_on _ (fun s s' : conn * GroupStore ProteusConversationSession => proteus_only s.1 s'.1)). Qed.

Lemma session_get_frame id : calm (session_get id).
Proof.
  apply within_bind; [typeclasses eauto|by apply same_conn_frame|]. intros s.
  apply in_sessions_frame. unfold get_fetch. solve_within;
    first [apply in_store_frame|apply in_conn_frame, fetch_frame|apply within_ret; typeclasses eauto].
Qed.

Lemma with_session_frame {A} a (m : cc (conn * OsRng * ProteusConversationSession) A) :
  (forall st, proteus_only st.1.1 (m st).2.1.1) -> calm (with_session a m).
Proof.
  intros Hm s r s'. unfold with_session. destruct (arc_read a _) as [c|]; [|by intros [= _ <-]].
  specialize (Hm (st_conn s, st_os s, c)). destruct (m _) as [r0 [[cn os] c']]. by intros [= _ <-].
Qed.

Lemma encrypt_frame a m : calm (with_session a (conversation_encrypt m)).
Proof.
  apply with_session_frame. intros [[c os] v]. unfold conversation_encrypt.
  destruct (Session_encrypt _ _ _) as [[e y] os']. reflexivity.
Qed.

Lemma decrypt_frame a m : calm (with_session a (conversation_decrypt m)).
Proof.
  apply with_session_frame. intros [[c os] v]. unfold conversation_decrypt.
  destruct (Envelope_deserialise m) as [envelope|e]; [|reflexivity].
  pose proof (with_prekeys_frame (Session_decrypt (session v) envelope os) c) as Hp.
  destruct (with_prekeys _ c) as [[[[plain y] os']|stop] c']; by eapply Hp.
Qed.

Lemma insert_session_frame id v : calm (insert_session id v).
Proof.
  apply same_conn_frame. intros s. unfold insert_session, mbind, stm_bind, st_modify, in_sessions, on, in_store. simpl.
  destruct (gs_get id _) as [[a|] gs]; done.
Qed.

Lemma init_from_prekey_frame prekey : calm (fun s =>
  let (r, os) := init_from_prekey (proteus_identity (st_central s)) prekey (st_os s) in
  (map_err Throw (session_err r), MkProteusState (st_conn s) os (st_central s))).
Proof. apply same_conn_frame. intros s. by destruct (init_from_prekey _ _ _). Qed.

Lemma init_from_message_frame message : calm (fun s =>
  match with_prekeys (init_from_message (proteus_identity (st_central s)) message (st_os s)) (st_conn s) with
  | (Ok (r, os), c) => (map_err Throw (session_err r), MkProteusState c os (st_central s))
  | (Err stop, c) => (Err stop, MkProteusState c (st_os s) (st_central s))
  end).
Proof.
  intros s r s'. destruct (with_prekeys _ (st_conn s)) as [x c] eqn:Hp. apply with_prekeys_frame in Hp.
  destruct x as [[x os]|stop]; by intros [= _ <-].
Qed.

Lemma st_get_frame : calm (st_get (S := ProteusState)).
Proof. by apply same_conn_frame. Qed.

Lemma set_sessions_frame (f : ProteusState -> GroupStore ProteusConversationSession) :
  calm (st_modify (fun s => set_sessions (f s) s)).
Proof. by apply same_conn_frame. Qed.

Lemma restore_frame me cells : within proteus_only (restore_sessions me cells).
Proof.
  unfold restore_sessions. pose proof find_sessions_frame as Hf. solve_within.
Qed.

Hint Resolve read_session_frame with_os_frame save_by_ref_frame session_get_frame encrypt_frame decrypt_frame
  insert_session_frame init_from_prekey_frame init_from_message_frame st_get_frame set_sessions_frame
  in_keystore_frame restore_frame remove_session_frame save_prekey_frame store_prekey_frame free_id_frame
  find_prekey_frame : within.

Lemma prekey_bundle_frame prekey : calm (prekey_bundle prekey).
Proof. unfold prekey_bundle. solve_within. Qed.
Hint Resolve prekey_bundle_frame : within.

Lemma new_prekey_frame id : calm (new_prekey id).
Proof. unfold new_prekey. solve_within. Qed.
Hint Resolve new_prekey_frame : within.

Lemma encrypt_batched_frame ids m acc : calm (encrypt_batched_loop ids m acc).
Proof. revert acc. induction ids as [|id ids IH]; intros acc; cbn [encrypt_batched_loop]; solve_within. Qed.

Lemma saved_from_prekey_frame id key : calm (saved_session_from_prekey id key).
Proof. unfold saved_session_from_prekey, session_from_prekey. solve_within. Qed.
Lemma saved_from_message_frame id m : calm (saved_session_from_message id m).
Proof. unfold saved_session_from_message, session_from_message. solve_within. Qed.
Lemma session_save_frame id : calm (session_save id).
Proof. unfold session_save. solve_within. Qed.
Lemma session_delete_frame id : calm (session_delete id).
Proof. unfold session_delete. solve_within. Qed.
Lemma session_exists_frame id : calm (session_exists id).
Proof. unfold session_exists. solve_within. Qed.
Lemma pc_decrypt_frame id m : calm (pc_decrypt id m).
Proof. unfold pc_decrypt. solve_within. Qed.
Lemma pc_encrypt_frame id m : calm (pc_encrypt id m).
Proof. unfold pc_encrypt. solve_within. Qed.
Lemma new_prekey_auto_frame : calm new_prekey_auto.
Proof. unfold new_prekey_auto. solve_within. Qed.
Lemma last_resort_frame : calm last_resort_prekey.
Proof. unfold last_resort_prekey. solve_within. Qed.
Lemma fingerprint_local_frame id : calm (pc_fingerprint_local id).
Proof. unfold pc_fingerprint_local. solve_within. Qed.
Lemma fingerprint_remote_frame id : calm (pc_fingerprint_remote id).
Proof. unfold pc_fingerprint_remote. solve_within. Qed.
Lemma reload_frame : calm reload_sessions.
Proof. unfold reload_sessions. solve_within. Qed.

(** Starting the client. *)
Abbreviation calm_start := (within (fun s s' : conn * OsRng => proteus_only s.1 s'.1)).
#[export] Instance start_preorder : PreOrder (fun s s' : conn * OsRng => proteus_only s.1 s'.1).
Proof. split; [intros s; apply proteus_only_preorder|intros s1 s2 s3; apply proteus_only_preorder]. Qed.

Lemma in_conn_of_frame {A} (m : cc conn A) : within proteus_only m -> calm_start (in_conn_of m).
Proof. intros Hm. by apply (within_on _ proteus_only). Qed.

Lemma new_identity_frame : calm_start (fun s => let (kp, os) := IdentityKeyPair_new s.2 in (Ok kp, (s.1, os))).
Proof. intros [c os] r s'. simpl. destruct (IdentityKeyPair_new os). intros [= _ <-]. reflexivity. Qed.
Hint Resolve in_conn_of_frame new_identity_frame find_identity_frame save_identity_frame : within.

Lemma try_new_frame : calm_start ProteusCentral_try_new.
Proof. unfold ProteusCentral_try_new, load_or_create_identity, create_identity. solve_within. Qed.
End calls.

#[export] Hint Resolve encrypt_batched_frame saved_from_prekey_frame saved_from_message_frame session_save_frame
  session_delete_frame session_exists_frame pc_decrypt_frame pc_encrypt_frame new_prekey_frame new_prekey_auto_frame
  last_resort_frame fingerprint_local_frame fingerprint_remote_frame reload_frame session_get_frame : within.
