(* ===== verification/Cryptobox.v ===== *)
(** * The migration from Cryptobox

    [cryptobox_migrate] of [crypto/src/proteus.rs], on a file system: the identity, the sessions and
    the prekeys of a Cryptobox directory are copied into the key store, each unless it is there
    already. The file system is [async_fs]'s: a parameter. *)

From S2P Require Import Prelude KsError Sql SqlSpec Entity TableFrame ProteusEntities Keystore.
From S2P Require Import CcError Backend GroupStore Proteus ProteusSpec ProteusRefinement.
Open Scope Z_scope.

(** ** The file system *)

(** A path, by what is joined. *)
Abbreviation Path := (list bytes).

(** An entry of a directory: its name as a string, and its path. *)
Record DirEntry := MkEntry { file_name : bytes; file_path : Path }.

(** [None] is an I/O error; an entry that cannot be read is [None] as well. *)
Class Files := {
  Fs : Type;
  fs_exists : Path -> Fs -> bool;
  fs_read : Path -> Fs -> option bytes;
  fs_read_dir : Path -> Fs -> option (list (option DirEntry));
  fs_remove_file : Path -> Fs -> option Fs;
}.

(** What [proteus-wasm] reads of a Cryptobox identity. *)
Class CryptoboxLib `{ProteusTypes} := {
  IdentityKeyPair_deserialise : bytes -> result Z IdentityKeyPair;
  Identity_deserialise : bytes -> result Z (IdentityKeyPair + IdentityKey);    (* [Sec] and [Pub] *)
}.

(** [str::parse::<u16>] *)
Definition parse_u16 (s : bytes) : option Z := parse_uint u16_max s.

Section migrate.
Context `{En : SqlEngine} `{Pl : ProteusLib} `{!CryptoboxLib} `{!Files}.

Abbreviation MigrateState := (conn * Fs)%type.

Definition migrate_in_conn {A} (m : cc conn A) : cc MigrateState A := on fst (fun c s => (c, s.2)) m.

(** A call of [async_fs] with [?]. *)
Definition in_files {A} (f : Fs -> option A) : cc MigrateState A := fun s =>
  match f s.2 with Some a => (Ok a, s) | None => (Err (Throw CcIoError), s) end.

Definition remove_file (p : Path) : cc MigrateState () := fun s =>
  match fs_remove_file p s.2 with
  | Some fs => (Ok (), (s.1, fs))
  | None => (Err (Throw CcIoError), s)
  end.

Definition path_exists (p : Path) : cc MigrateState bool := fun s => (Ok (fs_exists p s.2), s).

(** The identity of the directory; [true]: it is the old file, which is deleted afterwards. *)
Definition identity_check (legacy_identity identity : Path) : cc MigrateState (option (IdentityKeyPair * bool)) :=
  legacy ← path_exists legacy_identity;
  if legacy : bool then
    kp_cbor ← in_files (fs_read legacy_identity);
    kp ← lift_res (decode_err (IdentityKeyPair_deserialise kp_cbor));
    mret (Some (kp, true))
  else
    there ← path_exists identity;
    if there : bool then
      kp_cbor ← in_files (fs_read identity);
      kp ← lift_res (decode_err (Identity_deserialise kp_cbor));
      mret (match kp with inl kp => Some (kp, false) | inr _ => None end)
    else mret None.

Definition migrate_identity (root_dir : Path) : cc MigrateState (option IdentityKeyPair) :=
  stored ← migrate_in_conn (on_conn (Connection_find (E := ProteusIdentity) []));
  match stored with
  | Some store_kp =>
      sk ← unwrap (sk_raw store_kp);
      pk ← unwrap (pk_raw store_kp);
      kp ← lift_res (internal_err (from_raw_key_pair sk pk));
      mret (Some kp)
  | None =>
      let identity_dir := root_dir ++ [ascii_bytes "identities"] in
      let identity := identity_dir ++ [ascii_bytes "local"] in
      let legacy_identity := identity_dir ++ [ascii_bytes "local_identity"] in
      check ← identity_check legacy_identity identity;
      match check with
      | Some (kp, delete) =>
          let pk := public_key_bytes (public_key kp) in
          let ks_identity := MkProteusIdentity (to_keypair_bytes kp) pk in
          migrate_in_conn (on_conn (Connection_save ks_identity));;
          legacy ← path_exists legacy_identity;
          (if delete && legacy then remove_file legacy_identity else mret ());;
          mret (Some kp)
      | None => mret None
      end
  end.

(** The name of a file is the id of its session. *)
Definition migrate_session (identity : IdentityKeyPair) (session_file : option DirEntry) : cc MigrateState () :=
  session_file ← some_or CcIoError session_file;
  let proteus_session_id := file_name session_file in
  found ← migrate_in_conn (on_conn (Connection_find (E := ProteusSession) proteus_session_id));
  match found with
  | Some _ => mret ()
  | None =>
      raw_session ← in_files (fs_read (file_path session_file));
      match Session_deserialise identity raw_session with
      | Err _ => mret ()
      | Ok _ =>
          migrate_in_conn (on_conn (Connection_save (MkProteusSession proteus_session_id raw_session)));;
          mret ()
      end
  end.

(** The name of a file is the id of its prekey. *)
Definition migrate_prekey (prekey_file : option DirEntry) : cc MigrateState () :=
  prekey_file ← some_or CcIoError prekey_file;
  proteus_prekey_id ← some_or ParseIntError (parse_u16 (file_name prekey_file));
  found ← migrate_in_conn (find_prekey proteus_prekey_id);
  match found with
  | Some _ => mret ()
  | None =>
      raw_prekey ← in_files (fs_read (file_path prekey_file));
      match PreKey_deserialise raw_prekey with
      | Ok _ =>
          migrate_in_conn (on_conn (ProteusPrekey_save (ProteusPrekey_from_raw proteus_prekey_id raw_prekey)));;
          mret ()
      | Err _ => mret ()
      end
  end.

Definition cryptobox_migrate_impl (path : bytes) : cc MigrateState () :=
  let root_dir := [path] in
  there ← path_exists root_dir;
  if negb there then throw (CryptoboxMigrationErrorC (ProvidedPathDoesNotExist path))
  else
    let session_dir := root_dir ++ [ascii_bytes "sessions"] in
    let prekey_dir := root_dir ++ [ascii_bytes "prekeys"] in
    identity ← migrate_identity root_dir;
    match identity with
    | None => throw (CryptoboxMigrationErrorC (IdentityNotFound path))
    | Some identity =>
        session_entries ← in_files (fs_read_dir session_dir);
        st_iter (migrate_session identity) session_entries;;
        prekey_entries ← in_files (fs_read_dir prekey_dir);
        st_iter migrate_prekey prekey_entries
    end.
End migrate.

(** ** What it does *)

(** The names of entries are made UTF-8 ([to_string_lossy]); a file is of less than 2 GiB. *)
Class FilesLaws `{Files} := {
  names_utf8 p fs es e : fs_read_dir p fs = Some es -> Some e ∈ es -> utf8_valid (file_name e) = true;
  file_small p fs b : fs_read p fs = Some b -> blen b <= i32_max;
}.

Section migrated.
Context `{En : SqlEngine} `{Pl : ProteusLib, !ProteusLaws} `{!CryptoboxLib} `{!Files, !FilesLaws}.
Implicit Types (ab : ProteusAbs) (fs : Fs).

(** A session that is there is kept; another one is taken if its file can be read as a session. *)
Definition take_session fs (me : IdentityKeyPair) (m : gmap bytes ProteusSessionState) (e : DirEntry) :
    gmap bytes ProteusSessionState :=
  match m !! file_name e with
  | Some _ => m
  | None =>
      match (b ← fs_read (file_path e) fs; res_ok (Session_deserialise me b)) with
      | Some x => <[file_name e := x]> m
      | None => m
      end
  end.

(** So is a prekey; the names of the files are numbers. *)
Definition take_prekey fs (m : gmap Z bytes) (e : DirEntry) : gmap Z bytes :=
  match parse_u16 (file_name e) with
  | None => m
  | Some id =>
      match m !! id with
      | Some _ => m
      | None =>
          match fs_read (file_path e) fs with
          | Some b => match PreKey_deserialise b with Ok _ => <[id := b]> m | Err _ => m end
          | None => m
          end
      end
  end.

Lemma parse_u16_bound s n : parse_u16 s = Some n -> 0 <= n <= u16_max.
Proof. apply parse_uint_bound. by unfold u16_max. Qed.

Lemma find_session_run ab (c : conn) id :
  healthy c -> stored ab (conn_view c) -> utf8_valid id = true ->
  exists o c', on_conn (Connection_find (E := ProteusSession) id) c = (Ok o, c') /\
    healthy c' /\ conn_view c' = conn_view c /\ (is_Some o <-> is_Some (ab_sessions ab !! id)).
Proof.
  intros Hh (_ & (ls & Hls & Hk) & _) Hid.
  pose proof (el_find_one (E := ProteusSession) _ ls id Hls Hid) as Hr.
  destruct (on_conn_run _ _ _ _ Hh Hr) as (c' & Hx & Hv & Hc). eexists _, c'. split; [exact Hx|].
  split; [done|]. split; [done|]. rewrite fmap_is_Some, (sk_rows _ _ Hk).
  change (fun e : ProteusSession => bool_decide (el_key e = id)) with (session_with id).
  destruct (first (session_with id) ls) as [x|] eqn:Hf; [|by split; intros [? ?]].
  apply first_Some in Hf as [Hin _]. destruct (sk_read _ _ Hk x Hin) as [y Hy]. cbn [mbind option_bind].
  rewrite Hy. split; by eexists.
Qed.

(** A raw session that can be read is saved, or is too big. *)
Lemma save_raw_run ab (c : conn) id b x :
  healthy c -> stored ab (conn_view c) -> Session_deserialise (ab_identity ab) b = Ok x ->
  exists r c', on_conn (Connection_save (MkProteusSession id b)) c = (r, c') /\ healthy c' /\
    stored (if is_ok r then put_session id x ab else ab) (conn_view c').
Proof.
  intros Hh Hst Hx. pose proof Hst as (_ & (ls & Hls & Hk) & _).
  assert (rep (el_layout (E := ProteusSession)) (conn_view c) ls) as Hl by exact Hls.
  destruct (ul_fits (MkProteusSession id b)) eqn:Hf.
  - destruct (Connection_save_run _ _ (MkProteusSession id b) Hl Hf) as (v' & Hr & Hb).
    destruct (on_conn_run _ _ _ _ Hh Hr) as (c' & Hcn & <- & Hc). do 2 eexists. split; [exact Hcn|].
    split; [done|]. exact (stored_put_session _ _ _ _ _ _ _ Hst Hls Hk Hb Hx).
  - pose proof (ul_save_big _ _ (MkProteusSession id b) Hl Hf) as Hr.
    assert (run (Connection_save (MkProteusSession id b)) (conn_view c) = (Err BlobTooBig, conn_view c)) as Hr'.
    { unfold Connection_save. by rewrite (run_bind_err _ _ _ _ _ Hr). }
    destruct (on_conn_run _ _ _ _ Hh Hr') as (c' & Hcn & Hv & Hc). do 2 eexists. split; [exact Hcn|].
    split; [done|]. cbn [is_ok map_err]. by rewrite Hv.
Qed.

Definition with_sessions (m : gmap bytes ProteusSessionState) ab : ProteusAbs :=
  MkAbs (ab_identity ab) m (ab_prekeys ab) (ab_os ab).

(** What a step over one file does: [took] is the state when it succeeds, [ab] when it fails; when
    there is nothing to take, nothing is written. *)
Definition stepped ab took fs (c : conn) (r : result Stop ()) (s' : conn * Fs) : Prop :=
  s'.2 = fs /\ healthy s'.1 /\ stored (if is_ok r then took else ab) (conn_view s'.1).

Lemma migrate_session_run ab (c : conn) fs e r s' :
  healthy c -> stored ab (conn_view c) -> utf8_valid (file_name e) = true ->
  migrate_session (ab_identity ab) (Some e) (c, fs) = (r, s') ->
  let took := with_sessions (take_session fs (ab_identity ab) (ab_sessions ab) e) ab in
  stepped ab took fs c r s' /\ (ab_sessions took = ab_sessions ab -> conn_view s'.1 = conn_view c).
Proof.
  intros Hh Hst Hid Hx took.
  destruct (find_session_run _ _ _ Hh Hst Hid) as (o & c1 & Hf & Hc1 & Hv1 & Ho).
  unfold migrate_session in Hx. erewrite stm_bind_ok in Hx by reflexivity. cbv zeta in Hx.
  unfold mbind at 1, stm_bind at 1, migrate_in_conn at 1, on at 1 in Hx. cbn [fst snd] in Hx. rewrite Hf in Hx.
  assert (stored ab (conn_view c1)) as Hst1 by by rewrite Hv1.
  unfold stepped, took, take_session, with_sessions. cbn [ab_sessions].
  destruct (ab_sessions ab !! file_name e) as [y|] eqn:Hy.
  - destruct o as [x|]; [|by destruct (proj2 Ho (ex_intro _ y eq_refl))]. injection Hx as <- <-.
    split; [|done]. split_and!; [done..|]. exact (stored_same ab (MkAbs _ _ _ _) _ eq_refl eq_refl eq_refl Hst1).
  - destruct o as [x|]; [by destruct (proj1 Ho (ex_intro _ x eq_refl))|].
    unfold mbind at 1, stm_bind at 1, in_files in Hx. cbn [fst snd] in Hx.
    destruct (fs_read (file_path e) fs) as [raw|]; [|injection Hx as <- <-; by split_and!].
    cbn [mbind option_bind]. destruct (Session_deserialise (ab_identity ab) raw) as [x|] eqn:Hd; cbn [res_ok].
    2: { injection Hx as <- <-. split; [|done]. split_and!; [done..|]. exact (stored_same ab (MkAbs _ _ _ _) _ eq_refl eq_refl eq_refl Hst1). }
    destruct (save_raw_run ab c1 (file_name e) raw x Hc1 Hst1 Hd) as (r2 & c2 & Hs & Hc2 & Hst2).
    unfold mbind at 1, stm_bind at 1, migrate_in_conn, on in Hx. cbn [fst snd] in Hx. rewrite Hs in Hx.
    destruct r2 as [u|err]; injection Hx as <- <-; (split; [by split_and!|]).
    all: intros Heq; exfalso; apply (f_equal (fun m => m !! file_name e)) in Heq;
      by rewrite lookup_insert_eq, Hy in Heq.
Qed.

Lemma migrate_prekey_run ab (c : conn) fs e r s' :
  healthy c -> stored ab (conn_view c) ->
  migrate_prekey (Some e) (c, fs) = (r, s') ->
  let took := set_prekeys (take_prekey fs (ab_prekeys ab) e) ab in
  stepped ab took fs c r s' /\ (ab_prekeys took = ab_prekeys ab -> conn_view s'.1 = conn_view c).
Proof.
  intros Hh Hst Hx took. unfold migrate_prekey in Hx. erewrite stm_bind_ok in Hx by reflexivity.
  unfold stepped, took, take_prekey, set_prekeys. cbn [ab_prekeys].
  destruct (parse_u16 (file_name e)) as [id|] eqn:Hid; [|injection Hx as <- <-; by split_and!].
  pose proof (parse_u16_bound _ _ Hid) as Hbound. erewrite stm_bind_ok in Hx by reflexivity.
  destruct (find_prekey_row _ _ id Hst) as (p & o & Hp & Hr & Ho).
  rewrite Z.mod_small in Ho by (unfold u16_max in *; lia).
  destruct (on_conn_run _ _ _ _ Hh Hr) as (c1 & Hf & Hv1 & Hc1). cbn [map_err] in Hf.
  unfold mbind at 1, stm_bind at 1, migrate_in_conn at 1, on at 1, find_prekey in Hx. cbn [fst snd] in Hx.
  rewrite Hp, Hf in Hx. rewrite <-Ho. rewrite <-Hv1 in Hst.
  assert (stored (MkAbs (ab_identity ab) (ab_sessions ab) (ab_prekeys ab) (ab_os ab)) (conn_view c1)) as Hst1.
  { exact (stored_same ab (MkAbs _ _ _ _) _ eq_refl eq_refl eq_refl Hst). }
  destruct o as [x|]; cbn [fmap option_fmap option_map] in *.
  { injection Hx as <- <-. split; [by split_and!|done]. }
  unfold mbind at 1, stm_bind at 1, in_files in Hx. cbn [fst snd] in Hx.
  destruct (fs_read (file_path e) fs) as [raw|] eqn:Hraw; [|injection Hx as <- <-; by split_and!].
  destruct (PreKey_deserialise raw) as [k|]; [|injection Hx as <- <-; split; [by split_and!|done]].
  pose proof Hst as (_ & _ & lp & Hlp & Hk).
  destruct (ProteusPrekey_save_ok _ _ (ProteusPrekey_from_raw id raw) Hlp (file_small _ _ _ Hraw) (conj Hbound eq_refl))
    as (v' & Hs & Hb).
  destruct (on_conn_run _ _ _ _ Hc1 Hs) as (c2 & Hx2 & <- & Hc2).
  unfold mbind at 1, stm_bind at 1, migrate_in_conn, on in Hx. cbn [fst snd] in Hx. rewrite Hx2 in Hx.
  injection Hx as <- <-. split.
  - split_and!; [done..|]. exact (stored_prekeys _ _ _ _ _ _ Hst Hlp Hk Hb (put_prekey_kept _ _ _ _ Hk)).
  - intros Heq. exfalso. apply (f_equal (fun m => m !! id)) in Heq. by rewrite lookup_insert_eq, <-Ho in Heq.
Qed.

(** All files of a directory, one after the other, up to the one that fails. *)
Lemma files_run (P : ProteusAbs -> Prop) (step : option DirEntry -> cc (conn * Fs) ()) (f : ProteusAbs -> DirEntry -> ProteusAbs)
    es fs :
  (forall s, step None s = (Err (Throw CcIoError), s)) ->
  (forall ab e, P ab -> P (f ab e)) ->
  (forall ab c e r s', Some e ∈ es -> P ab -> healthy c -> stored ab (conn_view c) -> step (Some e) (c, fs) = (r, s') ->
     stepped ab (f ab e) fs c r s' /\ (f ab e = ab -> conn_view s'.1 = conn_view c)) ->
  forall ab (c : conn) r s', P ab -> healthy c -> stored ab (conn_view c) -> st_iter step es (c, fs) = (r, s') ->
  s'.2 = fs /\ healthy s'.1 /\
  (exists files, stored (fold_left f files ab) (conn_view s'.1) /\ P (fold_left f files ab) /\
     (Some <$> files) `prefix_of` es /\ (is_ok r = true -> Some <$> files = es)) /\
  ((forall e, Some e ∈ es -> f ab e = ab) -> conn_view s'.1 = conn_view c).
Proof.
  intros Hnone HP. induction es as [|[e|] es IH]; intros Hstep ab c r s' Hab Hh Hst Hx.
  - injection Hx as <- <-. split_and!; [done..| |done]. exists []. split_and!; [done|done|apply prefix_nil|done].
  - cbn [st_iter] in Hx. unfold mbind, stm_bind in Hx. destruct (step (Some e) (c, fs)) as [r1 [c1 fs1]] eqn:Hs.
    destruct (Hstep ab c e r1 _ (list_elem_of_here _ _) Hab Hh Hst Hs) as [(Hfs & Hc1 & Hst1) Hsame].
    cbn [fst snd] in *. subst fs1. destruct r1 as [u|err]; cbn [is_ok] in Hst1.
    + assert (forall ab c e r s', Some e ∈ es -> P ab -> healthy c -> stored ab (conn_view c) ->
        step (Some e) (c, fs) = (r, s') ->
        stepped ab (f ab e) fs c r s' /\ (f ab e = ab -> conn_view s'.1 = conn_view c)) as Hstep'.
      { intros ab0 c0 e0 r0 s0 Hin. apply Hstep. by right. }
      destruct (IH Hstep' _ _ _ _ (HP _ e Hab) Hc1 Hst1 Hx) as (Hfs & Hh' & (files & Hst2 & HP2 & Hpre & Hok) & Hsame2).
      split_and!; [done|done| |].
      * exists (e :: files). split_and!; [done|done|by apply prefix_cons|]. intros Hr. by rewrite <-(Hok Hr).
      * intros Hall. assert (f ab e = ab) as Hfe by (apply Hall; by left). rewrite Hsame2; [by apply Hsame|].
        intros e' He'. rewrite Hfe. apply Hall. by right.
    + injection Hx as <- <-. split_and!; [done|done| |].
      * exists []. split_and!; [done|done|apply prefix_nil|done].
      * intros Hall. apply Hsame, Hall. by left.
  - cbn [st_iter] in Hx. unfold mbind, stm_bind in Hx. rewrite Hnone in Hx. injection Hx as <- <-.
    split_and!; [done|done| |done]. exists []. split_and!; [done|done|apply prefix_nil|done].
Qed.

(** ** The identity *)

Definition with_identity (me : IdentityKeyPair) ab : ProteusAbs :=
  MkAbs me (ab_sessions ab) (ab_prekeys ab) (ab_os ab).

(** Nothing of Proteus is in the key store. *)
Definition nothing_yet ab (v : view) : Prop :=
  ab_sessions ab = ∅ /\ ab_prekeys ab = ∅ /\ rep ProteusIdentity_layout v [] /\
  rep ProteusSession_layout v [] /\ rep ProteusPrekey_layout v [].

Lemma nothing_stored ab v v' li me :
  nothing_yet ab v -> becomes ProteusIdentity_layout v v' li -> identity_kept me li -> stored (with_identity me ab) v'.
Proof.
  intros (Hss & Hps & _ & Hs & Hp) Hb Hi. split; [exists li; by split; [apply Hb|]|].
  split; exists []; (split; [by eapply becomes_other|]); constructor; try by constructor.
  - by intros x Hx%not_elem_of_nil.
  - intros id. simpl. by rewrite Hss.
  - intros id. simpl. by rewrite Hps.
Qed.

(** The stored identity is used, and nothing is written. *)
Lemma migrate_identity_stored ab (c : conn) fs root :
  healthy c -> stored ab (conn_view c) -> exists c',
    migrate_identity root (c, fs) = (Ok (Some (ab_identity ab)), (c', fs)) /\ healthy c' /\ conn_view c' = conn_view c.
Proof.
  intros Hh ((li & Hli & x & -> & Hsk & Hpk & Hraw) & _).
  pose proof (ProteusIdentity_find_one_ok _ _ [] Hli) as Hr. cbv beta iota in Hr.
  rewrite Hpk, Hsk, !Z.eqb_refl in Hr.
  destruct (on_conn_run _ _ _ _ Hh Hr) as (c' & Hx & Hv & Hc). exists c'. split; [|done].
  unfold migrate_identity. unfold mbind at 1, stm_bind at 1, migrate_in_conn at 1, on at 1. cbn [fst snd].
  unfold Connection_find. cbn [find_one ProteusIdentity_entity]. rewrite Hx. cbn [map_err].
  unfold sk_raw, pk_raw. rewrite Hsk, Hpk, !Z.leb_refl, !take_ge by (unfold blen in *; lia).
  unfold mbind, stm_bind, unwrap, lift_res, st_lift. by rewrite Hraw.
Qed.

Lemma check_pure legacy identity s r s' : identity_check legacy identity s = (r, s') -> s' = s.
Proof.
  unfold identity_check, mbind, stm_bind, path_exists, in_files. destruct (fs_exists legacy s.2).
  - destruct (fs_read legacy s.2) as [b|]; [|by intros [= _ <-]].
    destruct (IdentityKeyPair_deserialise b); by intros [= _ <-].
  - destruct (fs_exists identity s.2); [|by intros [= _ <-]].
    destruct (fs_read identity s.2) as [b|]; [|by intros [= _ <-]].
    destruct (Identity_deserialise b); by intros [= _ <-].
Qed.

(** With none in the key store, the one of the directory is saved. *)
Lemma migrate_identity_fresh ab (c : conn) fs root r s' :
  healthy c -> nothing_yet ab (conn_view c) -> migrate_identity root (c, fs) = (r, s') ->
  healthy s'.1 /\
  ((exists me, stored (with_identity me ab) (conn_view s'.1) /\ forall o, r = Ok o -> o = Some me) \/
   nothing_yet ab (conn_view s'.1) /\ forall o, r = Ok o -> o = None).
Proof.
  intros Hh Hno. pose proof Hno as (_ & _ & Hli & _).
  pose proof (ProteusIdentity_find_one_ok _ _ [] Hli) as Hr.
  destruct (on_conn_run _ _ _ _ Hh Hr) as (c1 & Hx & Hv & Hc1).
  unfold migrate_identity. unfold mbind at 1, stm_bind at 1, migrate_in_conn at 1, on at 1. cbn [fst snd].
  unfold Connection_find. cbn [find_one ProteusIdentity_entity]. rewrite Hx. cbn [map_err]. cbv zeta.
  rewrite <-Hv in Hno, Hli. unfold mbind at 1, stm_bind at 1.
  destruct (identity_check _ _ (c1, fs)) as [ck s1] eqn:Hck. apply check_pure in Hck as ->.
  destruct ck as [[[kp del]|]|e]; [|intros [= <- <-]; split; [done|right]; split; [done|]; by intros o [= <-]..].
  destruct (identity_sizes kp) as [Hsk Hpk].
  set (x := MkProteusIdentity (to_keypair_bytes kp) (public_key_bytes (public_key kp))).
  pose proof (ProteusIdentity_save_ok _ _ x Hli) as Hs. cbn [length] in Hs. destruct Hs as (v' & Hs & Hb).
  { unfold x. cbn [pi_sk]. by rewrite Hsk. }
  { unfold x. cbn [pi_pk]. by rewrite Hpk. }
  assert (run (Connection_save x) (conn_view c1) = (Ok x, v')) as Hs'.
  { unfold Connection_save. cbn [save ProteusIdentity_entity]. by rewrite (run_bind_ok _ _ _ _ _ Hs). }
  destruct (on_conn_run _ _ _ _ Hc1 Hs') as (c2 & Hx2 & <- & Hc2).
  assert (stored (with_identity kp ab) (conn_view c2)) as Hst2.
  { eapply nothing_stored; [exact Hno|exact Hb|]. exists x. split_and!; [done..|]. apply identity_roundtrip. }
  unfold mbind, stm_bind, migrate_in_conn, on. cbn [fst snd]. rewrite Hx2. unfold path_exists, remove_file. cbn [fst snd].
  intros Hy. assert (s'.1 = c2 /\ forall o, r = Ok o -> o = Some kp) as [-> Ho].
  { clear -Hy. destruct (del && _)%bool; unfold mret, stm_ret in Hy; cbn [map_err fst snd] in Hy;
      [destruct (fs_remove_file ((root ++ _) ++ _) fs)|]; simplify_eq/=;
      (split; [done|]); by intros o [= <-]. }
  split; [done|left]. by exists kp.
Qed.

(** ** The whole migration *)

Lemma take_session_grows fs me m e : m ⊆ take_session fs me m e.
Proof.
  unfold take_session. destruct (m !! file_name e) eqn:Hm; [done|].
  destruct (_ ≫= _); [by apply insert_subseteq|done].
Qed.

Lemma take_prekey_grows fs m e : m ⊆ take_prekey fs m e.
Proof.
  unfold take_prekey. destruct (parse_u16 _) as [id|]; [|done]. destruct (m !! id) eqn:Hm; [done|].
  destruct (fs_read _ _) as [b|]; [|done]. destruct (PreKey_deserialise b); [by apply insert_subseteq|done].
Qed.

(** What was taken once is not taken again. *)
Lemma take_session_again fs me m m' e : take_session fs me m e ⊆ m' -> take_session fs me m' e = m'.
Proof.
  unfold take_session. intros Hs. destruct (m' !! file_name e) eqn:Hm'; [done|].
  destruct (m !! file_name e) eqn:Hm.
  { by rewrite (lookup_weaken _ _ _ _ Hm Hs) in Hm'. }
  destruct (_ ≫= _) as [x|]; [|done]. exfalso.
  by rewrite (lookup_weaken _ _ _ _ (lookup_insert_eq m (file_name e) x) Hs) in Hm'.
Qed.

Lemma take_prekey_again fs m m' e : take_prekey fs m e ⊆ m' -> take_prekey fs m' e = m'.
Proof.
  unfold take_prekey. intros Hs. destruct (parse_u16 _) as [id|]; [|done].
  destruct (m' !! id) eqn:Hm'; [done|]. destruct (m !! id) eqn:Hm.
  { by rewrite (lookup_weaken _ _ _ _ Hm Hs) in Hm'. }
  destruct (fs_read _ _) as [b|]; [|done]. destruct (PreKey_deserialise b); [|done]. exfalso.
  by rewrite (lookup_weaken _ _ _ _ (lookup_insert_eq m id b) Hs) in Hm'.
Qed.

(** The folds over the abstract state are folds over its maps. *)
Definition take_one_session fs ab e : ProteusAbs :=
  with_sessions (take_session fs (ab_identity ab) (ab_sessions ab) e) ab.
Definition take_one_prekey fs ab e : ProteusAbs := set_prekeys (take_prekey fs (ab_prekeys ab) e) ab.

Lemma fold_sessions fs files ab :
  fold_left (take_one_session fs) files ab =
  with_sessions (fold_left (take_session fs (ab_identity ab)) files (ab_sessions ab)) ab.
Proof.
  revert ab. induction files as [|e files IH]; intros ab; [by destruct ab|]. simpl. rewrite IH. by destruct ab.
Qed.

Lemma fold_prekeys fs files ab :
  fold_left (take_one_prekey fs) files ab = set_prekeys (fold_left (take_prekey fs) files (ab_prekeys ab)) ab.
Proof.
  revert ab. induction files as [|e files IH]; intros ab; [by destruct ab|]. simpl. rewrite IH. by destruct ab.
Qed.

(** The files are taken, with the identity that is stored. *)
Definition migrate_files (path : bytes) (identity : IdentityKeyPair) : cc (conn * Fs) () :=
  session_entries ← in_files (fs_read_dir ([path] ++ [ascii_bytes "sessions"]));
  st_iter (migrate_session identity) session_entries;;
  prekey_entries ← in_files (fs_read_dir ([path] ++ [ascii_bytes "prekeys"]));
  st_iter migrate_prekey prekey_entries.

(** The state [ab'] after files were taken from [ab]. *)
Definition files_taken path fs ab ab' (ok : bool) : Prop :=
  ab_identity ab' = ab_identity ab /\ ab_sessions ab ⊆ ab_sessions ab' /\ ab_prekeys ab ⊆ ab_prekeys ab' /\
  (ok = true -> exists sessions prekeys,
    fs_read_dir [path; ascii_bytes "sessions"] fs = Some (Some <$> sessions) /\
    fs_read_dir [path; ascii_bytes "prekeys"] fs = Some (Some <$> prekeys) /\
    ab_sessions ab' = fold_left (take_session fs (ab_identity ab)) sessions (ab_sessions ab) /\
    ab_prekeys ab' = fold_left (take_prekey fs) prekeys (ab_prekeys ab)).

Lemma sessions_run ab (c : conn) fs path es r s' :
  healthy c -> stored ab (conn_view c) -> fs_read_dir path fs = Some es ->
  st_iter (migrate_session (ab_identity ab)) es (c, fs) = (r, s') ->
  s'.2 = fs /\ healthy s'.1 /\
  (exists files, stored (fold_left (take_one_session fs) files ab) (conn_view s'.1) /\
     (is_ok r = true -> Some <$> files = es)) /\
  ((forall e, Some e ∈ es -> take_one_session fs ab e = ab) -> conn_view s'.1 = conn_view c).
Proof.
  intros Hh Hst Hdir Hx.
  destruct (files_run (fun a => ab_identity a = ab_identity ab) (migrate_session (ab_identity ab))
    (take_one_session fs) es fs) with (ab := ab) (c := c) (r := r) (s' := s')
    as (Hfs & Hh' & (files & Hst' & _ & _ & Hok) & Hsame); [done|done| |done..|].
  - intros ab0 c0 e r0 s0 Hin Hid Hh0 Hst0 Hx0. rewrite <-Hid in Hx0.
    destruct (migrate_session_run ab0 c0 fs e r0 s0 Hh0 Hst0 (names_utf8 _ _ _ _ Hdir Hin) Hx0) as [Hs Hsame].
    split; [exact Hs|]. intros Heq. exact (Hsame (f_equal ab_sessions Heq)).
  - split_and!; [done|done| |done]. exists files. by split.
Qed.

Lemma prekeys_run ab (c : conn) fs es r s' :
  healthy c -> stored ab (conn_view c) -> st_iter migrate_prekey es (c, fs) = (r, s') ->
  s'.2 = fs /\ healthy s'.1 /\
  (exists files, stored (fold_left (take_one_prekey fs) files ab) (conn_view s'.1) /\
     (is_ok r = true -> Some <$> files = es)) /\
  ((forall e, Some e ∈ es -> take_one_prekey fs ab e = ab) -> conn_view s'.1 = conn_view c).
Proof.
  intros Hh Hst Hx.
  destruct (files_run (fun _ => True) migrate_prekey (take_one_prekey fs) es fs) with (ab := ab) (c := c) (r := r) (s' := s')
    as (Hfs & Hh' & (files & Hst' & _ & _ & Hok) & Hsame); [done|done| |done..|].
  - intros ab0 c0 e r0 s0 Hin _ Hh0 Hst0 Hx0.
    destruct (migrate_prekey_run ab0 c0 fs e r0 s0 Hh0 Hst0 Hx0) as [Hs Hsame].
    split; [exact Hs|]. intros Heq. exact (Hsame (f_equal ab_prekeys Heq)).
  - split_and!; [done|done| |done]. exists files. by split.
Qed.

Lemma migrate_files_run ab (c : conn) fs path r s' :
  healthy c -> stored ab (conn_view c) -> migrate_files path (ab_identity ab) (c, fs) = (r, s') ->
  s'.2 = fs /\ healthy s'.1 /\ exists ab', stored ab' (conn_view s'.1) /\ files_taken path fs ab ab' (is_ok r).
Proof.
  intros Hh Hst. unfold migrate_files, mbind, stm_bind, in_files. cbn [app fst snd].
  assert (files_taken path fs ab ab false) as Hnone by by split_and!.
  destruct (fs_read_dir [path; ascii_bytes "sessions"] fs) as [se|] eqn:Hse.
  2: { intros [= <- <-]. split_and!; [done..|]. by exists ab. }
  destruct (st_iter _ se (c, fs)) as [r1 [c1 fs1]] eqn:Hf1.
  destruct (sessions_run _ _ _ _ _ _ _ Hh Hst Hse Hf1) as (Hfs1 & Hh1 & (files & Hst1 & Hok1) & _).
  cbn [fst snd] in *. subst fs1. rewrite fold_sessions in Hst1.
  assert (ab_sessions ab ⊆ fold_left (take_session fs (ab_identity ab)) files (ab_sessions ab)) as Hg.
  { apply fold_grows, take_session_grows. }
  set (ab1 := with_sessions _ ab) in Hst1.
  assert (files_taken path fs ab ab1 false) as Hpart by by split_and!.
  destruct r1 as [u|err]; [|intros [= <- <-]; split_and!; [done..|]; by exists ab1].
  specialize (Hok1 eq_refl).
  destruct (fs_read_dir [path; ascii_bytes "prekeys"] fs) as [pe|] eqn:Hpe.
  2: { intros [= <- <-]. split_and!; [done..|]. by exists ab1. }
  intros Hx. destruct (prekeys_run ab1 c1 fs pe r s' Hh1 Hst1 Hx) as (Hfs2 & Hh2 & (pfiles & Hst2 & Hok2) & _).
  split_and!; [done..|]. rewrite fold_prekeys in Hst2. eexists. split; [exact Hst2|].
  split_and!; [done|exact Hg|apply fold_grows, take_prekey_grows|]. intros Hr. exists files, pfiles.
  rewrite Hse, Hpe. rewrite <-Hok1, <-(Hok2 Hr). by split_and!.
Qed.

Lemma migrate_files_again ab ab' (c : conn) fs path r s' :
  healthy c -> files_taken path fs ab ab' true -> stored ab' (conn_view c) ->
  migrate_files path (ab_identity ab') (c, fs) = (r, s') -> conn_view s'.1 = conn_view c.
Proof.
  intros Hh (Hid & _ & _ & Hok) Hst. destruct (Hok eq_refl) as (se & pe & Hse & Hpe & Hs & Hp).
  assert (forall e, Some e ∈ Some <$> se -> take_one_session fs ab' e = ab') as Hnos.
  { intros e (e' & [= <-] & Hin)%list_elem_of_fmap. unfold take_one_session. rewrite Hid, Hs.
    rewrite fold_again; [|apply take_session_grows|apply take_session_again|done]. rewrite <-Hs. by destruct ab'. }
  assert (forall e, Some e ∈ Some <$> pe -> take_one_prekey fs ab' e = ab') as Hnop.
  { intros e (e' & [= <-] & Hin)%list_elem_of_fmap. unfold take_one_prekey. rewrite Hp.
    rewrite fold_again; [|apply take_prekey_grows|apply take_prekey_again|done]. rewrite <-Hp. by destruct ab'. }
  unfold migrate_files, mbind, stm_bind, in_files. cbn [app fst snd]. rewrite Hse.
  destruct (st_iter _ (Some <$> se) (c, fs)) as [r1 [c1 fs1]] eqn:Hf1.
  destruct (sessions_run _ _ _ _ _ _ _ Hh Hst Hse Hf1) as (Hfs1 & Hh1 & _ & Hsame1).
  cbn [fst snd] in *. subst fs1. specialize (Hsame1 Hnos).
  destruct r1 as [u|err]; [|by intros [= <- <-]]. rewrite Hpe. intros Hx.
  assert (stored ab' (conn_view c1)) as Hst1 by by rewrite Hsame1.
  destruct (prekeys_run ab' c1 fs _ r s' Hh1 Hst1 Hx) as (_ & _ & _ & Hsame2). by rewrite (Hsame2 Hnop).
Qed.

Lemma migrate_impl_run path (c : conn) fs :
  cryptobox_migrate_impl path (c, fs) =
  if fs_exists [path] fs then
    match migrate_identity [path] (c, fs) with
    | (Ok (Some me), s) => migrate_files path me s
    | (Ok None, s) => (Err (Throw (CryptoboxMigrationErrorC (IdentityNotFound path))), s)
    | (Err e, s) => (Err e, s)
    end
  else (Err (Throw (CryptoboxMigrationErrorC (ProvidedPathDoesNotExist path))), (c, fs)).
Proof.
  unfold cryptobox_migrate_impl, path_exists. unfold mbind at 1, stm_bind at 1. cbn [snd].
  destruct (fs_exists [path] fs); [|done]. cbn [negb]. unfold mbind at 1, stm_bind at 1.
  by destruct (migrate_identity [path] (c, fs)) as [[[me|]|e] s].
Qed.

Lemma migrate_again ab ab' (c : conn) fs path r s' :
  healthy c -> files_taken path fs ab ab' true -> stored ab' (conn_view c) ->
  cryptobox_migrate_impl path (c, fs) = (r, s') -> conn_view s'.1 = conn_view c.
Proof.
  intros Hh Ht Hst. rewrite migrate_impl_run. destruct (fs_exists [path] fs); [|by intros [= _ <-]].
  destruct (migrate_identity_stored _ _ fs [path] Hh Hst) as (c1 & -> & Hc1 & Hv). intros Hx. rewrite <-Hv in Hst |- *.
  by eapply migrate_files_again.
Qed.

(** C23: the migration of a Cryptobox keeps everything that is in the key store: the identity, each
    session and each prekey. When it succeeds, there is an identity, and every file of a session or
    a prekey that was not there and can be read as one has been taken, in the order of the
    directory; files that cannot be read as one are left out. Migrating once more, whatever it
    answers, then writes nothing. *)
Theorem cryptobox_migrate_spec ab path (c : conn) fs r c' fs' :
  healthy c -> stored ab (conn_view c) \/ nothing_yet ab (conn_view c) ->
  cryptobox_migrate_impl path (c, fs) = (r, (c', fs')) ->
  healthy c' /\
  (stored ab (conn_view c) -> exists ab', stored ab' (conn_view c') /\ files_taken path fs' ab ab' (is_ok r)) /\
  (is_ok r = true -> exists me ab', stored ab' (conn_view c') /\ files_taken path fs' (with_identity me ab) ab' true /\
    forall r2 s2, cryptobox_migrate_impl path (c', fs') = (r2, s2) -> conn_view s2.1 = conn_view c').
Proof.
  intros Hh Hd Hx. rewrite migrate_impl_run in Hx. destruct (fs_exists [path] fs).
  2: { injection Hx as <- <- <-. split; [done|]. split; [|done]. intros Hst. exists ab. by split_and!. }
  assert (forall me ab0 c0 fs0, ab_identity ab0 = me -> healthy c0 -> stored ab0 (conn_view c0) ->
    migrate_files path me (c0, fs0) = (r, (c', fs')) -> healthy c' /\ exists ab', stored ab' (conn_view c') /\
    files_taken path fs' ab0 ab' (is_ok r)) as Hfiles.
  { intros me ab0 c0 fs0 <- Hh0 Hst0 Hx0.
    destruct (migrate_files_run _ _ _ _ _ _ Hh0 Hst0 Hx0) as (Hfs & Hh1 & Hab). cbn [fst snd] in *. by subst fs0. }
  assert (stored ab (conn_view c) -> healthy c' /\ exists ab', stored ab' (conn_view c') /\
    files_taken path fs' ab ab' (is_ok r)) as Hkept.
  { intros Hst. destruct (migrate_identity_stored _ _ fs [path] Hh Hst) as (c1 & Hm & Hc1 & Hv).
    rewrite Hm in Hx. apply (Hfiles (ab_identity ab) ab c1 fs); [done|done|by rewrite Hv|exact Hx]. }
  assert (healthy c' /\ (is_ok r = true -> exists me ab', stored ab' (conn_view c') /\
    files_taken path fs' (with_identity me ab) ab' true)) as [Hh' Hmade].
  { destruct Hd as [Hst|Hno].
    { destruct (Hkept Hst) as (Hh' & ab' & Hst' & Ht). split; [done|]. intros Hr. rewrite Hr in Ht.
      exists (ab_identity ab), ab'. split; [done|]. by destruct ab. }
    destruct (migrate_identity [path] (c, fs)) as [ri [c1 fs1]] eqn:Hm.
    destruct (migrate_identity_fresh _ _ _ _ _ _ Hh Hno Hm) as [Hh1 Hi]. cbn [fst] in *.
    destruct ri as [[me|]|e]; [|by injection Hx as <- <- <-..].
    destruct Hi as [(me' & Hst1 & Ho)|[_ Ho]]; [|by specialize (Ho _ eq_refl)].
    specialize (Ho _ eq_refl). injection Ho as <-.
    destruct (Hfiles me (with_identity me ab) c1 fs1 eq_refl Hh1 Hst1 Hx) as (Hh' & ab' & Hst' & Ht).
    split; [done|]. intros Hr. rewrite Hr in Ht. by exists me, ab'. }
  split; [done|]. split; [by intros Hst; apply Hkept|]. intros Hr.
  destruct (Hmade Hr) as (me & ab' & Hst' & Ht). exists me, ab'. split; [done|]. split; [done|].
  intros r2 s2 Hx2. exact (migrate_again _ _ _ _ _ _ _ Hh' Ht Hst' Hx2).
Qed.
End migrated.
