(* ===== verification/BrowserCryptobox.v ===== *)
(** * The migration from a Cryptobox in a browser

    [cryptobox_migrate] of [crypto/src/proteus.rs] where the old store is a database of the browser:
    the identity, the sessions and the prekeys, each a JavaScript object with its CBOR in base64,
    are copied into the browser's key store unless they are there. The old database is only read:
    it is a parameter, [CryptoboxDb]. *)

From S2P Require Import Prelude KsError Entity ProteusEntities.
From S2P Require Import Browser BrowserEntity BrowserMap BrowserProteus.
From S2P Require Import CcError Backend Proteus ProteusSpec Cryptobox.
Open Scope Z_scope.

(** ** The old database *)

(** [serde_json::Value]: the code looks whether it is a string. *)
Inductive Json : Set :=
  | JString (s : bytes)
  | JOther.

(** [None] is an error of [rexie], of [serde_wasm_bindgen], or of the base64 decoder; [as_string]
    of a key that is no string is [None]. *)
Class CryptoboxDb := {
  SourceDb : Type;
  SourceKey : Type;
  SourceValue : Type;
  source_build : bytes -> option SourceDb;
  source_store_names : SourceDb -> list string;
  source_get : SourceDb -> string -> string -> option (option SourceValue);
  source_get_all : SourceDb -> string -> option (list (SourceKey * SourceValue));
  as_string : SourceKey -> option bytes;
  source_from_value : SourceValue -> option (gmap string Json);
  base64_decode : bytes -> option bytes;
}.

(** ** Errors *)

(** How a computation stops in a browser: with an error of the crate ([BThrow]), with
    [CryptoError::KeyStoreError] of the browser's key store, with one of the errors of
    [CryptoboxMigrationError] that only exist there, or by a panic. *)
Inductive BrowserStop : Set :=
  | BThrow (e : CryptoError)
  | BKeyStore (e : WasmError)
  | BRexieError
  | BJsonParseError
  | BBase64DecodeError
  | BPanic.

Section migrate.
Context `{Wb : WasmBindgen} `{Ib : !IndexedDb} `{Ag : AesGcm}.
Context `{Pl : ProteusLib} `{!CryptoboxLib} `{!CryptoboxDb}.

Abbreviation bc A := (stm Browser BrowserStop A).

Definition in_browser {A} (m : stm Browser WasmError A) : bc A := st_map_err BKeyStore m.
Definition b_or {A} (e : BrowserStop) (o : option A) : bc A := st_lift (ok_or e o).
Definition b_res {A} (r : CryptoResult A) : bc A := st_lift (map_err BThrow r).
Definition migration_error {A} (e : CryptoboxMigrationError) : result BrowserStop A :=
  Err (BThrow (CryptoboxMigrationErrorC e)).

Definition get_cbor_bytes_from_map (map : gmap string Json) : result BrowserStop bytes :=
  match map !! "serialised" with
  | None => migration_error (MissingKeyInValue "serialised")
  | Some js_value =>
      match js_value with
      | JOther => migration_error (WrongValueType "string")
      | JString b64_value => ok_or BBase64DecodeError (base64_decode b64_value)
      end
  end.

Definition local_identity_key : string := "local_identity".
Definition local_identity_store_name : string := "keys".
Definition prekeys_store_name : string := "prekeys".
Definition sessions_store_name : string := "sessions".

Definition browser_migrate_identity (db : SourceDb) : bc (option IdentityKeyPair) :=
  stored ← in_browser (WasmConnection_find (E := ProteusIdentity) []);
  match stored with
  | Some store_kp =>
      sk ← b_or BPanic (sk_raw store_kp);
      pk ← b_or BPanic (pk_raw store_kp);
      kp ← b_res (internal_err (from_raw_key_pair sk pk));
      mret (Some kp)
  | None =>
      value ← b_or BRexieError (source_get db local_identity_store_name local_identity_key);
      match value with
      | Some cryptobox_js_value =>
          js_value ← b_or BJsonParseError (source_from_value cryptobox_js_value);
          kp_cbor ← st_lift (get_cbor_bytes_from_map js_value);
          kp ← b_res (decode_err (IdentityKeyPair_deserialise kp_cbor));
          let pk := public_key_bytes (public_key kp) in
          in_browser (WasmConnection_save (MkProteusIdentity (to_keypair_bytes kp) pk));;
          mret (Some kp)
      | None => mret None
      end
  end.

Definition browser_migrate_session (identity : IdentityKeyPair) (entry : SourceKey * SourceValue) :
    bc () :=
  session_id ← b_or BPanic (as_string entry.1);
  found ← in_browser (WasmConnection_find (E := ProteusSession) session_id);
  match found with
  | Some _ => mret ()
  | None =>
      js_value ← b_or BJsonParseError (source_from_value entry.2);
      session_cbor_bytes ← st_lift (get_cbor_bytes_from_map js_value);
      match Session_deserialise identity session_cbor_bytes with
      | Ok _ =>
          in_browser (WasmConnection_save (MkProteusSession session_id session_cbor_bytes));;
          mret ()
      | Err _ => mret ()
      end
  end.

Definition browser_migrate_prekey (entry : SourceKey * SourceValue) : bc () :=
  prekey_id ← b_or BPanic (as_string entry.1);
  prekey_id ← b_or (BThrow ParseIntError) (parse_u16 prekey_id);
  found ← in_browser (WasmConnection_find (E := ProteusPrekey) (u16_to_le_bytes prekey_id));
  match found with
  | Some _ => mret ()
  | None =>
      js_value ← b_or BJsonParseError (source_from_value entry.2);
      raw_prekey_cbor ← st_lift (get_cbor_bytes_from_map js_value);
      match PreKey_deserialise raw_prekey_cbor with
      | Ok _ =>
          in_browser (WasmConnection_save (ProteusPrekey_from_raw prekey_id raw_prekey_cbor));;
          mret ()
      | Err _ => mret ()
      end
  end.

Definition contains (names : list string) (name : string) : bool := bool_decide (name ∈ names).

Definition browser_cryptobox_migrate_impl (path : bytes) : bc () :=
  db ← b_or BRexieError (source_build path);
  let store_names := source_store_names db in
  let expected_stores := [prekeys_store_name; sessions_store_name; local_identity_store_name] in
  if negb (forallb (contains store_names) expected_stores)
  then st_lift (migration_error (ProvidedPathDoesNotExist path))
  else
    proteus_identity ← browser_migrate_identity db;
    match proteus_identity with
    | None => st_lift (migration_error (IdentityNotFound path))
    | Some proteus_identity =>
        (if contains store_names sessions_store_name then
           sessions ← b_or BRexieError (source_get_all db sessions_store_name);
           st_iter (browser_migrate_session proteus_identity) sessions
         else mret ());;
        (if contains store_names prekeys_store_name then
           prekeys ← b_or BRexieError (source_get_all db prekeys_store_name);
           st_iter browser_migrate_prekey prekeys
         else mret ())
    end.
End migrate.

(** ** What it takes *)

Section taken.
Context `{Pl : ProteusLib} `{!CryptoboxDb}.

(** The CBOR of an entry, if it can be had. *)
Definition cbor_of (v : SourceValue) : option bytes :=
  map ← source_from_value v; res_ok (get_cbor_bytes_from_map map).

(** A session that is there is kept; another one is taken if its entry can be read as a session. *)
Definition browser_take_session (me : IdentityKeyPair) (m : gmap bytes ProteusSession)
    (entry : SourceKey * SourceValue) : gmap bytes ProteusSession :=
  match as_string entry.1 with
  | None => m
  | Some id =>
      match m !! id with
      | Some _ => m
      | None =>
          match cbor_of entry.2 with
          | Some b => match Session_deserialise me b with
                      | Ok _ => <[id := MkProteusSession id b]> m
                      | Err _ => m
                      end
          | None => m
          end
      end
  end.

(** So is a prekey, under the number its key reads as. *)
Definition browser_take_prekey (m : gmap bytes ProteusPrekey) (entry : SourceKey * SourceValue) :
    gmap bytes ProteusPrekey :=
  match (s ← as_string entry.1; parse_u16 s) with
  | None => m
  | Some id =>
      match m !! u16_to_le_bytes id with
      | Some _ => m
      | None =>
          match cbor_of entry.2 with
          | Some b => match PreKey_deserialise b with
                      | Ok _ => <[u16_to_le_bytes id := ProteusPrekey_from_raw id b]> m
                      | Err _ => m
                      end
          | None => m
          end
      end
  end.

Lemma browser_take_session_grows me m e : m ⊆ browser_take_session me m e.
Proof.
  unfold browser_take_session. destruct (as_string e.1) as [id|]; [|done].
  destruct (m !! id) eqn:Hm; [done|]. destruct (cbor_of e.2) as [b|]; [|done].
  destruct (Session_deserialise me b); [by apply insert_subseteq|done].
Qed.

Lemma browser_take_prekey_grows m e : m ⊆ browser_take_prekey m e.
Proof.
  unfold browser_take_prekey. destruct (_ ≫= _) as [id|]; [|done].
  destruct (m !! _) eqn:Hm; [done|]. destruct (cbor_of e.2) as [b|]; [|done].
  destruct (PreKey_deserialise b); [by apply insert_subseteq|done].
Qed.

(** What a map has is not taken again. *)
Lemma take_again {A V} `{Countable A} (m m' : gmap A V) k (o : option V) :
  match m !! k with Some _ => m | None => match o with Some v => <[k := v]> m | None => m end end ⊆ m' ->
  match m' !! k with Some _ => m' | None => match o with Some v => <[k := v]> m' | None => m' end end = m'.
Proof.
  intros Hs. destruct (m' !! k) eqn:Hm'; [done|]. destruct (m !! k) eqn:Hm.
  { by rewrite (lookup_weaken _ _ _ _ Hm Hs) in Hm'. }
  destruct o as [v|]; [|done]. exfalso.
  by rewrite (lookup_weaken _ _ _ _ (lookup_insert_eq m k v) Hs) in Hm'.
Qed.

Lemma browser_take_session_again me m m' e :
  browser_take_session me m e ⊆ m' -> browser_take_session me m' e = m'.
Proof.
  unfold browser_take_session. destruct (as_string e.1) as [id|]; [|done].
  destruct (cbor_of e.2) as [b|]; [|by repeat case_match].
  destruct (Session_deserialise me b); [|by repeat case_match].
  apply (take_again m m' id (Some _)).
Qed.

Lemma browser_take_prekey_again m m' e : browser_take_prekey m e ⊆ m' -> browser_take_prekey m' e = m'.
Proof.
  unfold browser_take_prekey. destruct (_ ≫= _) as [id|]; [|done].
  destruct (cbor_of e.2) as [b|]; [|by repeat case_match].
  destruct (PreKey_deserialise b); [|by repeat case_match].
  apply (take_again m m' _ (Some _)).
Qed.
End taken.

(** ** The calls of the key store, as maps *)

Section calls.
Context `{Wb : WasmBindgen} `{Ib : !IndexedDb} `{Ag : AesGcm} `{!WasmBindgenLaws}.
Context {E : Type} `{!WasmEntity E} `{!WasmEntityBase E} `{!WasmCodec E}.
Implicit Types (b : Browser) (m : gmap bytes E).

Lemma only_refl c b : only_collection c b b.
Proof. by split_and!. Qed.

Lemma only_trans c b1 b2 b3 :
  only_collection c b1 b2 -> only_collection c b2 b3 -> only_collection c b1 b3.
Proof.
  intros (H1 & Hc1 & Hn1) (H2 & Hc2 & Hn2). split_and!; [|congruence..].
  intros c' Hc'. by rewrite H2, H1.
Qed.

(** An entity of another collection is kept. *)
Lemma holds_frame c b b' m :
  only_collection c b b' -> c <> os_name wl_decl -> ready (br_storage b') -> holds b m -> holds b' m.
Proof.
  intros (Hc & Hk & _) Hne Hr [_ Hm]. split; [done|]. rewrite Hk, Hc by done. done.
Qed.

Lemma find_in_browser `{!WasmLaws E} b m id r b' :
  holds b m -> in_browser (WasmConnection_find id) b = (r, b') ->
  only_collection (os_name wl_decl) b b' /\ holds b' m /\ forall o, r = Ok o -> o = m !! id.
Proof.
  intros Hm Hx. unfold in_browser, st_map_err, WasmConnection_find in Hx. rewrite wl_find_one in Hx.
  pose proof (storage_get_holds b m id Hm) as (Ho & _ & Hr).
  destruct (storage_get _ id b) as [[o|e] b1]; injection Hx as <- <-; cbn in *.
  - destruct Hr as [-> Hh]. split_and!; [done..|]. by intros o [= <-].
  - split_and!; [done|by apply Hr|done].
Qed.

Lemma save_in_browser b m e r b' :
  w_save e = storage_save (os_name wl_decl) [e] -> holds b m -> wl_ok e ->
  in_browser (WasmConnection_save e) b = (r, b') ->
  only_collection (os_name wl_decl) b b' /\ holds b' (if is_ok r then <[id_raw e := e]> m else m).
Proof.
  intros Hs Hm He Hx. unfold in_browser, st_map_err, WasmConnection_save in Hx. rewrite Hs in Hx.
  pose proof (storage_save_holds b m e Hm He) as (Ho & _ & Hr).
  unfold mbind, stm_bind in Hx.
  destruct (storage_save _ [e] b) as [[[]|err] b1]; injection Hx as <- <-; cbn in *;
    (split; [done|by apply Hr]).
Qed.

(** A loop whose steps take an entry each, or fail and take nothing. *)
Lemma iter_in_browser {X} (step : X -> stm Browser BrowserStop ()) (f : gmap bytes E -> X -> gmap bytes E) l :
  (forall b m x r b', holds b m -> step x b = (r, b') ->
     only_collection (os_name wl_decl) b b' /\ holds b' (if is_ok r then f m x else m)) ->
  forall b m r b', holds b m -> st_iter step l b = (r, b') ->
  only_collection (os_name wl_decl) b b' /\
  exists done_, done_ `prefix_of` l /\ holds b' (fold_left f done_ m) /\ (is_ok r = true -> done_ = l).
Proof.
  intros Hstep. induction l as [|x l IH]; intros b m r b' Hm Hx.
  - injection Hx as <- <-. split; [apply only_refl|]. exists []. by split_and!.
  - cbn [st_iter] in Hx. unfold mbind, stm_bind in Hx. destruct (step x b) as [r1 b1] eqn:Hs.
    destruct (Hstep _ _ _ _ _ Hm Hs) as [Ho Hm1]. destruct r1 as [[]|e]; cbn [is_ok] in Hm1.
    + destruct (IH _ _ _ _ Hm1 Hx) as (Ho2 & d & Hp & Hm2 & Hok). split; [by eapply only_trans|].
      exists (x :: d). split_and!; [by apply prefix_cons|done|]. intros Hr. by rewrite (Hok Hr).
    + injection Hx as <- <-. split; [done|]. exists []. split_and!; [apply prefix_nil|done|done].
Qed.
End calls.

(** ** The steps *)

Section steps.
Context `{Wb : WasmBindgen} `{Ib : !IndexedDb} `{Ag : AesGcm} `{!WasmBindgenLaws} `{!AesGcmLaws}.
Context `{Pl : ProteusLib, !ProteusLaws} `{!CryptoboxLib} `{!CryptoboxDb}.
Implicit Types (b : Browser) (mi : gmap bytes ProteusIdentity).

(** What a chain of calls does, one call at a time. *)
Lemma b_or_bind {A B} e (o : option A) (k : A -> stm Browser BrowserStop B) b :
  (x ← b_or e o; k x) b = match o with Some a => k a b | None => (Err e, b) end.
Proof. by destruct o. Qed.

Lemma b_bind {A B} (m : stm Browser BrowserStop A) (k : A -> stm Browser BrowserStop B) b :
  (x ← m; k x) b = match m b with (Ok a, b') => k a b' | (Err e, b') => (Err e, b') end.
Proof. done. Qed.

(** The CBOR of an entry in the loops: an error stops, otherwise it is that of [cbor_of]. *)
Lemma cbor_step {A} (v : SourceValue) (k : bytes -> stm Browser BrowserStop A) b :
  (js_value ← b_or BJsonParseError (source_from_value v);
   cbor ← st_lift (get_cbor_bytes_from_map js_value);
   k cbor) b =
  match cbor_of v with
  | Some cbor => k cbor b
  | None => (match source_from_value v with
             | None => Err BJsonParseError
             | Some map => match get_cbor_bytes_from_map map with
                           | Ok _ => Err BJsonParseError
                           | Err e => Err e
                           end
             end, b)
  end.
Proof.
  unfold cbor_of, b_or, mbind, stm_bind, st_lift, option_bind.
  destruct (source_from_value v) as [map|]; [|done]. cbn [ok_or].
  by destruct (get_cbor_bytes_from_map map).
Qed.

Lemma browser_session_step me b m e r b' :
  holds b m -> browser_migrate_session me e b = (r, b') ->
  only_collection "proteus_sessions" b b' /\
  holds b' (if is_ok r then browser_take_session me m e else m).
Proof.
  intros Hm Hx. unfold browser_migrate_session, browser_take_session in *.
  rewrite b_or_bind in Hx. destruct (as_string e.1) as [id|]; [|injection Hx as <- <-; by split; [apply only_refl|]].
  rewrite b_bind in Hx. destruct (in_browser _ b) as [o b1] eqn:Hf.
  destruct (find_in_browser _ _ _ _ _ Hm Hf) as (Ho & Hm1 & Hfound).
  destruct o as [o|err]; [|by injection Hx as <- <-]. rewrite <-(Hfound _ eq_refl).
  destruct o as [x|]; [by injection Hx as <- <-|]. rewrite cbor_step in Hx.
  destruct (cbor_of e.2) as [cbor|].
  2: { destruct (source_from_value e.2) as [map|]; [destruct (get_cbor_bytes_from_map map)|];
       by injection Hx as <- <-. }
  destruct (Session_deserialise me cbor); [|by injection Hx as <- <-].
  rewrite b_bind in Hx. destruct (in_browser _ b1) as [w b2] eqn:Hw.
  destruct (save_in_browser _ _ (MkProteusSession id cbor) _ _ (wl_save _) Hm1 I Hw) as [Ho2 Hm2].
  destruct w; injection Hx as <- <-; (split; [by eapply only_trans|done]).
Qed.

Lemma browser_prekey_step b m e r b' :
  holds b m -> browser_migrate_prekey e b = (r, b') ->
  only_collection "proteus_prekeys" b b' /\
  holds b' (if is_ok r then browser_take_prekey m e else m).
Proof.
  intros Hm Hx. unfold browser_migrate_prekey, browser_take_prekey in *.
  rewrite b_or_bind in Hx. destruct (as_string e.1) as [s|]; [|injection Hx as <- <-; by split; [apply only_refl|]].
  cbn [mbind option_bind] in *. rewrite b_or_bind in Hx. destruct (parse_u16 s) as [id|] eqn:Hid; [|injection Hx as <- <-; by split; [apply only_refl|]].
  rewrite b_bind in Hx. destruct (in_browser _ b) as [o b1] eqn:Hf.
  destruct (find_in_browser _ _ _ _ _ Hm Hf) as (Ho & Hm1 & Hfound).
  destruct o as [o|err]; [|by injection Hx as <- <-]. rewrite <-(Hfound _ eq_refl).
  destruct o as [x|]; [by injection Hx as <- <-|]. rewrite cbor_step in Hx.
  destruct (cbor_of e.2) as [cbor|].
  2: { destruct (source_from_value e.2) as [map|]; [destruct (get_cbor_bytes_from_map map)|];
       by injection Hx as <- <-. }
  destruct (PreKey_deserialise cbor); [|by injection Hx as <- <-].
  rewrite b_bind in Hx. destruct (in_browser _ b1) as [w b2] eqn:Hw.
  assert (wl_ok (ProteusPrekey_from_raw id cbor)) as Hok.
  { split; [|done]. exact (parse_u16_bound _ _ Hid). }
  destruct (save_in_browser _ _ (ProteusPrekey_from_raw id cbor) _ _ (wl_save _) Hm1 Hok Hw) as [Ho2 Hm2].
  destruct w; injection Hx as <- <-; (split; [by eapply only_trans|done]).
Qed.

(** ** The identity *)

Definition identity_key : bytes := [byte_of 1].

(** The one identity in the key store is that of [me]. *)
Definition identity_stored (mi : gmap bytes ProteusIdentity) (me : IdentityKeyPair) : Prop :=
  exists x sk pk, mi !! identity_key = Some x /\ sk_raw x = Some sk /\ pk_raw x = Some pk /\
    from_raw_key_pair sk pk = Ok me.

Lemma identity_entry (b : Browser) mi k x :
  holds b mi -> mi !! k = Some x -> k = identity_key.
Proof.
  intros [_ Hm] Hk. specialize (Hm k). rewrite Hk in Hm. inversion Hm as [? v Hs|]; subst.
  by destruct Hs as (_ & <- & _).
Qed.

Lemma find_identity (b : Browser) mi r b' :
  holds b mi -> in_browser (WasmConnection_find (E := ProteusIdentity) []) b = (r, b') ->
  only_collection "proteus_identities" b b' /\ holds b' mi /\
  forall o, r = Ok o -> o = mi !! identity_key /\ (o = None -> mi = ∅).
Proof.
  intros Hm Hx. pose proof (storage_get_all_holds b mi Hm) as (Ho & _ & Hr).
  unfold in_browser, st_map_err, WasmConnection_find in Hx. cbn [w_find_one wasm_ProteusIdentity_base] in Hx.
  unfold wasm_ProteusIdentity_find_one, wasm_ProteusIdentity_find_all, mbind, stm_bind in Hx.
  change (storage_get_all "proteus_identities" None b) with
    (storage_get_all (E := ProteusIdentity) (os_name wl_decl) (Some EntityFindParams_default) b) in Hx.
  destruct (storage_get_all _ _ b) as [[l|e] b1]; injection Hx as <- <-; cbn in Hr;
    [|split_and!; [done|by apply Hr|done]].
  destruct Hr as [Hl Hh]. split_and!; [done..|]. intros o [= <-].
  destruct (reverse l) as [|x l'] eqn:Hrev; cbn.
  - assert (l = []) as -> by (rewrite <-(reverse_involutive l), Hrev; done).
    apply Permutation_nil_l, eq_sym, fmap_nil_inv, map_to_list_empty_iff in Hl as ->. by rewrite lookup_empty.
  - assert (x ∈ snd <$> map_to_list mi) as Hin.
    { rewrite <-Hl, <-(reverse_involutive l), Hrev. apply elem_of_reverse. by left. }
    apply list_elem_of_fmap in Hin as ([k y] & -> & Hin). apply elem_of_map_to_list in Hin.
    pose proof (identity_entry _ _ _ _ Hm Hin) as ->. by rewrite Hin.
Qed.

Lemma identity_saved (kp : IdentityKeyPair) (mi : gmap bytes ProteusIdentity) :
  identity_stored (<[identity_key := MkProteusIdentity (to_keypair_bytes kp)
                      (public_key_bytes (public_key kp))]> mi) kp.
Proof.
  destruct (identity_sizes kp) as [Hsk Hpk]. eexists _, _, _.
  split; [apply lookup_insert_eq|]. unfold sk_raw, pk_raw. cbn [pi_sk pi_pk].
  rewrite Hsk, Hpk, !Z.leb_refl, !take_ge by (unfold blen in *; lia).
  split_and!; [done..|apply identity_roundtrip].
Qed.

Lemma browser_migrate_identity_run db (b : Browser) mi r b' :
  holds b mi -> browser_migrate_identity db b = (r, b') ->
  only_collection "proteus_identities" b b' /\
  exists mi', holds b' mi' /\ mi ⊆ mi' /\ (forall me, r = Ok (Some me) -> identity_stored mi' me) /\
    (forall me, identity_stored mi me -> mi' = mi /\ forall o, r = Ok o -> o = Some me).
Proof.
  intros Hm Hx. unfold browser_migrate_identity in Hx. rewrite b_bind in Hx.
  destruct (in_browser _ b) as [o b1] eqn:Hf.
  destruct (find_identity _ _ _ _ Hm Hf) as (Ho & Hm1 & Hfound).
  destruct o as [o|err]; [|injection Hx as <- <-; split; [done|]; exists mi; by split_and!].
  destruct (Hfound _ eq_refl) as [Hlk Hempty]. destruct o as [x|].
  - assert (b' = b1 /\ forall o, r = Ok o -> exists me, o = Some me /\ identity_stored mi me) as [-> Hr].
    { unfold identity_stored. rewrite <-Hlk. rewrite b_or_bind in Hx.
      destruct (sk_raw x) as [sk|] eqn:Hsk; [|by injection Hx as <- <-]. rewrite b_or_bind in Hx.
      destruct (pk_raw x) as [pk|] eqn:Hpk; [|by injection Hx as <- <-].
      unfold b_res, internal_err, mbind, stm_bind, st_lift in Hx.
      destruct (from_raw_key_pair sk pk) as [me|] eqn:Hraw; injection Hx as <- <-; split; try done.
      intros o [= <-]. exists me. split; [done|]. by exists x, sk, pk. }
    split; [done|]. exists mi. split_and!; [done..| |].
    + intros me ->. destruct (Hr _ eq_refl) as (me' & [= <-] & Hs). done.
    + intros me (x' & sk & pk & Hx' & Hsk & Hpk & Hraw). split; [done|]. intros o ->.
      destruct (Hr _ eq_refl) as (me' & -> & (x2 & sk2 & pk2 & Hx2 & Hsk2 & Hpk2 & Hraw2)).
      rewrite Hx' in Hx2. injection Hx2 as <-. congruence.
  - specialize (Hempty eq_refl) as ->.
    assert (forall me, ~ identity_stored ∅ me) as Hnone.
    { intros me (x & _ & _ & Hx' & _). by rewrite lookup_empty in Hx'. }
    rewrite b_or_bind in Hx. destruct (source_get _ _ _) as [[v|]|].
    2, 3: injection Hx as <- <-; split; [done|]; exists ∅; split_and!; try done;
      by intros me ?%Hnone.
    rewrite cbor_step in Hx. destruct (cbor_of v) as [cbor|].
    2: { destruct (source_from_value v) as [map|]; [destruct (get_cbor_bytes_from_map map)|];
         injection Hx as <- <-; split; try done; exists ∅; split_and!; try done; by intros me ?%Hnone. }
    unfold b_res, decode_err in Hx. rewrite b_bind in Hx. unfold st_lift at 1 in Hx.
    destruct (IdentityKeyPair_deserialise cbor) as [kp|]; cbn [map_err] in Hx.
    2: { injection Hx as <- <-. split; [done|]. exists ∅. by split_and!. }
    rewrite b_bind in Hx. destruct (in_browser _ b1) as [w b2] eqn:Hw.
    assert (forall e : ProteusIdentity,
      w_save e = storage_save (os_name (wl_decl (E := ProteusIdentity))) [e]) as Hsave by done.
    destruct (save_in_browser b1 ∅ _ _ _ (Hsave _) Hm1 I Hw) as [Ho2 Hm2].
    destruct w as [w|err]; injection Hx as <- <-; (split; [by eapply only_trans|]).
    + eexists. split; [exact Hm2|]. split_and!; [apply map_empty_subseteq| |by intros me ?%Hnone].
      intros me [= <-]. apply identity_saved.
    + exists ∅. by split_and!.
Qed.

(** ** The whole migration *)

Definition proteus_stores : list string := ["proteus_identities"; "proteus_sessions"; "proteus_prekeys"].

(** The key store holds these identities, sessions and prekeys. *)
Record proteus_holds (b : Browser) mi (ms : gmap bytes ProteusSession) (mp : gmap bytes ProteusPrekey) :
    Prop := {
  ph_identity : holds b mi;
  ph_sessions : holds b ms;
  ph_prekeys : holds b mp;
}.

(** No other store is written. *)
Definition only_proteus (b b' : Browser) : Prop :=
  forall c, c ∉ proteus_stores -> content (br_storage b') c = content (br_storage b) c.

Lemma only_proteus_of c (b b' : Browser) :
  c ∈ proteus_stores -> only_collection c b b' -> only_proteus b b'.
Proof. intros Hc (Ho & _) c' Hc'. apply Ho. by intros ->. Qed.

Lemma only_proteus_trans (b1 b2 b3 : Browser) :
  only_proteus b1 b2 -> only_proteus b2 b3 -> only_proteus b1 b3.
Proof. intros H1' H2' c Hc. by rewrite H2', H1'. Qed.

Lemma after_identity (b b' : Browser) mi ms mp mi' :
  proteus_holds b mi ms mp -> only_collection "proteus_identities" b b' -> holds b' mi' ->
  proteus_holds b' mi' ms mp.
Proof.
  intros [_ Hs Hp] Ho Hm. split; [done|..];
    (eapply holds_frame; [exact Ho|done|exact (proj1 Hm)|done]).
Qed.

Lemma after_session (b b' : Browser) mi ms mp ms' :
  proteus_holds b mi ms mp -> only_collection "proteus_sessions" b b' -> holds b' ms' ->
  proteus_holds b' mi ms' mp.
Proof.
  intros [Hi _ Hp] Ho Hm. split; [|done|];
    (eapply holds_frame; [exact Ho|done|exact (proj1 Hm)|done]).
Qed.

Lemma after_prekey (b b' : Browser) mi ms mp mp' :
  proteus_holds b mi ms mp -> only_collection "proteus_prekeys" b b' -> holds b' mp' ->
  proteus_holds b' mi ms mp'.
Proof.
  intros [Hi Hs _] Ho Hm. split; [..|done];
    (eapply holds_frame; [exact Ho|done|exact (proj1 Hm)|done]).
Qed.

Lemma fold_fixed {A X} (f : A -> X -> A) (l pre : list X) (m : A) :
  pre `prefix_of` l -> (forall e, e ∈ l -> f m e = m) -> fold_left f pre m = m.
Proof.
  intros [k ->] Hf. induction pre as [|e pre IH]; [done|]. simpl. rewrite Hf by (simpl; by left).
  apply IH. intros e' He'. apply Hf. simpl. by right.
Qed.

(** The loop over a store of the old database. *)
Definition take_all {E : Type} (db : SourceDb) (name : string)
    (f : gmap bytes E -> SourceKey * SourceValue -> gmap bytes E) (m m' : gmap bytes E) (ok : bool) : Prop :=
  (exists pre, m' = fold_left f pre m /\
     (forall l, source_get_all db name = Some l -> pre `prefix_of` l) /\
     (source_get_all db name = None -> pre = [])) /\
  (ok = true -> exists l, source_get_all db name = Some l /\ m' = fold_left f l m).

Lemma take_all_grows {E : Type} (db : SourceDb) (name : string)
    (f : gmap bytes E -> SourceKey * SourceValue -> gmap bytes E) (m m' : gmap bytes E) (ok : bool) :
  (forall m e, m ⊆ f m e) -> take_all db name f m m' ok -> m ⊆ m'.
Proof. intros Hf [(pre & -> & _) _]. by apply fold_grows. Qed.

(** What a loop took that went through, no later one takes. *)
Lemma take_all_again {E : Type} (db : SourceDb) (name : string)
    (f : gmap bytes E -> SourceKey * SourceValue -> gmap bytes E) (m m' m'' : gmap bytes E) (ok : bool) :
  (forall m e, m ⊆ f m e) -> (forall m m' e, f m e ⊆ m' -> f m' e = m') ->
  take_all db name f m m' true -> take_all db name f m' m'' ok -> m'' = m'.
Proof.
  intros Hg Ha [_ Hall] [(pre & -> & Hpre & _) _]. destruct (Hall eq_refl) as (l & Hl & ->).
  eapply fold_fixed; [by apply Hpre|]. intros e He. by apply fold_again.
Qed.

Lemma loop_run {E : Type} `{!WasmEntity E} `{!WasmEntityBase E} `{!WasmCodec E} (db : SourceDb) (name : string)
    (step : SourceKey * SourceValue -> stm Browser BrowserStop ())
    (f : gmap bytes E -> SourceKey * SourceValue -> gmap bytes E) (b : Browser) (m : gmap bytes E) r b' :
  (forall b m x r b', holds b m -> step x b = (r, b') ->
     only_collection (os_name wl_decl) b b' /\ holds b' (if is_ok r then f m x else m)) ->
  holds b m -> (l ← b_or BRexieError (source_get_all db name); st_iter step l) b = (r, b') ->
  only_collection (os_name wl_decl) b b' /\
  exists m', holds b' m' /\ take_all db name f m m' (is_ok r).
Proof.
  intros Hstep Hm Hx. rewrite b_or_bind in Hx. unfold take_all.
  destruct (source_get_all db name) as [l|].
  - destruct (iter_in_browser step f l Hstep _ _ _ _ Hm Hx) as (Ho & pre & Hpre & Hm' & Hok).
    split; [done|]. eexists. split; [exact Hm'|]. split.
    + exists pre. split_and!; [done| |done]. by intros l' [= <-].
    + intros Hr. exists l. by rewrite (Hok Hr).
  - injection Hx as <- <-. split; [apply only_refl|]. exists m. split; [done|]. split; [|done].
    exists []. by split_and!.
Qed.

Lemma migrate_inv path (b : Browser) r b' :
  browser_cryptobox_migrate_impl path b = (r, b') ->
  (b' = b /\ is_ok r = false) \/
  exists db r1 b1, source_build path = Some db /\ browser_migrate_identity db b = (r1, b1) /\
    ((b' = b1 /\ is_ok r = false) \/
     exists me, r1 = Ok (Some me) /\
       ((sessions ← b_or BRexieError (source_get_all db sessions_store_name);
         st_iter (browser_migrate_session me) sessions);;
        (prekeys ← b_or BRexieError (source_get_all db prekeys_store_name);
         st_iter browser_migrate_prekey prekeys)) b1 = (r, b')).
Proof.
  unfold browser_cryptobox_migrate_impl. rewrite b_or_bind. cbv zeta.
  destruct (source_build path) as [db|]; [|intros [= <- <-]; by left].
  destruct (forallb _ _) eqn:Hall; [|intros [= <- <-]; by left].
  cbn [forallb] in Hall. apply andb_true_iff in Hall as [Hp [Hs _]%andb_true_iff].
  cbn [negb]. rewrite b_bind, Hp, Hs. intros Hx. right. destruct (browser_migrate_identity db b) as [r1 b1] eqn:Hid.
  exists db, r1, b1. split_and!; [done..|].
  destruct r1 as [[me|]|e]; [right; by exists me|injection Hx as <- <-; by left..].
Qed.

(** What a migration from [path] makes of the maps; [ok] says that it went through. *)
Definition migrated (path : bytes) mi (ms : gmap bytes ProteusSession) (mp : gmap bytes ProteusPrekey)
    mi' ms' mp' (ok : bool) : Prop :=
  mi ⊆ mi' /\ ms ⊆ ms' /\ mp ⊆ mp' /\
  (ok = true -> exists db me, source_build path = Some db /\ identity_stored mi' me /\
     take_all db sessions_store_name (browser_take_session me) ms ms' true /\
     take_all db prekeys_store_name browser_take_prekey mp mp' true).

Lemma migrate_run path (b : Browser) mi ms mp r b' :
  proteus_holds b mi ms mp -> browser_cryptobox_migrate_impl path b = (r, b') ->
  exists mi' ms' mp', proteus_holds b' mi' ms' mp' /\ only_proteus b b' /\
    migrated path mi ms mp mi' ms' mp' (is_ok r) /\
    (forall db me, source_build path = Some db -> identity_stored mi me ->
       mi' = mi /\
       (ms' = ms \/ exists ok, take_all db sessions_store_name (browser_take_session me) ms ms' ok) /\
       (mp' = mp \/ exists ok, take_all db prekeys_store_name browser_take_prekey mp mp' ok)).
Proof.
  intros Hb Hx. destruct (migrate_inv _ _ _ _ Hx) as [[-> ->]|(db & r1 & b1 & Hdb & Hid & Hrest)].
  { exists mi, ms, mp. split_and!; [done..|]. intros. split_and!; [done|by left|by left]. }
  destruct (browser_migrate_identity_run db b mi r1 b1 (ph_identity _ _ _ _ Hb) Hid)
    as (Ho1 & mi' & Hm1 & Hgi & Hme & Hagain).
  pose proof (after_identity _ _ _ _ _ _ Hb Ho1 Hm1) as Hb1.
  assert (only_proteus b b1) as Hp1 by (eapply only_proteus_of; [|exact Ho1]; by left).
  destruct Hrest as [[-> ->]|(me & -> & Hrest)].
  { exists mi', ms, mp. split_and!; [done..|]. intros db0 me0 _ Hs. destruct (Hagain _ Hs) as [-> _].
    split_and!; [done|by left|by left]. }
  rewrite b_bind in Hrest. destruct ((l ← b_or _ _; _) b1) as [r2 b2] eqn:Hse.
  destruct (loop_run db sessions_store_name _ _ b1 ms r2 b2 
    (fun b m x r b' => browser_session_step me b m x r b')
    (ph_sessions _ _ _ _ Hb1) Hse) as (Ho2 & ms' & Hm2 & Ht2).
  pose proof (after_session _ _ _ _ _ _ Hb1 Ho2 Hm2) as Hb2.
  assert (only_proteus b b2) as Hp2.
  { eapply only_proteus_trans; [exact Hp1|]. eapply only_proteus_of; [|exact Ho2]. right; by left. }
  assert (forall db0 me0, source_build path = Some db0 -> identity_stored mi me0 ->
    mi' = mi /\ db0 = db /\ me0 = me) as Hsame.
  { intros db0 me0 Hdb0 Hs. destruct (Hagain _ Hs) as [-> Heq]. specialize (Heq _ eq_refl).
    split_and!; congruence. }
  destruct r2 as [[]|e].
  - destruct (loop_run db prekeys_store_name _ _ b2 mp r b' (fun b m x r b' => browser_prekey_step b m x r b')
      (ph_prekeys _ _ _ _ Hb2) Hrest) as (Ho3 & mp' & Hm3 & Ht3).
    exists mi', ms', mp'. split_and!.
    + by eapply after_prekey.
    + eapply only_proteus_trans; [exact Hp2|]. eapply only_proteus_of; [|exact Ho3]. right; right; by left.
    + split; [done|]. split; [|split].
      * eapply take_all_grows; [apply browser_take_session_grows|exact Ht2].
      * eapply take_all_grows; [apply browser_take_prekey_grows|exact Ht3].
      * intros Hr. rewrite Hr in Ht3. exists db, me. by split_and!; [|apply Hme| |].
    + intros db0 me0 Hdb0 Hs. destruct (Hsame _ _ Hdb0 Hs) as (-> & -> & ->).
      split_and!; [done|right; by eexists..].
  - injection Hrest as <- <-. exists mi', ms', mp. split_and!; try done.
    + split; [done|]. split; [|done].
      eapply take_all_grows; [apply browser_take_session_grows|exact Ht2].
    + intros db0 me0 Hdb0 Hs. destruct (Hsame _ _ Hdb0 Hs) as (-> & -> & ->).
      split_and!; [done|right; by eexists|by left].
Qed.

(** C24: The migration of a Cryptobox in a browser keeps all that is in the key store, whatever it
    answers: no identity, session or prekey changes or goes, and no other store is written. When it
    succeeds there is an identity, the one that was there if there was one, and every session and
    prekey of the old database that this identity can read and that was not there has been taken;
    and doing it again, with whatever outcome, changes nothing any more. *)
Theorem browser_migrate_spec path (b : Browser) mi ms mp r b' :
  proteus_holds b mi ms mp -> browser_cryptobox_migrate_impl path b = (r, b') ->
  exists mi' ms' mp', proteus_holds b' mi' ms' mp' /\ only_proteus b b' /\
    migrated path mi ms mp mi' ms' mp' (is_ok r) /\
    (is_ok r = true -> forall r2 b2, browser_cryptobox_migrate_impl path b' = (r2, b2) ->
       proteus_holds b2 mi' ms' mp').
Proof.
  intros Hb Hx. destruct (migrate_run _ _ _ _ _ _ _ Hb Hx) as (mi' & ms' & mp' & Hb' & Ho & Hm & _).
  exists mi', ms', mp'. split_and!; [done..|]. intros Hr r2 b2 Hx2.
  destruct Hm as (_ & _ & _ & Hok). destruct (Hok Hr) as (db & me & Hdb & Hid & Hts & Htp).
  destruct (migrate_run _ _ _ _ _ _ _ Hb' Hx2) as (mi2 & ms2 & mp2 & Hb2 & _ & _ & Hagain).
  destruct (Hagain _ _ Hdb Hid) as (-> & Hs2 & Hp2).
  assert (ms2 = ms') as ->.
  { destruct Hs2 as [?|[ok Hs2]]; [done|]. eapply take_all_again; [..|exact Hts|exact Hs2].
    - apply browser_take_session_grows.
    - apply browser_take_session_again. }
  assert (mp2 = mp') as ->; [|done].
  destruct Hp2 as [?|[ok Hp2]]; [done|]. eapply take_all_again; [..|exact Htp|exact Hp2].
  - apply browser_take_prekey_grows.
  - apply browser_take_prekey_again.
Qed.
End steps.
