(* ===== verification/OpenMls.v ===== *)
(** * OpenMLS, as the crypto crate uses it

    The MLS protocol itself is the crate [openmls], whose sources are not part of the
    repository. What CoreCrypto passes around and looks into is given here as data with the
    constructors the code matches on; the types it only carries, and the operations on groups,
    are the classes [OpenMlsTypes] and [OpenMls]. What the theorems rely on is stated in
    [OpenMlsLaws], each law a documented behaviour. *)

From S2P Require Import Prelude KsError Sql SqlSpec Entity Keystore CcError Backend.
Open Scope Z_scope.

(** ** Types *)

Class OpenMlsTypes := {
  Credential : Type;
  KeyPackage : Type;
  KeyPackageIn : Type;                    (* a key package that has not been verified *)
  LeafNode : Type;
  ConfirmationTag : Type;
  MlsMessageOut : Type;
  GroupInfo : Type;
  Welcome : Type;
  VerifiableGroupInfo : Type;
  MlsGroup : Type;
  Credential_eq_dec :: EqDecision Credential;
  KeyPackage_eq_dec :: EqDecision KeyPackage;
  LeafNode_eq_dec :: EqDecision LeafNode;
  ConfirmationTag_eq_dec :: EqDecision ConfirmationTag;
}.

(** [openmls_basic_credential::SignatureKeyPair]; [from_raw] is the constructor. *)
Record SignatureKeyPair := MkSignatureKeyPair {
  skp_signature_scheme : Z;
  skp_private : bytes;
  skp_public : bytes;
}.

#[export] Instance SignatureKeyPair_eq_dec : EqDecision SignatureKeyPair.
Proof. solve_decision. Defined.

(** [openmls::prelude::CredentialType] *)
Inductive CredentialType : Set :=
  | CTBasic
  | CTX509
  | CTUnknown (n : Z).

Inductive ContentType : Set :=
  | CTApplication
  | CTProposal
  | CTCommit.

(** [content_type as u8] *)
Definition ContentType_as_u8 (ct : ContentType) : Z :=
  match ct with CTApplication => 1 | CTProposal => 2 | CTCommit => 3 end.

Inductive Sender : Set :=
  | SMember (index : Z)
  | SExternal (index : Z)
  | SNewMemberProposal
  | SNewMemberCommit.

#[export] Instance CredentialType_eq_dec : EqDecision CredentialType.
Proof. solve_decision. Defined.
#[export] Instance ContentType_eq_dec : EqDecision ContentType.
Proof. solve_decision. Defined.
#[export] Instance Sender_eq_dec : EqDecision Sender.
Proof. solve_decision. Defined.

(** [Ciphersuite] *)
Inductive Ciphersuite : Set :=
  | MLS_128_DHKEMX25519_AES128GCM_SHA256_Ed25519
  | MLS_128_DHKEMP256_AES128GCM_SHA256_P256
  | MLS_128_DHKEMX25519_CHACHA20POLY1305_SHA256_Ed25519
  | MLS_256_DHKEMX448_AES256GCM_SHA512_Ed448
  | MLS_256_DHKEMP521_AES256GCM_SHA512_P521
  | MLS_256_DHKEMX448_CHACHA20POLY1305_SHA512_Ed448
  | MLS_256_DHKEMP384_AES256GCM_SHA384_P384
  | MLS_128_X25519KYBER768DRAFT00_AES128GCM_SHA256_Ed25519.
#[export] Instance Ciphersuite_eq_dec : EqDecision Ciphersuite.
Proof. solve_decision. Defined.

(** [InnerState]: does the group hold something that has not been written to the store? *)
Inductive InnerState : Set := Changed | Persisted.
#[export] Instance InnerState_eq_dec : EqDecision InnerState.
Proof. solve_decision. Defined.

Section data.
Context `{OpenMlsTypes}.

(** [Proposal]: the kinds the code matches on, and the others by their encoding. *)
Inductive Proposal :=
  | PAdd (key_package : KeyPackage)
  | PUpdate (leaf_node : LeafNode)
  | PRemove (removed : Z)
  | PExternalInit (kem_output : bytes)
  | POther (encoded : bytes).

#[export] Instance Proposal_eq_dec : EqDecision Proposal.
Proof. solve_decision. Defined.

Record QueuedProposal := MkQueuedProposal {
  qp_proposal : Proposal;
  qp_sender : Sender;
  qp_reference : bytes;
}.

#[export] Instance QueuedProposal_eq_dec : EqDecision QueuedProposal.
Proof. solve_decision. Defined.

(** A staged commit: its proposals, in the order of the queue, the leaf of its update path, its
    confirmation tag and the state it leads to, which the code does not look into. *)
Record StagedCommit := MkStagedCommit {
  queued_proposals : list QueuedProposal;
  update_path_leaf_node : option LeafNode;
  confirmation_tag : ConfirmationTag;
  staged_state : bytes;
}.

(** [add_proposals], [update_proposals] and [remove_proposals]: the queued proposals of a kind. *)
Definition add_proposals (c : StagedCommit) : list (KeyPackage * Sender) :=
  omap (fun q => match qp_proposal q with PAdd kp => Some (kp, qp_sender q) | _ => None end)
    (queued_proposals c).
Definition update_proposals (c : StagedCommit) : list (LeafNode * Sender) :=
  omap (fun q => match qp_proposal q with PUpdate ln => Some (ln, qp_sender q) | _ => None end)
    (queued_proposals c).
Definition remove_proposals (c : StagedCommit) : list Z :=
  omap (fun q => match qp_proposal q with PRemove i => Some i | _ => None end)
    (queued_proposals c).

(** A member of a group, as [MlsGroup::members] yields it. *)
Record Member := MkMember {
  member_index : Z;
  member_credential : Credential;
}.

(** Incoming messages. What is left after the fields the code reads is their encoding. *)
Inductive FramedContentBodyIn :=
  | BApplication
  | BProposal (p : Proposal)
  | BCommit.

Record PublicMessageIn := MkPublicMessage {
  pub_sender : Sender;
  pub_epoch : Z;
  pub_body : FramedContentBodyIn;
  pub_confirmation_tag : option ConfirmationTag;
  pub_encoded : bytes;
}.

Record PrivateMessageIn := MkPrivateMessage {
  prv_content_type : ContentType;
  prv_epoch : Z;
  prv_encoded : bytes;
}.

Inductive MlsMessageIn :=
  | MPublicMessage (m : PublicMessageIn)
  | MPrivateMessage (m : PrivateMessageIn)
  | MWelcome (w : Welcome)
  | MGroupInfo (gi : VerifiableGroupInfo)
  | MKeyPackage (kp : KeyPackage).

Inductive ProtocolMessage :=
  | PMPublic (m : PublicMessageIn)
  | PMPrivate (m : PrivateMessageIn).

Definition body_content_type (b : FramedContentBodyIn) : ContentType :=
  match b with BApplication => CTApplication | BProposal _ => CTProposal | BCommit => CTCommit end.

Definition protocol_epoch (m : ProtocolMessage) : Z :=
  match m with PMPublic m => pub_epoch m | PMPrivate m => prv_epoch m end.

(** Processed messages *)
Inductive ProcessedMessageContent :=
  | ApplicationMessage (plaintext : bytes)
  | ProposalMessage (p : QueuedProposal)
  | ExternalJoinProposalMessage (p : QueuedProposal)
  | StagedCommitMessage (c : StagedCommit).

Record ProcessedMessage := MkProcessedMessage {
  processed_credential : Credential;
  processed_content : ProcessedMessageContent;
}.

(** [CredentialWithKey] *)
Record CredentialWithKey := MkCredentialWithKey {
  cwk_credential : Credential;
  cwk_signature_key : bytes;
}.
End data.

(** [Capabilities::new] and [MlsGroupConfig::builder()]: what the code gives them. *)
Record Capabilities := MkCapabilities {
  cap_versions : list Z;
  cap_ciphersuites : list Ciphersuite;
  cap_extensions : list Z;
  cap_proposals : list Z;
  cap_credentials : list CredentialType;
}.

Record GroupConfig `{OpenMlsTypes} := MkGroupConfig {
  gc_pure_ciphertext : bool;               (* [wire_format_policy] *)
  gc_max_past_epochs : Z;
  gc_padding_size : Z;
  gc_number_of_resumption_psks : Z;
  gc_leaf_capabilities : Capabilities;
  gc_required_credentials : list CredentialType;
  gc_out_of_order_tolerance : Z;           (* [SenderRatchetConfiguration] *)
  gc_maximum_forward_distance : Z;
  gc_use_ratchet_tree_extension : bool;
  gc_external_senders : list (bytes * Credential);
  gc_version : Z;
  gc_ciphersuite : Ciphersuite;
}.

(** ** Operations *)

Section ops.
Context `{SqlEngine, Provider, OpenMlsTypes}.

(** A group operation acts on the provider (key store, randomness) and on the group. *)
Abbreviation gop := (stm (MlsCryptoProvider * MlsGroup)).
Abbreviation bop := (stm MlsCryptoProvider).

Class OpenMls := {
  (* credentials *)
  credential_type : Credential -> CredentialType;
  identity : Credential -> bytes;
  certificates : Credential -> option (list bytes);  (* [mls_credential()], when [X509(cert)] *)
  new_basic : bytes -> Credential;
  new_x509 : list bytes -> result ext_error Credential;
  credential_serialize : Credential -> result ext_error bytes;
  credential_deserialize : bytes -> result ext_error Credential;
  signature_keypair_serialize : SignatureKeyPair -> result ext_error bytes;
  signature_keypair_deserialize : bytes -> result ext_error SignatureKeyPair;
  certificate_keypair : bytes -> list bytes -> result ext_error SignatureKeyPair;
  signature_key_gen : Z -> bop ext_error (bytes * bytes);
  random_vec : nat -> bop ext_error bytes;
  signature_algorithm : Ciphersuite -> Z;             (* the code of the signature scheme *)
  (* key packages and leaves *)
  kp_leaf_node : KeyPackage -> LeafNode;
  kp_in : KeyPackage -> KeyPackageIn;
  kpi_credential : KeyPackageIn -> Credential;
  kp_ciphersuite : KeyPackage -> Ciphersuite;
  kp_hash_ref : KeyPackage -> result ext_error bytes;
  kp_hpke_init_key : KeyPackage -> bytes;
  signature_scheme_try_from : Z -> option Z;          (* [SignatureScheme::try_from(u16)] *)
  (* [JoinProposal::new]: the key package, the group, the epoch and the signer *)
  join_proposal_new : KeyPackage -> bytes -> Z -> SignatureKeyPair -> result ext_error MlsMessageOut;
  kp_life_time_valid : KeyPackage -> option bool;    (* [None]: no lifetime extension *)
  kp_serde :: Serde KeyPackage;
  (* [KeyPackage::builder()], with its capabilities and lifetime in seconds *)
  kp_build : Capabilities -> Z -> Ciphersuite -> SignatureKeyPair -> CredentialWithKey ->
    bop ext_error KeyPackage;
  leaf_credential : LeafNode -> Credential;
  leaf_encryption_key : LeafNode -> bytes;
  leaf_signature_key : LeafNode -> bytes;
  set_credential_with_key : CredentialWithKey -> LeafNode -> LeafNode;
  (* messages *)
  message_deserialize : bytes -> result ext_error MlsMessageIn;
  message_to_bytes : MlsMessageOut -> result ext_error bytes;
  group_info_serialize : GroupInfo -> result ext_error bytes;
  welcome_ciphersuite : Welcome -> Ciphersuite;
  verifiable_ciphersuite : VerifiableGroupInfo -> Ciphersuite;
  (* reading a group *)
  group_id : MlsGroup -> bytes;
  group_ciphersuite : MlsGroup -> Ciphersuite;
  external_senders : MlsGroup -> option (list (bytes * Credential));
  export_secret : MlsCryptoProvider -> string -> bytes -> Z -> MlsGroup -> result ext_error bytes;
  epoch : MlsGroup -> Z;
  is_active : MlsGroup -> bool;
  members : MlsGroup -> list Member;
  own_leaf_index : MlsGroup -> Z;
  own_leaf : MlsGroup -> option LeafNode;
  own_leaf_node : MlsGroup -> option LeafNode;
  own_leaf_nodes : MlsGroup -> list LeafNode;
  pending_proposals : MlsGroup -> list QueuedProposal;
  pending_commit : MlsGroup -> option StagedCommit;
  compute_confirmation_tag : MlsCryptoProvider -> MlsGroup -> result ext_error ConfirmationTag;
  state_changed : MlsGroup -> InnerState;
  set_state : InnerState -> MlsGroup -> MlsGroup;
  group_serde :: Serde MlsGroup;
  (* making a group *)
  new_with_group_id : SignatureKeyPair -> GroupConfig -> bytes -> CredentialWithKey ->
    bop ext_error MlsGroup;
  group_join_by_external_commit : SignatureKeyPair -> VerifiableGroupInfo -> GroupConfig ->
    CredentialWithKey -> bop ext_error (MlsGroup * MlsMessageOut * option GroupInfo);
  new_from_welcome : GroupConfig -> Welcome -> bop WelcomeError MlsGroup;
  (* changing a group *)
  process_message : ProtocolMessage -> gop ProcessMessageError ProcessedMessage;
  store_pending_proposal : QueuedProposal -> MlsGroup -> MlsGroup;
  clear_pending_commit : MlsGroup -> MlsGroup;
  merge_staged_commit : StagedCommit -> gop ext_error ();
  merge_pending_commit : gop ext_error ();
  remove_pending_proposal : bytes -> gop MlsGroupStateError ();
  delete_previous_epoch_keypairs : gop ext_error ();
  group_propose_add_member : SignatureKeyPair -> KeyPackageIn -> gop ext_error (MlsMessageOut * bytes);
  group_propose_remove_member : SignatureKeyPair -> Z -> gop ext_error (MlsMessageOut * bytes);
  group_propose_self_update : SignatureKeyPair -> gop ext_error (MlsMessageOut * bytes);
  group_propose_explicit_self_update : SignatureKeyPair -> LeafNode -> SignatureKeyPair ->
    gop ext_error (MlsMessageOut * bytes);
  group_add_members : SignatureKeyPair -> list KeyPackageIn ->
    gop AddMembersError (MlsMessageOut * MlsMessageOut * option GroupInfo);
  group_remove_members : SignatureKeyPair -> list Z ->
    gop ext_error (MlsMessageOut * option MlsMessageOut * option GroupInfo);
  explicit_self_update : SignatureKeyPair -> option LeafNode ->
    gop ext_error (MlsMessageOut * option MlsMessageOut * option GroupInfo);
  commit_to_pending_proposals : SignatureKeyPair ->
    gop ext_error (MlsMessageOut * option MlsMessageOut * option GroupInfo);
  create_message : SignatureKeyPair -> bytes -> gop ext_error MlsMessageOut;
}.
End ops.

(** ** What CoreCrypto relies on *)

(** The tables OpenMLS never writes to: it reaches the key store through [OpenMlsKeyStore]
    alone, whose tables are those of key packages, HPKE keys, encryption keypairs and PSKs. *)
Definition conv_tables : list string :=
  ["mls_groups"; "mls_pending_groups"; "mls_pending_messages"; "e2ei_crls"].

Section laws.
Context `{SqlEngine, Provider, OpenMlsTypes} `{!OpenMls}.

(** What an operation of OpenMLS leaves alone. A group that it has changed is marked so, and an
    epoch never comes back. *)
Definition group_frame (s s' : MlsCryptoProvider * MlsGroup) : Prop :=
  tables conv_tables s.1 s'.1 /\ pki_env s'.1 = pki_env s.1 /\ group_id s'.2 = group_id s.2 /\
  epoch s.2 <= epoch s'.2 /\
  (s'.2 = s.2 \/ state_changed s'.2 = Changed).

Definition framed {E A} (op : stm (MlsCryptoProvider * MlsGroup) E A) : Prop :=
  forall s r s', op s = (r, s') -> group_frame s s'.

(** An operation without a group, making one among others: it leaves the same tables alone. *)
Definition bframed {E A} (op : stm MlsCryptoProvider E A) : Prop :=
  forall b r b', op b = (r, b') -> tables conv_tables b b' /\ pki_env b' = pki_env b.

(** A call of the random generator. *)
Definition only_rng {E A} (op : stm MlsCryptoProvider E A) : Prop :=
  forall b r b', op b = (r, b') -> exists rng, b' = MkProvider rng (key_store b) (pki_env b).

Lemma only_rng_framed {E A} (op : stm MlsCryptoProvider E A) : only_rng op -> bframed op.
Proof. intros Ho b r b' (rng & ->)%Ho. by split. Qed.

(** What a message that is only read leaves alone. *)
Definition same_epoch (g g' : MlsGroup) : Prop :=
  epoch g' = epoch g /\ pending_proposals g' = pending_proposals g /\
  pending_commit g' = pending_commit g /\ is_active g' = is_active g /\
  own_leaf_index g' = own_leaf_index g /\ members g' = members g.

(** What a merge does: the next epoch, with nothing pending. *)
Definition next_epoch (g g' : MlsGroup) : Prop :=
  epoch g' = epoch g + 1 /\ pending_proposals g' = [] /\ pending_commit g' = None.
End laws.

Class OpenMlsLaws `{SqlEngine, Provider, OpenMlsTypes} `{!OpenMls} := {
  process_message_framed m : framed (process_message m);
  merge_staged_commit_framed c : framed (merge_staged_commit c);
  merge_pending_commit_framed : framed merge_pending_commit;
  remove_pending_proposal_framed r : framed (remove_pending_proposal r);
  delete_previous_epoch_keypairs_framed : framed delete_previous_epoch_keypairs;
  propose_add_member_framed k p : framed (group_propose_add_member k p);
  propose_remove_member_framed k i : framed (group_propose_remove_member k i);
  propose_self_update_framed k : framed (group_propose_self_update k);
  propose_explicit_self_update_framed k l k' : framed (group_propose_explicit_self_update k l k');
  add_members_framed k l : framed (group_add_members k l);
  remove_members_framed k l : framed (group_remove_members k l);
  explicit_self_update_framed k l : framed (explicit_self_update k l);
  commit_to_pending_proposals_framed k : framed (commit_to_pending_proposals k);
  create_message_framed k m : framed (create_message k m);
  store_pending_proposal_changed q g :
    group_id (store_pending_proposal q g) = group_id g /\
    state_changed (store_pending_proposal q g) = Changed;
  clear_pending_commit_changed g :
    group_id (clear_pending_commit g) = group_id g /\
    state_changed (clear_pending_commit g) = Changed;
  process_message_same m b g r b' g' :
    process_message m (b, g) = (r, (b', g')) -> same_epoch g g';
  merge_staged_commit_next c b g b' g' :
    merge_staged_commit c (b, g) = (Ok (), (b', g')) -> next_epoch g g';
  merge_pending_commit_next b g b' g' :
    merge_pending_commit (b, g) = (Ok (), (b', g')) -> next_epoch g g' /\ is_Some (pending_commit g);
  clear_pending_commit_none g :
    pending_commit (clear_pending_commit g) = None /\ epoch (clear_pending_commit g) = epoch g /\
    pending_proposals (clear_pending_commit g) = pending_proposals g;
  store_pending_proposal_same q g :
    epoch (store_pending_proposal q g) = epoch g /\
    pending_commit (store_pending_proposal q g) = pending_commit g /\
    is_active (store_pending_proposal q g) = is_active g;
  set_state_state s g : state_changed (set_state s g) = s;
  set_state_id s g : group_id (set_state s g) = group_id g;
  set_state_same s g : same_epoch g (set_state s g);
  set_state_self g : set_state (state_changed g) g = g;
  (** a group is written without its mark and read back as one that is on disk *)
  group_to_stdvec_state s g : to_stdvec (set_state s g) = to_stdvec g;
  group_from_to g b : to_stdvec g = Some b -> from_bytes b = Some (set_state Persisted g);
  new_with_group_id_framed k gc id c : bframed (new_with_group_id k gc id c);
  new_with_group_id_id k gc id c b g b' :
    new_with_group_id k gc id c b = (Ok g, b') -> group_id g = id;
  join_framed k gi gc c : bframed (group_join_by_external_commit k gi gc c);
  new_from_welcome_framed gc w : bframed (new_from_welcome gc w);
  kp_build_framed caps n cs k c : bframed (kp_build caps n cs k c);
  signature_key_gen_rng sc : only_rng (signature_key_gen sc);
  random_vec_rng n : only_rng (random_vec n);
}.

Lemma signature_key_gen_framed `{OpenMlsLaws} sc : bframed (signature_key_gen sc).
Proof. apply only_rng_framed, signature_key_gen_rng. Qed.
Lemma random_vec_framed `{OpenMlsLaws} n : bframed (random_vec n).
Proof. apply only_rng_framed, random_vec_rng. Qed.
