(* ===== verification/CryptoProvider.v ===== *)
(** * The cryptography of the provider

    [RustCrypto] of [mls-provider/src/crypto_provider.rs]: the random generator behind its lock,
    and the implementation of [OpenMlsCrypto] and [OpenMlsRand], which chooses an algorithm for
    every request, decodes keys and signatures, and maps the errors. The algorithms are other
    crates: a class of parameters, [CryptoCrates], with the laws of their documentation in
    [CryptoCratesLaws]. [CryptoProviderSpec] has the theorems. *)

From S2P Require Import Prelude KsError OpenMls.
Open Scope Z_scope.

(** ** The types of [openmls_traits] *)

Inductive HashType : Set := Sha2_256 | Sha2_384 | Sha2_512.

Inductive AeadType : Set := AeadAes128Gcm | AeadAes256Gcm | AeadChaCha20Poly1305.

Inductive SignatureScheme : Set :=
  | ECDSA_SECP256R1_SHA256
  | ECDSA_SECP384R1_SHA384
  | ECDSA_SECP521R1_SHA512
  | ED25519
  | ED448.

Inductive HpkeKemType : Set :=
  | DhKemP256 | DhKemP384 | DhKemP521 | DhKem25519 | DhKem448 | X25519Kyber768Draft00.
Inductive HpkeKdfType : Set := HkdfSha256 | HkdfSha384 | HkdfSha512.
Inductive HpkeAeadType : Set := AesGcm128 | AesGcm256 | ChaCha20Poly1305 | HpkeExport.

Record HpkeConfig : Set := MkHpkeConfig {
  hpke_kem_type : HpkeKemType;
  hpke_kdf_type : HpkeKdfType;
  hpke_aead_type : HpkeAeadType;
}.

(** [CryptoError] of [openmls_traits]: the variants that the provider returns. *)
Inductive TraitsError : Set :=
  | CryptoLibraryError
  | AeadDecryptionError
  | HpkeDecryptionError
  | HpkeEncryptionError
  | UnsupportedSignatureScheme
  | HkdfOutputLengthInvalid
  | InsufficientRandomness
  | InvalidSignature
  | SenderSetupError
  | ReceiverSetupError
  | ExporterError
  | UnsupportedCiphersuite
  | UnsupportedKem.

Record HpkeCiphertext := MkHpkeCiphertext { kem_output : bytes; ciphertext : bytes }.
Record HpkeKeyPair := MkHpkeKeyPair { hpke_private : bytes; hpke_public : bytes }.

#[export] Instance SignatureScheme_eq_dec : EqDecision SignatureScheme.
Proof. solve_decision. Defined.
#[export] Instance HpkeKemType_eq_dec : EqDecision HpkeKemType.
Proof. solve_decision. Defined.
#[export] Instance HpkeKdfType_eq_dec : EqDecision HpkeKdfType.
Proof. solve_decision. Defined.
#[export] Instance HpkeAeadType_eq_dec : EqDecision HpkeAeadType.
Proof. solve_decision. Defined.
#[export] Instance HpkeConfig_eq_dec : EqDecision HpkeConfig.
Proof. solve_decision. Defined.
#[export] Instance TraitsError_eq_dec : EqDecision TraitsError.
Proof. solve_decision. Defined.
#[export] Instance HpkeCiphertext_eq_dec : EqDecision HpkeCiphertext.
Proof. solve_decision. Defined.
#[export] Instance HpkeKeyPair_eq_dec : EqDecision HpkeKeyPair.
Proof. solve_decision. Defined.

(** [MlsProviderError] of [error.rs]; a foreign error is its text. *)
Inductive MlsProviderError : Set :=
  | KeystoreError (e : CryptoKeystoreError)
  | EntropySeedLengthError (actual expected : Z)
  | RngLockPoison
  | UnsufficientEntropy
  | CertificateGenerationError
  | PkiUnsupportedSignatureScheme
  | SignatureError
  | StringError (s : bytes).

#[export] Instance MlsProviderError_eq_dec : EqDecision MlsProviderError.
Proof. solve_decision. Defined.

(** [Clone]: the text of the error is all that is kept. *)
Definition MlsProviderError_clone (to_string : MlsProviderError -> bytes) (self : MlsProviderError) :
    MlsProviderError :=
  StringError (to_string self).

(** [PartialEq], which is not equality: errors of the key store or of a signature equal nothing. *)
Definition MlsProviderError_eq (self other : MlsProviderError) : bool :=
  match self, other with
  | EntropySeedLengthError actual expected, EntropySeedLengthError actual2 expected2 =>
      Z.eqb expected expected2 && Z.eqb actual actual2
  | StringError s, StringError s2 => bool_decide (s = s2)
  | RngLockPoison, RngLockPoison => true
  | UnsufficientEntropy, UnsufficientEntropy => true
  | CertificateGenerationError, CertificateGenerationError => true
  | PkiUnsupportedSignatureScheme, PkiUnsupportedSignatureScheme => true
  | _, _ => false
  end.

(** ** Errors and panics

    A call returns an error or panics. A panic matters here beyond the call: a lock that is held
    while a panic unwinds is poisoned. *)

Inductive Abort (E : Type) : Type :=
  | Error (e : E)
  | Panicked.
Arguments Error {E} e.
Arguments Panicked {E}.

#[export] Instance Abort_eq_dec {E} `{EqDecision E} : EqDecision (Abort E).
Proof. solve_decision. Defined.

Abbreviation outcome E A := (result (Abort E) A).

(** [result.map_err(|_| e)?], and a conversion that panics. *)
Definition or_error {E A} (e : E) (o : option A) : outcome E A := ok_or (Error e) o.
Definition or_panic {E A} (o : option A) : outcome E A := ok_or Panicked o.

(** ** The crates

    The marker types with which the code instantiates the generic functions of the crates. *)

Inductive Sha : Set := Sha256 | Sha384 | Sha512.
Inductive AeadCipher : Set := Aes128Gcm | Aes256Gcm | ChaChaPoly.
Inductive Curve : Set := P256 | P384.
Inductive HpkeAead : Set := hpke_AesGcm128 | hpke_AesGcm256 | hpke_ChaCha20Poly1305.
Inductive HpkeKdf : Set := hpke_HkdfSha256 | hpke_HkdfSha384.
Inductive HpkeKem : Set :=
  | hpke_X25519HkdfSha256 | hpke_DhP256HkdfSha256 | hpke_DhP384HkdfSha384
  | hpke_X25519Kyber768Draft00.

(** [None] is the error of the crate, which the code drops. A fallible operation that draws
    random bytes leaves the generator where it is after the draw. *)
Class CryptoCrates := {
  (* the target: the largest size of an allocation, and whether debug assertions are compiled *)
  isize_max : Z;
  debug_assertions : bool;
  (* rand_chacha *)
  ChaCha20Rng : Type;
  from_seed : bytes -> ChaCha20Rng;
  try_fill_bytes : nat -> ChaCha20Rng -> option bytes * ChaCha20Rng;
  (* sha2, hkdf *)
  digest : Sha -> bytes -> bytes;
  Hkdf : Sha -> Type;
  hkdf_extract : Sha -> bytes -> bytes -> bytes;
  hkdf_from_prk : forall h, bytes -> option (Hkdf h);
  hkdf_expand : forall h, Hkdf h -> bytes -> nat -> option bytes;
  (* aes_gcm, chacha20poly1305: a cipher, then nonce, message and associated data *)
  Cipher : AeadCipher -> Type;
  new_from_slice : forall a, bytes -> option (Cipher a);
  encrypt : forall a, Cipher a -> bytes -> bytes -> bytes -> option bytes;
  decrypt : forall a, Cipher a -> bytes -> bytes -> bytes -> option bytes;
  (* p256, p384 *)
  EcSigningKey : Curve -> Type;
  EcVerifyingKey : Curve -> Type;
  DerSignature : Curve -> Type;
  ec_random : forall c, ChaCha20Rng -> EcSigningKey c * ChaCha20Rng;
  ec_verifying_key : forall c, EcSigningKey c -> EcVerifyingKey c;
  ec_to_bytes : forall c, EcSigningKey c -> bytes;
  ec_from_bytes : forall c, bytes -> option (EcSigningKey c);
  ec_to_encoded_point : forall c, bool -> EcVerifyingKey c -> bytes;   (* compressed? *)
  ec_from_sec1_bytes : forall c, bytes -> option (EcVerifyingKey c);
  ec_try_sign : forall c, EcSigningKey c -> bytes -> option (DerSignature c);
  ec_verify : forall c, EcVerifyingKey c -> bytes -> DerSignature c -> bool;
  der_to_bytes : forall c, DerSignature c -> bytes;
  der_from_bytes : forall c, bytes -> option (DerSignature c);
  (* ed25519_dalek *)
  EdSigningKey : Type;
  EdVerifyingKey : Type;
  EdSignature : Type;
  ed_generate : ChaCha20Rng -> EdSigningKey * ChaCha20Rng;
  ed_verifying_key : EdSigningKey -> EdVerifyingKey;
  ed_to_bytes : EdSigningKey -> bytes;
  ed_from_bytes : bytes -> EdSigningKey;                    (* of 32 bytes *)
  ed_from_keypair_bytes : bytes -> option EdSigningKey;     (* of 64 bytes *)
  ed_pk_to_bytes : EdVerifyingKey -> bytes;
  ed_pk_try_from : bytes -> option EdVerifyingKey;
  ed_try_sign : EdSigningKey -> bytes -> option EdSignature;
  ed_verify_strict : EdVerifyingKey -> bytes -> EdSignature -> bool;
  ed_sig_to_bytes : EdSignature -> bytes;
  ed_sig_from_slice : bytes -> option EdSignature;
  (* hpke *)
  KemPublicKey : HpkeKem -> Type;
  KemPrivateKey : HpkeKem -> Type;
  EncappedKey : HpkeKem -> Type;
  AeadCtx : HpkeAead -> HpkeKdf -> HpkeKem -> Type;
  kem_pk_to_bytes : forall k, KemPublicKey k -> bytes;
  kem_pk_from_bytes : forall k, bytes -> option (KemPublicKey k);
  kem_sk_to_bytes : forall k, KemPrivateKey k -> bytes;
  kem_sk_from_bytes : forall k, bytes -> option (KemPrivateKey k);
  enc_to_bytes : forall k, EncappedKey k -> bytes;
  enc_from_bytes : forall k, bytes -> option (EncappedKey k);
  kem_gen_keypair : forall k, ChaCha20Rng -> (KemPrivateKey k * KemPublicKey k) * ChaCha20Rng;
  kem_derive_keypair : forall k, bytes -> KemPrivateKey k * KemPublicKey k;
  (* [OpModeS::Base] and [OpModeR::Base]; info, plaintext or ciphertext, associated data *)
  single_shot_seal : forall (a : HpkeAead) (d : HpkeKdf) k, KemPublicKey k ->
    bytes -> bytes -> bytes -> ChaCha20Rng -> option (EncappedKey k * bytes) * ChaCha20Rng;
  single_shot_open : forall (a : HpkeAead) (d : HpkeKdf) k, KemPrivateKey k -> EncappedKey k ->
    bytes -> bytes -> bytes -> option bytes;
  setup_sender : forall a d k, KemPublicKey k -> bytes -> ChaCha20Rng ->
    option (EncappedKey k * AeadCtx a d k) * ChaCha20Rng;
  setup_receiver : forall a d k, KemPrivateKey k -> EncappedKey k -> bytes ->
    option (AeadCtx a d k);
  ctx_export : forall a d k, AeadCtx a d k -> bytes -> nat -> option bytes;
}.

(** ** [RustCrypto] *)

Definition KEYPAIR_LENGTH : nat := 64.
Definition SECRET_KEY_LENGTH : nat := 32.

(** [RwLock<T>]: a panic of the holder of the write guard poisons it for ever. *)
Record RwLock (T : Type) := MkRwLock { poisoned : bool; guarded : T }.
Arguments MkRwLock {T} poisoned guarded.
Arguments poisoned {T} r.
Arguments guarded {T} r.

Definition is_panic {E A} (r : outcome E A) : bool :=
  match r with Err Panicked => true | _ => false end.

(** [let mut guard = lock.write().map_err(|_| e)?;] and the rest of the function, which holds the
    guard until it returns. *)
Definition with_write {T E A} (e : E) (m : stm T (Abort E) A) : stm (RwLock T) (Abort E) A :=
  fun l =>
    if poisoned l then (Err (Error e), l)
    else let (r, g) := m (guarded l) in (r, MkRwLock (is_panic r) g).

Section provider.
Context `{CryptoCrates}.

Definition RustCrypto : Type := RwLock ChaCha20Rng.

Abbreviation rc A := (stm RustCrypto (Abort TraitsError) A).
Abbreviation rng A := (stm ChaCha20Rng (Abort TraitsError) A).
Abbreviation pure A := (outcome TraitsError A).

(** [ChaCha20Rng::from_entropy()] seeds from the operating system and panics if that fails. *)
Definition RustCrypto_default (os_entropy : option bytes) : outcome TraitsError RustCrypto :=
  seed ← or_panic os_entropy;
  Ok (MkRwLock false (from_seed seed)).

Definition RustCrypto_new_with_seed (seed : bytes) : RustCrypto :=
  MkRwLock false (from_seed seed).

(** [vec![0u8; n]]: more than [isize::MAX] bytes are a capacity overflow, which panics. *)
Definition vec_alloc {E} (n : Z) : outcome E () :=
  if Z.leb n isize_max then Ok () else Err Panicked.

Definition debug_assert {E} (b : bool) : outcome E () :=
  if debug_assertions && negb b then Err Panicked else Ok ().

Definition normalize_ed25519_key (key : bytes) : pure EdSigningKey :=
  if Nat.eqb (length key) KEYPAIR_LENGTH then or_error CryptoLibraryError (ed_from_keypair_bytes key)
  else if Nat.eqb (length key) SECRET_KEY_LENGTH then Ok (ed_from_bytes key)
  else Err (Error CryptoLibraryError).

Definition RustCrypto_supports (cs : Ciphersuite) : pure () :=
  match cs with
  | MLS_128_DHKEMX25519_AES128GCM_SHA256_Ed25519
  | MLS_128_DHKEMX25519_CHACHA20POLY1305_SHA256_Ed25519
  | MLS_128_DHKEMP256_AES128GCM_SHA256_P256
  | MLS_256_DHKEMP384_AES256GCM_SHA384_P384
  | MLS_128_X25519KYBER768DRAFT00_AES128GCM_SHA256_Ed25519 => Ok ()
  | _ => Err (Error UnsupportedCiphersuite)
  end.

Definition RustCrypto_supported_ciphersuites : list Ciphersuite := [
  MLS_128_DHKEMX25519_AES128GCM_SHA256_Ed25519;
  MLS_128_DHKEMX25519_CHACHA20POLY1305_SHA256_Ed25519;
  MLS_128_DHKEMP256_AES128GCM_SHA256_P256;
  MLS_256_DHKEMP384_AES256GCM_SHA384_P384;
  MLS_128_X25519KYBER768DRAFT00_AES128GCM_SHA256_Ed25519].

(** *** Hashes *)

Definition RustCrypto_hkdf_extract (hash_type : HashType) (salt ikm : bytes) : pure bytes :=
  match hash_type with
  | Sha2_256 => Ok (hkdf_extract Sha256 salt ikm)
  | Sha2_384 => Ok (hkdf_extract Sha384 salt ikm)
  | Sha2_512 => Ok (hkdf_extract Sha512 salt ikm)
  end.

Definition hkdf_expand_with (h : Sha) (prk info : bytes) (okm_len : Z) : pure bytes :=
  hkdf ← or_error HkdfOutputLengthInvalid (hkdf_from_prk h prk);
  vec_alloc okm_len;;
  or_error HkdfOutputLengthInvalid (hkdf_expand h hkdf info (Z.to_nat okm_len)).

Definition RustCrypto_hkdf_expand (hash_type : HashType) (prk info : bytes) (okm_len : Z) :
    pure bytes :=
  match hash_type with
  | Sha2_256 => hkdf_expand_with Sha256 prk info okm_len
  | Sha2_512 => hkdf_expand_with Sha512 prk info okm_len
  | Sha2_384 => hkdf_expand_with Sha384 prk info okm_len
  end.

Definition RustCrypto_hash (hash_type : HashType) (data : bytes) : pure bytes :=
  match hash_type with
  | Sha2_256 => Ok (digest Sha256 data)
  | Sha2_384 => Ok (digest Sha384 data)
  | Sha2_512 => Ok (digest Sha512 data)
  end.

(** *** AEAD *)

(** [nonce.into()]: a slice that is not as long as the nonce of the ciphers panics. *)
Definition AEAD_NONCE_LENGTH : nat := 12.

Definition nonce_into {E} (nonce : bytes) : outcome E bytes :=
  if Nat.eqb (length nonce) AEAD_NONCE_LENGTH then Ok nonce else Err Panicked.

Definition aead_encrypt_with (a : AeadCipher) (key data nonce aad : bytes) : pure bytes :=
  cipher ← or_error CryptoLibraryError (new_from_slice a key);
  nonce ← nonce_into nonce;
  or_error CryptoLibraryError (encrypt a cipher nonce data aad).

Definition RustCrypto_aead_encrypt (alg : AeadType) (key data nonce aad : bytes) : pure bytes :=
  match alg with
  | AeadAes128Gcm => aead_encrypt_with Aes128Gcm key data nonce aad
  | AeadAes256Gcm => aead_encrypt_with Aes256Gcm key data nonce aad
  | AeadChaCha20Poly1305 => aead_encrypt_with ChaChaPoly key data nonce aad
  end.

Definition aead_decrypt_with (a : AeadCipher) (key ct_tag nonce aad : bytes) : pure bytes :=
  cipher ← or_error CryptoLibraryError (new_from_slice a key);
  nonce ← nonce_into nonce;
  or_error AeadDecryptionError (decrypt a cipher nonce ct_tag aad).

Definition RustCrypto_aead_decrypt (alg : AeadType) (key ct_tag nonce aad : bytes) : pure bytes :=
  match alg with
  | AeadAes128Gcm => aead_decrypt_with Aes128Gcm key ct_tag nonce aad
  | AeadAes256Gcm => aead_decrypt_with Aes256Gcm key ct_tag nonce aad
  | AeadChaCha20Poly1305 => aead_decrypt_with ChaChaPoly key ct_tag nonce aad
  end.

(** *** Signatures *)

(** A generator call that cannot fail. *)
Definition draw {T A} (f : T -> A * T) {E} : stm T E A := fun g => let (a, g') := f g in (Ok a, g').

Definition ecdsa_key_gen (c : Curve) : rng (bytes * bytes) :=
  sk ← draw (ec_random c);
  let pk := ec_to_encoded_point c false (ec_verifying_key c sk) in
  mret (ec_to_bytes c sk, pk).

Definition RustCrypto_signature_key_gen (alg : SignatureScheme) : rc (bytes * bytes) :=
  with_write InsufficientRandomness
    match alg with
    | ECDSA_SECP256R1_SHA256 => ecdsa_key_gen P256
    | ECDSA_SECP384R1_SHA384 => ecdsa_key_gen P384
    | ED25519 =>
        k ← draw ed_generate;
        let pk := ed_verifying_key k in
        mret (ed_to_bytes k, ed_pk_to_bytes pk)
    | _ => st_fail (Error UnsupportedSignatureScheme)
    end.

Definition ecdsa_verify (c : Curve) (data pk signature : bytes) : pure () :=
  k ← or_error CryptoLibraryError (ec_from_sec1_bytes c pk);
  signature ← or_error InvalidSignature (der_from_bytes c signature);
  if ec_verify c k data signature then Ok () else Err (Error InvalidSignature).

Definition RustCrypto_verify_signature (alg : SignatureScheme) (data pk signature : bytes) :
    pure () :=
  match alg with
  | ECDSA_SECP256R1_SHA256 => ecdsa_verify P256 data pk signature
  | ECDSA_SECP384R1_SHA384 => ecdsa_verify P384 data pk signature
  | ED25519 =>
      k ← or_error CryptoLibraryError (ed_pk_try_from pk);
      sig ← or_error InvalidSignature (ed_sig_from_slice signature);
      if ed_verify_strict k data sig then Ok () else Err (Error InvalidSignature)
  | _ => Err (Error UnsupportedSignatureScheme)
  end.

(** [key.into()] for a [FieldBytes]: a slice of another length panics. *)
Definition field_length (c : Curve) : nat := match c with P256 => 32 | P384 => 48 end.

Definition field_bytes {E} (c : Curve) (key : bytes) : outcome E bytes :=
  if Nat.eqb (length key) (field_length c) then Ok key else Err Panicked.

Definition ecdsa_sign (c : Curve) (data key : bytes) : pure bytes :=
  key ← field_bytes c key;
  k ← or_error CryptoLibraryError (ec_from_bytes c key);
  signature ← or_error CryptoLibraryError (ec_try_sign c k data);
  Ok (der_to_bytes c signature).

Definition RustCrypto_sign (alg : SignatureScheme) (data key : bytes) : pure bytes :=
  match alg with
  | ECDSA_SECP256R1_SHA256 => ecdsa_sign P256 data key
  | ECDSA_SECP384R1_SHA384 => ecdsa_sign P384 data key
  | ED25519 =>
      k ← normalize_ed25519_key key;
      signature ← or_error CryptoLibraryError (ed_try_sign k data);
      Ok (ed_sig_to_bytes signature)
  | _ => Err (Error UnsupportedSignatureScheme)
  end.

(** *** HPKE: the module [hpke_core] *)

Definition hpke_open (a : HpkeAead) (d : HpkeKdf) (k : HpkeKem)
    (private_key kem_output info aad ciphertext : bytes) : pure bytes :=
  encapped_key ← or_error HpkeDecryptionError (enc_from_bytes k kem_output);
  key ← or_error HpkeDecryptionError (kem_sk_from_bytes k private_key);
  or_error HpkeDecryptionError (single_shot_open a d k key encapped_key info ciphertext aad).

(** A fallible call of a crate that draws random bytes, and [map_err(|_| e)?]. *)
Definition draw_or_error {T A E} (e : E) (f : T -> option A * T) : stm T (Abort E) A :=
  fun g => let (o, g') := f g in (or_error e o, g').

Definition hpke_seal (a : HpkeAead) (d : HpkeKdf) (k : HpkeKem)
    (public_key info aad plaintext : bytes) : rng HpkeCiphertext :=
  key ← st_lift (or_error HpkeEncryptionError (kem_pk_from_bytes k public_key));
  r ← draw_or_error HpkeEncryptionError (single_shot_seal a d k key info plaintext aad);
  mret (MkHpkeCiphertext (enc_to_bytes k r.1) r.2).

Definition hpke_gen_keypair (k : HpkeKem) : rng HpkeKeyPair :=
  '(sk, pk) ← draw (kem_gen_keypair k);
  mret (MkHpkeKeyPair (kem_sk_to_bytes k sk) (kem_pk_to_bytes k pk)).

Definition hpke_derive_keypair (k : HpkeKem) (ikm : bytes) : pure HpkeKeyPair :=
  let '(sk, pk) := kem_derive_keypair k ikm in
  Ok (MkHpkeKeyPair (kem_sk_to_bytes k sk) (kem_pk_to_bytes k pk)).

Definition hpke_export_rx (a : HpkeAead) (d : HpkeKdf) (k : HpkeKem)
    (encapped_key rx_private_key info export_info : bytes) (export_len : Z) : pure bytes :=
  key ← or_error ReceiverSetupError (kem_sk_from_bytes k rx_private_key);
  encapped_key ← or_error ReceiverSetupError (enc_from_bytes k encapped_key);
  ctx ← or_error ReceiverSetupError (setup_receiver a d k key encapped_key info);
  vec_alloc export_len;;
  or_error ExporterError (ctx_export a d k ctx export_info (Z.to_nat export_len)).

Definition hpke_export_tx (a : HpkeAead) (d : HpkeKdf) (k : HpkeKem)
    (tx_public_key info export_info : bytes) (export_len : Z) : rng (bytes * bytes) :=
  key ← st_lift (or_error SenderSetupError (kem_pk_from_bytes k tx_public_key));
  r ← draw_or_error SenderSetupError (setup_sender a d k key info);
  st_lift (vec_alloc export_len);;
  export ← st_lift (or_error ExporterError
                      (ctx_export a d k r.2 export_info (Z.to_nat export_len)));
  mret (enc_to_bytes k r.1, export).

(** *** HPKE: the methods *)

Definition RustCrypto_hpke_seal (config : HpkeConfig) (pk_r info aad ptxt : bytes) :
    rc HpkeCiphertext :=
  with_write InsufficientRandomness
    match config with
    | MkHpkeConfig DhKem25519 HkdfSha256 AesGcm128 =>
        hpke_seal hpke_AesGcm128 hpke_HkdfSha256 hpke_X25519HkdfSha256 pk_r info aad ptxt
    | MkHpkeConfig DhKem25519 HkdfSha256 ChaCha20Poly1305 =>
        hpke_seal hpke_ChaCha20Poly1305 hpke_HkdfSha256 hpke_X25519HkdfSha256 pk_r info aad ptxt
    | MkHpkeConfig DhKemP256 HkdfSha256 AesGcm128 =>
        hpke_seal hpke_AesGcm128 hpke_HkdfSha256 hpke_DhP256HkdfSha256 pk_r info aad ptxt
    | MkHpkeConfig DhKemP384 HkdfSha384 AesGcm256 =>
        hpke_seal hpke_AesGcm256 hpke_HkdfSha384 hpke_DhP384HkdfSha384 pk_r info aad ptxt
    | MkHpkeConfig X25519Kyber768Draft00 HkdfSha256 AesGcm128 =>
        hpke_seal hpke_AesGcm128 hpke_HkdfSha256 hpke_X25519Kyber768Draft00 pk_r info aad ptxt
    | _ => st_fail (Error UnsupportedKem)
    end.

Definition RustCrypto_hpke_open (config : HpkeConfig) (input : HpkeCiphertext)
    (sk_r info aad : bytes) : pure bytes :=
  match config with
  | MkHpkeConfig DhKem25519 HkdfSha256 AesGcm128 =>
      hpke_open hpke_AesGcm128 hpke_HkdfSha256 hpke_X25519HkdfSha256
        sk_r (kem_output input) info aad (ciphertext input)
  | MkHpkeConfig DhKem25519 HkdfSha256 ChaCha20Poly1305 =>
      hpke_open hpke_ChaCha20Poly1305 hpke_HkdfSha256 hpke_X25519HkdfSha256
        sk_r (kem_output input) info aad (ciphertext input)
  | MkHpkeConfig DhKemP256 HkdfSha256 AesGcm128 =>
      hpke_open hpke_AesGcm128 hpke_HkdfSha256 hpke_DhP256HkdfSha256
        sk_r (kem_output input) info aad (ciphertext input)
  | MkHpkeConfig DhKemP384 HkdfSha384 AesGcm256 =>
      hpke_open hpke_AesGcm256 hpke_HkdfSha384 hpke_DhP384HkdfSha384
        sk_r (kem_output input) info aad (ciphertext input)
  | MkHpkeConfig X25519Kyber768Draft00 HkdfSha256 AesGcm128 =>
      hpke_open hpke_AesGcm128 hpke_HkdfSha256 hpke_X25519Kyber768Draft00
        sk_r (kem_output input) info aad (ciphertext input)
  | _ => Err (Error UnsupportedKem)
  end.

Definition RustCrypto_hpke_setup_sender_and_export (config : HpkeConfig)
    (pk_r info exporter_context : bytes) (exporter_length : Z) : rc (bytes * bytes) :=
  with_write InsufficientRandomness (
    r ← match config with
      | MkHpkeConfig DhKem25519 HkdfSha256 AesGcm128 =>
          hpke_export_tx hpke_AesGcm128 hpke_HkdfSha256 hpke_X25519HkdfSha256
            pk_r info exporter_context exporter_length
      | MkHpkeConfig DhKem25519 HkdfSha256 ChaCha20Poly1305 =>
          hpke_export_tx hpke_ChaCha20Poly1305 hpke_HkdfSha256 hpke_X25519HkdfSha256
            pk_r info exporter_context exporter_length
      | MkHpkeConfig DhKemP256 HkdfSha256 AesGcm128 =>
          hpke_export_tx hpke_AesGcm128 hpke_HkdfSha256 hpke_DhP256HkdfSha256
            pk_r info exporter_context exporter_length
      | MkHpkeConfig DhKemP384 HkdfSha384 AesGcm256 =>
          hpke_export_tx hpke_AesGcm256 hpke_HkdfSha384 hpke_DhP384HkdfSha384
            pk_r info exporter_context exporter_length
      | MkHpkeConfig X25519Kyber768Draft00 HkdfSha256 AesGcm128 =>
          hpke_export_tx hpke_AesGcm128 hpke_HkdfSha256 hpke_X25519Kyber768Draft00
            pk_r info exporter_context exporter_length
      | _ => st_fail (Error UnsupportedKem)
      end;
    st_lift (debug_assert (Z.eqb (blen r.2) exporter_length));;
    mret r).

Definition RustCrypto_hpke_setup_receiver_and_export (config : HpkeConfig)
    (enc sk_r info exporter_context : bytes) (exporter_length : Z) : pure bytes :=
  export ← match config with
    | MkHpkeConfig DhKem25519 HkdfSha256 AesGcm128 =>
        hpke_export_rx hpke_AesGcm128 hpke_HkdfSha256 hpke_X25519HkdfSha256
          enc sk_r info exporter_context exporter_length
    | MkHpkeConfig DhKem25519 HkdfSha256 ChaCha20Poly1305 =>
        hpke_export_rx hpke_ChaCha20Poly1305 hpke_HkdfSha256 hpke_X25519HkdfSha256
          enc sk_r info exporter_context exporter_length
    | MkHpkeConfig DhKemP256 HkdfSha256 AesGcm128 =>
        hpke_export_rx hpke_AesGcm128 hpke_HkdfSha256 hpke_DhP256HkdfSha256
          enc sk_r info exporter_context exporter_length
    | MkHpkeConfig DhKemP384 HkdfSha384 AesGcm256 =>
        hpke_export_rx hpke_AesGcm256 hpke_HkdfSha384 hpke_DhP384HkdfSha384
          enc sk_r info exporter_context exporter_length
    | MkHpkeConfig X25519Kyber768Draft00 HkdfSha256 AesGcm128 =>
        hpke_export_rx hpke_AesGcm128 hpke_HkdfSha256 hpke_X25519Kyber768Draft00
          enc sk_r info exporter_context exporter_length
    | _ => Err (Error UnsupportedKem)
    end;
  debug_assert (Z.eqb (blen export) exporter_length);;
  Ok export.

Definition RustCrypto_derive_hpke_keypair (config : HpkeConfig) (ikm : bytes) : pure HpkeKeyPair :=
  match hpke_kem_type config with
  | DhKemP256 => hpke_derive_keypair hpke_DhP256HkdfSha256 ikm
  | DhKemP384 => hpke_derive_keypair hpke_DhP384HkdfSha384 ikm
  | DhKem25519 => hpke_derive_keypair hpke_X25519HkdfSha256 ikm
  | X25519Kyber768Draft00 => hpke_derive_keypair hpke_X25519Kyber768Draft00 ikm
  | _ => Err (Error UnsupportedKem)
  end.

(** *** [OpenMlsRand] *)

(** [borrow_rand], with what the caller does before it lets the guard go. *)
Definition RustCrypto_borrow_rand {A} (m : stm ChaCha20Rng (Abort MlsProviderError) A) :
    stm RustCrypto (Abort MlsProviderError) A :=
  with_write RngLockPoison m.

Definition RustCrypto_random_array (n : nat) : stm RustCrypto (Abort MlsProviderError) bytes :=
  RustCrypto_borrow_rand (draw_or_error UnsufficientEntropy (try_fill_bytes n)).

Definition RustCrypto_random_vec (len : Z) : stm RustCrypto (Abort MlsProviderError) bytes :=
  RustCrypto_borrow_rand (
    st_lift (vec_alloc len);;
    draw_or_error UnsufficientEntropy (try_fill_bytes (Z.to_nat len))).

(** *** The calls that need the random generator, and a sequence of them *)

Inductive RandomCall :=
  | SignatureKeyGen (alg : SignatureScheme)
  | HpkeSeal (config : HpkeConfig) (pk_r info aad ptxt : bytes)
  | HpkeSetupSenderAndExport (config : HpkeConfig) (pk_r info exporter_context : bytes)
      (exporter_length : Z)
  | RandomArray (n : nat)
  | RandomVec (len : Z).

Inductive RandomAnswer :=
  | AKeys (r : outcome TraitsError (bytes * bytes))
  | ASealed (r : outcome TraitsError HpkeCiphertext)
  | ABytes (r : outcome MlsProviderError bytes).

Definition answer {S A B} (f : A -> B) (m : S -> A * S) (s : S) : B * S :=
  let (a, s') := m s in (f a, s').

Definition random_call (c : RandomCall) : RustCrypto -> RandomAnswer * RustCrypto :=
  match c with
  | SignatureKeyGen alg => answer AKeys (RustCrypto_signature_key_gen alg)
  | HpkeSeal config pk_r info aad ptxt =>
      answer ASealed (RustCrypto_hpke_seal config pk_r info aad ptxt)
  | HpkeSetupSenderAndExport config pk_r info ctx len =>
      answer AKeys (RustCrypto_hpke_setup_sender_and_export config pk_r info ctx len)
  | RandomArray n => answer ABytes (RustCrypto_random_array n)
  | RandomVec len => answer ABytes (RustCrypto_random_vec len)
  end.

Fixpoint random_calls (cs : list RandomCall) (s : RustCrypto) : list RandomAnswer * RustCrypto :=
  match cs with
  | [] => ([], s)
  | c :: cs =>
      let (a, s) := random_call c s in
      let (l, s) := random_calls cs s in
      (a :: l, s)
  end.
End provider.

Definition panicked (a : RandomAnswer) : bool :=
  match a with AKeys r => is_panic r | ASealed r => is_panic r | ABytes r => is_panic r end.

(** The errors of a poisoned lock. *)
Definition lock_refused (a : RandomAnswer) : bool :=
  match a with
  | AKeys r => bool_decide (r = Err (Error InsufficientRandomness))
  | ASealed r => bool_decide (r = Err (Error InsufficientRandomness))
  | ABytes r => bool_decide (r = Err (Error RngLockPoison))
  end.

(** The length that a call allocates while it holds the lock. *)
Definition requested_length (c : RandomCall) : Z :=
  match c with
  | HpkeSetupSenderAndExport _ _ _ _ len => len
  | RandomVec len => len
  | _ => 0
  end.
