(* ===== verification/CryptoProviderSpec.v ===== *)
(** * What the cryptography of the provider promises

    Over crates that keep the laws of their documentation, every ciphersuite that
    [RustCrypto_supports] accepts works in each of its parts, and no other one does; and the random
    generator is refused exactly after a panic of a call that held its lock. *)

From S2P Require Import Prelude KsError OpenMls CryptoProvider.
Open Scope Z_scope.

(** ** The laws of the crates *)

Definition aead_key_length (a : AeadCipher) : nat := match a with Aes128Gcm => 16 | _ => 32 end.

Class CryptoCratesLaws `{CryptoCrates} := {
  new_from_slice_length a key : is_Some (new_from_slice a key) <-> length key = aead_key_length a;
  decrypt_encrypt a c n m aad x : encrypt a c n m aad = Some x -> decrypt a c n x aad = Some m;
  ec_to_bytes_length c sk : length (ec_to_bytes c sk) = field_length c;
  ec_from_to_bytes c sk : ec_from_bytes c (ec_to_bytes c sk) = Some sk;
  ec_sec1_encoded c b pk : ec_from_sec1_bytes c (ec_to_encoded_point c b pk) = Some pk;
  der_from_to_bytes c s : der_from_bytes c (der_to_bytes c s) = Some s;
  ec_verify_signed c sk m s :
    ec_try_sign c sk m = Some s -> ec_verify c (ec_verifying_key c sk) m s = true;
  ed_to_bytes_length sk : length (ed_to_bytes sk) = SECRET_KEY_LENGTH;
  ed_pk_to_bytes_length pk : length (ed_pk_to_bytes pk) = 32%nat;
  ed_from_to_bytes sk : ed_from_bytes (ed_to_bytes sk) = sk;
  ed_from_keypair sk :
    ed_from_keypair_bytes (ed_to_bytes sk ++ ed_pk_to_bytes (ed_verifying_key sk)) = Some sk;
  ed_pk_from_to_bytes pk : ed_pk_try_from (ed_pk_to_bytes pk) = Some pk;
  ed_sig_from_to_bytes s : ed_sig_from_slice (ed_sig_to_bytes s) = Some s;
  ed_verify_signed sk m s :
    ed_try_sign sk m = Some s -> ed_verify_strict (ed_verifying_key sk) m s = true;
  kem_pk_from_to_bytes k pk : kem_pk_from_bytes k (kem_pk_to_bytes k pk) = Some pk;
  kem_sk_from_to_bytes k sk : kem_sk_from_bytes k (kem_sk_to_bytes k sk) = Some sk;
  enc_from_to_bytes k e : enc_from_bytes k (enc_to_bytes k e) = Some e;
  open_sealed a d k ikm sk pk info m aad g e x g' :
    kem_derive_keypair k ikm = (sk, pk) ->
    single_shot_seal a d k pk info m aad g = (Some (e, x), g') ->
    single_shot_open a d k sk e info x aad = Some m;
  receiver_of_sender a d k ikm sk pk info g e tx g' :
    kem_derive_keypair k ikm = (sk, pk) ->
    setup_sender a d k pk info g = (Some (e, tx), g') ->
    exists rx, setup_receiver a d k sk e info = Some rx /\
      forall context n, ctx_export a d k rx context n = ctx_export a d k tx context n;
  ctx_export_length a d k ctx context n x :
    ctx_export a d k ctx context n = Some x -> length x = n;
}.

(** ** The ciphersuites

    [Ciphersuite::{signature_algorithm, aead_algorithm, hpke_config}] are [openmls_traits]'s; what
    they answer is the table of RFC 9420 (17.1) and, for Kyber, the draft's. *)

Class CiphersuiteParts := {
  cs_signature : Ciphersuite -> SignatureScheme;
  cs_aead : Ciphersuite -> AeadType;
  cs_hpke : Ciphersuite -> HpkeConfig;
}.

Definition rfc9420 (cs : Ciphersuite) : SignatureScheme * AeadType * HpkeConfig :=
  match cs with
  | MLS_128_DHKEMX25519_AES128GCM_SHA256_Ed25519 =>
      (ED25519, AeadAes128Gcm, MkHpkeConfig DhKem25519 HkdfSha256 AesGcm128)
  | MLS_128_DHKEMP256_AES128GCM_SHA256_P256 =>
      (ECDSA_SECP256R1_SHA256, AeadAes128Gcm, MkHpkeConfig DhKemP256 HkdfSha256 AesGcm128)
  | MLS_128_DHKEMX25519_CHACHA20POLY1305_SHA256_Ed25519 =>
      (ED25519, AeadChaCha20Poly1305, MkHpkeConfig DhKem25519 HkdfSha256 ChaCha20Poly1305)
  | MLS_256_DHKEMX448_AES256GCM_SHA512_Ed448 =>
      (ED448, AeadAes256Gcm, MkHpkeConfig DhKem448 HkdfSha512 AesGcm256)
  | MLS_256_DHKEMP521_AES256GCM_SHA512_P521 =>
      (ECDSA_SECP521R1_SHA512, AeadAes256Gcm, MkHpkeConfig DhKemP521 HkdfSha512 AesGcm256)
  | MLS_256_DHKEMX448_CHACHA20POLY1305_SHA512_Ed448 =>
      (ED448, AeadChaCha20Poly1305, MkHpkeConfig DhKem448 HkdfSha512 ChaCha20Poly1305)
  | MLS_256_DHKEMP384_AES256GCM_SHA384_P384 =>
      (ECDSA_SECP384R1_SHA384, AeadAes256Gcm, MkHpkeConfig DhKemP384 HkdfSha384 AesGcm256)
  | MLS_128_X25519KYBER768DRAFT00_AES128GCM_SHA256_Ed25519 =>
      (ED25519, AeadAes128Gcm, MkHpkeConfig X25519Kyber768Draft00 HkdfSha256 AesGcm128)
  end.

Class CiphersuiteLaws `{CiphersuiteParts} :=
  cs_parts cs : (cs_signature cs, cs_aead cs, cs_hpke cs) = rfc9420 cs.

(** ** Results of chains of fallible calls *)

Lemma or_error_Ok {E A} (e : E) (o : option A) a : or_error e o = Ok a -> o = Some a.
Proof. destruct o; simpl; by intros [= ->] || done. Qed.

Lemma or_error_Err {E A} (e : E) (o : option A) x : or_error e o = Err x -> x = Error e.
Proof. destruct o; simpl; by intros [= <-] || done. Qed.

Lemma bind_Ok {E A B} (m : result E A) (f : A -> result E B) b :
  m ≫= f = Ok b -> exists a, m = Ok a /\ f a = Ok b.
Proof. destruct m as [a|e]; simpl; [by eauto|done]. Qed.

Lemma bind_Err {E A B} (m : result E A) (f : A -> result E B) x :
  m ≫= f = Err x -> m = Err x \/ exists a, m = Ok a /\ f a = Err x.
Proof. destruct m as [a|e]; simpl; [by eauto|intros [= ->]; by left]. Qed.

(** [with_write] on a lock that is not poisoned. *)
Lemma with_write_ok {T E A} (e : E) (m : stm T (Abort E) A) (l : RwLock T) :
  poisoned l = false ->
  with_write e m l = let (r, g) := m (guarded l) in (r, MkRwLock (is_panic r) g).
Proof. unfold with_write. by intros ->. Qed.

Lemma with_write_poisoned {T E A} (e : E) (m : stm T (Abort E) A) (l : RwLock T) :
  poisoned l = true -> with_write e m l = (Err (Error e), l).
Proof. unfold with_write. by intros ->. Qed.

Section laws.
Context `{CryptoCratesLaws}.

(** ** AEAD *)

Lemma nonce_into_ok {E} n : length n = AEAD_NONCE_LENGTH -> nonce_into (E := E) n = Ok n.
Proof. unfold nonce_into. intros ->. by rewrite Nat.eqb_refl. Qed.

Lemma aead_with_roundtrip a key m n aad :
  length n = AEAD_NONCE_LENGTH ->
  match aead_encrypt_with a key m n aad with
  | Ok x => aead_decrypt_with a key x n aad = Ok m
  | Err e => e = Error CryptoLibraryError
  end.
Proof.
  intros Hn. unfold aead_encrypt_with, aead_decrypt_with. rewrite nonce_into_ok by done.
  destruct (new_from_slice a key) as [c|]; simpl; [|done].
  destruct (encrypt a c n m aad) as [x|] eqn:Hx; simpl; [|done].
  by rewrite (decrypt_encrypt _ _ _ _ _ _ Hx).
Qed.

Lemma aead_roundtrip alg key m n aad :
  length n = AEAD_NONCE_LENGTH ->
  match RustCrypto_aead_encrypt alg key m n aad with
  | Ok x => RustCrypto_aead_decrypt alg key x n aad = Ok m
  | Err e => e = Error CryptoLibraryError
  end.
Proof. intros Hn. destruct alg; by apply aead_with_roundtrip. Qed.

(** ** Signatures *)

Definition signs_and_verifies (alg : SignatureScheme) (sk pk : bytes) : Prop :=
  forall data, match RustCrypto_sign alg data sk with
    | Ok s => RustCrypto_verify_signature alg data pk s = Ok ()
    | Err e => e = Error CryptoLibraryError
    end.

Lemma ecdsa_signs_and_verifies c sk data :
  match ecdsa_sign c data (ec_to_bytes c sk) with
  | Ok s => ecdsa_verify c data (ec_to_encoded_point c false (ec_verifying_key c sk)) s = Ok ()
  | Err e => e = Error CryptoLibraryError
  end.
Proof.
  unfold ecdsa_sign, ecdsa_verify, field_bytes. rewrite ec_to_bytes_length, Nat.eqb_refl. simpl.
  rewrite ec_from_to_bytes. simpl. destruct (ec_try_sign c sk data) as [s|] eqn:Hs; simpl; [|done].
  rewrite ec_sec1_encoded. simpl. rewrite der_from_to_bytes. simpl.
  by rewrite (ec_verify_signed _ _ _ _ Hs).
Qed.

Lemma normalize_ed25519_secret sk : normalize_ed25519_key (ed_to_bytes sk) = Ok sk.
Proof. unfold normalize_ed25519_key. by rewrite ed_to_bytes_length, ed_from_to_bytes. Qed.

(** A key in the old format, the secret followed by the public key, is the same key. *)
Lemma normalize_ed25519_legacy sk :
  normalize_ed25519_key (ed_to_bytes sk ++ ed_pk_to_bytes (ed_verifying_key sk)) = Ok sk.
Proof.
  unfold normalize_ed25519_key.
  by rewrite length_app, ed_to_bytes_length, ed_pk_to_bytes_length, ed_from_keypair.
Qed.

Lemma ed25519_signs_and_verifies sk :
  signs_and_verifies ED25519 (ed_to_bytes sk) (ed_pk_to_bytes (ed_verifying_key sk)).
Proof.
  intros data. unfold RustCrypto_sign, RustCrypto_verify_signature.
  rewrite normalize_ed25519_secret. simpl.
  destruct (ed_try_sign sk data) as [s|] eqn:Hs; simpl; [|done].
  rewrite ed_pk_from_to_bytes. simpl. rewrite ed_sig_from_to_bytes. simpl.
  by rewrite (ed_verify_signed _ _ _ Hs).
Qed.

(** The schemes that the provider knows. *)
Definition scheme_supported (alg : SignatureScheme) : bool :=
  match alg with ECDSA_SECP256R1_SHA256 | ECDSA_SECP384R1_SHA384 | ED25519 => true | _ => false end.

Lemma signature_key_gen_works alg s :
  scheme_supported alg = true -> poisoned s = false ->
  exists sk pk s', RustCrypto_signature_key_gen alg s = (Ok (sk, pk), s') /\
    poisoned s' = false /\ signs_and_verifies alg sk pk.
Proof.
  intros Ha Hp. unfold RustCrypto_signature_key_gen. rewrite with_write_ok by done.
  destruct alg; try done; unfold ecdsa_key_gen, draw, mbind, stm_bind, mret, stm_ret.
  - destruct (ec_random P256 (guarded s)) as [sk g]. do 3 eexists. split_and!; [done..|].
    intros data. apply ecdsa_signs_and_verifies.
  - destruct (ec_random P384 (guarded s)) as [sk g]. do 3 eexists. split_and!; [done..|].
    intros data. apply ecdsa_signs_and_verifies.
  - destruct (ed_generate (guarded s)) as [sk g]. do 3 eexists. split_and!; [done..|].
    apply ed25519_signs_and_verifies.
Qed.

(** ** HPKE *)

(** The algorithms that a configuration stands for; every method chooses the same. *)
Definition hpke_algorithms (config : HpkeConfig) : option (HpkeAead * HpkeKdf * HpkeKem) :=
  match config with
  | MkHpkeConfig DhKem25519 HkdfSha256 AesGcm128 =>
      Some (hpke_AesGcm128, hpke_HkdfSha256, hpke_X25519HkdfSha256)
  | MkHpkeConfig DhKem25519 HkdfSha256 ChaCha20Poly1305 =>
      Some (hpke_ChaCha20Poly1305, hpke_HkdfSha256, hpke_X25519HkdfSha256)
  | MkHpkeConfig DhKemP256 HkdfSha256 AesGcm128 =>
      Some (hpke_AesGcm128, hpke_HkdfSha256, hpke_DhP256HkdfSha256)
  | MkHpkeConfig DhKemP384 HkdfSha384 AesGcm256 =>
      Some (hpke_AesGcm256, hpke_HkdfSha384, hpke_DhP384HkdfSha384)
  | MkHpkeConfig X25519Kyber768Draft00 HkdfSha256 AesGcm128 =>
      Some (hpke_AesGcm128, hpke_HkdfSha256, hpke_X25519Kyber768Draft00)
  | _ => None
  end.

Lemma hpke_seal_dispatch config pk info aad m :
  RustCrypto_hpke_seal config pk info aad m =
  with_write InsufficientRandomness
    match hpke_algorithms config with
    | Some (a, d, k) => hpke_seal a d k pk info aad m
    | None => st_fail (Error UnsupportedKem)
    end.
Proof. by destruct config as [[] [] []]. Qed.

Lemma hpke_open_dispatch config c sk info aad :
  RustCrypto_hpke_open config c sk info aad =
  match hpke_algorithms config with
  | Some (a, d, k) => hpke_open a d k sk (kem_output c) info aad (ciphertext c)
  | None => Err (Error UnsupportedKem)
  end.
Proof. by destruct config as [[] [] []]. Qed.

Lemma hpke_sender_dispatch config pk info ctx len :
  RustCrypto_hpke_setup_sender_and_export config pk info ctx len =
  with_write InsufficientRandomness (
    r ← match hpke_algorithms config with
      | Some (a, d, k) => hpke_export_tx a d k pk info ctx len
      | None => st_fail (Error UnsupportedKem)
      end;
    st_lift (debug_assert (Z.eqb (blen r.2) len));;
    mret r).
Proof. by destruct config as [[] [] []]. Qed.

Lemma hpke_receiver_dispatch config enc sk info ctx len :
  RustCrypto_hpke_setup_receiver_and_export config enc sk info ctx len =
  (export ← match hpke_algorithms config with
     | Some (a, d, k) => hpke_export_rx a d k enc sk info ctx len
     | None => Err (Error UnsupportedKem)
     end;
   debug_assert (Z.eqb (blen export) len);;
   Ok export).
Proof. by destruct config as [[] [] []]. Qed.

Lemma hpke_derive_dispatch config a d k ikm :
  hpke_algorithms config = Some (a, d, k) ->
  RustCrypto_derive_hpke_keypair config ikm = hpke_derive_keypair k ikm.
Proof. by destruct config as [[] [] []]; intros [= <- <- <-]. Qed.

(** A pair of keys that the provider derived for a configuration. *)
Definition derived (k : HpkeKem) (kp : HpkeKeyPair) : Prop :=
  exists ikm sk pk, kem_derive_keypair k ikm = (sk, pk) /\
    kp = MkHpkeKeyPair (kem_sk_to_bytes k sk) (kem_pk_to_bytes k pk).

Lemma hpke_derive_keypair_derived k ikm :
  exists kp, hpke_derive_keypair k ikm = Ok kp /\ derived k kp.
Proof.
  unfold hpke_derive_keypair. destruct (kem_derive_keypair k ikm) as [sk pk] eqn:Hk.
  eexists. split; [done|]. by exists ikm, sk, pk.
Qed.

(** What is sealed for a derived key opens with its other half. *)
Lemma hpke_seal_open a d k kp info aad m g r g' :
  derived k kp -> hpke_seal a d k (hpke_public kp) info aad m g = (r, g') ->
  match r with
  | Ok c => hpke_open a d k (hpke_private kp) (kem_output c) info aad (ciphertext c) = Ok m
  | Err e => e = Error HpkeEncryptionError
  end.
Proof.
  intros (ikm & sk & pk & Hk & ->). unfold hpke_seal, hpke_open, draw_or_error, mbind, stm_bind,
    st_lift. simpl. rewrite kem_pk_from_to_bytes. simpl.
  destruct (single_shot_seal _ _ _ _ _ _ _ g) as [[[e x]|] g1] eqn:Hs; simpl;
    intros [= <- <-]; simpl; [|done].
  rewrite enc_from_to_bytes. simpl. rewrite kem_sk_from_to_bytes. simpl.
  by rewrite (open_sealed _ _ _ _ _ _ _ _ _ _ _ _ _ Hk Hs).
Qed.

Lemma vec_alloc_ok {E} n : n <= isize_max -> vec_alloc (E := E) n = Ok ().
Proof. unfold vec_alloc. intros Hn. by destruct (Z.leb_spec n isize_max); [|lia]. Qed.

Lemma debug_assert_refl {E} n : debug_assert (E := E) (Z.eqb n n) = Ok ().
Proof. unfold debug_assert. by rewrite Z.eqb_refl, andb_false_r. Qed.

(** The errors of an export by the sender. *)
Definition sender_error (len : Z) (e : Abort TraitsError) : Prop :=
  e = Error SenderSetupError \/ e = Error ExporterError \/ (e = Panicked /\ isize_max < len).

(** Sender and receiver export the same secret. *)
Lemma hpke_export_agree a d k kp info ctx len g r g' :
  derived k kp -> 0 <= len ->
  hpke_export_tx a d k (hpke_public kp) info ctx len g = (r, g') ->
  match r with
  | Ok (enc, x) =>
      hpke_export_rx a d k enc (hpke_private kp) info ctx len = Ok x /\ blen x = len
  | Err e => sender_error len e
  end.
Proof.
  intros (ikm & sk & pk & Hk & ->) Hl. unfold hpke_export_tx, hpke_export_rx, draw_or_error, mbind,
    stm_bind, st_lift, sender_error. simpl. rewrite kem_pk_from_to_bytes. simpl.
  destruct (setup_sender _ _ _ _ _ g) as [[[e tx]|] g1] eqn:Hs; simpl; [|intros [= <- <-]; by left].
  destruct (receiver_of_sender _ _ _ _ _ _ _ _ _ _ _ Hk Hs) as (rx & Hr & Hx).
  destruct (Z.leb_spec len isize_max) as [Hle|Hgt].
  - rewrite vec_alloc_ok by done. simpl.
    destruct (ctx_export _ _ _ tx ctx _) as [x|] eqn:He; simpl; intros [= <- <-]; [|by right; left].
    rewrite kem_sk_from_to_bytes. simpl. rewrite enc_from_to_bytes. simpl. rewrite Hr. simpl.
    rewrite Hx, He. split; [done|].
    apply ctx_export_length in He. unfold blen. lia.
  - unfold vec_alloc. destruct (Z.leb_spec len isize_max); [lia|]. simpl. intros [= <- <-].
    by right; right.
Qed.

(** ** The configurations of HPKE *)

Definition hpke_works (config : HpkeConfig) (s : RustCrypto) : Prop :=
  forall ikm, exists kp, RustCrypto_derive_hpke_keypair config ikm = Ok kp /\
    (forall info aad m, match (RustCrypto_hpke_seal config (hpke_public kp) info aad m s).1 with
      | Ok c => RustCrypto_hpke_open config c (hpke_private kp) info aad = Ok m
      | Err e => e = Error HpkeEncryptionError
      end) /\
    (forall info ctx len, 0 <= len ->
      match (RustCrypto_hpke_setup_sender_and_export config (hpke_public kp) info ctx len s).1 with
      | Ok (enc, x) => blen x = len /\
          RustCrypto_hpke_setup_receiver_and_export config enc (hpke_private kp) info ctx len = Ok x
      | Err e => sender_error len e
      end).

Lemma hpke_config_works config s :
  is_Some (hpke_algorithms config) -> poisoned s = false -> hpke_works config s.
Proof.
  intros [[[a d] k] Hc] Hp ikm. rewrite (hpke_derive_dispatch _ _ _ _ _ Hc).
  destruct (hpke_derive_keypair_derived k ikm) as (kp & Hd & Hkp). exists kp.
  split_and!; [done| |].
  - intros info aad m. rewrite hpke_seal_dispatch, Hc, with_write_ok by done.
    destruct (hpke_seal a d k _ _ _ _ _) as [r g] eqn:Hs. simpl.
    apply hpke_seal_open in Hs; [|done]. destruct r as [c|e]; [|done].
    by rewrite hpke_open_dispatch, Hc.
  - intros info ctx len Hl. rewrite hpke_sender_dispatch, Hc, with_write_ok by done.
    unfold mbind, stm_bind, st_lift, mret, stm_ret.
    destruct (hpke_export_tx a d k _ _ _ _ _) as [r g] eqn:Hs. simpl.
    apply hpke_export_agree in Hs; [|done..]. destruct r as [[enc x]|e]; [|done]. simpl.
    destruct Hs as [Hr Hx]. rewrite Hx, debug_assert_refl. simpl. split; [done|].
    rewrite hpke_receiver_dispatch, Hc, Hr. simpl. by rewrite Hx, debug_assert_refl.
Qed.

(** ** The random generator and its lock *)

Lemma hpke_seal_result a d k pk info aad m g :
  match (hpke_seal a d k pk info aad m g).1 with
  | Ok _ => True
  | Err e => e = Error HpkeEncryptionError
  end.
Proof.
  unfold hpke_seal, draw_or_error, mbind, stm_bind, st_lift.
  destruct (kem_pk_from_bytes k pk) as [key|]; simpl; [|done].
  by destruct (single_shot_seal _ _ _ _ _ _ _ g) as [[[e x]|] g1].
Qed.

Lemma hpke_export_tx_result a d k pk info ctx len g :
  0 <= len ->
  match (hpke_export_tx a d k pk info ctx len g).1 with
  | Ok r => blen r.2 = len
  | Err e => sender_error len e
  end.
Proof.
  intros Hl. unfold hpke_export_tx, draw_or_error, mbind, stm_bind, st_lift, sender_error.
  destruct (kem_pk_from_bytes k pk) as [key|]; simpl; [|by left].
  destruct (setup_sender _ _ _ _ _ g) as [[[e tx]|] g1]; simpl; [|by left].
  unfold vec_alloc. destruct (Z.leb_spec len isize_max); simpl; [|by right; right].
  destruct (ctx_export _ _ _ tx ctx _) as [x|] eqn:He; simpl; [|by right; left].
  apply ctx_export_length in He. unfold blen. lia.
Qed.

(** An answer that neither panics nor reports a poisoned lock. *)
Definition served (a : RandomAnswer) : Prop := panicked a = false /\ lock_refused a = false.

(** A call whose lock is not poisoned. *)
Definition call_ok (c : RandomCall) (s : RustCrypto) : Prop :=
  let (a, s') := random_call c s in
  lock_refused a = false /\ poisoned s' = panicked a /\
  (panicked a = true -> isize_max < requested_length c).

Lemma key_gen_ok alg s : poisoned s = false -> call_ok (SignatureKeyGen alg) s.
Proof.
  intros Hp. unfold call_ok, random_call, answer, RustCrypto_signature_key_gen.
  rewrite with_write_ok by done.
  destruct (ec_random P256 (guarded s)) as [sk1 g1] eqn:H1,
    (ec_random P384 (guarded s)) as [sk2 g2] eqn:H2, (ed_generate (guarded s)) as [sk3 g3] eqn:H3.
  destruct alg; unfold ecdsa_key_gen, draw, mbind, stm_bind, mret, stm_ret, st_fail;
    rewrite ?H1, ?H2, ?H3; by split_and!.
Qed.

Lemma hpke_seal_ok config pk info aad m s :
  poisoned s = false -> call_ok (HpkeSeal config pk info aad m) s.
Proof.
  intros Hp. unfold call_ok, random_call, answer. rewrite hpke_seal_dispatch, with_write_ok by done.
  destruct (hpke_algorithms config) as [[[a d] k]|]; [|by split_and!].
  pose proof (hpke_seal_result a d k pk info aad m (guarded s)) as Hr.
  destruct (hpke_seal _ _ _ _ _ _ _ _) as [[x|e] g]; simpl in *; [by split_and!|].
  by rewrite Hr.
Qed.

Lemma hpke_sender_ok config pk info ctx len s :
  poisoned s = false -> 0 <= len -> call_ok (HpkeSetupSenderAndExport config pk info ctx len) s.
Proof.
  intros Hp Hl. unfold call_ok, random_call, answer.
  rewrite hpke_sender_dispatch, with_write_ok by done.
  unfold mbind, stm_bind, st_lift, mret, stm_ret.
  destruct (hpke_algorithms config) as [[[a d] k]|]; [|by split_and!].
  pose proof (hpke_export_tx_result a d k pk info ctx len (guarded s) Hl) as Hr.
  destruct (hpke_export_tx _ _ _ _ _ _ _ _) as [[x|e] g]; simpl in *.
  - rewrite Hr, debug_assert_refl. by split_and!.
  - by destruct Hr as [->|[->|[-> ?]]].
Qed.

Lemma random_array_ok n s : poisoned s = false -> call_ok (RandomArray n) s.
Proof.
  intros Hp. unfold call_ok, random_call, answer, RustCrypto_random_array, RustCrypto_borrow_rand.
  rewrite with_write_ok by done. unfold draw_or_error.
  by destruct (try_fill_bytes n (guarded s)) as [[x|] g].
Qed.

Lemma random_vec_ok len s : poisoned s = false -> call_ok (RandomVec len) s.
Proof.
  intros Hp. unfold call_ok, random_call, answer, RustCrypto_random_vec, RustCrypto_borrow_rand.
  rewrite with_write_ok by done. unfold draw_or_error, mbind, stm_bind, st_lift, vec_alloc.
  destruct (Z.leb_spec len isize_max); [|by split_and!].
  by destruct (try_fill_bytes (Z.to_nat len) (guarded s)) as [[x|] g].
Qed.

Lemma random_call_ok c s : poisoned s = false -> 0 <= requested_length c -> call_ok c s.
Proof.
  destruct c; intros Hp Hl;
    [by apply key_gen_ok|by apply hpke_seal_ok|by apply hpke_sender_ok|by apply random_array_ok|
     by apply random_vec_ok].
Qed.

Lemma random_call_refused c s :
  poisoned s = true -> exists a, random_call c s = (a, s) /\ lock_refused a = true /\ panicked a = false.
Proof.
  intros Hp. destruct c; unfold random_call, answer, RustCrypto_signature_key_gen,
    RustCrypto_hpke_seal, RustCrypto_hpke_setup_sender_and_export, RustCrypto_random_array,
    RustCrypto_random_vec, RustCrypto_borrow_rand; rewrite with_write_poisoned by done;
    eexists; split_and!; try done; by apply bool_decide_eq_true.
Qed.

Lemma random_calls_refused cs s :
  poisoned s = true -> exists l, random_calls cs s = (l, s) /\
    Forall (fun a => lock_refused a = true /\ panicked a = false) l.
Proof.
  intros Hp. induction cs as [|c cs (l & Hl & Hf)]; simpl; [by exists []|].
  destruct (random_call_refused c s Hp) as (a & -> & Ha). rewrite Hl. exists (a :: l). by auto.
Qed.
End laws.

(** ** The theorems *)

(** What a ciphersuite is for: its keys sign, its HPKE keys open what is sealed for them and export
    what the sender exports, and its AEAD decrypts what it encrypted. *)
Definition suite_works `{CryptoCrates, CiphersuiteParts} (cs : Ciphersuite) (s : RustCrypto) : Prop :=
  (exists sk pk s', RustCrypto_signature_key_gen (cs_signature cs) s = (Ok (sk, pk), s') /\
     poisoned s' = false /\ signs_and_verifies (cs_signature cs) sk pk) /\
  hpke_works (cs_hpke cs) s /\
  (forall key m nonce aad, length nonce = AEAD_NONCE_LENGTH ->
     match RustCrypto_aead_encrypt (cs_aead cs) key m nonce aad with
     | Ok x => RustCrypto_aead_decrypt (cs_aead cs) key x nonce aad = Ok m
     | Err e => e = Error CryptoLibraryError
     end).

(** Every operation on signatures, and every one that takes an HPKE configuration. *)
Definition suite_refused `{CryptoCrates, CiphersuiteParts} (cs : Ciphersuite) (s : RustCrypto) :
    Prop :=
  RustCrypto_signature_key_gen (cs_signature cs) s = (Err (Error UnsupportedSignatureScheme), s) /\
  (forall data sk, RustCrypto_sign (cs_signature cs) data sk =
     Err (Error UnsupportedSignatureScheme)) /\
  (forall data pk sig, RustCrypto_verify_signature (cs_signature cs) data pk sig =
     Err (Error UnsupportedSignatureScheme)) /\
  (forall ikm, RustCrypto_derive_hpke_keypair (cs_hpke cs) ikm = Err (Error UnsupportedKem)) /\
  (forall pk info aad m, RustCrypto_hpke_seal (cs_hpke cs) pk info aad m s =
     (Err (Error UnsupportedKem), s)) /\
  (forall c sk info aad, RustCrypto_hpke_open (cs_hpke cs) c sk info aad =
     Err (Error UnsupportedKem)) /\
  (forall pk info ctx len, RustCrypto_hpke_setup_sender_and_export (cs_hpke cs) pk info ctx len s =
     (Err (Error UnsupportedKem), s)) /\
  (forall enc sk info ctx len, RustCrypto_hpke_setup_receiver_and_export (cs_hpke cs) enc sk info ctx len =
     Err (Error UnsupportedKem)).

Section theorems.
Context `{CryptoCratesLaws, CiphersuiteLaws}.

Lemma supported_parts cs :
  RustCrypto_supports cs = Ok () ->
  scheme_supported (cs_signature cs) = true /\ is_Some (hpke_algorithms (cs_hpke cs)).
Proof.
  pose proof (cs_parts cs) as Hc. destruct cs; intros [=]; injection Hc as -> _ ->; split; by eauto.
Qed.

Lemma unsupported_parts cs s e :
  poisoned s = false -> RustCrypto_supports cs = Err e ->
  e = Error UnsupportedCiphersuite /\ suite_refused cs s.
Proof.
  pose proof (cs_parts cs) as Hc. unfold suite_refused, RustCrypto_signature_key_gen,
    RustCrypto_hpke_seal, RustCrypto_hpke_setup_sender_and_export. intros Hp.
  destruct s. cbn in Hp. subst.
  destruct cs; intros [= <-]; injection Hc as -> _ ->; rewrite with_write_ok by done;
    split_and!; try done; intros; by rewrite with_write_ok.
Qed.

(** C14: [supports] is exact. A ciphersuite it accepts, which is one of those that
    [supported_ciphersuites] lists, works: a new signature key signs what its public key verifies,
    what is sealed for a derived HPKE key opens with it and both sides export the same secret, and
    the AEAD decrypts what it encrypted, unless a crate reports an error. Of a ciphersuite it does
    not accept the signature scheme and the HPKE configuration are refused by every operation that
    takes one, with nothing changed; its AEAD and its hash, which accepted ciphersuites share, are
    not refused as such. *)
Theorem supports_exact cs s :
  poisoned s = false ->
  match RustCrypto_supports cs with
  | Ok _ => cs ∈ RustCrypto_supported_ciphersuites /\ suite_works cs s
  | Err e => e = Error UnsupportedCiphersuite /\ cs ∉ RustCrypto_supported_ciphersuites /\
      suite_refused cs s
  end.
Proof.
  intros Hp.
  assert (RustCrypto_supports cs = Ok () <-> cs ∈ RustCrypto_supported_ciphersuites) as Hin.
  { rewrite <-(bool_decide_eq_true (cs ∈ _)). by destruct cs; split. }
  destruct (RustCrypto_supports cs) as [[]|e] eqn:Hs.
  - split; [by apply Hin|]. destruct (supported_parts _ Hs) as [Hsig Hh].
    split_and!; [by apply signature_key_gen_works|by apply hpke_config_works|].
    intros. by apply aead_roundtrip.
  - destruct (unsupported_parts _ _ _ Hp Hs) as [-> Hr]. split_and!; [done| |done].
    intros Hc. by apply Hin in Hc.
Qed.

(** C28: The random generator is lost by a panic and by nothing else. In every sequence of calls
    either all are served and the lock is not poisoned, or there is a first one that panics,
    because it asked for more bytes than an allocation can have; all calls before it are served and
    all after it are refused, and change nothing. *)
Theorem random_calls_spec cs s :
  poisoned s = false -> Forall (fun c => 0 <= requested_length c) cs ->
  let (l, s') := random_calls cs s in
  (Forall served l /\ poisoned s' = false) \/
  (exists cs1 c cs2 l1 a l2, cs = cs1 ++ c :: cs2 /\ l = l1 ++ a :: l2 /\
     length cs1 = length l1 /\ Forall served l1 /\
     panicked a = true /\ isize_max < requested_length c /\
     poisoned s' = true /\
     Forall (fun a => lock_refused a = true /\ panicked a = false) l2 /\
     s' = (random_calls (cs1 ++ [c]) s).2).
Proof.
  intros Hp Hf. revert s Hp. induction Hf as [|c cs Hc Hf IH]; intros s Hp; simpl; [by left|].
  pose proof (random_call_ok c s Hp Hc) as Hok. unfold call_ok in Hok.
  destruct (random_call c s) as [a s1] eqn:Hca. destruct Hok as (Hlr & Hs1 & Hpan).
  destruct (panicked a) eqn:Ha.
  - destruct (random_calls_refused cs s1 Hs1) as (l & -> & Hl). right.
    exists [], c, cs, [], a, l. split_and!; auto; try done. simpl. by rewrite Hca.
  - specialize (IH s1 Hs1). destruct (random_calls cs s1) as [l s2].
    destruct IH as [[Hl Hs2]|(cs1 & c' & cs2 & l1 & a' & l2 & -> & -> & Hlen & Hl1 & Hrest)].
    + left. split; [|done]. by constructor.
    + right. exists (c :: cs1), c', cs2, (a :: l1), a', l2. simpl. rewrite Hca.
      destruct Hrest as (? & ? & ? & ? & Hs'). destruct (random_calls (cs1 ++ [c']) s1) as [l3 s3].
      split_and!; try done; [by rewrite Hlen|by constructor].
Qed.
End theorems.
