(* ===== verification/CryptoProviderExample.v ===== *)
(** * Crates in which the laws hold

    A toy instance of [CryptoCrates]: keys are single bytes, a signature names its key and repeats
    the message, a ciphertext names its key. The theorems of [CryptoProviderSpec] are applied to
    it. *)

From S2P Require Import Prelude KsError OpenMls CryptoProvider CryptoProviderSpec.
Open Scope Z_scope.

Definition head_byte (b : bytes) : option Byte.byte := match b with x :: _ => Some x | [] => None end.
Definition one_byte (b : bytes) : option Byte.byte := match b with [x] => Some x | _ => None end.
Definition draw_byte (g : Z) : Byte.byte * Z := (byte_of g, g + 1).

(** The prefix is taken off if it is there. *)
Definition strip (prefix b : bytes) : option bytes :=
  if bool_decide (take (length prefix) b = prefix) then Some (drop (length prefix) b) else None.

Lemma strip_app p b : strip p (p ++ b) = Some b.
Proof.
  unfold strip. rewrite take_app_length, drop_app_length. by rewrite bool_decide_eq_true_2.
Qed.

#[export] Instance toy_crates : CryptoCrates := {|
  isize_max := 9223372036854775807;
  debug_assertions := true;
  ChaCha20Rng := Z;
  from_seed seed := byte_val (default Byte.x00 (head_byte seed));
  try_fill_bytes n g := (Some (replicate n (byte_of g)), g + 1);
  digest _ m := m;
  Hkdf _ := bytes;
  hkdf_extract _ salt ikm := salt ++ ikm;
  hkdf_from_prk _ prk := Some prk;
  hkdf_expand _ prk info n := Some (take n (prk ++ info ++ replicate n Byte.x00));
  Cipher _ := bytes;
  new_from_slice a key := if Nat.eqb (length key) (aead_key_length a) then Some key else None;
  encrypt _ key nonce m aad := Some ((key ++ nonce ++ aad) ++ m);
  decrypt _ key nonce x aad := strip (key ++ nonce ++ aad) x;
  EcSigningKey _ := Byte.byte;
  EcVerifyingKey _ := Byte.byte;
  DerSignature _ := (Byte.byte * bytes)%type;
  ec_random _ := draw_byte;
  ec_verifying_key _ sk := sk;
  ec_to_bytes c sk := replicate (field_length c) sk;
  ec_from_bytes _ b := head_byte b;
  ec_to_encoded_point _ _ pk := [Byte.x04; pk];
  ec_from_sec1_bytes _ b := one_byte (tail b);
  ec_try_sign _ sk m := Some (sk, m);
  ec_verify _ pk m s := bool_decide (s = (pk, m));
  der_to_bytes _ s := s.1 :: s.2;
  der_from_bytes _ b := match b with x :: m => Some (x, m) | [] => None end;
  EdSigningKey := Byte.byte;
  EdVerifyingKey := Byte.byte;
  EdSignature := (Byte.byte * bytes)%type;
  ed_generate := draw_byte;
  ed_verifying_key sk := sk;
  ed_to_bytes sk := replicate SECRET_KEY_LENGTH sk;
  ed_from_bytes b := default Byte.x00 (head_byte b);
  ed_from_keypair_bytes := head_byte;
  ed_pk_to_bytes pk := replicate 32 pk;
  ed_pk_try_from := head_byte;
  ed_try_sign sk m := Some (sk, m);
  ed_verify_strict pk m s := bool_decide (s = (pk, m));
  ed_sig_to_bytes s := s.1 :: s.2;
  ed_sig_from_slice b := match b with x :: m => Some (x, m) | [] => None end;
  KemPublicKey _ := Byte.byte;
  KemPrivateKey _ := Byte.byte;
  EncappedKey _ := Byte.byte;
  AeadCtx _ _ _ := bytes;
  kem_pk_to_bytes _ pk := [pk];
  kem_pk_from_bytes _ := one_byte;
  kem_sk_to_bytes _ sk := [sk];
  kem_sk_from_bytes _ := one_byte;
  enc_to_bytes _ e := [e];
  enc_from_bytes _ := one_byte;
  kem_gen_keypair _ g := ((byte_of g, byte_of g), g + 1);
  kem_derive_keypair _ ikm := let k := default Byte.x00 (head_byte ikm) in (k, k);
  single_shot_seal _ _ _ pk info m aad g :=
    (Some (byte_of g, (pk :: byte_of g :: info ++ aad) ++ m), g + 1);
  single_shot_open _ _ _ sk e info x aad := strip (sk :: e :: info ++ aad) x;
  setup_sender _ _ _ pk info g := (Some (byte_of g, pk :: byte_of g :: info), g + 1);
  setup_receiver _ _ _ sk e info := Some (sk :: e :: info);
  ctx_export _ _ _ ctx context n :=
    if Nat.leb n 8160 then Some (take n (ctx ++ context ++ replicate n Byte.x00)) else None;
|}.

#[export] Instance toy_laws : CryptoCratesLaws.
Proof.
  constructor; simpl; try done.
  - intros a key. destruct (Nat.eqb_spec (length key) (aead_key_length a)); by split.
  - intros _ c n m aad x [= <-]. apply strip_app.
  - intros c sk. apply length_replicate.
  - by intros [].
  - by intros _ [].
  - intros _ sk m s [= <-]. by apply bool_decide_eq_true.
  - by intros [].
  - intros sk m s [= <-]. by apply bool_decide_eq_true.
  - intros _ _ _ ikm sk pk info m aad g e x g' [= <- <-] [= <- <- <-].
    apply (strip_app (_ :: _ :: _)).
  - intros _ _ _ ikm sk pk info g e tx g' [= <- <-] [= <- <- <-]. by eexists.
  - intros _ _ _ ctx context n x. destruct (Nat.leb _ _); [|done]. intros [= <-].
    rewrite length_take, !length_app, length_replicate. lia.
Qed.

#[export] Instance rfc_parts : CiphersuiteParts := {|
  cs_signature cs := (rfc9420 cs).1.1;
  cs_aead cs := (rfc9420 cs).1.2;
  cs_hpke cs := (rfc9420 cs).2;
|}.

#[export] Instance rfc_laws : CiphersuiteLaws.
Proof. by intros []. Qed.

Definition seeded : RustCrypto := RustCrypto_new_with_seed (replicate 32 Byte.x07).

Lemma supports_exact_witness :
  suite_works MLS_128_DHKEMX25519_CHACHA20POLY1305_SHA256_Ed25519 seeded /\
  suite_refused MLS_256_DHKEMX448_AES256GCM_SHA512_Ed448 seeded.
Proof.
  split.
  - exact (proj2 (supports_exact MLS_128_DHKEMX25519_CHACHA20POLY1305_SHA256_Ed25519 seeded eq_refl)).
  - exact (proj2 (proj2 (supports_exact MLS_256_DHKEMX448_AES256GCM_SHA512_Ed448 seeded eq_refl))).
Defined.

(** A signature is made, a request that no allocation can hold panics, and nothing random is to be
    had any more. *)
Definition overflowing_calls : list RandomCall :=
  [RandomArray 4; RandomVec 9223372036854775808; SignatureKeyGen ED25519; RandomVec 1].

Example overflowing_answers :
  (random_calls overflowing_calls seeded).1 =
  [ABytes (Ok (replicate 4 Byte.x07)); ABytes (Err Panicked);
   AKeys (Err (Error InsufficientRandomness)); ABytes (Err (Error RngLockPoison))].
Proof. reflexivity. Qed.

Lemma random_calls_spec_witness :
  exists cs1 c cs2, overflowing_calls = cs1 ++ c :: cs2 /\
    isize_max < requested_length c /\
    poisoned (random_calls overflowing_calls seeded).2 = true /\
    (random_calls overflowing_calls seeded).2 = (random_calls (cs1 ++ [c]) seeded).2.
Proof.
  assert (Forall (fun c => 0 <= requested_length c) overflowing_calls) as Hf
    by (repeat constructor; done).
  pose proof (random_calls_spec overflowing_calls seeded eq_refl Hf) as H.
  destruct (random_calls overflowing_calls seeded) as [l s] eqn:E.
  destruct H as [[_ Hs]|(cs1 & c & cs2 & l1 & a & l2 & Hcs & _ & _ & _ & _ & Hlen & Hs & _ & Heq)].
  - exfalso. assert (poisoned (random_calls overflowing_calls seeded).2 = true) as Hp by reflexivity.
    rewrite E in Hp. discriminate (eq_trans (eq_sym Hs) Hp).
  - exists cs1, c, cs2. simpl. by split_and!.
Defined.
