(* ===== verification/Pki.v ===== *)
(** * Key pairs that issue certificates

    [PkiKeypair] of [mls-provider/src/pki.rs]: what identifies a key pair in a certificate, the
    signing of certificates and revocation lists, and the making of a certificate with its
    extensions. The encoding of X.509 structures and the builder of certificates are the crates
    [x509_cert] and [spki], the parameters of [X509Crates]. *)

From S2P Require Import Prelude KsError OpenMls CryptoProvider CryptoProviderSpec.
Open Scope Z_scope.

(** ** X.509 *)

(** Identifiers of objects are their text; names, keys and values are their encodings. *)
Abbreviation oid := string (only parsing).

Record Spki := MkSpki { spki_algorithm : bytes; subject_public_key : bytes }.

Inductive GeneralName : Set :=
  | UniformResourceIdentifier (ia5 : bytes)
  | DnsName (ia5 : bytes).

(** The extensions the code makes. *)
Inductive Ext : Set :=
  | AuthorityKeyIdentifier (key_identifier : bytes)
  | ExtendedKeyUsage (usages : list string)
  | SubjectAltName (names : list GeneralName)
  | NameConstraints (permitted_subtrees : list GeneralName)   (* minimum 0, no maximum *)
  | CrlDistributionPoints (full_names : list GeneralName).

#[export] Instance GeneralName_eq_dec : EqDecision GeneralName.
Proof. solve_decision. Defined.
#[export] Instance Ext_eq_dec : EqDecision Ext.
Proof. solve_decision. Defined.

(** An extension as a certificate holds it. *)
Record Extension := MkExtension { extn_id : string; critical : bool; extn_value : bytes }.

#[export] Instance Extension_eq_dec : EqDecision Extension.
Proof. solve_decision. Defined.

Record Validity := MkValidity { not_before : bytes; not_after : bytes }.

Record TbsCertificate := MkTbs {
  tbs_version : Z;
  serial_number : Z;
  tbs_signature : bytes;          (* the algorithm, as the signed part names it *)
  issuer : bytes;
  validity : Validity;
  subject : bytes;
  subject_public_key_info : Spki;
  extensions : option (list Extension);
}.

Record X509 := MkX509 {
  tbs_certificate : TbsCertificate;
  signature_algorithm : bytes;
  signature : bytes;
}.

Record RevokedCert := MkRevoked { revoked_serial : Z; revocation_date : bytes }.

(** [Version::V3], the third constant of the enumeration, encoded as 2. *)
Definition Version_V3 : Z := 2.

Record TbsCertList := MkTbsCertList {
  crl_version : Z;
  crl_signature_algorithm : bytes;
  crl_issuer : bytes;
  this_update : bytes;
  next_update : option bytes;
  revoked_certificates : option (list RevokedCert);
}.

Record CertificateList := MkCertificateList {
  tbs_cert_list : TbsCertList;
  list_signature_algorithm : bytes;
  list_signature : bytes;
}.

(** Durations are in nanoseconds. *)
Definition NANOS : Z := 1000000000.
Definition DURATION_MAX : Z := 18446744073709551616 * NANOS - 1.

Inductive Profile : Set := ProfileRoot | ProfileSubCA | ProfileLeaf | ProfileManual.
#[export] Instance Profile_eq_dec : EqDecision Profile.
Proof. solve_decision. Defined.

Section pki.
Context `{CryptoCrates}.

Record Ed25519PkiKeypair := MkEd25519PkiKeypair { ed_keypair : EdSigningKey }.

Inductive PkiKeypair :=
  | PkiP256 (sk : EcSigningKey P256)
  | PkiP384 (sk : EcSigningKey P384)
  | PkiEd25519 (sk : Ed25519PkiKeypair).

Class X509Crates := {
  sha1 : bytes -> bytes;
  spki_from_ec : forall c, EcVerifyingKey c -> option Spki;
  spki_from_ed : EdVerifyingKey -> option Spki;
  octet_string_new : bytes -> option bytes;
  bit_string_new : bytes -> option bytes;
  der_signature_to_der : forall c, DerSignature c -> option bytes;
  akid_to_extension : bytes -> bytes -> option Extension;   (* key identifier, subject *)
  tbs_to_der : TbsCertificate -> option bytes;
  tbs_cert_list_to_der : TbsCertList -> option bytes;
  generalized_time : Z -> option bytes;                     (* [from_unix_duration] *)
  validity_from_now : Z -> Z -> option Validity;           (* now, duration *)
  ia5_try_from : bytes -> option bytes;
  name_from_str : bytes -> option bytes;
  (* [CertificateBuilder] *)
  Builder : Type;
  builder_new : Profile -> Z -> Validity -> bytes -> Spki -> PkiKeypair -> option Builder;
  add_extension : Ext -> Builder -> option Builder;
  build : PkiKeypair -> Builder -> option X509;
}.

Context `{X509Crates}.

Abbreviation pki A := (outcome MlsProviderError A).

(** [.map_err(|_| MlsProviderError::CertificateGenerationError)] *)
Definition gen {A} (o : option A) : pki A := or_error CertificateGenerationError o.

(** ** [PkiKeypair] *)

Definition PkiKeypair_new (signature_scheme : SignatureScheme) (sk : bytes) : pki PkiKeypair :=
  match signature_scheme with
  | ECDSA_SECP256R1_SHA256 =>
      sk ← field_bytes P256 sk;
      PkiP256 <$> gen (ec_from_bytes P256 sk)
  | ECDSA_SECP384R1_SHA384 =>
      sk ← field_bytes P384 sk;
      PkiP384 <$> gen (ec_from_bytes P384 sk)
  | ED25519 =>
      sk ← match normalize_ed25519_key sk with
        | Ok sk => Ok sk
        | Err (Error _) => Err (Error CertificateGenerationError)
        | Err Panicked => Err Panicked
        end;
      Ok (PkiEd25519 (MkEd25519PkiKeypair sk))
  | _ => Err (Error PkiUnsupportedSignatureScheme)
  end.

Definition signing_key_bytes (self : PkiKeypair) : bytes :=
  match self with
  | PkiP256 sk => ec_to_bytes P256 sk
  | PkiP384 sk => ec_to_bytes P384 sk
  | PkiEd25519 sk => ed_to_bytes (ed_keypair sk)
  end.

(** [to_sec1_bytes] compresses the point or not as the curve has it; for these curves it does
    not. *)
Definition public_key_bytes (self : PkiKeypair) : bytes :=
  match self with
  | PkiP256 sk => ec_to_encoded_point P256 false (ec_verifying_key P256 sk)
  | PkiP384 sk => ec_to_encoded_point P384 false (ec_verifying_key P384 sk)
  | PkiEd25519 sk => ed_pk_to_bytes (ed_verifying_key (ed_keypair sk))
  end.

Definition public_key_identifier (self : PkiKeypair) : bytes := sha1 (public_key_bytes self).

Definition PkiKeypair_spki (self : PkiKeypair) : pki Spki :=
  match self with
  | PkiP256 sk => gen (spki_from_ec P256 (ec_verifying_key P256 sk))
  | PkiP384 sk => gen (spki_from_ec P384 (ec_verifying_key P384 sk))
  | PkiEd25519 sk => gen (spki_from_ed (ed_verifying_key (ed_keypair sk)))
  end.

Definition PkiKeypair_akid (self : PkiKeypair) : pki bytes :=
  gen (octet_string_new (public_key_identifier self)).

(** [sk.try_sign(&tbs)?], whose error is passed on, and the encoding of the signature. *)
Definition sign_tbs (self : PkiKeypair) (tbs : bytes) : pki bytes :=
  match self with
  | PkiP256 sk => s ← or_error SignatureError (ec_try_sign P256 sk tbs); gen (der_signature_to_der P256 s)
  | PkiP384 sk => s ← or_error SignatureError (ec_try_sign P384 sk tbs); gen (der_signature_to_der P384 s)
  | PkiEd25519 sk => s ← or_error SignatureError (ed_try_sign (ed_keypair sk) tbs); Ok (ed_sig_to_bytes s)
  end.

(** [now] is the time since the epoch, which fails on a clock before it. *)
Definition revoke_certs (now : option Z) (self : PkiKeypair) (issuer_cert : X509)
    (revoked_cert_serial_numbers : list Z) : pki CertificateList :=
  now ← gen now;
  now ← gen (generalized_time now);
  let tbs := {|
    crl_version := Version_V3;
    crl_signature_algorithm := signature_algorithm issuer_cert;
    crl_issuer := subject (tbs_certificate issuer_cert);
    this_update := now;
    next_update := None;
    revoked_certificates := Some ((fun n => MkRevoked n now) <$> revoked_cert_serial_numbers);
  |} in
  der ← gen (tbs_cert_list_to_der tbs);
  signature ← sign_tbs self der;
  signature ← gen (bit_string_new signature);
  Ok (MkCertificateList tbs (signature_algorithm issuer_cert) signature).

Definition AKID_OID : string := "2.5.29.35".

(** The extension is put where the first one of its kind is, or at the end. *)
Fixpoint replace_akid (akid_ext : Extension) (exts : list Extension) : option (list Extension) :=
  match exts with
  | [] => None
  | e :: exts =>
      if String.eqb (extn_id e) AKID_OID then Some (akid_ext :: exts)
      else cons e <$> replace_akid akid_ext exts
  end.

Definition insert_akid (akid_ext : Extension) (exts : option (list Extension)) :
    option (list Extension) :=
  match exts with
  | Some exts => Some (default (exts ++ [akid_ext]) (replace_akid akid_ext exts))
  | None => Some [akid_ext]
  end.

(** [new_validity]: the validity asked for, a duration from [now]; [random_serial] is the random
    [u16]. *)
Definition re_sign (now random_serial : Z) (self : PkiKeypair) (signer_cert target : X509)
    (new_validity : option Z) : pki X509 :=
  let t := tbs_certificate target in
  our_spki ← PkiKeypair_spki self;
  akid ← PkiKeypair_akid self;
  akid_ext ← gen (akid_to_extension akid (subject t));
  valid ← match new_validity with
    | Some d => gen (validity_from_now now d)
    | None => Ok (validity t)
    end;
  let tbs := {|
    tbs_version := tbs_version t;
    serial_number := random_serial;
    tbs_signature := tbs_signature t;
    issuer := subject (tbs_certificate signer_cert);
    validity := valid;
    subject := subject t;
    subject_public_key_info := subject_public_key_info t;
    extensions := insert_akid akid_ext (extensions t);
  |} in
  der ← gen (tbs_to_der tbs);
  signature ← sign_tbs self der;
  signature ← gen (bit_string_new signature);
  Ok (MkX509 tbs (spki_algorithm our_spki) signature).

(** ** Making a certificate *)

Record CertificateGenerationArgs := MkCertificateGenerationArgs {
  signature_scheme : SignatureScheme;
  profile : Profile;
  serial : Z;
  validity_start : option Z;
  validity_from_start : Z;
  org : bytes;
  common_name : option bytes;
  alternative_names : option (list bytes);
  domain : option bytes;
  crl_dps : option (list bytes);
  signer : option PkiKeypair;
  is_ca : bool;
  is_root : bool;
}.

Definition ID_KP_CLIENT_AUTH : string := "1.3.6.1.5.5.7.3.2".

Definition get_extended_keyusage (is_ca : bool) : Ext :=
  ExtendedKeyUsage (if is_ca then [] else [ID_KP_CLIENT_AUTH]).

(** [s.to_string().try_into()] for an [Ia5String]. *)
Definition uri (s : bytes) : pki GeneralName := UniformResourceIdentifier <$> gen (ia5_try_from s).
Definition dns (s : bytes) : pki GeneralName := DnsName <$> gen (ia5_try_from s).

Definition add (b : Builder) (e : Ext) : pki Builder := gen (add_extension e b).

(** The macro [impl_certgen!]. *)
Definition impl_certgen (sgn : PkiKeypair) (args : CertificateGenerationArgs) (own_spki : Spki)
    (subj : bytes) (valid : Validity) : pki X509 :=
  let add_akid := is_ca args && bool_decide (profile args = ProfileRoot) in
  builder ← gen (builder_new (profile args) (serial args) valid subj own_spki sgn);
  builder ← (if add_akid then (akid ← PkiKeypair_akid sgn; add builder (AuthorityKeyIdentifier akid))
             else Ok builder);
  builder ← add builder (get_extended_keyusage (is_ca args));
  builder ← (if negb (is_ca args) then
      match alternative_names args with
      | Some alt_names =>
          alt_names_list ← try_map uri alt_names;
          add builder (SubjectAltName alt_names_list)
      | None => Ok builder
      end
    else
      dot_org ← uri (ascii_bytes "." ++ org args);
      plain_org ← uri (org args);
      let permitted_subtrees := [dot_org; plain_org] in
      '(builder, permitted_subtrees) ← match domain args with
        | Some domain =>
            d ← dns domain;
            builder ← add builder (SubjectAltName [d]);
            d ← dns domain;
            Ok (builder, permitted_subtrees ++ [d])
        | None => Ok (builder, permitted_subtrees)
        end;
      if negb (is_root args) then add builder (NameConstraints permitted_subtrees) else Ok builder);
  builder ← match crl_dps args with
    | Some dps =>
        crl_distribution_points ← try_map uri dps;
        add builder (CrlDistributionPoints crl_distribution_points)
    | None => Ok builder
    end;
  gen (build sgn builder).

(** [a - b] and [a + b] on durations. *)
Definition duration_sub (a b : Z) : pki Z := if Z.leb b a then Ok (a - b) else Err Panicked.
Definition duration_add (a b : Z) : pki Z :=
  if Z.leb (a + b) DURATION_MAX then Ok (a + b) else Err Panicked.

Definition generate_cert (now : option Z) (self : PkiKeypair) (args : CertificateGenerationArgs) :
    pki X509 :=
  let subject_fmt := ascii_bytes "O=" ++ org args in
  let subject_fmt := match common_name args with
    | Some cn => subject_fmt ++ ascii_bytes ",CN=" ++ cn
    | None => subject_fmt
    end in
  subj ← gen (name_from_str subject_fmt);
  start ← match validity_start args with
    | Some start => Ok start
    | None => gen now
    end;
  start ← duration_sub start NANOS;
  before ← gen (generalized_time start);
  stop ← duration_add start (validity_from_start args);
  after ← gen (generalized_time stop);
  own_spki ← PkiKeypair_spki self;
  impl_certgen (default self (signer args)) args own_spki subj (MkValidity before after).

(** [rand], and [rand_unchecked], whose [unwrap]s panic. *)
Definition PkiKeypair_rand (alg : SignatureScheme) :
    stm RustCrypto (Abort MlsProviderError) PkiKeypair := fun crypto =>
  match RustCrypto_signature_key_gen alg crypto with
  | (Ok (sk, _), crypto) => (PkiKeypair_new alg sk, crypto)
  | (Err (Error _), crypto) => (Err (Error UnsufficientEntropy), crypto)
  | (Err Panicked, crypto) => (Err Panicked, crypto)
  end.

Definition PkiKeypair_rand_unchecked (os_entropy : option bytes) (alg : SignatureScheme) :
    pki PkiKeypair :=
  match RustCrypto_default os_entropy with
  | Ok provider =>
      match (RustCrypto_signature_key_gen alg provider).1 with
      | Ok (sk, _) =>
          match PkiKeypair_new alg sk with Ok kp => Ok kp | Err _ => Err Panicked end
      | Err _ => Err Panicked
      end
  | Err _ => Err Panicked
  end.
End pki.
