(* ===== verification/PkiSpec.v ===== *)
(** * What an issuer of certificates promises

    A certificate that is signed again verifies under the key of the new issuer, names it, and is
    otherwise what it was; a new certificate asks for exactly the extensions of its kind.
    [PkiExample] applies the theorems. *)

From S2P Require Import Prelude KsError OpenMls CryptoProvider CryptoProviderSpec.
From S2P Require Import Pki.
Open Scope Z_scope.

(** ** The laws of the crates

    [builder_input] observes what a builder was made with, [builder_requests] which extensions were
    added to it, and [encodes] which value an encoded extension has. The certificate has the serial
    number, the validity, the subject and the key that the builder was given, and the extensions
    that were added, in their order, between those that the builder has of its own, which depend
    on what it was made with only. *)
Record BuilderInput `{CryptoCrates} := MkBuilderInput {
  bi_profile : Profile;
  bi_serial : Z;
  bi_validity : Validity;
  bi_subject : bytes;
  bi_spki : Spki;
  bi_signer : PkiKeypair;
}.

Class X509Laws `{X509Crates} := {
  der_signature_bytes c s : der_signature_to_der c s = Some (der_to_bytes c s);
  bit_string_bytes b x : bit_string_new b = Some x -> x = b;
  octet_string_bytes b x : octet_string_new b = Some x -> x = b;
  ia5_bytes b x : ia5_try_from b = Some x -> x = b;
  akid_extension_id k s e : akid_to_extension k s = Some e -> extn_id e = AKID_OID;
  builder_input : Builder -> BuilderInput;
  builder_requests : Builder -> list Ext;
  builder_own : BuilderInput -> list Extension * list Extension;
  encodes : Ext -> Extension -> Prop;
  builder_new_input p n v s k sk b : builder_new p n v s k sk = Some b ->
    builder_input b = MkBuilderInput _ p n v s k sk /\ builder_requests b = [];
  add_extension_requests e b b' : add_extension e b = Some b' ->
    builder_input b' = builder_input b /\ builder_requests b' = builder_requests b ++ [e];
  build_tbs sk b c : build sk b = Some c -> builder_requests b <> [] ->
    let t := tbs_certificate c in
    let i := builder_input b in
    serial_number t = bi_serial i /\ validity t = bi_validity i /\ subject t = bi_subject i /\
    subject_public_key_info t = bi_spki i /\
    exists mid, Forall2 encodes (builder_requests b) mid /\
      extensions t = Some ((builder_own i).1 ++ mid ++ (builder_own i).2);
}.

Lemma gen_Ok {A} (o : option A) a : gen o = Ok a -> o = Some a.
Proof. apply or_error_Ok. Qed.

(** Takes a chain of fallible calls that succeeded apart. *)
Ltac chain :=
  repeat match goal with
  | Hx : _ ≫= _ = Ok _ |- _ => apply bind_Ok in Hx as (? & ? & ?)
  | Hx : gen _ = Ok _ |- _ => apply gen_Ok in Hx
  | Hx : or_error _ _ = Ok _ |- _ => apply or_error_Ok in Hx
  | Hx : Ok _ = Ok _ |- _ => injection Hx as <-
  end.

Section spec.
Context `{X509Laws, !CryptoCratesLaws}.

(** ** Signing again *)

(** The scheme of a key pair. *)
Definition scheme_of (kp : PkiKeypair) : SignatureScheme :=
  match kp with
  | PkiP256 _ => ECDSA_SECP256R1_SHA256
  | PkiP384 _ => ECDSA_SECP384R1_SHA384
  | PkiEd25519 _ => ED25519
  end.

Definition verifies (kp : PkiKeypair) (der sig : bytes) : Prop :=
  RustCrypto_verify_signature (scheme_of kp) der (public_key_bytes kp) sig = Ok ().

Lemma ecdsa_verifies c sk der s :
  ec_try_sign c sk der = Some s ->
  ecdsa_verify c der (ec_to_encoded_point c false (ec_verifying_key c sk)) (der_to_bytes c s) = Ok ().
Proof.
  intros Hs. unfold ecdsa_verify. rewrite ec_sec1_encoded. simpl. rewrite der_from_to_bytes. simpl.
  by rewrite (ec_verify_signed _ _ _ _ Hs).
Qed.

Lemma sign_tbs_verifies kp der sig : sign_tbs kp der = Ok sig -> verifies kp der sig.
Proof.
  unfold verifies. destruct kp as [sk|sk|sk]; simpl; intros Hx; chain.
  1,2: match goal with Hd : der_signature_to_der _ _ = _ |- _ =>
    rewrite der_signature_bytes in Hd; injection Hd as <- end; by apply ecdsa_verifies.
  rewrite ed_pk_from_to_bytes. simpl. rewrite ed_sig_from_to_bytes. simpl.
  by erewrite ed_verify_signed.
Qed.

Definition not_akid (e : Extension) : bool := negb (String.eqb (extn_id e) AKID_OID).

(** The extension is put in place of the first of its kind. *)
Lemma replace_akid_spec a exts :
  match replace_akid a exts with
  | Some exts' => exists l1 e l2, exts = l1 ++ e :: l2 /\ extn_id e = AKID_OID /\
      Forall (fun x => extn_id x <> AKID_OID) l1 /\ exts' = l1 ++ a :: l2
  | None => Forall (fun x => extn_id x <> AKID_OID) exts
  end.
Proof.
  induction exts as [|e exts IH]; simpl; [done|].
  destruct (String.eqb_spec (extn_id e) AKID_OID) as [He|He]; [by exists [], e, exts|].
  destruct (replace_akid a exts) as [exts'|]; simpl; [|by constructor].
  destruct IH as (l1 & e' & l2 & -> & He' & Hl & ->). exists (e :: l1), e', l2.
  split_and!; auto.
Qed.

(** C29: A certificate that a key pair signs again verifies under its public key, has the signer's
    subject for its issuer and a new serial number; the identifier of the signer's key takes the
    place of the first extension of this kind, which is gone, or comes after all others if there
    was none; its subject, its key and its other extensions are as before, and so is its validity
    unless another one is asked for. The signature is filed under the algorithm of the signer's
    public key, and the algorithm that the signed part names stays that of the old signature. *)
Theorem re_sign_spec now n kp signer_cert target d c :
  re_sign now n kp signer_cert target d = Ok c ->
  let t := tbs_certificate target in
  let t' := tbs_certificate c in
  (exists der, tbs_to_der t' = Some der /\ verifies kp der (signature c)) /\
  issuer t' = subject (tbs_certificate signer_cert) /\ serial_number t' = n /\
  subject t' = subject t /\ subject_public_key_info t' = subject_public_key_info t /\
  (exists a, akid_to_extension (public_key_identifier kp) (subject t) = Some a /\
     exists l1 l2, Forall (fun e => extn_id e <> AKID_OID) l1 /\ extensions t' = Some (l1 ++ a :: l2) /\
       ((exists old, extensions t = Some (l1 ++ old :: l2) /\ extn_id old = AKID_OID) \/
        default [] (extensions t) = l1 /\ l2 = [])) /\
  match d with
  | None => validity t' = validity t
  | Some d => validity_from_now now d = Some (validity t')
  end /\
  (exists s, PkiKeypair_spki kp = Ok s /\ signature_algorithm c = spki_algorithm s) /\
  tbs_signature t' = tbs_signature t.
Proof.
  intros Hx t t'. subst t t'. unfold re_sign, PkiKeypair_akid in Hx. chain.
  repeat match goal with
  | Hb : bit_string_new _ = Some _ |- _ => apply bit_string_bytes in Hb; subst
  | Hb : octet_string_new _ = Some _ |- _ => apply octet_string_bytes in Hb; subst
  end.
  match goal with Ha : akid_to_extension _ _ = Some ?ext |- _ => rename ext into a, Ha into Hakid end.
  simpl. split_and!; try done;
    [eexists; split; [done|by apply sign_tbs_verifies]| |by destruct d; chain|by eexists].
  exists a. split; [done|].
  destruct (extensions (tbs_certificate target)) as [exts|]; simpl; [|exists [], []; auto].
  pose proof (replace_akid_spec a exts) as Hr. destruct (replace_akid a exts) as [exts'|]; simpl.
  - destruct Hr as (l1 & e & l2 & -> & He & Hl & ->). exists l1, l2. split_and!; [done..|]. left. by exists e.
  - exists exts, []. split_and!; [done..|]. by right.
Qed.

(** ** New certificates *)

Definition uris (l : list bytes) : list GeneralName := UniformResourceIdentifier <$> l.

(** The extensions of a certificate, by its kind. *)
Definition expected_extensions (sgn : PkiKeypair) (args : CertificateGenerationArgs) : list Ext :=
  (if is_ca args && bool_decide (profile args = ProfileRoot)
   then [AuthorityKeyIdentifier (public_key_identifier sgn)] else []) ++
  [ExtendedKeyUsage (if is_ca args then [] else [ID_KP_CLIENT_AUTH])] ++
  (if is_ca args then
     option_list ((fun d => SubjectAltName [DnsName d]) <$> domain args) ++
     (if is_root args then []
      else [NameConstraints (uris [ascii_bytes "." ++ org args; org args] ++
              option_list (DnsName <$> domain args))])
   else option_list ((fun l => SubjectAltName (uris l)) <$> alternative_names args)) ++
  option_list ((fun l => CrlDistributionPoints (uris l)) <$> crl_dps args).

(** The certificate has these extensions, in this order, the builder's own around them, and no
    others. *)
Definition has_extensions (c : X509) (own : list Extension * list Extension) (exts : list Ext) : Prop :=
  exists mid, Forall2 encodes exts mid /\ extensions (tbs_certificate c) = Some (own.1 ++ mid ++ own.2).

Lemma uri_Ok s g : uri s = Ok g -> g = UniformResourceIdentifier s.
Proof.
  unfold uri, gen. destruct (ia5_try_from s) as [x|] eqn:Hx; [|done]. intros [= <-].
  by rewrite (ia5_bytes _ _ Hx).
Qed.

Lemma dns_Ok s g : dns s = Ok g -> g = DnsName s.
Proof.
  unfold dns, gen. destruct (ia5_try_from s) as [x|] eqn:Hx; [|done]. intros [= <-].
  by rewrite (ia5_bytes _ _ Hx).
Qed.

Lemma uris_Ok l gs : try_map uri l = Ok gs -> gs = uris l.
Proof.
  revert gs. induction l as [|s l IH]; simpl; intros gs Hx; [by injection Hx|].
  chain. by repeat match goal with
  | Hu : uri _ = Ok _ |- _ => apply uri_Ok in Hu as ->
  | Hm : try_map _ _ = Ok _ |- _ => apply IH in Hm as ->
  end.
Qed.

(** The builder after more extensions were added to it. *)
Definition grown (b b' : Builder) (es : list Ext) : Prop :=
  builder_input b' = builder_input b /\ builder_requests b' = builder_requests b ++ es.

Lemma grown_refl b : grown b b [].
Proof. split; [done|by rewrite app_nil_r]. Qed.

Lemma grown_trans b1 b2 b3 l1 l2 : grown b1 b2 l1 -> grown b2 b3 l2 -> grown b1 b3 (l1 ++ l2).
Proof. intros [I1 R1] [I2 R2]. split; [congruence|]. by rewrite R2, R1, (assoc_L (++)). Qed.

Lemma add_Ok b e b' : add b e = Ok b' -> grown b b' [e].
Proof. intros Hx%gen_Ok. by apply add_extension_requests. Qed.

(** A step of the macro that adds an extension if there is something to add. *)
Lemma akid_step_Ok (w : bool) sgn b b' :
  (if w then akid ← PkiKeypair_akid sgn; add b (AuthorityKeyIdentifier akid) else Ok b) = Ok b' ->
  grown b b' (if w then [AuthorityKeyIdentifier (public_key_identifier sgn)] else []).
Proof.
  destruct w; intros Hx; unfold PkiKeypair_akid in *; chain; [|apply grown_refl].
  match goal with Ho : octet_string_new _ = _ |- _ => apply octet_string_bytes in Ho; subst end.
  by apply add_Ok.
Qed.

Lemma uris_step_Ok (f : list GeneralName -> Ext) (o : option (list bytes)) b b' :
  match o with Some l => gs ← try_map uri l; add b (f gs) | None => Ok b end = Ok b' ->
  grown b b' (option_list ((fun l => f (uris l)) <$> o)).
Proof.
  destruct o as [l|]; simpl; intros Hx; chain; [|apply grown_refl].
  match goal with Hu : try_map _ _ = _ |- _ => apply uris_Ok in Hu; subst end. by apply add_Ok.
Qed.

(** The names of an authority. *)
Lemma ca_names_step_Ok args b b' :
  (dot_org ← uri (ascii_bytes "." ++ org args);
   plain_org ← uri (org args);
   '(builder, permitted_subtrees) ← match domain args with
     | Some domain =>
         d ← dns domain;
         builder ← add b (SubjectAltName [d]);
         d ← dns domain;
         Ok (builder, [dot_org; plain_org] ++ [d])
     | None => Ok (b, [dot_org; plain_org])
     end;
   if negb (is_root args) then add builder (NameConstraints permitted_subtrees) else Ok builder) =
  Ok b' ->
  grown b b' (option_list ((fun d => SubjectAltName [DnsName d]) <$> domain args) ++
    (if is_root args then []
     else [NameConstraints (uris [ascii_bytes "." ++ org args; org args] ++
             option_list (DnsName <$> domain args))])).
Proof.
  intros Hx. chain. destruct (domain args) as [d|]; chain; simpl in *;
    (destruct (is_root args); simpl in *; chain);
    repeat match goal with
    | Hu : uri _ = Ok _ |- _ => apply uri_Ok in Hu as ->
    | Hu : dns _ = Ok _ |- _ => apply dns_Ok in Hu; subst
    | Hu : add _ _ = Ok _ |- _ => apply add_Ok in Hu
    end; first [done|apply grown_refl|by eapply (grown_trans _ _ _ [_] [_])].
Qed.

Lemma expected_extensions_nonempty sgn args : expected_extensions sgn args <> [].
Proof. unfold expected_extensions. by destruct (_ && _). Qed.

Lemma impl_certgen_Ok sgn args s subj valid c :
  impl_certgen sgn args s subj valid = Ok c ->
  let i := MkBuilderInput _ (profile args) (serial args) valid subj s sgn in
  let t := tbs_certificate c in
  serial_number t = serial args /\ validity t = valid /\ subject t = subj /\
  subject_public_key_info t = s /\ has_extensions c (builder_own i) (expected_extensions sgn args).
Proof.
  unfold impl_certgen. intros Hcert. chain.
  match goal with
  | Hb : build _ ?b = Some _, Hn : builder_new _ _ _ _ _ _ = Some ?b0 |- _ =>
      apply builder_new_input in Hn as [Hin Hnil]; rename Hb into Hbuild;
      cut (grown b0 b (expected_extensions sgn args));
        [intros [Hi Hr]; rewrite Hnil in Hr; pose proof (build_tbs _ _ _ Hbuild) as Ht; cbv zeta in Ht;
           rewrite Hr, Hi, Hin in Ht; exact (Ht (expected_extensions_nonempty _ _))|]
  end.
  match goal with Ha : (if _ && _ then _ else _) = Ok _ |- _ => apply akid_step_Ok in Ha as Hr1 end.
  match goal with Ha : add _ (get_extended_keyusage _) = Ok _ |- _ => apply add_Ok in Ha as Hr2 end.
  match goal with Ha : match crl_dps args with _ => _ end = Ok _ |- _ =>
    apply (uris_step_Ok CrlDistributionPoints) in Ha as Hr4 end.
  unfold expected_extensions, get_extended_keyusage in *.
  eapply grown_trans; [exact Hr1|]. eapply grown_trans; [exact Hr2|]. eapply grown_trans; [|exact Hr4].
  destruct (is_ca args); cbn [negb andb] in *; [by apply ca_names_step_Ok|].
  by apply (uris_step_Ok SubjectAltName).
Qed.

(** The text of the subject of a new certificate. *)
Definition subject_text (args : CertificateGenerationArgs) : bytes :=
  ascii_bytes "O=" ++ org args ++ default [] ((fun cn => ascii_bytes ",CN=" ++ cn) <$> common_name args).

(** C30: A certificate that is generated has the serial number asked for, the organization and the
    common name in its subject, and the key of the pair. It is valid from a second before the time
    asked for, or before now, for the time asked for, and nothing is generated before the first
    second. It has exactly the extensions of its kind between those the builder adds itself: one of
    a client its alternative names and the usage as a client, one of an authority a usage without
    purposes, its domain and, unless it is a root, the constraint of names to the organization, what
    is under it and the domain; the identifier of the issuer's key only in a root; and its
    distribution points. *)
Theorem generate_cert_spec now kp args c :
  generate_cert now kp args = Ok c ->
  let sgn := default kp (signer args) in
  let t := tbs_certificate c in
  exists start before after subj k,
    (validity_start args = Some start \/ validity_start args = None /\ now = Some start) /\
    NANOS <= start /\ start - NANOS + validity_from_start args <= DURATION_MAX /\
    generalized_time (start - NANOS) = Some before /\
    generalized_time (start - NANOS + validity_from_start args) = Some after /\
    name_from_str (subject_text args) = Some subj /\ PkiKeypair_spki kp = Ok k /\
    serial_number t = serial args /\ validity t = MkValidity before after /\ subject t = subj /\
    subject_public_key_info t = k /\
    has_extensions c
      (builder_own (MkBuilderInput _ (profile args) (serial args) (MkValidity before after) subj k sgn))
      (expected_extensions sgn args).
Proof.
  unfold generate_cert. intros Hx. chain.
  match goal with
  | Hi : impl_certgen _ _ ?k ?s (MkValidity ?b ?a) = _,
    Ht : match validity_start args with _ => _ end = Ok ?t |- _ =>
    rename Hi into Hcert, Ht into Htime; exists t, b, a, s, k
  end.
  unfold duration_sub, duration_add in *.
  match goal with H0 : (if Z.leb NANOS ?t then _ else _) = _ |- _ =>
    destruct (Z.leb_spec NANOS t); [|done] end. simplify_eq.
  match goal with H0 : (if Z.leb ?e DURATION_MAX then _ else _) = _ |- _ =>
    destruct (Z.leb_spec e DURATION_MAX); [|done] end. simplify_eq.
  apply impl_certgen_Ok in Hcert as (? & ? & ? & ? & ?).
  split_and!; try done.
  - destruct (validity_start args); chain; [left; congruence|by right].
  - unfold subject_text. destruct (common_name args); simpl; by rewrite ?app_nil_r, ?(assoc_L (++)).
Qed.
End spec.
