(* ===== verification/PkiExample.v ===== *)
(** * An issuer over toy crates

    The crates of [CryptoProviderExample] with a toy X.509: an encoding is the concatenation of the
    parts. A root issues the certificate of a client, and a second issuer signs it again. *)

From S2P Require Import Prelude KsError OpenMls CryptoProvider CryptoProviderSpec.
From S2P Require Import CryptoProviderExample Pki PkiSpec.
Open Scope Z_scope.

Definition toy_names (l : list GeneralName) : bytes :=
  concat ((fun n => match n with UniformResourceIdentifier s => s | DnsName s => s end) <$> l).

Definition toy_extension (e : Ext) : Extension :=
  match e with
  | AuthorityKeyIdentifier k => MkExtension AKID_OID false k
  | ExtendedKeyUsage us => MkExtension "2.5.29.37" false (concat (ascii_bytes <$> us))
  | SubjectAltName ns => MkExtension "2.5.29.17" false (toy_names ns)
  | NameConstraints ns => MkExtension "2.5.29.30" true (toy_names ns)
  | CrlDistributionPoints ns => MkExtension "2.5.29.31" false (toy_names ns)
  end.

Definition toy_der (t : TbsCertificate) : bytes :=
  byte_of (serial_number t) :: issuer t ++ subject t ++
  subject_public_key (subject_public_key_info t) ++
  concat (extn_value <$> default [] (extensions t)).

Definition toy_sign (kp : PkiKeypair) (m : bytes) : bytes :=
  match kp with
  | PkiP256 sk => (sk : Byte.byte) :: m
  | PkiP384 sk => (sk : Byte.byte) :: m
  | PkiEd25519 sk => (ed_keypair sk : Byte.byte) :: m
  end.

(** The builder of an authority says that it is one. *)
Definition toy_own (i : BuilderInput) : list Extension :=
  if bool_decide (bi_profile i = ProfileLeaf) then [] else [MkExtension "2.5.29.19" true []].

(** A builder: what it was made with, and the extensions so far. *)
#[export] Instance toy_x509 : X509Crates := {|
  sha1 b := take 20 b;
  spki_from_ec c pk := Some (MkSpki (ascii_bytes "id-ecPublicKey") (ec_to_encoded_point c false pk));
  spki_from_ed pk := Some (MkSpki (ascii_bytes "Ed25519") (ed_pk_to_bytes pk));
  octet_string_new := Some;
  bit_string_new := Some;
  der_signature_to_der c s := Some (der_to_bytes c s);
  akid_to_extension k _ := Some (MkExtension AKID_OID false k);
  tbs_to_der t := Some (toy_der t);
  tbs_cert_list_to_der t := Some (crl_issuer t);
  generalized_time t := Some [byte_of (t / NANOS)];
  validity_from_now now d := Some (MkValidity [byte_of (now / NANOS)] [byte_of ((now + d) / NANOS)]);
  ia5_try_from s := if forallb (fun b => Z.ltb (byte_val b) 128) s then Some s else None;
  name_from_str := Some;
  Builder := (BuilderInput * list Ext)%type;
  builder_new p n v s k sk := Some (MkBuilderInput _ p n v s k sk, []);
  add_extension e b := Some (b.1, b.2 ++ [e]);
  build sk b :=
    let i := b.1 in
    let t := MkTbs 2 (bi_serial i) [] (bi_subject i) (bi_validity i) (bi_subject i) (bi_spki i)
               (Some ((toy_extension <$> b.2) ++ toy_own i)) in
    Some (MkX509 t [] (toy_sign sk (toy_der t)));
|}.

#[export] Instance toy_x509_laws : X509Laws.
Proof.
  unshelve econstructor;
    [exact fst|exact snd|exact (fun i => ([], toy_own i))|exact (fun e x => x = toy_extension e)|..];
    simpl; try done; try by intros; simplify_eq.
  - intros b x. destruct (forallb _ b); congruence.
  - intros sk [t exts] c [= <-] _. simpl. split_and!; [done..|]. exists (toy_extension <$> exts).
    split; [|done]. induction exts; simpl; by constructor.
Defined.

Definition root_key : PkiKeypair := PkiP256 (Byte.x11 : EcSigningKey P256).
Definition other_key : PkiKeypair := PkiEd25519 (MkEd25519PkiKeypair (Byte.x22 : EdSigningKey)).
Definition client_key : PkiKeypair := PkiEd25519 (MkEd25519PkiKeypair (Byte.x33 : EdSigningKey)).

Definition root_args : CertificateGenerationArgs := {|
  signature_scheme := ECDSA_SECP256R1_SHA256; profile := ProfileRoot; serial := 1;
  validity_start := Some (10 * NANOS); validity_from_start := 100 * NANOS;
  org := ascii_bytes "wire"; common_name := None; alternative_names := None;
  domain := Some (ascii_bytes "wire.com"); crl_dps := None; signer := None;
  is_ca := true; is_root := true;
|}.

Definition client_args : CertificateGenerationArgs := {|
  signature_scheme := ED25519; profile := ProfileLeaf; serial := 2;
  validity_start := None; validity_from_start := 50 * NANOS;
  org := ascii_bytes "wire"; common_name := Some (ascii_bytes "alice");
  alternative_names := Some [ascii_bytes "wireapp://alice"];
  domain := None; crl_dps := Some [ascii_bytes "https://crl"]; signer := Some root_key;
  is_ca := false; is_root := false;
|}.

Definition issued (now : option Z) (kp : PkiKeypair) (args : CertificateGenerationArgs) : X509 :=
  match generate_cert now kp args with
  | Ok c => c
  | Err _ => MkX509 (MkTbs 0 0 [] [] (MkValidity [] []) [] (MkSpki [] []) None) [] []
  end.

Definition root_cert : X509 := Eval vm_compute in issued None root_key root_args.
Definition client_cert : X509 := Eval vm_compute in issued (Some (20 * NANOS)) client_key client_args.

(** The authority's certificate has a usage without purposes. *)
Example root_extensions :
  expected_extensions root_key root_args =
  [AuthorityKeyIdentifier (public_key_identifier root_key); ExtendedKeyUsage [];
   SubjectAltName [DnsName (ascii_bytes "wire.com")]].
Proof. reflexivity. Qed.

Lemma generate_cert_spec_witness :
  validity (tbs_certificate client_cert) = MkValidity [byte_of 19] [byte_of 69] /\
  has_extensions client_cert ([], [])
    [ExtendedKeyUsage [ID_KP_CLIENT_AUTH];
     SubjectAltName [UniformResourceIdentifier (ascii_bytes "wireapp://alice")];
     CrlDistributionPoints [UniformResourceIdentifier (ascii_bytes "https://crl")]].
Proof.
  assert (generate_cert (Some (20 * NANOS)) client_key client_args = Ok client_cert) as Hx
    by reflexivity.
  destruct (generate_cert_spec _ _ _ _ Hx) as (start & before & after & subj & k & Hstart & _ & _ & Hb & Ha &
    _ & _ & _ & Hv & _ & _ & He).
  destruct Hstart as [Hs|[_ Hs]]; [discriminate Hs|]. injection Hs as <-.
  vm_compute in Hb, Ha. injection Hb as <-. injection Ha as <-. split; [exact Hv|exact He].
Defined.

(** The second issuer signs the root's certificate again. *)
Definition cross_signed : X509 := Eval vm_compute in
  match re_sign (20 * NANOS) 7 other_key client_cert root_cert None with
  | Ok c => c
  | Err _ => root_cert
  end.

Lemma re_sign_spec_witness :
  (exists der, tbs_to_der (tbs_certificate cross_signed) = Some der /\
     verifies other_key der (signature cross_signed)) /\
  issuer (tbs_certificate cross_signed) = subject (tbs_certificate client_cert).
Proof.
  assert (re_sign (20 * NANOS) 7 other_key client_cert root_cert None = Ok cross_signed) as Hx
    by reflexivity.
  destruct (re_sign_spec _ _ _ _ _ _ _ Hx) as (Hv & Hi & _). by split.
Defined.
