(* ===== verification/Config.v ===== *)
(** * Configurations

    [crypto/src/mls/conversation/config.rs], the ciphersuites of [crypto/src/mls/ciphersuite.rs],
    [MlsCentralConfiguration] of [crypto/src/mls/mod.rs] and the entropy seed of
    [mls-provider/src/lib.rs]. *)

From S2P Require Import Prelude KsError Sql SqlSpec Entity Keystore CcError Backend OpenMls.
Open Scope Z_scope.

(** ** Conversations *)

Definition MAX_PAST_EPOCHS : Z := 3.
Definition OUT_OF_ORDER_TOLERANCE : Z := 2.
Definition MAXIMUM_FORWARD_DISTANCE : Z := 1000.
Definition WIRE_SERVER_IDENTITY : bytes := ascii_bytes "wire-server".
Definition PADDING_SIZE : Z := 128.
Definition DEFAULT_PROTOCOL_VERSION : Z := 1.       (* [ProtocolVersion::Mls10] *)
Definition NUMBER_RESUMPTION_PSK : Z := 1.

Definition DEFAULT_SUPPORTED_CREDENTIALS : list CredentialType := [CTBasic; CTX509].

Definition DEFAULT_SUPPORTED_CIPHERSUITES : list Ciphersuite := [
  MLS_128_DHKEMX25519_AES128GCM_SHA256_Ed25519;
  MLS_128_DHKEMP256_AES128GCM_SHA256_P256;
  MLS_128_DHKEMX25519_CHACHA20POLY1305_SHA256_Ed25519;
  MLS_256_DHKEMP384_AES256GCM_SHA384_P384;
  MLS_128_X25519KYBER768DRAFT00_AES128GCM_SHA256_Ed25519].

Definition MlsCiphersuite_default : Ciphersuite := MLS_128_DHKEMX25519_AES128GCM_SHA256_Ed25519.

Inductive MlsWirePolicy : Set := Plaintext | Ciphertext.

Record MlsCustomConfiguration := MkCustomConfiguration {
  key_rotation_span : option Z;
  wire_policy : MlsWirePolicy;
  out_of_order_tolerance : Z;
  maximum_forward_distance : Z;
}.

Definition MlsCustomConfiguration_default : MlsCustomConfiguration := {|
  wire_policy := Plaintext;
  key_rotation_span := None;
  out_of_order_tolerance := OUT_OF_ORDER_TOLERANCE;
  maximum_forward_distance := MAXIMUM_FORWARD_DISTANCE;
|}.

(** [From<MlsWirePolicy> for WireFormatPolicy] *)
Definition WireFormatPolicy_from (p : MlsWirePolicy) : bool :=
  match p with Ciphertext => true | Plaintext => false end.

Section config.
Context `{SqlEngine, Provider, OpenMlsTypes}.

Record MlsConversationConfiguration := MkConversationConfiguration {
  ciphersuite : Ciphersuite;
  external_senders : list (bytes * Credential);
  custom : MlsCustomConfiguration;
}.

Definition MlsConversationConfiguration_default : MlsConversationConfiguration :=
  MkConversationConfiguration MlsCiphersuite_default [] MlsCustomConfiguration_default.

Definition default_leaf_capabilities : Capabilities := {|
  cap_versions := [DEFAULT_PROTOCOL_VERSION];
  cap_ciphersuites := DEFAULT_SUPPORTED_CIPHERSUITES;
  cap_extensions := [];
  cap_proposals := [];
  cap_credentials := DEFAULT_SUPPORTED_CREDENTIALS;
|}.

Definition default_required_capabilities : list CredentialType := DEFAULT_SUPPORTED_CREDENTIALS.

Definition as_openmls_default_configuration (self : MlsConversationConfiguration) :
    CryptoResult GroupConfig :=
  Ok {|
    gc_pure_ciphertext := WireFormatPolicy_from (wire_policy (custom self));
    gc_max_past_epochs := MAX_PAST_EPOCHS;
    gc_padding_size := PADDING_SIZE;
    gc_number_of_resumption_psks := NUMBER_RESUMPTION_PSK;
    gc_leaf_capabilities := default_leaf_capabilities;
    gc_required_credentials := default_required_capabilities;
    gc_out_of_order_tolerance := out_of_order_tolerance (custom self);
    gc_maximum_forward_distance := maximum_forward_distance (custom self);
    gc_use_ratchet_tree_extension := true;
    gc_external_senders := external_senders self;
    gc_version := DEFAULT_PROTOCOL_VERSION;
    gc_ciphersuite := ciphersuite self;
  |}.

Context `{!OpenMls}.

Definition set_raw_external_senders (keys : list bytes) (self : MlsConversationConfiguration) :
    MlsConversationConfiguration :=
  MkConversationConfiguration (ciphersuite self)
    ((fun key => (key, new_basic WIRE_SERVER_IDENTITY)) <$> keys) (custom self).
End config.

(** ** The client *)

(** [EntropySeed] *)
Definition EXPECTED_LEN : nat := 32.

Definition EntropySeed_try_from_slice (data : bytes) : CryptoResult bytes :=
  if Nat.ltb (length data) EXPECTED_LEN then Err (MlsProviderError "EntropySeedLengthError")
  else Ok (take EXPECTED_LEN data).

(** [&seed[..n]]: out of range panics. *)
Definition slice_to {S} (n : nat) (s : bytes) : cc S bytes := fun st =>
  if Nat.leb n (length s) then (Ok (take n s), st) else (Err Panic, st).

(** [char::is_whitespace] of a code point; a [String] is the list of its code points here. *)
Definition is_whitespace (c : Z) : bool :=
  (Z.leb 9 c && Z.leb c 13) || Z.eqb c 32 || Z.eqb c 133 || Z.eqb c 160 || Z.eqb c 5760
  || (Z.leb 8192 c && Z.leb c 8202) || Z.eqb c 8232 || Z.eqb c 8233 || Z.eqb c 8239
  || Z.eqb c 8287 || Z.eqb c 12288.

Fixpoint trim_start (s : list Z) : list Z :=
  match s with
  | c :: s' => if is_whitespace c then trim_start s' else s
  | [] => []
  end.

(** [str::trim] *)
Definition trim (s : list Z) : list Z := reverse (trim_start (reverse (trim_start s))).

Record MlsCentralConfiguration := MkCentralConfiguration {
  store_path : list Z;
  identity_key : list Z;
  cfg_client_id : option bytes;
  ciphersuites : list Ciphersuite;
  external_entropy : option bytes;
  nb_init_key_packages : option Z;
}.

Definition MlsCentralConfiguration_try_new {S} (store_path identity_key : list Z)
    (client_id : option bytes) (ciphersuites : list Ciphersuite) (entropy : option bytes)
    (nb_init_key_packages : option Z) : cc S MlsCentralConfiguration :=
  if bool_decide (trim store_path = []) then throw (MalformedIdentifier "store_path")
  else if bool_decide (trim identity_key = []) then throw (MalformedIdentifier "identity_key")
  else if bool_decide (client_id = Some []) then throw (MalformedIdentifier "client_id")
  else
    external_entropy ← (match entropy with
      | None => mret None
      | Some seed =>
          seed ← slice_to EXPECTED_LEN seed;
          seed ← lift_res (EntropySeed_try_from_slice seed);
          mret (Some seed)
      end);
    mret (MkCentralConfiguration store_path identity_key client_id ciphersuites external_entropy
            nb_init_key_packages).

(** ** Lemmas *)

Lemma trim_start_blank s : trim_start s = [] <-> forallb is_whitespace s = true.
Proof.
  induction s as [|c s IH]; simpl; [done|]. destruct (is_whitespace c); [done|]. by split.
Qed.

Lemma trim_start_head s : match trim_start s with c :: _ => is_whitespace c = false | [] => True end.
Proof. induction s as [|c s IH]; simpl; [done|]. by destruct (is_whitespace c) eqn:Hc. Qed.

(** Trimming leaves nothing exactly when every character is white space. *)
Lemma trim_blank s : trim s = [] <-> forallb is_whitespace s = true.
Proof.
  assert (forall l : list Z, reverse l = [] <-> l = []) as Hrev.
  { intros l. split; [|by intros ->]. intros Hl. by rewrite <-(reverse_involutive l), Hl. }
  unfold trim. rewrite Hrev, trim_start_blank. split.
  - intros Hr. apply trim_start_blank. pose proof (trim_start_head s) as Hh.
    destruct (trim_start s) as [|c l]; [done|].
    rewrite forallb_forall in Hr. rewrite Hr in Hh; [done|].
    apply list_elem_of_In, elem_of_reverse, list_elem_of_here.
  - by intros ->%trim_start_blank.
Qed.

(** A configuration is refused for a blank path, a blank key and an empty client id, in this
    order; with a seed of at least 32 bytes the configuration carries its first 32, and with a
    shorter one the call panics: the length error of [EntropySeed::try_from_slice] is never
    reached. *)
Lemma MlsCentralConfiguration_try_new_spec {S} path key id cs entropy nb (s : S) :
  MlsCentralConfiguration_try_new path key id cs entropy nb s =
  (if forallb is_whitespace path then Err (Throw (MalformedIdentifier "store_path"))
   else if forallb is_whitespace key then Err (Throw (MalformedIdentifier "identity_key"))
   else match id, entropy with
   | Some [], _ => Err (Throw (MalformedIdentifier "client_id"))
   | _, None => Ok (MkCentralConfiguration path key id cs None nb)
   | _, Some seed =>
       if Nat.leb 32 (length seed)
       then Ok (MkCentralConfiguration path key id cs (Some (take 32 seed)) nb)
       else Err Panic
   end, s).
Proof.
  assert (forall l, bool_decide (trim l = []) = forallb is_whitespace l) as Ht.
  { intros l. apply eq_true_iff_eq. rewrite bool_decide_eq_true. apply trim_blank. }
  unfold MlsCentralConfiguration_try_new. rewrite !Ht.
  destruct (forallb is_whitespace path); [done|]. destruct (forallb is_whitespace key); [done|].
  assert (forall (seed : bytes) (i : option bytes), (external_entropy ←
      (seed ← slice_to EXPECTED_LEN seed; seed ← lift_res (EntropySeed_try_from_slice seed);
       mret (Some seed));
      (mret (MkCentralConfiguration path key i cs external_entropy nb) : cc S _)) s =
    (if Nat.leb 32 (length seed)
     then Ok (MkCentralConfiguration path key i cs (Some (take 32 seed)) nb) else Err Panic, s))
    as Hseed.
  { intros seed i. unfold mbind, stm_bind, slice_to, EXPECTED_LEN.
    destruct (Nat.leb_spec 32 (length seed)) as [Hl|]; [|done].
    unfold EntropySeed_try_from_slice, EXPECTED_LEN. rewrite length_take, Nat.min_l by done.
    simpl. unfold lift_res. simpl. by rewrite take_take. }
  destruct id as [[|b id]|]; [done| |]; (case_bool_decide; [done|]);
    (destruct entropy as [seed|]; [apply Hseed|done]).
Qed.
