(* ===== verification/CommitDelay.v ===== *)
(** * The delay before committing

    [crypto/src/mls/conversation/commit_delay.rs]: members that see a proposal wait for a time
    that depends on their place in the tree before they commit it, so that they do not all commit
    at once. *)

From S2P Require Import Prelude KsError Sql SqlSpec Entity Keystore CcError Backend OpenMls.
Open Scope Z_scope.

Definition DELAY_RAMP_UP_SUB : Z := 106.
Definition DELAY_POS_LINEAR_INCR : Z := 15.
Definition DELAY_POS_LINEAR_RANGE (p : Z) : bool := Z.leb 1 p && Z.leb p 3.

(** ** [f32]

    A finite [f32] that is not negative is a multiple of [2^-149]: it is the integer that counts
    them. Arithmetic is that of IEEE 754, to nearest with ties to even, with 24 significant bits.
    What is too big for an [f32] stays a number here; [as u64] saturates in both cases. *)

Definition F32_ONE : Z := 2 ^ 149.

(** [n / 2^k] to the nearest integer, ties to even. *)
Definition round_half_even (n k : Z) : Z :=
  let q := n / 2 ^ k in
  let r := n mod 2 ^ k in
  match Z.compare (2 * r) (2 ^ k) with
  | Lt => q
  | Eq => q + q mod 2
  | Gt => q + 1
  end.

(** [n / 2^s] multiples of [2^-149] as an [f32]. *)
Definition f32_round (n s : Z) : Z :=
  let k := Z.max s (Z.log2 n - 23) in
  round_half_even n k * 2 ^ (k - s).

(** [as f32], [*] and [as u64] *)
Definition f32_of_u64 (n : Z) : Z := f32_round (n * F32_ONE) 0.
Definition f32_mul (x y : Z) : Z := f32_round (x * y) 149.
Definition f32_to_u64 (x : Z) : Z := Z.min (x / F32_ONE) u64_max.

(** [f32::ln], whose precision is left open by its documentation. What is relied on is that it
    does not decrease from 1 on and that it is at least 1.25 at 4, where the logarithm is 1.386. *)
Class F32Ln := {
  f32_ln : Z -> Z;
  f32_ln_mono x y : F32_ONE <= x <= y -> f32_ln x <= f32_ln y;
  f32_ln_4 : 5 * F32_ONE <= 4 * f32_ln (4 * F32_ONE);
}.

(** [DELAY_RAMP_UP_MULTIPLIER], [120.0] *)
Definition DELAY_RAMP_UP_MULTIPLIER : Z := 120 * F32_ONE.

Section delay.
Context `{F32Ln}.

(** [+] on [u64], as a release build has it; a debug build panics where it wraps around. *)
Definition u64_add (a b : Z) : Z := (a + b) mod 2 ^ 64.

(** The [position] of [calculate_delay]: from 1 on. *)
Definition delay_position (self_index epoch nb_members : Z) : Z :=
  if Z.ltb 0 nb_members
  then Z.modulo (u64_add (Z.modulo epoch nb_members) (Z.modulo self_index nb_members)) nb_members + 1
  else 1.

(** [((position as f32).ln() * DELAY_RAMP_UP_MULTIPLIER) as u64] *)
Definition ramp_up (position : Z) : Z :=
  f32_to_u64 (f32_mul (f32_ln (f32_of_u64 position)) DELAY_RAMP_UP_MULTIPLIER).

Definition calculate_delay (self_index epoch nb_members : Z) : Z :=
  let position := delay_position self_index epoch nb_members in
  if DELAY_POS_LINEAR_RANGE position then saturating_sub position 1 * DELAY_POS_LINEAR_INCR
  else saturating_sub (ramp_up position) DELAY_RAMP_UP_SUB.

Section group.
Context `{SqlEngine, Provider, OpenMlsTypes} `{!OpenMls}.

Definition removed_indexes (proposals : list QueuedProposal) : list Z :=
  omap (fun p => match qp_proposal p with PRemove i => Some i | _ => None end) proposals.

(** The index and the number of members that [calculate_delay] is given. *)
Definition post_commit_place (own_index : Z) (removed : list Z) (ms : list Member) : Z * Z :=
  let left_tree_diff := Z.of_nat (length (List.filter (fun kp => bool_decide (member_index kp ∈ removed))
                                   (take (Z.to_nat own_index) ms))) in
  let nb_members := saturating_sub (Z.of_nat (length ms)) (Z.of_nat (length removed)) in
  (saturating_sub own_index left_tree_diff, nb_members).

Definition compute_next_commit_delay (g : MlsGroup) : option Z :=
  match pending_proposals g with
  | [] => None
  | proposals =>
      let removed := removed_indexes proposals in
      let self_index := own_leaf_index g in
      let is_self_removed := existsb (fun i => Z.eqb i self_index) removed in
      if is_self_removed then None
      else
        let '(own_index, nb_members) := post_commit_place self_index removed (members g) in
        Some (calculate_delay own_index (epoch g) nb_members)
  end.
End group.

(** ** Lemmas on [f32] *)

Lemma round_half_even_range n k :
  0 <= k -> n / 2 ^ k <= round_half_even n k <= n / 2 ^ k + 1.
Proof.
  intros Hk. unfold round_half_even. pose proof (Z.mod_pos_bound (n / 2 ^ k) 2 ltac:(lia)).
  destruct (Z.compare _ _); lia.
Qed.

Lemma round_half_even_mono n m k :
  0 <= k -> n <= m -> round_half_even n k <= round_half_even m k.
Proof.
  intros Hk Hnm. assert (0 < 2 ^ k) as Hp by (by apply Z.pow_pos_nonneg).
  pose proof (round_half_even_range n k Hk). pose proof (round_half_even_range m k Hk).
  pose proof (Z.div_le_mono n m (2 ^ k) Hp Hnm).
  destruct (Z.eq_dec (n / 2 ^ k) (m / 2 ^ k)) as [He|]; [|lia].
  pose proof (Z.div_mod n (2 ^ k) ltac:(lia)). pose proof (Z.div_mod m (2 ^ k) ltac:(lia)).
  assert (n mod 2 ^ k <= m mod 2 ^ k) as Hr by (rewrite He in *; lia).
  unfold round_half_even in *. rewrite He in *.
  destruct (Z.compare_spec (2 * (n mod 2 ^ k)) (2 ^ k)), (Z.compare_spec (2 * (m mod 2 ^ k)) (2 ^ k)); lia.
Qed.

(** A number with [log2] at most [23 + k] becomes a multiple of at most 24 bits. *)
Lemma round_half_even_bits n k : 0 <= n -> 0 <= k -> Z.log2 n - 23 <= k -> round_half_even n k <= 2 ^ 24.
Proof.
  intros Hn Hk Hl. pose proof (round_half_even_range n k Hk) as Hr.
  assert (n / 2 ^ k < 2 ^ 24); [|lia]. apply Z.div_lt_upper_bound; [by apply Z.pow_pos_nonneg|].
  rewrite <-Z.pow_add_r by lia. apply Z.log2_lt_cancel. rewrite Z.log2_pow2; lia.
Qed.

Lemma f32_round_mono n m s : 0 <= s -> 0 <= n <= m -> f32_round n s <= f32_round m s.
Proof.
  intros Hs [Hn Hnm]. unfold f32_round. pose proof (Z.log2_le_mono n m Hnm) as Hl.
  set (k := Z.max s (Z.log2 n - 23)). set (k' := Z.max s (Z.log2 m - 23)).
  destruct (Z.eq_dec k k') as [->|Hne].
  { apply Z.mul_le_mono_nonneg_r; [apply Z.pow_nonneg; lia|]. apply round_half_even_mono; lia. }
  assert (round_half_even n k <= 2 ^ 24) by (apply round_half_even_bits; lia).
  assert (2 ^ 23 <= round_half_even m k').
  { etrans; [|apply round_half_even_range; lia].
    apply Z.div_le_lower_bound; [apply Z.pow_pos_nonneg; lia|].
    rewrite <-Z.pow_add_r by lia. replace (k' + 23) with (Z.log2 m) by lia. apply Z.log2_spec.
    destruct (Z.eq_dec m 0) as [->|]; [change (Z.log2 0) with 0 in *|]; lia. }
  transitivity (2 ^ 24 * 2 ^ (k - s)).
  { apply Z.mul_le_mono_nonneg_r; [apply Z.pow_nonneg; lia|done]. }
  transitivity (2 ^ 23 * 2 ^ (k' - s)); [|apply Z.mul_le_mono_nonneg_r; [apply Z.pow_nonneg; lia|done]].
  rewrite <-!Z.pow_add_r by lia. apply Z.pow_le_mono_r; lia.
Qed.

Lemma F32_ONE_pos : 0 < F32_ONE.
Proof. done. Qed.

Lemma f32_of_u64_mono p q : 0 <= p <= q -> f32_of_u64 p <= f32_of_u64 q.
Proof. intros [Hp Hpq]. pose proof F32_ONE_pos. apply f32_round_mono; [done|]. split; nia. Qed.

Lemma f32_mul_mono x y z : 0 <= z -> 0 <= x <= y -> f32_mul x z <= f32_mul y z.
Proof. intros Hz Hx. apply f32_round_mono; [done|]. split; nia. Qed.

Lemma f32_to_u64_mono x y : x <= y -> f32_to_u64 x <= f32_to_u64 y.
Proof.
  intros Hxy. unfold f32_to_u64. pose proof (Z.div_le_mono x y _ F32_ONE_pos Hxy). lia.
Qed.

Lemma f32_of_u64_4 p : 4 <= p -> 4 * F32_ONE <= f32_of_u64 p.
Proof.
  intros Hp. etrans; [|by apply (f32_of_u64_mono 4 p); lia].
  by apply Z.leb_le; vm_compute.
Qed.

Lemma f32_ln_pos p : 4 <= p -> F32_ONE <= f32_ln (f32_of_u64 p).
Proof.
  intros Hp. pose proof F32_ONE_pos. pose proof f32_ln_4. pose proof (f32_of_u64_4 p Hp).
  pose proof (f32_ln_mono (4 * F32_ONE) (f32_of_u64 p) ltac:(lia)). lia.
Qed.

Lemma ramp_up_mono p q : 4 <= p <= q -> ramp_up p <= ramp_up q.
Proof.
  intros [Hp Hpq]. pose proof F32_ONE_pos. pose proof (f32_ln_pos p Hp). pose proof (f32_of_u64_4 p Hp).
  apply f32_to_u64_mono, f32_mul_mono; [done|]. split; [lia|].
  apply f32_ln_mono. split; [lia|]. apply f32_of_u64_mono. lia.
Qed.

(** 120 times 1.25. *)
Lemma ramp_up_4 p : 4 <= p -> 150 <= ramp_up p.
Proof.
  intros Hp. pose proof F32_ONE_pos. pose proof f32_ln_4. pose proof (f32_of_u64_4 p Hp).
  pose proof (f32_ln_mono (4 * F32_ONE) (f32_of_u64 p) ltac:(lia)).
  assert (150 = f32_to_u64 (f32_mul (5 * 2 ^ 147) DELAY_RAMP_UP_MULTIPLIER)) as -> by (by vm_compute).
  apply f32_to_u64_mono, f32_mul_mono; [done|]. split; [done|].
  assert (4 * (5 * 2 ^ 147) = 5 * F32_ONE) by (by vm_compute). lia.
Qed.

(** ** Lemmas on the positions *)

Lemma delay_position_range i e n : 0 < n -> 1 <= delay_position i e n <= n.
Proof.
  intros Hn. unfold delay_position. destruct (Z.ltb_spec 0 n); [|lia].
  pose proof (Z.mod_pos_bound (u64_add (e mod n) (i mod n)) n Hn). lia.
Qed.

(** Below [2^63] members the sum does not wrap around. *)
Lemma u64_add_mods i e n : 0 < n <= 2 ^ 63 -> u64_add (e mod n) (i mod n) = e mod n + i mod n.
Proof.
  intros Hn. unfold u64_add. pose proof (Z.mod_pos_bound e n ltac:(lia)).
  pose proof (Z.mod_pos_bound i n ltac:(lia)). apply Z.mod_small. lia.
Qed.

(** Different members have different positions, and every position is somebody's. *)
Lemma delay_position_inj i j e n :
  n <= 2 ^ 63 -> 0 <= i < n -> 0 <= j < n -> delay_position i e n = delay_position j e n -> i = j.
Proof.
  intros Hn Hi Hj. unfold delay_position. destruct (Z.ltb_spec 0 n); [|lia].
  rewrite !u64_add_mods by lia. rewrite (Z.mod_small i), (Z.mod_small j) by lia. intros He.
  pose proof (Z.mod_pos_bound e n ltac:(lia)) as Hm. set (m := e mod n) in *. clearbody m.
  destruct (Z_lt_dec (m + i) n), (Z_lt_dec (m + j) n).
  - rewrite !Z.mod_small in He by lia. lia.
  - rewrite (Z.mod_small (m + i)) in He by lia.
    replace (m + j) with (m + j - n + 1 * n) in He by lia.
    rewrite Z.mod_add, Z.mod_small in He by lia. lia.
  - rewrite (Z.mod_small (m + j)) in He by lia.
    replace (m + i) with (m + i - n + 1 * n) in He by lia.
    rewrite Z.mod_add, Z.mod_small in He by lia. lia.
  - replace (m + i) with (m + i - n + 1 * n) in He by lia.
    replace (m + j) with (m + j - n + 1 * n) in He by lia.
    rewrite !Z.mod_add, !Z.mod_small in He by lia. lia.
Qed.

Definition delay_of_position (p : Z) : Z :=
  if DELAY_POS_LINEAR_RANGE p then saturating_sub p 1 * DELAY_POS_LINEAR_INCR
  else saturating_sub (ramp_up p) DELAY_RAMP_UP_SUB.

Lemma delay_of_position_linear p : 1 <= p <= 3 -> delay_of_position p = (p - 1) * 15.
Proof.
  intros Hp. unfold delay_of_position, DELAY_POS_LINEAR_RANGE, saturating_sub, DELAY_POS_LINEAR_INCR.
  destruct (Z.leb_spec 1 p); [|lia]. destruct (Z.leb_spec p 3); [|lia]. simpl.
  by destruct (Z.leb_spec 1 p); [|lia].
Qed.

Lemma delay_of_position_ramp p : 3 < p ->
  delay_of_position p = ramp_up p - 106 /\ 30 < delay_of_position p.
Proof.
  intros Hp. pose proof (ramp_up_4 p ltac:(lia)).
  unfold delay_of_position, DELAY_POS_LINEAR_RANGE, saturating_sub, DELAY_RAMP_UP_SUB.
  destruct (Z.leb_spec 1 p); [|lia]. destruct (Z.leb_spec p 3); [lia|]. simpl.
  destruct (Z.leb_spec 106 (ramp_up p)); lia.
Qed.

(** C36: in a group of [n] members the indexes [0] to [n - 1] get the positions [1] to [n], each
    exactly once, whatever the epoch; a later position never waits less; the first three wait 0, 15
    and 30 seconds and everybody after them longer, so exactly one index commits at once. The
    index of a member is its leaf less the leaves to its left that are removed: where no leaf is
    blank the members have different ones ([commit_delay_positions_distinct]), otherwise two of
    them can share a position ([commit_delay_collision]). That the delays after the third do not
    decrease rests on [f32::ln] not decreasing. *)
Theorem calculate_delay_spec e n :
  0 < n <= 2 ^ 63 ->
  (forall i j, 0 <= i < n -> 0 <= j < n -> delay_position i e n = delay_position j e n -> i = j) /\
  (forall p, 1 <= p <= n -> exists i, 0 <= i < n /\ delay_position i e n = p) /\
  (forall i j, delay_position i e n <= delay_position j e n ->
     calculate_delay i e n <= calculate_delay j e n) /\
  (forall i, delay_position i e n <= 3 -> calculate_delay i e n = (delay_position i e n - 1) * 15) /\
  (forall i, 3 < delay_position i e n -> 30 < calculate_delay i e n).
Proof.
  intros Hn. assert (forall i, calculate_delay i e n = delay_of_position (delay_position i e n)) as Hd
    by done.
  split_and!.
  - intros i j. apply delay_position_inj. lia.
  - intros p Hp. exists ((p - 1 - e) mod n).
    split; [apply Z.mod_pos_bound; lia|]. unfold delay_position.
    destruct (Z.ltb_spec 0 n); [|lia]. rewrite u64_add_mods, Z.mod_mod, <-Z.add_mod by lia.
    replace (e + (p - 1 - e)) with (p - 1) by lia. rewrite Z.mod_small; lia.
  - intros i j Hij. rewrite !Hd. pose proof (delay_position_range i e n ltac:(lia)).
    destruct (Z_le_dec (delay_position j e n) 3).
    { rewrite !delay_of_position_linear by lia. lia. }
    destruct (delay_of_position_ramp (delay_position j e n)) as [Hj1 Hj2]; [lia|].
    destruct (Z_le_dec (delay_position i e n) 3).
    { rewrite (delay_of_position_linear (delay_position i e n)) by lia. lia. }
    destruct (delay_of_position_ramp (delay_position i e n)) as [Hi1 _]; [lia|].
    rewrite Hi1, Hj1. pose proof (ramp_up_mono (delay_position i e n) (delay_position j e n)). lia.
  - intros i Hi. rewrite Hd. apply delay_of_position_linear.
    pose proof (delay_position_range i e n ltac:(lia)). lia.
  - intros i Hi. rewrite Hd. by apply delay_of_position_ramp.
Qed.

(** ** The places of the members of a group *)

Section places.
Context `{SqlEngine, Provider, OpenMlsTypes} `{!OpenMls}.

Definition is_removed (removed : list Z) (i : Z) : bool := bool_decide (i ∈ removed).

(** The leaves [0 .. m - 1], and how many of them stay in the tree. *)
Definition leaves (m : nat) : list Z := Z.of_nat <$> seq 0 m.
Definition rank (removed : list Z) (m : nat) : nat :=
  length (List.filter (fun i => negb (is_removed removed i)) (leaves m)).

Lemma leaves_S m : leaves (S m) = leaves m ++ [Z.of_nat m].
Proof. unfold leaves. by rewrite seq_S, fmap_app. Qed.

Lemma rank_S removed m :
  rank removed (S m) = (rank removed m + if is_removed removed (Z.of_nat m) then 0 else 1)%nat.
Proof.
  unfold rank. rewrite leaves_S, filter_app, length_app. simpl.
  by destruct (is_removed removed (Z.of_nat m)).
Qed.

Lemma rank_mono removed m k : (m <= k)%nat -> (rank removed m <= rank removed k)%nat.
Proof. induction 1 as [|k _ IH]; [done|]. rewrite rank_S. lia. Qed.

Lemma rank_removed removed m :
  (length (List.filter (is_removed removed) (leaves m)) + rank removed m = m)%nat.
Proof.
  induction m as [|m IH]; [done|]. rewrite rank_S, leaves_S, filter_app, length_app. simpl.
  destruct (is_removed removed (Z.of_nat m)); simpl; lia.
Qed.

Lemma elem_of_leaves i m : i ∈ leaves m <-> 0 <= i < Z.of_nat m.
Proof.
  unfold leaves. rewrite list_elem_of_fmap. split.
  - intros (k & -> & Hk%elem_of_seq). lia.
  - intros Hi. exists (Z.to_nat i). rewrite elem_of_seq. lia.
Qed.

(** All removed leaves are in the tree: [rank] at the end is what is left of it. *)
Lemma rank_all removed m :
  NoDup removed -> (forall i, i ∈ removed -> 0 <= i < Z.of_nat m) ->
  (rank removed m + length removed = m)%nat.
Proof.
  intros Hnd Hin. rewrite <-(rank_removed removed m) at 2. rewrite Nat.add_comm. f_equal.
  apply Permutation_length, NoDup_Permutation; [done| |].
  - apply NoDup_ListNoDup, NoDup_filter, NoDup_ListNoDup. unfold leaves.
    apply NoDup_fmap_2; [apply _|apply NoDup_seq].
  - intros i. rewrite (list_elem_of_In (List.filter _ _)), filter_In, <-list_elem_of_In.
    unfold is_removed. rewrite bool_decide_eq_true, elem_of_leaves. split; [|by intros [_ ?]].
    intros Hi. by split; [apply Hin|].
Qed.

Lemma post_commit_place_rank removed (ms : list Member) (m : nat) :
  member_index <$> ms = leaves (length ms) -> (m <= length ms)%nat ->
  (length removed <= length ms)%nat ->
  post_commit_place (Z.of_nat m) removed ms =
    (Z.of_nat (rank removed m), Z.of_nat (length ms) - Z.of_nat (length removed)).
Proof.
  intros Hms Hm Hr. unfold post_commit_place.
  assert (length (List.filter (fun kp => bool_decide (member_index kp ∈ removed))
            (take (Z.to_nat (Z.of_nat m)) ms)) =
          length (List.filter (is_removed removed) (leaves m))) as ->.
  { assert (leaves m = member_index <$> take m ms) as ->.
    { rewrite fmap_take, Hms. unfold leaves. by rewrite <-fmap_take, take_seq, Nat.min_l. }
    rewrite Nat2Z.id. induction (take m ms) as [|kp l IH]; [done|]. simpl.
    unfold is_removed at 1. destruct (bool_decide _); simpl; by rewrite IH. }
  pose proof (rank_removed removed m). unfold saturating_sub.
  destruct (Z.leb_spec (Z.of_nat (length (List.filter (is_removed removed) (leaves m))))
    (Z.of_nat m)); [|lia].
  destruct (Z.leb_spec (Z.of_nat (length removed)) (Z.of_nat (length ms))); [|lia].
  f_equal; lia.
Qed.

(** In a group without blank leaves, the members that stay get different positions for their
    delays, each between 1 and the number of members after the commit: no two of them wait for
    the same turn. *)
Lemma commit_delay_positions_distinct (g : MlsGroup) (ms : list Member) (i j : nat) :
  let removed := removed_indexes (pending_proposals g) in
  let place k := post_commit_place (Z.of_nat k) removed ms in
  member_index <$> ms = leaves (length ms) ->
  NoDup removed -> (forall r, r ∈ removed -> r ∈ leaves (length ms)) -> Z.of_nat (length ms) <= 2 ^ 63 ->
  (i < length ms)%nat -> (j < length ms)%nat -> i <> j ->
  Z.of_nat i ∉ removed -> Z.of_nat j ∉ removed ->
  let position k := delay_position (place k).1 (epoch g) (place k).2 in
  position i <> position j /\ 1 <= position i <= Z.of_nat (length ms) - Z.of_nat (length removed).
Proof.
  cbv zeta. set (removed := removed_indexes (pending_proposals g)).
  intros Hms Hnd Hin Hmax Hi Hj Hij Hri Hrj.
  pose proof (rank_all removed (length ms) Hnd
    (fun r Hr => proj1 (elem_of_leaves _ _) (Hin r Hr))) as Hall.
  assert (forall k, (k < length ms)%nat -> Z.of_nat k ∉ removed ->
    (rank removed k < rank removed (S k))%nat /\ (rank removed (S k) <= rank removed (length ms))%nat)
    as Hk.
  { intros k Hk Hrk. rewrite rank_S at 1. unfold is_removed. rewrite bool_decide_false by done.
    split; [lia|]. by apply rank_mono. }
  destruct (Hk i Hi Hri), (Hk j Hj Hrj).
  rewrite !post_commit_place_rank by (done || lia). simpl. split.
  - intros He. apply delay_position_inj in He; [|lia..]. apply Nat2Z.inj in He.
    destruct (Nat.lt_total i j) as [Hlt|[Heq|Hlt]]; [|done|].
    + pose proof (rank_mono removed (S i) j Hlt). lia.
    + pose proof (rank_mono removed (S j) i Hlt). lia.
  - pose proof (delay_position_range (Z.of_nat (rank removed i)) (epoch g)
      (Z.of_nat (length ms) - Z.of_nat (length removed))). lia.
Qed.

(** With a blank leaf, two members that stay can wait for the same turn: the leaves 0 and 2
    of a group of two members, in every epoch. *)
Lemma commit_delay_collision c0 c2 e :
  let ms := [MkMember 0 c0; MkMember 2 c2] in
  let position i := let p := post_commit_place i [] ms in delay_position p.1 e p.2 in
  position 0 = position 2.
Proof. done. Qed.
End places.
End delay.
