(* ===== verification/Credential.v ===== *)
(** * Credentials

    The X509 side of credentials ([crypto/src/mls/credential/ext.rs], [crl.rs], [x509.rs] and
    [crypto/src/e2e_identity/identity.rs], [device_status.rs]), the state of a conversation with
    regard to end-to-end identity ([conversation_state.rs]), what OpenMLS is told about a
    credential ([mls-provider/src/pki.rs]), and the credential bundles of a client
    ([credential/mod.rs], [client/identities.rs]). *)

From S2P Require Import Prelude KsError Sql SqlSpec Entity TableFrame E2eiEntities Keystore.
From S2P Require Import CcError Ids Backend OpenMls Config.
Open Scope Z_scope.

(** ** X509 certificates

    Parsing, validation and the claims are the crates [x509_cert] and [wire_e2e_identity]. *)

(** [PathValidationStatus] and the error around it, as far as the code tells them apart. *)
Inductive PathValidationStatus : Set :=
  | PVValid
  | RevocationStatusNotAvailable
  | RevocationStatusNotDetermined
  | CertificateRevoked
  | CertificateRevokedEndEntity
  | CertificateRevokedIntermediateCa
  | InvalidNotAfterDate
  | PVOther (s : ext_error).

Inductive RustyX509CheckError : Set :=
  | PathValidation (s : PathValidationStatus)
  | X509CheckOther (e : ext_error).

Inductive IdentityStatus : Set := IdValid | IdExpired | IdRevoked.

(** [wire_e2e_identity::prelude::WireIdentity] *)
Record RawWireIdentity := MkRawWireIdentity {
  raw_client_id : bytes;
  raw_handle : bytes;
  raw_display_name : bytes;
  raw_domain : bytes;
  raw_status : IdentityStatus;
  raw_thumbprint : bytes;
  raw_serial_number : bytes;
  raw_not_before : Z;
  raw_not_after : Z;
}.

Class X509Lib `{Provider} := {
  Certificate : Type;
  CertificateList : Type;
  Certificate_eq_dec :: EqDecision Certificate;
  cert_from_der : bytes -> result ext_error Certificate;
  encode_cert_to_der : Certificate -> result ext_error bytes;
  decode_pem_cert : bytes -> result ext_error Certificate;
  der_to_pem : bytes -> result ext_error bytes;
  extract_crl_uris : Certificate -> result ext_error (option (list bytes));
  extract_ski_aki_from_cert : Certificate -> result ext_error (bytes * option bytes);
  read_identity : bytes -> option RawWireIdentity;          (* [leaf.extract_identity().ok()] *)
  cert_has_identity : Certificate -> bool;                  (* [cert.extract_identity().is_ok()] *)
  read_public_key : bytes -> option bytes;
  read_created_at : bytes -> option Z;
  is_time_valid : Certificate -> option bool;
  crl_from_der : bytes -> result ext_error CertificateList;
  decode_der_crl : bytes -> result ext_error CertificateList;
  encode_crl_to_der : CertificateList -> result ext_error bytes;
  revoked_certificates : CertificateList -> option bytes;
  extract_expiration_from_crl : CertificateList -> option Z;
  pki_init : list Certificate -> list Certificate -> list CertificateList ->
    result ext_error PkiEnvironment;
  validate_cert_and_revocation : PkiEnvironment -> Certificate -> result RustyX509CheckError ();
  x509_error_text : RustyX509CheckError -> ext_error;
  validate_trust_anchor_cert : PkiEnvironment -> Certificate -> result ext_error ();
  validate_crl_with_raw : PkiEnvironment -> bytes -> result ext_error CertificateList;
}.

(** [DeviceStatus] *)
Inductive DeviceStatus : Set := Valid | Expired | Revoked.

Definition DeviceStatus_from (s : IdentityStatus) : DeviceStatus :=
  match s with IdValid => Valid | IdExpired => Expired | IdRevoked => Revoked end.

(** [WireIdentity] *)
Record WireIdentity := MkWireIdentity {
  wi_client_id : bytes;
  wi_handle : bytes;
  wi_display_name : bytes;
  wi_domain : bytes;
  wi_certificate : bytes;
  wi_status : DeviceStatus;
  wi_thumbprint : bytes;
  wi_serial_number : bytes;
  wi_not_before : Z;
  wi_not_after : Z;
}.

(** [E2eiConversationState] *)
Inductive E2eiConversationState : Set := Verified | NotVerified | NotEnabled.
#[export] Instance E2eiConversationState_eq_dec : EqDecision E2eiConversationState.
Proof. solve_decision. Defined.

(** [CredentialAuthenticationStatus] *)
Inductive CredentialAuthenticationStatus : Set :=
  | AuthValid
  | AuthInvalid
  | AuthExpired
  | AuthUnknown.

(** [collect::<HashSet<_>>().into_iter().collect::<Vec<_>>()]: without repetitions, in an order
    the language leaves open. *)
Definition via_hash_set (l : list bytes) : list bytes := elements (list_to_set l : gset bytes).

Section credential.
Context `{SqlEngine, Provider, OpenMlsTypes} `{!OpenMls} `{!X509Lib, !IdCodecs}.

(** ** Claims *)

Definition x509_der {A} (r : result ext_error A) : CryptoResult A := map_err X509CertDerError r.

Definition WireIdentity_try_from (i : RawWireIdentity) (cert : bytes) : CryptoResult WireIdentity :=
  certificate ← x509_der (der_to_pem cert);
  client_id ← WireQualifiedClientId_try_from (raw_client_id i);
  client_id ← QualifiedClientId_to_String client_id;
  Ok {|
    wi_client_id := client_id;
    wi_handle := raw_handle i;
    wi_display_name := raw_display_name i;
    wi_domain := raw_domain i;
    wi_certificate := certificate;
    wi_status := DeviceStatus_from (raw_status i);
    wi_thumbprint := raw_thumbprint i;
    wi_serial_number := raw_serial_number i;
    wi_not_before := raw_not_before i;
    wi_not_after := raw_not_after i;
  |}.

(** [impl CredentialExt for Certificate], on the chain of an X509 credential *)

Definition chain_parse_leaf_cert (chain : list bytes) : CryptoResult (option Certificate) :=
  leaf ← ok_or InvalidIdentity (head chain);
  leaf ← x509_der (cert_from_der leaf);
  Ok (Some leaf).

Definition chain_extract_identity (chain : list bytes) : CryptoResult (option WireIdentity) :=
  leaf ← ok_or InvalidIdentity (head chain);
  identity ← ok_or InvalidIdentity (read_identity leaf);
  identity ← WireIdentity_try_from identity leaf;
  Ok (Some identity).

Definition chain_extract_public_key (chain : list bytes) : CryptoResult (option bytes) :=
  leaf ← ok_or InvalidIdentity (head chain);
  pk ← ok_or InvalidIdentity (read_public_key leaf);
  Ok (Some pk).

(** [impl CredentialExt for Credential] *)

Definition parse_leaf_cert (self : Credential) : CryptoResult (option Certificate) :=
  match certificates self with
  | Some chain => chain_parse_leaf_cert chain
  | None => Ok None
  end.

Definition get_type (self : Credential) : CryptoResult MlsCredentialType :=
  match credential_type self with
  | CTBasic => Ok Basic
  | CTX509 => Ok X509
  | CTUnknown _ => Err ImplementationError
  end.

Definition extract_identity (self : Credential) : CryptoResult (option WireIdentity) :=
  match certificates self with
  | Some chain => chain_extract_identity chain
  | None => Ok None
  end.

Definition extract_public_key (self : Credential) : CryptoResult (option bytes) :=
  match certificates self with
  | Some chain => chain_extract_public_key chain
  | None => Ok None
  end.

Definition is_basic (self : Credential) : bool := bool_decide (credential_type self = CTBasic).

(** [impl From<CredentialType> for MlsCredentialType]; [None] is its [unreachable!]. *)
Definition MlsCredentialType_from (ct : CredentialType) : option MlsCredentialType :=
  match ct with
  | CTBasic => Some Basic
  | CTX509 => Some X509
  | CTUnknown _ => None
  end.

(** ** CRL distribution points *)

Definition extract_dp (chain : list bytes) : CryptoResult (list bytes) :=
  acc ← try_fold (fun acc cert =>
    cert ← x509_der (cert_from_der cert);
    uris ← map_err (fun e => E2eiError (X509Error e)) (extract_crl_uris cert);
    Ok (acc ++ default [] uris)) [] chain;
  Ok (via_hash_set acc).

Definition extract_crl_uris_from_proposals (proposals : list Proposal) : CryptoResult (list bytes) :=
  let leaves := omap (M := list) (fun p => match p with
    | PAdd kp => Some (kp_leaf_node kp)
    | PUpdate ln => Some ln
    | _ => None
    end) proposals in
  try_fold (fun acc chain => dp ← extract_dp chain; Ok (acc ++ dp)) []
    (omap (M := list) (fun ln => certificates (leaf_credential ln)) leaves).

Definition extract_crl_uris_from_update_path (commit : StagedCommit) : CryptoResult (list bytes) :=
  match update_path_leaf_node commit with
  | Some leaf =>
      match certificates (leaf_credential leaf) with
      | Some chain => extract_dp chain
      | None => Ok []
      end
  | None => Ok []
  end.

Definition get_new_crl_distribution_points (crl_dps : list bytes) :
    cc MlsCryptoProvider (option (list bytes)) :=
  match crl_dps with
  | [] => mret None
  | _ =>
      stored_crls ← ks (Connection_find_all (E := E2eiCrl) EntityFindParams_default);
      let stored_crl_dps := crl_distribution_point <$> stored_crls in
      mret (Some (List.filter (fun dp => bool_decide (dp ∈ stored_crl_dps)) crl_dps))
  end.

(** ** The state of a conversation *)

(** One credential's part: whether it shows that end-to-end identity is in use, and whether it
    is valid. *)
Definition compute_state_step (b : MlsCryptoProvider)
    (acc : bool * E2eiConversationState) (credential : Credential) : bool * E2eiConversationState :=
  let '(is_e2ei, state) := acc in
  match parse_leaf_cert credential with
  | Ok (Some cert) =>
      let invalid_identity := negb (cert_has_identity cert) in
      let is_time_valid := default false (is_time_valid cert) in
      let is_time_invalid := negb is_time_valid in
      let is_revoked_or_invalid := match pki_env b with
        | Some pki_env => negb (is_ok (validate_cert_and_revocation pki_env cert))
        | None => false
        end in
      let is_invalid := invalid_identity || is_time_invalid || is_revoked_or_invalid in
      (true, if is_invalid then NotVerified else state)
  | _ => (is_e2ei, NotVerified)
  end.

Definition compute_state (credentials : list Credential) (b : MlsCryptoProvider)
    (_credential_type : MlsCredentialType) : E2eiConversationState :=
  let '(is_e2ei, state) := fold_left (compute_state_step b) credentials (false, Verified) in
  if is_e2ei then state else NotEnabled.

(** ** [PkiEnvironmentProvider::validate_credential]

    The argument is the chain of an X509 credential, or [None] for a basic one. *)
Definition validate_credential (b : MlsCryptoProvider) (credential : option (list bytes)) :
    CredentialAuthenticationStatus :=
  match credential with
  | None => AuthValid
  | Some certificates =>
      match pki_env b with
      | None => AuthValid
      | Some pki_env =>
          match head certificates ≫= (fun raw => res_ok (cert_from_der raw)) with
          | None => AuthInvalid
          | Some cert =>
              match validate_cert_and_revocation pki_env cert with
              | Err (PathValidation s) =>
                  match s with
                  | PVValid | RevocationStatusNotAvailable | RevocationStatusNotDetermined
                  | CertificateRevoked | CertificateRevokedEndEntity
                  | CertificateRevokedIntermediateCa => AuthValid
                  | InvalidNotAfterDate => AuthExpired
                  | PVOther _ => AuthInvalid
                  end
              | Err (X509CheckOther _) => AuthUnknown
              | Ok () => AuthValid
              end
          end
      end
  end.

(** ** Credential bundles *)

Record CredentialBundle := MkCredentialBundle {
  cb_credential : Credential;
  cb_signature_key : SignatureKeyPair;
  cb_created_at : Z;
}.

(** [impl PartialEq]: the private key does not count. *)
Definition CredentialBundle_eq (self other : CredentialBundle) : bool :=
  bool_decide (cb_credential self = cb_credential other)
  && bool_decide (cb_created_at self = cb_created_at other)
  && bool_decide (skp_signature_scheme (cb_signature_key self) =
                  skp_signature_scheme (cb_signature_key other))
  && bool_decide (skp_public (cb_signature_key self) = skp_public (cb_signature_key other)).

Definition to_mls_credential_with_key (self : CredentialBundle) : CredentialWithKey :=
  MkCredentialWithKey (cb_credential self) (skp_public (cb_signature_key self)).

(** [CertificateBundle]: the chain and the private key of its leaf. *)
Record CertificateBundle := MkCertificateBundle {
  certificate_chain : list bytes;
  private_key : bytes;
  private_key_scheme : Z;
}.

Definition CertificateBundle_get_client_id (self : CertificateBundle) : CryptoResult bytes :=
  leaf ← ok_or InvalidIdentity (head (certificate_chain self));
  identity ← ok_or InvalidIdentity (read_identity leaf);
  WireQualifiedClientId_try_from (raw_client_id identity).

Definition CertificateBundle_get_created_at (self : CertificateBundle) : CryptoResult Z :=
  leaf ← ok_or InvalidIdentity (head (certificate_chain self));
  ok_or InvalidIdentity (read_created_at leaf).

(** [MlsError::from] on an error of OpenMLS, then [?]. *)
Definition mls_err {A} (f : ext_error -> MlsError) (r : result ext_error A) : CryptoResult A :=
  map_err (fun e => CryptoError_from_MlsError (f e)) r.

(** A call that acts on the provider, its error turned into a [CryptoError]. *)
Definition prov {E A} (f : E -> CryptoError) (m : stm MlsCryptoProvider E A) :
    cc MlsCryptoProvider A :=
  st_map_err (fun e => Throw (f e)) m.

Definition new_basic_credential_bundle (id : bytes) (sc : Z) : cc MlsCryptoProvider CredentialBundle :=
  '(sk, pk) ← prov (fun e => MlsErrorC (MlsCryptoError e)) (signature_key_gen sc);
  mret (MkCredentialBundle (new_basic id) (MkSignatureKeyPair sc sk pk) 0).

Definition new_x509_credential_bundle (cert : CertificateBundle) : CryptoResult CredentialBundle :=
  created_at ← CertificateBundle_get_created_at cert;
  let sk := private_key cert in
  let chain := certificate_chain cert in
  kp ← mls_err MlsCredentialError (certificate_keypair sk chain);
  credential ← mls_err MlsCredentialError (new_x509 chain);
  Ok (MkCredentialBundle credential kp created_at).

(** ** [ClientIdentities]: for each signature scheme an [IndexSet], in the order of insertion *)

Abbreviation ClientIdentities := (gmap Z (list CredentialBundle)).

(** [ct == c.credential.credential_type().into()]; a bundle never holds an unknown type. *)
Definition has_type (ct : MlsCredentialType) (c : CredentialBundle) : bool :=
  bool_decide (MlsCredentialType_from (credential_type (cb_credential c)) = Some ct).

Definition find_credential_bundle_by_public_key (self : ClientIdentities) (sc : Z)
    (ct : MlsCredentialType) (pk : bytes) : option CredentialBundle :=
  match self !! sc with
  | Some cbs =>
      first (fun c =>
        let ct_match := has_type ct c in
        let pk_match := bool_decide (skp_public (cb_signature_key c) = pk) in
        ct_match && pk_match) cbs
  | None => None
  end.

Definition find_most_recent_credential_bundle (self : ClientIdentities) (sc : Z)
    (ct : MlsCredentialType) : option CredentialBundle :=
  match self !! sc with
  | Some cbs => list.last (List.filter (has_type ct) cbs)
  | None => None
  end.

(** [IndexSet::insert]: [false] when an equal bundle is in the set. *)
Definition index_set_insert (cb : CredentialBundle) (cbs : list CredentialBundle) :
    bool * list CredentialBundle :=
  if existsb (CredentialBundle_eq cb) cbs then (false, cbs) else (true, cbs ++ [cb]).

Definition push_credential_bundle (sc : Z) (cb : CredentialBundle) (self : ClientIdentities) :
    result Stop () * ClientIdentities :=
  (* [debug_assert_ne!] *)
  if debug_assertions_on && Z.eqb (cb_created_at cb) 0 then (Err Panic, self)
  else
    match self !! sc with
    | Some cbs =>
        let '(inserted, cbs) := index_set_insert cb cbs in
        let already_exists := negb inserted in
        (if already_exists then Err (Throw CredentialBundleConflict) else Ok (), <[sc := cbs]> self)
    | None => (Ok (), <[sc := [cb]]> self)
    end.

Definition identities_remove (credential : Credential) (self : ClientIdentities) : ClientIdentities :=
  List.filter (fun c => negb (bool_decide (cb_credential c = credential))) <$> self.

(** [iter], in the order of the map *)
Definition identities_iter (self : ClientIdentities) : list (Z * CredentialBundle) :=
  map_to_list self ≫= (fun p : Z * list CredentialBundle => (fun c => (p.1, c)) <$> p.2).

(** [Client] of [client/mod.rs] *)
Record Client := MkClient {
  client_id : bytes;
  identities : ClientIdentities;
  keypackage_lifetime : Z;
}.

(** ** The state of a conversation, as a specification *)

(** Does the credential carry a certificate that parses, and is that certificate in order? *)
Definition shows_cert (c : Credential) : bool :=
  match parse_leaf_cert c with Ok (Some _) => true | _ => false end.

Definition cert_in_order (b : MlsCryptoProvider) (c : Credential) : bool :=
  match parse_leaf_cert c with
  | Ok (Some cert) =>
      cert_has_identity cert && default false (is_time_valid cert) &&
      match pki_env b with
      | Some env => is_ok (validate_cert_and_revocation env cert)
      | None => true
      end
  | _ => false
  end.

Lemma compute_state_step_spec b acc c :
  compute_state_step b acc c =
  (acc.1 || shows_cert c, if cert_in_order b c then acc.2 else NotVerified).
Proof.
  destruct acc as [e st]. unfold compute_state_step, shows_cert, cert_in_order.
  destruct (parse_leaf_cert c) as [[cert|]|]; simpl; try by rewrite orb_false_r.
  rewrite orb_true_r. destruct (cert_has_identity cert); simpl; [|done].
  destruct (default false (is_time_valid cert)); simpl; [|done].
  destruct (pki_env b) as [env|]; [|done]. by destruct (validate_cert_and_revocation env cert).
Qed.

Lemma compute_state_fold b cs acc :
  fold_left (compute_state_step b) cs acc =
  (acc.1 || existsb shows_cert cs, if forallb (cert_in_order b) cs then acc.2 else NotVerified).
Proof.
  revert acc. induction cs as [|c cs IH]; intros acc; cbn [fold_left existsb forallb].
  { rewrite orb_false_r. by destruct acc. }
  rewrite compute_state_step_spec, IH. cbn [fst snd]. rewrite orb_assoc.
  destruct (cert_in_order b c); simpl; [done|]. by destruct (forallb _ cs).
Qed.

(** A conversation is [NotEnabled] when no member shows a certificate, [Verified] when all
    members have one that is in order, and [NotVerified] otherwise; the order of the members and
    the requested credential type do not count. *)
Lemma compute_state_spec b cs ct :
  compute_state cs b ct =
  (if existsb shows_cert cs then
     if forallb (cert_in_order b) cs then Verified else NotVerified
   else NotEnabled) /\
  (forall cs', cs' ≡ₚ cs -> compute_state cs' b ct = compute_state cs b ct).
Proof.
  assert (forall cs, compute_state cs b ct = if existsb shows_cert cs then
     if forallb (cert_in_order b) cs then Verified else NotVerified else NotEnabled) as Hspec.
  { intros l. unfold compute_state. rewrite compute_state_fold. by destruct (existsb _ l). }
  split; [apply Hspec|]. intros cs' Hp. rewrite !Hspec.
  assert (existsb shows_cert cs' = existsb shows_cert cs) as ->.
  { apply eq_true_iff_eq. rewrite !existsb_exists. split; intros (c & Hin & Hc); exists c;
      (split; [|done]); apply list_elem_of_In; apply list_elem_of_In in Hin; by rewrite Hp in *. }
  assert (forallb (cert_in_order b) cs' = forallb (cert_in_order b) cs) as ->; [|done].
  apply eq_true_iff_eq. rewrite !forallb_forall. split; intros Hc c Hin; apply Hc;
    apply list_elem_of_In; apply list_elem_of_In in Hin; by rewrite Hp in *.
Qed.

(** A certificate that is revoked, whatever certificate of its path is, is still accepted
    when OpenMLS asks, and a conversation with such a member is never [Verified]. *)
Lemma revoked_credential_degrades b cred cert chain env s cs ct :
  certificates cred = Some chain -> parse_leaf_cert cred = Ok (Some cert) ->
  pki_env b = Some env -> validate_cert_and_revocation env cert = Err (PathValidation s) ->
  s = CertificateRevoked \/ s = CertificateRevokedEndEntity \/ s = CertificateRevokedIntermediateCa ->
  cred ∈ cs ->
  validate_credential b (certificates cred) = AuthValid /\ compute_state cs b ct = NotVerified.
Proof.
  intros Hchain Hcert Henv Hval Hs Hin. split.
  - unfold parse_leaf_cert, chain_parse_leaf_cert, validate_credential in *.
    rewrite Hchain in *. rewrite Henv. destruct (head chain) as [raw|]; [|done].
    simpl in *. destruct (cert_from_der raw) as [c|]; [|done]. simpl in *. injection Hcert as ->.
    rewrite Hval. by destruct Hs as [->|[->| ->]].
  - destruct (compute_state_spec b cs ct) as [-> _].
    assert (existsb shows_cert cs = true) as ->.
    { apply existsb_exists. exists cred. split; [by apply list_elem_of_In|].
      unfold shows_cert. by rewrite Hcert. }
    assert (forallb (cert_in_order b) cs = false) as ->; [|done].
    apply not_true_iff_false. rewrite forallb_forall. intros Hall.
    specialize (Hall cred (proj1 (list_elem_of_In _ _) Hin)). unfold cert_in_order in Hall.
    rewrite Hcert, Henv, Hval, andb_false_r in Hall. done.
Qed.

(** The "new" distribution points are those for which a CRL is already stored: with no
    distribution point the answer is none, otherwise it is what the commit or proposal brought,
    less exactly the points that are new. *)
Lemma get_new_crl_distribution_points_spec b l dps :
  healthy (key_store b) -> rep el_layout (conn_view (key_store b)) (l : list E2eiCrl) ->
  exists c', get_new_crl_distribution_points dps b =
    (Ok (match dps with
         | [] => None
         | _ => Some (List.filter (fun dp => bool_decide (dp ∈ crl_distribution_point <$> l)) dps)
         end), set_key_store c' b) /\
  rep el_layout (conn_view c') l.
Proof.
  intros Hh Hl. unfold get_new_crl_distribution_points. destruct dps as [|dp dps].
  { exists (key_store b). by destruct b. }
  destruct (ks_ok (Connection_find_all (E := E2eiCrl) EntityFindParams_default) b _ _ Hh
    (el_find_all _ _ Hl)) as (c' & Hk & Hv & _).
  exists c'. rewrite (stm_bind_ok _ _ _ _ _ Hk), Hv. split; [|done].
  assert (crl_distribution_point <$> (el_stored <$> l) = crl_distribution_point <$> l) as ->; [|done].
  rewrite <-list_fmap_compose. by apply list_fmap_ext.
Qed.

(** ** The bundles of a client *)

(** No scheme has two equal bundles. *)
Definition identities_ok (self : ClientIdentities) : Prop :=
  forall sc cbs, self !! sc = Some cbs ->
    ForallOrdPairs (fun a b => CredentialBundle_eq b a = false) cbs.

Lemma ForallOrdPairs_snoc {A} (R : A -> A -> Prop) l a :
  ForallOrdPairs R (l ++ [a]) <-> ForallOrdPairs R l /\ Forall (fun x => R x a) l.
Proof.
  induction l as [|b l IH]; simpl.
  { split; [by split; constructor|]. intros _. by repeat constructor. }
  split.
  - intros Hl. inversion Hl as [|? ? Hb Hl']; subst. apply Forall_app in Hb as [Hb Ha].
    apply IH in Hl' as [? ?]. inversion Ha; subst. by repeat constructor.
  - intros [Hl Ha]. inversion Hl; inversion Ha; subst. constructor; [|by apply IH].
    apply Forall_app. split; [done|]. by repeat constructor.
Qed.

Lemma ForallOrdPairs_filter {A} (R : A -> A -> Prop) f l :
  ForallOrdPairs R l -> ForallOrdPairs R (List.filter f l).
Proof.
  induction 1 as [|a l Ha Hl IH]; simpl; [constructor|]. destruct (f a); [|done].
  constructor; [|done]. rewrite list.Forall_forall in *. intros x Hx. apply Ha.
  apply list_elem_of_In in Hx. apply filter_In in Hx as [Hx _]. by apply list_elem_of_In.
Qed.

(** C37: [push_credential_bundle] makes the new bundle the most recent one of its scheme and type,
    and changes no other answer; a bundle equal to one of the scheme is refused, and one without a
    date of creation makes a debug build panic: then nothing changes. No scheme ever has two equal
    bundles, before and after a push or a removal. *)
Theorem push_credential_bundle_spec ids sc cb :
  identities_ok ids ->
  let (r, ids') := push_credential_bundle sc cb ids in
  identities_ok ids' /\
  (r = Ok () <-> (debug_assertions_on = true -> cb_created_at cb <> 0) /\
     forall cbs, ids !! sc = Some cbs -> existsb (CredentialBundle_eq cb) cbs = false) /\
  match r with
  | Ok () => forall sc' ct, find_most_recent_credential_bundle ids' sc' ct =
      if bool_decide (sc' = sc) && has_type ct cb then Some cb
      else find_most_recent_credential_bundle ids sc' ct
  | Err e => ids' = ids /\
      e = if debug_assertions_on && Z.eqb (cb_created_at cb) 0 then Panic
          else Throw CredentialBundleConflict
  end /\
  (forall c, identities_ok (identities_remove c ids)).
Proof.
  intros Hok.
  assert (forall c, identities_ok (identities_remove c ids)) as Hrem.
  { intros c sc' cbs. unfold identities_remove. rewrite lookup_fmap.
    destruct (ids !! sc') as [l|] eqn:Hl; [|done]. intros [= <-].
    apply ForallOrdPairs_filter. by eapply Hok. }
  assert (forall cbs', ForallOrdPairs (fun a b => CredentialBundle_eq b a = false) cbs' ->
    identities_ok (<[sc := cbs']> ids)) as Hins.
  { intros cbs' Hc sc' l. destruct (decide (sc' = sc)) as [->|Hne].
    - rewrite lookup_insert_eq. by intros [= <-].
    - rewrite lookup_insert_ne by done. apply Hok. }
  assert (forall cbs' old, match ids !! sc with Some l => l | None => [] end = old ->
    cbs' = old ++ [cb] -> forall sc' ct,
    find_most_recent_credential_bundle (<[sc := cbs']> ids) sc' ct =
      if bool_decide (sc' = sc) && has_type ct cb then Some cb
      else find_most_recent_credential_bundle ids sc' ct) as Hfind.
  { intros cbs' old Hold -> sc' ct. unfold find_most_recent_credential_bundle.
    destruct (decide (sc' = sc)) as [->|Hne].
    - rewrite lookup_insert_eq, bool_decide_true by done. simpl. rewrite filter_app. simpl.
      destruct (has_type ct cb); [by rewrite last_snoc|]. rewrite app_nil_r.
      by destruct (ids !! sc); subst.
    - by rewrite lookup_insert_ne, bool_decide_false. }
  unfold push_credential_bundle, index_set_insert.
  destruct (debug_assertions_on && Z.eqb (cb_created_at cb) 0) eqn:Hdbg.
  { apply andb_true_iff in Hdbg as [Hdbg Hzero%Z.eqb_eq]. split_and!; try done.
    split; [done|]. intros [Hn _]. by destruct (Hn Hdbg). }
  assert (debug_assertions_on = true -> cb_created_at cb <> 0) as Hdate.
  { intros Ht Hzero. by rewrite Ht, Hzero in Hdbg. }
  destruct (ids !! sc) as [cbs|] eqn:Hsc.
  - destruct (existsb (CredentialBundle_eq cb) cbs) eqn:Hex; simpl.
    + rewrite insert_id by done. split_and!; try done. split; [done|]. intros [_ Hn].
      by rewrite (Hn cbs) in Hex.
    + split_and!; try done; [|split; [|done]; by split; [|intros ? [= <-]]|by eapply Hfind].
      apply Hins. apply ForallOrdPairs_snoc. split; [by eapply Hok|].
      apply list.Forall_forall. intros x Hx. apply not_true_iff_false. intros Hc.
      apply not_true_iff_false in Hex. apply Hex, existsb_exists. exists x.
      by split; [apply list_elem_of_In|].
  - split_and!; try done; [|by eapply Hfind]. apply Hins. by repeat constructor.
Qed.
End credential.
