(* ===== verification/Certificates.v ===== *)
(** * Certificate authorities and revocation lists

    [crypto/src/e2e_identity/init_certificates.rs] and [extract_dp_on_init] of
    [mls/credential/crl.rs]: registering a root certificate, intermediate ones and revocation
    lists, and the environment that certificates are validated in, which is made anew from the
    key store after each registration. *)

From S2P Require Import Prelude KsError Sql SqlSpec Entity TableFrame E2eiEntities Keystore.
From S2P Require Import CcError Ids Backend OpenMls Config Credential.
Open Scope Z_scope.

(** [CrlRegistration] of [e2e_identity/mod.rs] *)
Record CrlRegistration := MkCrlRegistration { dirty : bool; expiration : option Z }.

Section certificates.
Context `{SqlEngine, Provider} `{!X509Lib}.

(** [map_err(|e| CryptoError::E2eiError(e.into()))?] on an error of [wire_e2e_identity]. *)
Definition e2ei {S A} (r : result ext_error A) : cc S A :=
  lift_res (map_err (fun e => E2eiError (X509Error e)) r).

Definition get_provider : cc MlsCryptoProvider MlsCryptoProvider := fun b => (Ok b, b).

(** ** The environment *)

Definition restore_pki_env : cc MlsCryptoProvider PkiEnvironment :=
  ta_raw ← attempt (ks E2eiAcmeCA_find_unique);
  trust_roots ← (match ta_raw with
    | Ok ta_raw => ta ← lift_res (x509_der (cert_from_der (aca_content ta_raw))); mret [ta]
    | Err _ => mret []
    end);
  intermediates ← ks (find_all (E := E2eiIntermediateCert) EntityFindParams_default);
  intermediates ← lift_res (try_map (fun inter : E2eiIntermediateCert =>
    x509_der (cert_from_der (ic_content inter))) intermediates);
  crls ← ks (find_all (E := E2eiCrl) EntityFindParams_default);
  crls ← lift_res (try_map (fun crl : E2eiCrl => x509_der (crl_from_der (crl_content crl))) crls);
  e2ei (pki_init trust_roots intermediates crls).

Definition init_pki_env : cc MlsCryptoProvider () :=
  env ← restore_pki_env;
  st_modify (update_env env).

(** [auth_service.as_ref()] *)
Definition get_pki_env : cc MlsCryptoProvider PkiEnvironment :=
  b ← get_provider;
  some_or ConsumerError (pki_env b).

(** ** Registrations *)

Definition e2ei_register_acme_ca (trust_anchor_pem : bytes) : cc MlsCryptoProvider () :=
  existing ← attempt (ks E2eiAcmeCA_find_unique);
  if is_ok existing then throw (E2eiError TrustAnchorAlreadyRegistered)
  else
    pki_env ← e2ei (pki_init [] [] []);
    root_cert ← e2ei (decode_pem_cert trust_anchor_pem);
    e2ei (validate_trust_anchor_cert pki_env root_cert);;
    cert_der ← e2ei (encode_cert_to_der root_cert);
    ks (E2eiAcmeCA_replace (MkE2eiAcmeCA cert_der));;
    init_pki_env.

Definition e2ei_register_intermediate_ca (inter_ca : Certificate) :
    cc MlsCryptoProvider (option (list bytes)) :=
  ta ← ks E2eiAcmeCA_find_unique;
  ta ← lift_res (x509_der (cert_from_der (aca_content ta)));
  if bool_decide (inter_ca = ta) then mret None
  else
    intermediate_crl ← e2ei (extract_crl_uris inter_ca);
    '(ski, aki) ← e2ei (extract_ski_aki_from_cert inter_ca);
    let ski_aki_pair := ski ++ ascii_bytes ":" ++ default [] aki in
    pki_env ← get_pki_env;
    lift_res (map_err (fun e => E2eiError (X509Error (x509_error_text e)))
      (validate_cert_and_revocation pki_env inter_ca));;
    cert_der ← e2ei (encode_cert_to_der inter_ca);
    ks (Connection_save (MkE2eiIntermediateCert ski_aki_pair cert_der));;
    init_pki_env;;
    mret intermediate_crl.

Definition e2ei_register_intermediate_ca_pem (cert_pem : bytes) :
    cc MlsCryptoProvider (option (list bytes)) :=
  inter_ca ← e2ei (decode_pem_cert cert_pem);
  e2ei_register_intermediate_ca inter_ca.

Definition e2ei_register_intermediate_ca_der (cert_der : bytes) :
    cc MlsCryptoProvider (option (list bytes)) :=
  inter_ca ← lift_res (x509_der (cert_from_der cert_der));
  e2ei_register_intermediate_ca inter_ca.

Definition e2ei_register_crl (crl_dp crl_der : bytes) : cc MlsCryptoProvider CrlRegistration :=
  pki_env ← get_pki_env;
  crl ← e2ei (validate_crl_with_raw pki_env crl_der);
  let expiration := extract_expiration_from_crl crl in
  existing ← attempt (ks (Connection_find (E := E2eiCrl) crl_dp));
  dirty ← (match existing with
    | Ok (Some existing_crl) =>
        old_crl ← e2ei (decode_der_crl (crl_content existing_crl));
        mret (bool_decide (revoked_certificates old_crl <> revoked_certificates crl))
    | _ => mret false
    end);
  content ← e2ei (encode_crl_to_der crl);
  ks (Connection_save (MkE2eiCrl crl_dp content));;
  init_pki_env;;
  mret (MkCrlRegistration dirty expiration).

(** The intermediate certificates of a chain, last to first, are registered; the answer is the
    distribution points of all of its certificates. *)
Definition extract_dp_on_init (certificate_chain : list bytes) :
    cc MlsCryptoProvider (option (list bytes)) :=
  dps ← st_map e2ei_register_intermediate_ca_der (reverse (drop 1 certificate_chain));
  let crl_new_distribution_points := concat (default [] <$> dps) in
  ee ← some_or InvalidCertificateChain (head certificate_chain);
  ee ← lift_res (x509_der (cert_from_der ee));
  ee_crl_dp ← e2ei (extract_crl_uris ee);
  let crl_new_distribution_points := crl_new_distribution_points ++ default [] ee_crl_dp in
  mret (match crl_new_distribution_points with [] => None | dps => Some dps end).

(** ** What the store says

    The root certificate, the intermediate certificates and the revocation lists in the key
    store, and the environment they make. *)

Definition pki_tables (b : MlsCryptoProvider) (ta : option bytes) (inters : list E2eiIntermediateCert)
    (crls : list E2eiCrl) : Prop :=
  healthy (key_store b) /\
  holds_unique "e2ei_acme_ca" (conn_view (key_store b)) ta /\
  rep (el_layout (E := E2eiIntermediateCert)) (conn_view (key_store b)) inters /\
  rep (el_layout (E := E2eiCrl)) (conn_view (key_store b)) crls.

Definition env_of (ta : option bytes) (inters : list E2eiIntermediateCert) (crls : list E2eiCrl) :
    CryptoResult PkiEnvironment :=
  trust_roots ← (match ta with
    | Some ta => ta ← x509_der (cert_from_der ta); Ok [ta]
    | None => Ok []
    end);
  intermediates ← try_map (fun inter => x509_der (cert_from_der (ic_content inter))) inters;
  crls ← try_map (fun crl => x509_der (crl_from_der (crl_content crl))) crls;
  map_err (fun e => E2eiError (X509Error e)) (pki_init trust_roots intermediates crls).

(** Only the connection has moved on, and it shows the same tables. *)
Definition looked (b b' : MlsCryptoProvider) : Prop :=
  exists c, b' = set_key_store c b /\ conn_view c = conn_view (key_store b) /\ healthy c.

Lemma looked_tables b b' ta inters crls :
  looked b b' -> pki_tables b ta inters crls -> pki_tables b' ta inters crls.
Proof. intros (c & -> & Hv & Hc) (_ & Ht). split; [done|]. simpl. by rewrite Hv. Qed.

Lemma looked_env b b' : looked b b' -> pki_env b' = pki_env b.
Proof. by intros (c & -> & _). Qed.

Lemma looked_trans b1 b2 b3 : looked b1 b2 -> looked b2 b3 -> looked b1 b3.
Proof. intros (c & -> & Hv & Hc) (c' & -> & Hv' & Hc'). exists c'. split_and!; [done| |done]. by rewrite Hv'. Qed.

(** A program that only looks. *)
Lemma ks_look {A} (p : prog A) b r :
  healthy (key_store b) -> run p (conn_view (key_store b)) = (r, conn_view (key_store b)) ->
  exists b', ks p b = (map_err (fun e => Throw (KeyStoreError e)) r, b') /\ looked b b'.
Proof.
  intros Hb Hr. destruct r as [a|e].
  - destruct (ks_ok _ _ _ _ Hb Hr) as (c & Hk & Hv & Hc). eexists. split; [exact Hk|]. by exists c.
  - destruct (ks_err _ _ _ _ Hb Hr) as (c & Hk & Hv & Hc). eexists. split; [exact Hk|]. by exists c.
Qed.

Lemma attempt_look {A} (p : prog A) b r :
  healthy (key_store b) -> run p (conn_view (key_store b)) = (r, conn_view (key_store b)) ->
  exists b', attempt (ks p) b = (Ok (map_err KeyStoreError r), b') /\ looked b b'.
Proof.
  intros Hb Hr. destruct (ks_look _ _ _ Hb Hr) as (b' & Hk & Hl). exists b'. split; [|done].
  unfold attempt. rewrite Hk. by destruct r.
Qed.

Lemma find_unique_look b ta inters crls :
  pki_tables b ta inters crls ->
  run E2eiAcmeCA_find_unique (conn_view (key_store b)) =
    (ok_or KsNotFound (MkE2eiAcmeCA <$> ta), conn_view (key_store b)).
Proof. intros (_ & Ht & _). by apply E2eiAcmeCA_find_unique_ok. Qed.

Lemma restore_run b ta inters crls :
  pki_tables b ta inters crls ->
  exists b', restore_pki_env b = (map_err Throw (env_of ta inters crls), b') /\ looked b b'.
Proof.
  intros Ht. pose proof Ht as (Hh & _ & _ & _). unfold restore_pki_env, env_of.
  destruct (attempt_look _ _ _ Hh (find_unique_look _ _ _ _ Ht)) as (b1 & Hx1 & L1).
  rewrite (stm_bind_ok _ _ _ _ _ Hx1). clear Hx1.
  pose proof (looked_tables _ _ _ _ _ L1 Ht) as Ht1. pose proof Ht1 as (Hh1 & _ & Hi1 & _).
  assert (exists rt, (match map_err KeyStoreError (ok_or KsNotFound (MkE2eiAcmeCA <$> ta)) with
      | Ok ta_raw => ta ← lift_res (x509_der (cert_from_der (aca_content ta_raw))); mret [ta]
      | Err _ => mret [] end) b1 = (map_err Throw rt, b1) /\
      rt = match ta with Some ta => ta ← x509_der (cert_from_der ta); Ok [ta] | None => Ok [] end)
    as (rt & Hrt & <-).
  { eexists. split; [|done]. destruct ta as [ta|]; [|done]. simpl.
    unfold mbind, stm_bind, lift_res, st_lift. simpl. by destruct (x509_der _). }
  destruct rt as [roots|e]; simpl in Hrt.
  2: { rewrite (stm_bind_err _ _ _ _ _ Hrt). by exists b1. }
  rewrite (stm_bind_ok _ _ _ _ _ Hrt). clear Hrt.
  destruct (ks_look _ _ _ Hh1 (el_find_all (E := E2eiIntermediateCert) _ _ Hi1)) as (b2 & Hx2 & L2).
  rewrite (stm_bind_ok _ _ _ _ _ Hx2). clear Hx2. rewrite list_fmap_id.
  pose proof (looked_tables _ _ _ _ _ L2 Ht1) as (Hh2 & _ & _ & Hc2).
  pose proof (looked_trans _ _ _ L1 L2) as L12.
  destruct (try_map _ inters) as [ics|e]; [|by exists b2].
  erewrite stm_bind_ok by done.
  destruct (ks_look _ _ _ Hh2 (el_find_all (E := E2eiCrl) _ _ Hc2)) as (b3 & Hx3 & L3).
  rewrite (stm_bind_ok _ _ _ _ _ Hx3). clear Hx3. rewrite list_fmap_id.
  pose proof (looked_trans _ _ _ L12 L3) as L123.
  destruct (try_map _ crls) as [cs|e]; [|by exists b3].
  by exists b3.
Qed.

(** [init_pki_env] makes the environment of the store the one in memory, or fails and leaves the
    one that was there. *)
Lemma init_pki_env_run b ta inters crls r b' :
  pki_tables b ta inters crls -> init_pki_env b = (r, b') ->
  pki_tables b' ta inters crls /\
  match r with
  | Ok () => exists env, env_of ta inters crls = Ok env /\ pki_env b' = Some env
  | Err _ => pki_env b' = pki_env b
  end.
Proof.
  intros Ht. destruct (restore_run _ _ _ _ Ht) as (b1 & Hx & L). unfold init_pki_env.
  pose proof (looked_tables _ _ _ _ _ L Ht) as Ht1.
  destruct (env_of ta inters crls) as [env|e]; simpl in Hx.
  - rewrite (stm_bind_ok _ _ _ _ _ Hx). intros [= <- <-]. split; [done|]. by exists env.
  - rewrite (stm_bind_err _ _ _ _ _ Hx). intros [= <- <-]. split; [done|]. by apply looked_env.
Qed.

(** ** Writing *)

Lemma save_crl b ta inters crls x r b' :
  pki_tables b ta inters crls -> ks (Connection_save (x : E2eiCrl)) b = (r, b') ->
  pki_env b' = pki_env b /\
  pki_tables b' ta inters
    (match r with Ok _ => upsert (with_key (crl_distribution_point x)) x crls | Err _ => crls end).
Proof.
  intros (Hh & [Htx Ht] & Hi & Hc) Hx.
  destruct (ks_save _ _ _ _ _ Hh Hc Hx) as (c & -> & Hhc & Hother & [[-> Hrep]|[-> Hv]]).
  - assert (v_tx (conn_view c) = None) as Htx' by by destruct Hrep as (k & (Hn & _) & _).
    split; [done|]. split_and!; [done| | |exact Hrep].
    + split; [done|]. by rewrite Hother.
    + eapply rep_same_table; [exact Hi|done|by apply Hother].
  - split; [done|]. split; [done|]. simpl. by rewrite Hv.
Qed.

Lemma save_intermediate b ta inters crls x r b' :
  pki_tables b ta inters crls -> ks (Connection_save (x : E2eiIntermediateCert)) b = (r, b') ->
  pki_env b' = pki_env b /\
  pki_tables b' ta
    (match r with Ok _ => upsert (with_key (ic_ski_aki_pair x)) x inters | Err _ => inters end) crls.
Proof.
  intros (Hh & [Htx Ht] & Hi & Hc) Hx.
  destruct (ks_save _ _ _ _ _ Hh Hi Hx) as (c & -> & Hhc & Hother & [[-> Hrep]|[-> Hv]]).
  - assert (v_tx (conn_view c) = None) as Htx' by by destruct Hrep as (k & (Hn & _) & _).
    split; [done|]. split_and!; [done| |exact Hrep|].
    + split; [done|]. by rewrite Hother.
    + eapply rep_same_table; [exact Hc|done|by apply Hother].
  - split; [done|]. split; [done|]. simpl. by rewrite Hv.
Qed.

(** The root certificate is only written to an empty table. *)
Lemma replace_acme_ca b inters crls x r b' :
  pki_tables b None inters crls -> ks (E2eiAcmeCA_replace x) b = (r, b') ->
  pki_env b' = pki_env b /\
  pki_tables b' (match r with Ok _ => Some (aca_content x) | Err _ => None end) inters crls.
Proof.
  intros (Hh & Ht & Hi & Hc) Hx.
  destruct (is_ok (check_buffer_size (blen (aca_content x)))) eqn:Hf.
  - destruct (E2eiAcmeCA_replace_ok _ _ _ Ht Hf) as (v' & Hr & Ht').
    assert (only "e2ei_acme_ca" (E2eiAcmeCA_replace x)) as Ho by (unfold E2eiAcmeCA_replace; solve_only).
    assert (closes (E2eiAcmeCA_replace x)) as Hcl by (unfold E2eiAcmeCA_replace; solve_closes).
    destruct (run_frame _ _ _ _ _ Ho Hcl (proj1 Ht) Hr) as [Htx' Hother].
    destruct (ks_run _ _ _ _ Hh Hr) as (c & Hk & Hv & Hc'). rewrite Hk in Hx.
    injection Hx as <- <-. split; [done|]. unfold pki_tables. simpl. rewrite Hv. split_and!; [done..| |];
      (eapply rep_same_table; [eassumption|done|by apply Hother]).
  - assert (run (E2eiAcmeCA_replace x) (conn_view (key_store b)) = (Err BlobTooBig, conn_view (key_store b)))
      as Hr by (unfold E2eiAcmeCA_replace; by rewrite (check_buffer_size_err _ Hf)).
    destruct (ks_look _ _ _ Hh Hr) as (b1 & Hk & L). rewrite Hk in Hx. injection Hx as <- <-.
    split; [by apply looked_env|]. by eapply looked_tables.
Qed.

(** ** Registering *)

(** [registers ta inters crls b ta' inters' crls' r b']: the store went from the one to the other,
    and the environment was made anew, unless there was an error. *)
Definition registers {A} (b : MlsCryptoProvider) (r : result Stop A) (b' : MlsCryptoProvider)
    (ta : option bytes) (inters : list E2eiIntermediateCert) (crls : list E2eiCrl) : Prop :=
  pki_tables b' ta inters crls /\
  match r with
  | Ok _ => exists env, env_of ta inters crls = Ok env /\ pki_env b' = Some env
  | Err _ => pki_env b' = pki_env b
  end.

(** Steps that answer from what they are given. *)
Lemma bind_lift {S A B} (x : CryptoResult A) (f : A -> cc S B) (s : S) :
  (lift_res x ≫= f) s = match x with Ok a => f a s | Err e => (Err (Throw e), s) end.
Proof. by destruct x. Qed.

Lemma save_then_init {A} (x : A) b ta inters crls r b' b1 {X} (w : cc MlsCryptoProvider X) (rw : result Stop X)
    ta' inters' crls' :
  w b = (rw, b1) -> pki_env b1 = pki_env b ->
  pki_tables b1 (if is_ok rw then ta' else ta) (if is_ok rw then inters' else inters)
    (if is_ok rw then crls' else crls) ->
  (w;; init_pki_env;; mret x) b = (r, b') ->
  (registers b r b' ta' inters' crls' /\ is_ok rw = true /\ match r with Ok y => y = x | Err _ => True end) \/
  (is_ok r = false /\ registers b r b' ta inters crls).
Proof.
  intros Hw He Ht. unfold mbind at 1, stm_bind at 1. rewrite Hw. destruct rw as [y|e]; simpl in Ht.
  - unfold mbind, stm_bind. destruct (init_pki_env b1) as [ri b2] eqn:Hi.
    destruct (init_pki_env_run _ _ _ _ _ _ Ht Hi) as [Ht2 Hr].
    destruct ri as [[]|e]; intros [= <- <-]; left; split_and!; try done. split; [done|]. by rewrite Hr.
  - intros [= <- <-]. right. by split.
Qed.

Lemma get_pki_env_run b :
  get_pki_env b = (match pki_env b with Some env => Ok env | None => Err (Throw ConsumerError) end, b).
Proof. unfold get_pki_env, mbind, stm_bind. simpl. by destruct (pki_env b). Qed.

Lemma registers_nothing {A} b (r : result Stop A) b' ta inters crls :
  pki_tables b ta inters crls -> looked b b' -> is_ok r = false -> registers b r b' ta inters crls.
Proof.
  intros Ht L Hr. split; [by eapply looked_tables|]. destruct r; [done|]. by apply looked_env.
Qed.

Lemma looked_refl b ta inters crls : pki_tables b ta inters crls -> looked b b.
Proof. intros (Hh & _). exists (key_store b). by destruct b. Qed.

(** The list that is stored for a distribution point revokes other certificates than [crl]. *)
Definition crl_is_dirty (crls : list E2eiCrl) (dp : bytes) (crl : CertificateList) : Prop :=
  exists old old_crl, first (with_key dp) crls = Some old /\
    decode_der_crl (crl_content old) = Ok old_crl /\
    revoked_certificates old_crl <> revoked_certificates crl.

(** C34: registering a revocation list needs an environment that validates it; then the list is put
    in the store for its distribution point, in place of the one that was there, it is dirty
    exactly when there was one that revokes other certificates, and the environment in memory
    becomes the one the store makes, the new list included. A registration that fails leaves the
    environment as it was, and in the store either nothing has changed or the list is there. *)
Theorem e2ei_register_crl_spec b ta inters crls dp der r b' :
  pki_tables b ta inters crls -> utf8_valid dp = true -> e2ei_register_crl dp der b = (r, b') ->
  is_ok r = false /\ registers b r b' ta inters crls \/
  exists env crl content, pki_env b = Some env /\ validate_crl_with_raw env der = Ok crl /\
    encode_crl_to_der crl = Ok content /\
    registers b r b' ta inters (upsert (with_key dp) (MkE2eiCrl dp content) crls) /\
    match r with
    | Ok reg => expiration reg = extract_expiration_from_crl crl /\
        (dirty reg = true <-> crl_is_dirty crls dp crl)
    | Err _ => True
    end.
Proof.
  intros Ht Hdp. unfold e2ei_register_crl, mbind at 1, stm_bind at 1. rewrite get_pki_env_run.
  pose proof (looked_refl _ _ _ _ Ht) as L0.
  destruct (pki_env b) as [env|] eqn:He; [|intros [= <- <-]; left; by eauto using registers_nothing].
  unfold e2ei. rewrite bind_lift. destruct (validate_crl_with_raw env der) as [crl|e] eqn:Hv; simpl;
    [|intros [= <- <-]; left; by eauto using registers_nothing].
  pose proof Ht as (Hh & _ & _ & Hc).
  destruct (attempt_look _ _ _ Hh (el_find_one _ _ dp Hc Hdp)) as (b1 & Hf & L1).
  change (find_one dp) with (Connection_find (E := E2eiCrl) dp) in Hf.
  rewrite (stm_bind_ok _ _ _ _ _ Hf). clear Hf. simpl.
  assert (exists d, (match Datatypes.id <$> first (with_key dp) crls with
      | Some existing_crl =>
        old_crl ← e2ei (decode_der_crl (crl_content existing_crl));
        mret (bool_decide (revoked_certificates old_crl <> revoked_certificates crl))
      | _ => mret false
    end) b1 = (d, b1) /\ forall x, d = Ok x -> x = true <-> crl_is_dirty crls dp crl) as (d & Hd & Hdirty).
  { unfold crl_is_dirty. destruct (first (with_key dp) crls) as [old|]; simpl.
    - unfold e2ei. rewrite bind_lift. destruct (decode_der_crl (crl_content old)) as [oc|e] eqn:Hoc; simpl.
      + eexists. split; [done|]. intros x [= <-]. rewrite bool_decide_eq_true. split; [by eauto|].
        intros (? & ? & [= <-] & Hx & Hne). rewrite Hoc in Hx. by injection Hx as <-.
      + eexists. by split.
    - eexists. split; [done|]. intros x [= <-]. split; [done|]. by intros (? & ? & ? & _). }
  unfold with_key in Hd at 1. simpl in Hd.
  unfold mbind at 1, stm_bind at 1. unfold e2ei in Hd. rewrite Hd. clear Hd.
  destruct d as [d|e]; [|intros [= <- <-]; left; by eauto using registers_nothing].
  specialize (Hdirty d eq_refl).
  rewrite bind_lift. destruct (encode_crl_to_der crl) as [content|e] eqn:Hcon; simpl;
    [|intros [= <- <-]; left; by eauto using registers_nothing].
  intros Hx.
  destruct (ks (Connection_save (MkE2eiCrl dp content)) b1) as [rw b2] eqn:Hw.
  pose proof (looked_tables _ _ _ _ _ L1 Ht) as Ht1.
  destruct (save_crl _ _ _ _ _ _ _ Ht1 Hw) as [He2 Ht2].
  destruct (save_then_init (MkCrlRegistration d (extract_expiration_from_crl crl)) b1 ta inters crls r b' b2
    _ rw ta inters (upsert (with_key dp) (MkE2eiCrl dp content) crls) Hw He2) as [(Hreg & _ & Hr)|[Hr Hreg]].
  - by destruct rw.
  - exact Hx.
  - right. exists env, crl, content. split_and!; try done.
    + split; [apply Hreg|]. destruct Hreg as [_ Hreg]. destruct r; [done|].
      by rewrite Hreg, (looked_env _ _ L1), He.
    + destruct r; [|done]. by subst.
  - left. split; [done|]. destruct Hreg as [Htt Hreg]. split; [done|]. destruct r; [done|].
    by rewrite Hreg, (looked_env _ _ L1).
Qed.

Lemma register_acme_ca_inv b ta inters crls pem r b' :
  pki_tables b ta inters crls -> e2ei_register_acme_ca pem b = (r, b') ->
     match ta with
     | Some _ => r = Err (Throw (E2eiError TrustAnchorAlreadyRegistered)) /\
         registers b r b' ta inters crls
     | None => is_ok r = false /\ registers b r b' None inters crls \/
         exists env root der, pki_init [] [] [] = Ok env /\ decode_pem_cert pem = Ok root /\
           validate_trust_anchor_cert env root = Ok () /\ encode_cert_to_der root = Ok der /\
           registers b r b' (Some der) inters crls
     end.
Proof.
  intros Ht. pose proof Ht as (Hh & _).
  unfold e2ei_register_acme_ca.
  destruct (attempt_look _ _ _ Hh (find_unique_look _ _ _ _ Ht)) as (b1 & Hx1 & L1).
  rewrite (stm_bind_ok _ _ _ _ _ Hx1). clear Hx1.
  destruct ta as [c|]; simpl.
  { intros [= <- <-]. split; [done|]. by apply registers_nothing. }
  unfold e2ei. rewrite bind_lift. destruct (pki_init [] [] []) as [env|e]; simpl;
    [|intros [= <- <-]; left; by eauto using registers_nothing].
  rewrite bind_lift. destruct (decode_pem_cert pem) as [root|e] eqn:Hpem; simpl;
    [|intros [= <- <-]; left; by eauto using registers_nothing].
  rewrite bind_lift. destruct (validate_trust_anchor_cert env root) as [[]|e] eqn:Hv; simpl;
    [|intros [= <- <-]; left; by eauto using registers_nothing].
  rewrite bind_lift. destruct (encode_cert_to_der root) as [der|e] eqn:Hder; simpl;
    [|intros [= <- <-]; left; by eauto using registers_nothing].
  intros Hx. destruct (ks (E2eiAcmeCA_replace (MkE2eiAcmeCA der)) b1) as [rw b2] eqn:Hw.
  pose proof (looked_tables _ _ _ _ _ L1 Ht) as Ht1.
  destruct (replace_acme_ca _ _ _ _ _ _ Ht1 Hw) as [He2 Ht2].
  assert (exists r0, (ks (E2eiAcmeCA_replace (MkE2eiAcmeCA der));; init_pki_env;; mret ()) b1 = (r0, b') /\
    is_ok r = is_ok r0) as (r0 & Hx0 & Hok).
  { revert Hx. unfold mbind, stm_bind. rewrite Hw. destruct rw as [[]|e]; [|intros [= <- <-]; by eauto].
    destruct (init_pki_env b2) as [[[]|e] b3]; intros [= <- <-]; by eauto. }
  destruct (save_then_init () b1 None inters crls r0 b' b2 _ rw (Some der) inters crls Hw He2)
    as [(Hreg & _ & _)|[Hr Hreg]]; [by destruct rw|done|..];
    destruct Hreg as [Htt Hreg].
  + right. exists env, root, der. split_and!; try done. split; [done|].
    destruct r, r0; try done. by rewrite Hreg, (looked_env _ _ L1).
  + left. rewrite Hok. split; [done|]. split; [done|]. destruct r, r0; try done.
    by rewrite Hreg, (looked_env _ _ L1).
Qed.

Lemma register_intermediate_ca_inv b ta inters crls cert r b' :
  pki_tables b ta inters crls -> e2ei_register_intermediate_ca cert b = (r, b') ->
     is_ok r = false /\ registers b r b' ta inters crls \/
     exists root, ta = Some root /\
       (cert_from_der root = Ok cert /\ r = Ok None /\ looked b b' \/
        cert_from_der root <> Ok cert /\
        exists env ski aki der, pki_env b = Some env /\
          extract_ski_aki_from_cert cert = Ok (ski, aki) /\
          validate_cert_and_revocation env cert = Ok () /\ encode_cert_to_der cert = Ok der /\
          let pair := ski ++ ascii_bytes ":" ++ default [] aki in
          registers b r b' ta (upsert (with_key pair) (MkE2eiIntermediateCert pair der) inters) crls).
Proof.
  intros Ht. pose proof Ht as (Hh & _).
  unfold e2ei_register_intermediate_ca.
  destruct (ks_look _ _ _ Hh (find_unique_look _ _ _ _ Ht)) as (b1 & Hx1 & L1).
  pose proof (looked_tables _ _ _ _ _ L1 Ht) as Ht1.
  destruct ta as [c|]; simpl in Hx1.
  2: { rewrite (stm_bind_err _ _ _ _ _ Hx1). intros [= <- <-]. left. by eauto using registers_nothing. }
  rewrite (stm_bind_ok _ _ _ _ _ Hx1). clear Hx1. rewrite bind_lift. simpl.
  destruct (cert_from_der c) as [ta|e] eqn:Hta; simpl;
    [|intros [= <- <-]; left; by eauto using registers_nothing].
  case_bool_decide as Hct.
  { intros [= <- <-]. right. exists c. split; [done|]. left. by subst. }
  unfold e2ei. rewrite bind_lift. destruct (extract_crl_uris cert) as [dps|e]; simpl;
    [|intros [= <- <-]; left; by eauto using registers_nothing].
  rewrite bind_lift. destruct (extract_ski_aki_from_cert cert) as [[ski aki]|e] eqn:Hski; simpl;
    [|intros [= <- <-]; left; by eauto using registers_nothing].
  unfold mbind at 1, stm_bind at 1. rewrite get_pki_env_run, (looked_env _ _ L1).
  destruct (pki_env b) as [env|] eqn:He; [|intros [= <- <-]; left; by eauto using registers_nothing].
  rewrite bind_lift. destruct (validate_cert_and_revocation env cert) as [[]|e] eqn:Hv; simpl;
    [|intros [= <- <-]; left; by eauto using registers_nothing].
  rewrite bind_lift. destruct (encode_cert_to_der cert) as [der|e] eqn:Hder; simpl;
    [|intros [= <- <-]; left; by eauto using registers_nothing].
  set (pair := ski ++ _). intros Hx.
  destruct (ks (Connection_save (MkE2eiIntermediateCert pair der)) b1) as [rw b2] eqn:Hw.
  destruct (save_intermediate _ _ _ _ _ _ _ Ht1 Hw) as [He2 Ht2].
  destruct (save_then_init dps b1 (Some c) inters crls r b' b2 _ rw (Some c)
    (upsert (with_key pair) (MkE2eiIntermediateCert pair der) inters) crls Hw He2)
    as [(Hreg & _ & _)|[Hr Hreg]]; [by destruct rw|done|..]; destruct Hreg as [Htt Hreg].
  + right. exists c. split; [done|]. right. split; [congruence|]. exists env, ski, aki, der.
    split_and!; try done. split; [done|]. destruct r; [done|]. by rewrite Hreg, (looked_env _ _ L1), He.
  + left. split; [done|]. split; [done|]. destruct r; [done|]. by rewrite Hreg, (looked_env _ _ L1), He.
Qed.

(** C33: a root certificate is registered once: a second one is refused and nothing changes. The
    first one has to decode and to validate by itself; then it is in the store and the
    environment in memory is made with it. An intermediate certificate needs a root: it is
    ignored when it is the root, otherwise it has to validate in the environment in memory, and
    then it is in the store under the pair of its key identifiers and the environment is made
    with it. In every other case there is an error and the environment stays as it was. *)
Theorem e2ei_register_ca_spec b ta inters crls :
  pki_tables b ta inters crls ->
  (forall pem r b', e2ei_register_acme_ca pem b = (r, b') ->
     match ta with
     | Some _ => r = Err (Throw (E2eiError TrustAnchorAlreadyRegistered)) /\
         registers b r b' ta inters crls
     | None => is_ok r = false /\ registers b r b' None inters crls \/
         exists env root der, pki_init [] [] [] = Ok env /\ decode_pem_cert pem = Ok root /\
           validate_trust_anchor_cert env root = Ok () /\ encode_cert_to_der root = Ok der /\
           registers b r b' (Some der) inters crls
     end) /\
  (forall cert r b', e2ei_register_intermediate_ca cert b = (r, b') ->
     is_ok r = false /\ registers b r b' ta inters crls \/
     exists root, ta = Some root /\
       (cert_from_der root = Ok cert /\ r = Ok None /\ looked b b' \/
        cert_from_der root <> Ok cert /\
        exists env ski aki der, pki_env b = Some env /\
          extract_ski_aki_from_cert cert = Ok (ski, aki) /\
          validate_cert_and_revocation env cert = Ok () /\ encode_cert_to_der cert = Ok der /\
          let pair := ski ++ ascii_bytes ":" ++ default [] aki in
          registers b r b' ta (upsert (with_key pair) (MkE2eiIntermediateCert pair der) inters) crls)).
Proof.
  intros Ht. split.
  - intros pem r b'. by apply register_acme_ca_inv.
  - intros cert r b'. by apply register_intermediate_ca_inv.
Qed.
End certificates.
