(* ===== verification/Acme.v ===== *)
(** * The certificate protocol's library, and its types

    The crate [wire_e2e_identity] runs the ACME protocol, with [serde_json] and [url]: parameters.
    [e2e_identity/types.rs] gives its types in terms of bytes and strings, for the bindings, and
    takes them back. *)

From S2P Require Import Prelude CcError.
Open Scope Z_scope.

(** ** The library *)

Class AcmeTypes := {
  RustyE2eIdentity : Type;
  Url : Type;
  Value : Type;                    (* [serde_json::Value] *)
  Authorizations : Type;           (* the array of the authorizations of an order *)
  E2eiAcmeAccount : Type;
  E2eiAcmeOrder : Type;
  E2eiAcmeFinalize : Type;
}.

Inductive JwsAlgorithm : Set := JwsEd25519 | JwsP256 | JwsP384.

Section types.
Context `{AcmeTypes}.

(** The library's types that the code takes apart. *)
Record WireAcmeDirectory := MkWireDirectory {
  wd_new_nonce : Url; wd_new_account : Url; wd_new_order : Url; wd_revoke_cert : Url;
}.

Record WireAcmeChallenge := MkWireChallenge {
  wch_delegate : Value; wch_url : Url; wch_target : Url;
}.

Inductive WireAcmeAuthorization :=
  | AuthzUser (identifier keyauth : bytes) (challenge : WireAcmeChallenge)
  | AuthzDevice (identifier : bytes) (challenge : WireAcmeChallenge).

Record WireNewAcmeOrder := MkWireNewOrder {
  wo_delegate : Value; wo_authorizations : Authorizations;
}.
End types.

Class Acme `{AcmeTypes} := {
  url_parse : bytes -> result ext_error Url;
  url_to_string : Url -> bytes;
  json_from_slice : bytes -> result ext_error Value;
  json_to_vec : Value -> result ext_error bytes;
  json_to_value : bytes -> result ext_error Value;     (* [serde_json::to_value] of a [Vec<u8>] *)
  json_array : list Value -> Value;                    (* [Value::Array] *)
  json_number : Z -> Value;                            (* [Value::Number] *)
  authorizations_list : Authorizations -> list Url;
  authorizations_try_from : list Url -> option Authorizations;
  order_finalize_url : E2eiAcmeOrder -> Url;
  finalize_certificate_url : E2eiAcmeFinalize -> Url;
  rusty_try_new : JwsAlgorithm -> bytes -> result ext_error RustyE2eIdentity;
  acme_directory_response : RustyE2eIdentity -> Value -> result ext_error WireAcmeDirectory;
  acme_new_account_request : RustyE2eIdentity -> WireAcmeDirectory -> bytes -> result ext_error Value;
  acme_new_account_response : RustyE2eIdentity -> Value -> result ext_error E2eiAcmeAccount;
  acme_new_order_request : RustyE2eIdentity -> bytes -> bytes -> bytes -> Z -> WireAcmeDirectory ->
    E2eiAcmeAccount -> bytes -> result ext_error Value;
  acme_new_order_response : RustyE2eIdentity -> Value -> result ext_error WireNewAcmeOrder;
  acme_new_authz_request : RustyE2eIdentity -> Url -> E2eiAcmeAccount -> bytes -> result ext_error Value;
  acme_new_authz_response : RustyE2eIdentity -> Value -> result ext_error WireAcmeAuthorization;
  new_dpop_token : RustyE2eIdentity -> bytes -> bytes -> WireAcmeChallenge -> bytes -> bytes ->
    option bytes -> Z -> result ext_error bytes;
  acme_dpop_challenge_request : RustyE2eIdentity -> bytes -> WireAcmeChallenge -> E2eiAcmeAccount ->
    bytes -> result ext_error Value;
  acme_new_challenge_response : RustyE2eIdentity -> Value -> result ext_error ();
  acme_oidc_challenge_request : RustyE2eIdentity -> bytes -> WireAcmeChallenge -> E2eiAcmeAccount ->
    bytes -> result ext_error Value;
  acme_check_order_request : RustyE2eIdentity -> Url -> E2eiAcmeAccount -> bytes -> result ext_error Value;
  acme_check_order_response : RustyE2eIdentity -> Value -> result ext_error E2eiAcmeOrder;
  acme_finalize_request : RustyE2eIdentity -> E2eiAcmeOrder -> E2eiAcmeAccount -> bytes ->
    result ext_error Value;
  acme_finalize_response : RustyE2eIdentity -> Value -> result ext_error E2eiAcmeFinalize;
  acme_x509_certificate_request : RustyE2eIdentity -> E2eiAcmeFinalize -> E2eiAcmeAccount -> bytes ->
    result ext_error Value;
  acme_x509_certificate_response : RustyE2eIdentity -> bytes -> E2eiAcmeOrder ->
    result ext_error (list bytes);
}.

(** How [serde_json] writes numbers (those of a byte suffice) and arrays. *)
Definition decimal_digit (n : Z) : Byte.byte := byte_of (48 + n)%Z.

Definition decimal (n : Z) : bytes :=
  if Z.ltb n 10 then [decimal_digit n]
  else if Z.ltb n 100 then [decimal_digit (n / 10)%Z; decimal_digit (n mod 10)%Z]
  else [decimal_digit (n / 100)%Z; decimal_digit (n / 10 mod 10)%Z; decimal_digit (n mod 10)%Z].

Fixpoint comma_separated (ts : list bytes) : bytes :=
  match ts with
  | [] => []
  | [t] => t
  | t :: ts => t ++ byte_of 44 :: comma_separated ts
  end.

Definition array_text (ts : list bytes) : bytes := byte_of 91 :: comma_separated ts ++ [byte_of 93].

(** What a URL prints parses again, and so does what JSON writes; bytes become the array of their
    numbers, and an array is written between brackets. *)
Class AcmeLaws `{Acme} := {
  url_parse_to_string u : url_parse (url_to_string u) = Ok u;
  json_read_write v b : json_to_vec v = Ok b -> json_from_slice b = Ok v;
  json_bytes_value b : json_to_value b = Ok (json_array ((fun x => json_number (byte_val x)) <$> b));
  json_number_text n : (0 <= n < 256)%Z -> json_to_vec (json_number n) = Ok (decimal n);
  json_array_text vs ts : Forall2 (fun v t => json_to_vec v = Ok t) vs ts ->
    json_to_vec (json_array vs) = Ok (array_text ts);
  authorizations_back a : authorizations_try_from (authorizations_list a) = Some a;
}.

Abbreviation E2eIdentityResult := (result E2eIdentityError).

(** ** [types.rs] *)

Section acme.
Context `{Acme}.

(** [?] on an error of [serde_json], of [url] and of the library. *)
Definition json_err {A} (r : result ext_error A) : E2eIdentityResult A := map_err E2eJsonError r.
Definition url_err {A} (r : result ext_error A) : E2eIdentityResult A := map_err UrlError r.
Definition acme_err {A} (r : result ext_error A) : E2eIdentityResult A := map_err IdentityError r.

Record E2eiAcmeDirectory := MkDirectory {
  new_nonce : bytes; new_account : bytes; new_order : bytes; revoke_cert : bytes;
}.

Definition E2eiAcmeDirectory_from (directory : WireAcmeDirectory) : E2eiAcmeDirectory := {|
  new_nonce := url_to_string (wd_new_nonce directory);
  new_account := url_to_string (wd_new_account directory);
  new_order := url_to_string (wd_new_order directory);
  revoke_cert := url_to_string (wd_revoke_cert directory);
|}.

Definition AcmeDirectory_try_from (directory : E2eiAcmeDirectory) : E2eIdentityResult WireAcmeDirectory :=
  new_nonce ← url_err (url_parse (new_nonce directory));
  new_account ← url_err (url_parse (new_account directory));
  new_order ← url_err (url_parse (new_order directory));
  revoke_cert ← url_err (url_parse (revoke_cert directory));
  Ok (MkWireDirectory new_nonce new_account new_order revoke_cert).

Record E2eiNewAcmeOrder := MkNewOrder { no_delegate : bytes; no_authorizations : list bytes }.

Definition E2eiNewAcmeOrder_try_from (new_order : WireNewAcmeOrder) : E2eIdentityResult E2eiNewAcmeOrder :=
  delegate ← json_err (json_to_vec (wo_delegate new_order));
  Ok (MkNewOrder delegate (url_to_string <$> authorizations_list (wo_authorizations new_order))).

Definition WireNewAcmeOrder_try_from (new_order : E2eiNewAcmeOrder) : E2eIdentityResult WireNewAcmeOrder :=
  authorizations ← url_err (try_map url_parse (no_authorizations new_order));
  authorizations ← ok_or E2eImplementationError (authorizations_try_from authorizations);
  delegate ← json_err (json_to_value (no_delegate new_order));
  Ok (MkWireNewOrder delegate authorizations).

Record E2eiAcmeChallenge := MkChallenge { ch_delegate : bytes; ch_url : bytes; ch_target : bytes }.

Definition E2eiAcmeChallenge_try_from (chall : WireAcmeChallenge) : E2eIdentityResult E2eiAcmeChallenge :=
  delegate ← json_err (json_to_vec (wch_delegate chall));
  Ok (MkChallenge delegate (url_to_string (wch_url chall)) (url_to_string (wch_target chall))).

Definition WireAcmeChallenge_try_from (chall : E2eiAcmeChallenge) : E2eIdentityResult WireAcmeChallenge :=
  delegate ← json_err (json_from_slice (ch_delegate chall));
  url ← url_err (url_parse (ch_url chall));
  target ← url_err (url_parse (ch_target chall));
  Ok (MkWireChallenge delegate url target).

Record E2eiNewAcmeAuthz := MkNewAuthz {
  na_identifier : bytes; na_keyauth : option bytes; na_challenge : E2eiAcmeChallenge;
}.

Definition E2eiNewAcmeAuthz_try_from (authz : WireAcmeAuthorization) : E2eIdentityResult E2eiNewAcmeAuthz :=
  match authz with
  | AuthzUser identifier keyauth challenge =>
      challenge ← E2eiAcmeChallenge_try_from challenge;
      Ok (MkNewAuthz identifier (Some keyauth) challenge)
  | AuthzDevice identifier challenge =>
      challenge ← E2eiAcmeChallenge_try_from challenge;
      Ok (MkNewAuthz identifier None challenge)
  end.

Definition WireAcmeAuthorization_try_from (authz : E2eiNewAcmeAuthz) :
    E2eIdentityResult WireAcmeAuthorization :=
  match na_keyauth authz with
  | None =>
      challenge ← WireAcmeChallenge_try_from (na_challenge authz);
      Ok (AuthzDevice (na_identifier authz) challenge)
  | Some keyauth =>
      challenge ← WireAcmeChallenge_try_from (na_challenge authz);
      Ok (AuthzUser (na_identifier authz) keyauth challenge)
  end.
End acme.

(** ** There and back *)

Section roundtrip.
Context `{AcmeLaws}.

Lemma try_map_urls us : try_map url_parse (url_to_string <$> us) = Ok us.
Proof. induction us as [|u us IH]; [done|]. csimpl. by rewrite url_parse_to_string, IH. Qed.

Lemma challenge_back chall x :
  E2eiAcmeChallenge_try_from chall = Ok x -> WireAcmeChallenge_try_from x = Ok chall.
Proof.
  unfold E2eiAcmeChallenge_try_from, json_err. destruct (json_to_vec _) as [b|] eqn:Hb; [|done].
  intros [= <-]. unfold WireAcmeChallenge_try_from, json_err, url_err. simpl.
  rewrite (json_read_write _ _ Hb), !url_parse_to_string. by destruct chall.
Qed.

Lemma comma_separated_length ts : Forall (fun t => t <> []) ts ->
  (length ts <= length (comma_separated ts))%nat.
Proof.
  induction 1 as [|t ts Ht _ IH]; [done|]. destruct t as [|b t]; [done|].
  destruct ts as [|u ts]; [cbn; lia|].
  change (comma_separated ((b :: t) :: u :: ts)) with ((b :: t) ++ byte_of 44 :: comma_separated (u :: ts)).
  rewrite length_app. simpl in *. lia.
Qed.

(** The array of the numbers of a text is written as a longer text. *)
Definition bytes_array (b : bytes) : Value := json_array ((fun x => json_number (byte_val x)) <$> b).

Lemma bytes_array_text b :
  exists t, json_to_vec (bytes_array b) = Ok t /\ (length b < length t)%nat.
Proof.
  set (ts := (fun x => decimal (byte_val x)) <$> b). exists (array_text ts). split.
  - apply json_array_text. subst ts. induction b as [|x b IH]; constructor; [|done].
    apply json_number_text, byte_val_range.
  - assert (length b <= length (comma_separated ts))%nat as Hl.
    { rewrite <-(length_fmap (fun x => decimal (byte_val x)) b). apply comma_separated_length.
      apply Forall_fmap, Forall_true. intros x. cbn. unfold decimal.
      by destruct (Z.ltb (byte_val x) 10), (Z.ltb (byte_val x) 100). }
    unfold array_text. cbn [length]. rewrite length_app. cbn [length]. lia.
Qed.

(** C40: what the bindings are given of the certificate protocol reads back: a directory, a challenge
    and an authorization come back as they were. An order does not: its JSON is written out as
    text, but taken back as the array of the numbers of that text's bytes, which is never the
    value it was written from; its authorizations come back. *)
Theorem acme_types_roundtrip :
  (forall d, AcmeDirectory_try_from (E2eiAcmeDirectory_from d) = Ok d) /\
  (forall c x, E2eiAcmeChallenge_try_from c = Ok x -> WireAcmeChallenge_try_from x = Ok c) /\
  (forall a x, E2eiNewAcmeAuthz_try_from a = Ok x -> WireAcmeAuthorization_try_from x = Ok a) /\
  (forall o x, E2eiNewAcmeOrder_try_from o = Ok x ->
     exists b, json_to_vec (wo_delegate o) = Ok b /\
       WireNewAcmeOrder_try_from x =
         Ok (MkWireNewOrder (json_array ((fun y => json_number (byte_val y)) <$> b)) (wo_authorizations o)) /\
       WireNewAcmeOrder_try_from x <> Ok o).
Proof.
  split; [|split; [|split]].
  - intros d. unfold AcmeDirectory_try_from, url_err. simpl. rewrite !url_parse_to_string. by destruct d.
  - apply challenge_back.
  - intros a x. destruct a as [i k c|i c]; simpl;
      destruct (E2eiAcmeChallenge_try_from c) as [y|] eqn:Hc; try done;
      intros [= <-]; unfold WireAcmeAuthorization_try_from; simpl; by rewrite (challenge_back _ _ Hc).
  - intros o x. unfold E2eiNewAcmeOrder_try_from, json_err. destruct (json_to_vec _) as [b|] eqn:Hb; [|done].
    intros [= <-]. exists b. split; [done|]. unfold WireNewAcmeOrder_try_from, url_err, json_err. simpl.
    rewrite try_map_urls. simpl. rewrite authorizations_back. simpl. rewrite json_bytes_value. simpl.
    split; [done|]. destruct o as [d a]. cbn [wo_delegate] in *. intros [= Hd].
    destruct (bytes_array_text b) as (t & Ht & Hlen). unfold bytes_array in Ht. rewrite Hd, Hb in Ht.
    injection Ht as <-. lia.
Qed.
End roundtrip.
