(* ===== verification/Enrollment.v ===== *)
(** * Enrollments

    [E2eiEnrollment] of [crypto/src/e2e_identity]: the steps by which a client gets a certificate
    ([mod.rs]), its signature key ([crypto.rs]), its refresh token ([refresh_token.rs]), and
    putting it aside ([stash.rs]). *)

From S2P Require Import Prelude KsError Sql SqlSpec Entity TableFrame E2eiEntities Keystore.
From S2P Require Import CcError Ids Backend OpenMls Config Credential Acme.
Open Scope Z_scope.

(** ** [crypto.rs] *)

Definition SIGN_KEY_LENGTH : nat := 32.
Definition SIGN_KEYPAIR_LENGTH : nat := SIGN_KEY_LENGTH * 2.

Definition JwsAlgorithm_try_from (cs : Ciphersuite) : E2eIdentityResult JwsAlgorithm :=
  match cs with
  | MLS_128_DHKEMX25519_AES128GCM_SHA256_Ed25519
  | MLS_128_DHKEMX25519_CHACHA20POLY1305_SHA256_Ed25519
  | MLS_128_X25519KYBER768DRAFT00_AES128GCM_SHA256_Ed25519 => Ok JwsEd25519
  | MLS_128_DHKEMP256_AES128GCM_SHA256_P256 => Ok JwsP256
  | MLS_256_DHKEMP384_AES256GCM_SHA384_P384 => Ok JwsP384
  | MLS_256_DHKEMX448_AES256GCM_SHA512_Ed448
  | MLS_256_DHKEMP521_AES256GCM_SHA512_P521
  | MLS_256_DHKEMX448_CHACHA20POLY1305_SHA512_Ed448 => Err NotYetSupported
  end.

(** The two keys, one after the other. *)
Abbreviation E2eiSignatureKeypair := bytes.
Definition E2eiSignatureKeypair_from (kp : bytes * bytes) : E2eiSignatureKeypair := kp.1 ++ kp.2.

(** The private key of 32 bytes, of as many bytes or of a pair. *)
Definition sign_key_of (sk : bytes) : CryptoResult bytes :=
  if Nat.eqb (length sk) SIGN_KEYPAIR_LENGTH then Ok (take SIGN_KEY_LENGTH sk)
  else if Nat.eqb (length sk) SIGN_KEY_LENGTH then Ok sk
  else Err (E2eiError InvalidSignatureKey).

Definition E2eiSignatureKeypair_try_from (kp : SignatureKeyPair) : CryptoResult E2eiSignatureKeypair :=
  sk ← sign_key_of (skp_private kp);
  Ok (E2eiSignatureKeypair_from (sk, skp_public kp)).

Section enrollment.
Context `{SqlEngine, Provider, OpenMlsTypes} `{!OpenMls} `{!IdCodecs} `{Acme}.

Definition new_sign_key (cs : Ciphersuite) : cc MlsCryptoProvider E2eiSignatureKeypair :=
  kp ← prov (fun e => MlsErrorC (MlsCryptoError e)) (signature_key_gen (signature_algorithm cs));
  mret (E2eiSignatureKeypair_from kp).

(** ** [E2eiEnrollment] *)

Record Enrollment := MkEnrollment {
  delegate : RustyE2eIdentity;
  sign_sk : E2eiSignatureKeypair;
  enr_client_id : bytes;
  display_name : bytes;
  handle : bytes;
  team : option bytes;
  expiry : Z;                                     (* seconds *)
  directory : option E2eiAcmeDirectory;
  account : option E2eiAcmeAccount;
  user_authz : option WireAcmeAuthorization;
  device_authz : option WireAcmeAuthorization;
  valid_order : option E2eiAcmeOrder;
  finalize : option E2eiAcmeFinalize;
  enr_ciphersuite : Ciphersuite;
  refresh_token : option bytes;
}.

Definition set_directory x (e : Enrollment) : Enrollment :=
  MkEnrollment (delegate e) (sign_sk e) (enr_client_id e) (display_name e) (handle e) (team e) (expiry e)
    x (account e) (user_authz e) (device_authz e) (valid_order e) (finalize e) (enr_ciphersuite e) (refresh_token e).
Definition set_account x (e : Enrollment) : Enrollment :=
  MkEnrollment (delegate e) (sign_sk e) (enr_client_id e) (display_name e) (handle e) (team e) (expiry e)
    (directory e) x (user_authz e) (device_authz e) (valid_order e) (finalize e) (enr_ciphersuite e) (refresh_token e).
Definition set_user_authz x (e : Enrollment) : Enrollment :=
  MkEnrollment (delegate e) (sign_sk e) (enr_client_id e) (display_name e) (handle e) (team e) (expiry e)
    (directory e) (account e) x (device_authz e) (valid_order e) (finalize e) (enr_ciphersuite e) (refresh_token e).
Definition set_device_authz x (e : Enrollment) : Enrollment :=
  MkEnrollment (delegate e) (sign_sk e) (enr_client_id e) (display_name e) (handle e) (team e) (expiry e)
    (directory e) (account e) (user_authz e) x (valid_order e) (finalize e) (enr_ciphersuite e) (refresh_token e).
Definition set_valid_order x (e : Enrollment) : Enrollment :=
  MkEnrollment (delegate e) (sign_sk e) (enr_client_id e) (display_name e) (handle e) (team e) (expiry e)
    (directory e) (account e) (user_authz e) (device_authz e) x (finalize e) (enr_ciphersuite e) (refresh_token e).
Definition set_finalize x (e : Enrollment) : Enrollment :=
  MkEnrollment (delegate e) (sign_sk e) (enr_client_id e) (display_name e) (handle e) (team e) (expiry e)
    (directory e) (account e) (user_authz e) (device_authz e) (valid_order e) x (enr_ciphersuite e) (refresh_token e).
Definition set_refresh_token x (e : Enrollment) : Enrollment :=
  MkEnrollment (delegate e) (sign_sk e) (enr_client_id e) (display_name e) (handle e) (team e) (expiry e)
    (directory e) (account e) (user_authz e) (device_authz e) (valid_order e) (finalize e) (enr_ciphersuite e) x.

Definition try_new (client_id display_name handle : bytes) (team : option bytes) (expiry_sec : Z)
    (cs : Ciphersuite) (sign_keypair : option E2eiSignatureKeypair) (refresh_token : option bytes) :
    cc MlsCryptoProvider Enrollment :=
  alg ← lift_res (map_err E2eiError (JwsAlgorithm_try_from cs));
  sign_sk ← (match sign_keypair with Some kp => mret kp | None => new_sign_key cs end);
  client_id ← lift_res (QualifiedE2eiClientId_try_from client_id);
  client_id ← lift_res (QualifiedClientId_to_String client_id);
  delegate ← lift_res (map_err (fun e => E2eiError (IdentityError e)) (rusty_try_new alg sign_sk));
  mret {|
    delegate := delegate; sign_sk := sign_sk; enr_client_id := client_id; display_name := display_name;
    handle := handle; team := team; expiry := expiry_sec;
    directory := None; account := None; user_authz := None; device_authz := None;
    valid_order := None; finalize := None; enr_ciphersuite := cs; refresh_token := refresh_token;
  |}.

Definition get_sign_key_for_mls (self : Enrollment) : CryptoResult bytes := sign_key_of (sign_sk self).

(** ** The steps

    A method with [&self] is a function of the enrollment, one with [&mut self] a computation. *)

Abbreviation step A := (stm Enrollment E2eIdentityError A).

Definition out_of_order {A} (msg : string) (o : option A) : E2eIdentityResult A :=
  ok_or (OutOfOrderEnrollment msg) o.

Definition need_directory := "You must first call 'directoryResponse()'"%string.
Definition need_account := "You must first call 'newAccountResponse()'"%string.
Definition need_authz := "You must first call 'newAuthzResponse()'"%string.
Definition need_order := "You must first call 'checkOrderResponse()'"%string.
Definition need_finalize := "You must first call 'finalizeResponse()'"%string.
Definition need_oidc := "You must first call 'new_oidc_challenge_request()'"%string.

Definition directory_response (body : bytes) : step E2eiAcmeDirectory :=
  self ← st_get;
  directory ← st_lift (json_err (json_from_slice body));
  directory ← st_lift (acme_err (acme_directory_response (delegate self) directory));
  let directory := E2eiAcmeDirectory_from directory in
  st_modify (set_directory (Some directory));;
  mret directory.

Definition new_account_request (self : Enrollment) (previous_nonce : bytes) : E2eIdentityResult bytes :=
  directory ← out_of_order need_directory (directory self);
  directory ← AcmeDirectory_try_from directory;
  account ← acme_err (acme_new_account_request (delegate self) directory previous_nonce);
  json_err (json_to_vec account).

Definition new_account_response (body : bytes) : step () :=
  self ← st_get;
  account ← st_lift (json_err (json_from_slice body));
  account ← st_lift (acme_err (acme_new_account_response (delegate self) account));
  st_modify (set_account (Some account)).

Definition new_order_request (self : Enrollment) (previous_nonce : bytes) : E2eIdentityResult bytes :=
  directory ← out_of_order need_directory (directory self);
  account ← out_of_order need_account (account self);
  directory ← AcmeDirectory_try_from directory;
  order ← acme_err (acme_new_order_request (delegate self) (display_name self) (enr_client_id self)
    (handle self) (expiry self) directory account previous_nonce);
  json_err (json_to_vec order).

Definition new_order_response (self : Enrollment) (body : bytes) : E2eIdentityResult E2eiNewAcmeOrder :=
  order ← json_err (json_from_slice body);
  order ← acme_err (acme_new_order_response (delegate self) order);
  E2eiNewAcmeOrder_try_from order.

Definition new_authz_request (self : Enrollment) (url previous_nonce : bytes) : E2eIdentityResult bytes :=
  account ← out_of_order need_account (account self);
  url ← url_err (url_parse url);
  authz ← acme_err (acme_new_authz_request (delegate self) url account previous_nonce);
  json_err (json_to_vec authz).

Definition new_authz_response (body : bytes) : step E2eiNewAcmeAuthz :=
  self ← st_get;
  authz ← st_lift (json_err (json_from_slice body));
  authz ← st_lift (acme_err (acme_new_authz_response (delegate self) authz));
  st_modify (match authz with
    | AuthzUser _ _ _ => set_user_authz (Some authz)
    | AuthzDevice _ _ => set_device_authz (Some authz)
    end);;
  st_lift (E2eiNewAcmeAuthz_try_from authz).

Definition device_challenge (self : Enrollment) : E2eIdentityResult WireAcmeChallenge :=
  authz ← out_of_order need_authz (device_authz self);
  match authz with
  | AuthzDevice _ challenge => Ok challenge
  | AuthzUser _ _ _ => Err E2eImplementationError
  end.

Definition create_dpop_token (self : Enrollment) (expiry_secs : Z) (backend_nonce : bytes) :
    E2eIdentityResult bytes :=
  challenge ← device_challenge self;
  acme_err (new_dpop_token (delegate self) (enr_client_id self) (display_name self) challenge
    backend_nonce (handle self) (team self) expiry_secs).

Definition new_dpop_challenge_request (self : Enrollment) (access_token previous_nonce : bytes) :
    E2eIdentityResult bytes :=
  challenge ← device_challenge self;
  account ← out_of_order need_account (account self);
  challenge ← acme_err (acme_dpop_challenge_request (delegate self) access_token challenge account previous_nonce);
  json_err (json_to_vec challenge).

Definition new_dpop_challenge_response (self : Enrollment) (challenge : bytes) : E2eIdentityResult () :=
  challenge ← json_err (json_from_slice challenge);
  acme_err (acme_new_challenge_response (delegate self) challenge).

Definition new_oidc_challenge_request (id_token refresh_token previous_nonce : bytes) : step bytes :=
  if bool_decide (refresh_token = []) then st_fail InvalidRefreshToken
  else
    self ← st_get;
    authz ← st_lift (out_of_order need_authz (user_authz self));
    challenge ← st_lift (match authz with
      | AuthzUser _ _ challenge => Ok challenge
      | AuthzDevice _ _ => Err E2eImplementationError
      end);
    account ← st_lift (out_of_order need_account (account self));
    challenge ← st_lift (acme_err (acme_oidc_challenge_request (delegate self) id_token challenge account previous_nonce));
    challenge ← st_lift (json_err (json_to_vec challenge));
    st_modify (set_refresh_token (Some refresh_token));;
    mret challenge.

Definition check_order_request (self : Enrollment) (order_url previous_nonce : bytes) : E2eIdentityResult bytes :=
  account ← out_of_order need_account (account self);
  order_url ← url_err (url_parse order_url);
  order ← acme_err (acme_check_order_request (delegate self) order_url account previous_nonce);
  json_err (json_to_vec order).

Definition check_order_response (body : bytes) : step bytes :=
  self ← st_get;
  order ← st_lift (json_err (json_from_slice body));
  valid_order ← st_lift (acme_err (acme_check_order_response (delegate self) order));
  let finalize_url := url_to_string (order_finalize_url valid_order) in
  st_modify (set_valid_order (Some valid_order));;
  mret finalize_url.

Definition finalize_request (self : Enrollment) (previous_nonce : bytes) : E2eIdentityResult bytes :=
  account ← out_of_order need_account (account self);
  order ← out_of_order need_order (valid_order self);
  finalize ← acme_err (acme_finalize_request (delegate self) order account previous_nonce);
  json_err (json_to_vec finalize).

Definition finalize_response (body : bytes) : step bytes :=
  self ← st_get;
  finalize ← st_lift (json_err (json_from_slice body));
  finalize ← st_lift (acme_err (acme_finalize_response (delegate self) finalize));
  let certificate_url := url_to_string (finalize_certificate_url finalize) in
  st_modify (set_finalize (Some finalize));;
  mret certificate_url.

(** [self.field.take()] comes before the error. *)
Definition certificate_request (previous_nonce : bytes) : step bytes :=
  self ← st_get;
  st_modify (set_account None);;
  account ← st_lift (out_of_order need_account (account self));
  st_modify (set_finalize None);;
  finalize ← st_lift (out_of_order need_finalize (finalize self));
  certificate ← st_lift (acme_err (acme_x509_certificate_request (delegate self) finalize account previous_nonce));
  st_lift (json_err (json_to_vec certificate)).

(** The enrollment is used up. *)
Definition certificate_response (self : Enrollment) (certificate_chain : bytes) : E2eIdentityResult (list bytes) :=
  order ← out_of_order need_order (valid_order self);
  acme_err (acme_x509_certificate_response (delegate self) certificate_chain order).

(** ** The refresh token *)

Definition get_refresh_token (self : Enrollment) : E2eIdentityResult bytes :=
  out_of_order "No OIDC refresh token registered yet or it has been persisted" (refresh_token self).

Definition replace_refresh_token (rt : bytes) : stm MlsCryptoProvider CryptoKeystoreError () := fun b =>
  let (r, c) := exec_prog (E2eiRefreshToken_replace (MkE2eiRefreshToken rt)) (key_store b) in
  (r, set_key_store c b).

Definition RefreshToken_try_from (entity : E2eiRefreshToken) : CryptoResult bytes :=
  if utf8_valid (rt_content entity) then Ok (rt_content entity) else Err StringUtf8Error.

Definition find_refresh_token : cc MlsCryptoProvider bytes :=
  entity ← ks E2eiRefreshToken_find_unique;
  lift_res (RefreshToken_try_from entity).

(** The token is taken out of the enrollment before it is stored. *)
Definition new_oidc_challenge_response (challenge : bytes) :
    stm (MlsCryptoProvider * Enrollment) E2eIdentityError () := fun s =>
  let (b, self) := s in
  match (challenge ← json_err (json_from_slice challenge);
         acme_err (acme_new_challenge_response (delegate self) challenge)) with
  | Err e => (Err e, (b, self))
  | Ok () =>
      match refresh_token self with
      | None => (Err (OutOfOrderEnrollment need_oidc), (b, self))
      | Some rt =>
          let (r, b) := replace_refresh_token rt b in
          (map_err E2eKeyStoreError r, (b, set_refresh_token None self))
      end
  end.
End enrollment.

(** ** [stash.rs] *)

Section stash.
Context `{SqlEngine, Provider, OpenMlsTypes} `{!OpenMls} `{Acme}.

(** [serde_json] on an enrollment. *)
Class EnrollmentSerde := {
  enr_to_vec : Enrollment -> result ext_error bytes;
  enr_from_slice : bytes -> result ext_error Enrollment;
}.

Context `{!EnrollmentSerde}.

Definition HANDLE_SIZE : nat := 32.

Definition stash (self : Enrollment) : cc MlsCryptoProvider bytes :=
  content ← lift_res (map_err JsonError (enr_to_vec self));
  handle ← prov MlsProviderError (random_vec HANDLE_SIZE);
  ks (save_e2ei_enrollment handle content);;
  mret handle.

Definition stash_pop (handle : bytes) : cc MlsCryptoProvider Enrollment :=
  content ← ks (pop_e2ei_enrollment handle);
  lift_res (map_err JsonError (enr_from_slice content)).
End stash.
