(* ===== verification/EnrollmentSpec.v ===== *)
(** * What an enrollment promises

    The steps of an enrollment come in an order. A small state machine says which calls are allowed
    in which state; the methods implement it. *)

From S2P Require Import Prelude KsError Sql SqlSpec Entity TableFrame E2eiEntities Keystore.
From S2P Require Import CcError Ids Backend OpenMls Config Credential Acme Enrollment.
Open Scope Z_scope.

(** ** The state machine *)

Inductive EnrollmentCall :=
  | CDirectoryResponse (body : bytes)
  | CNewAccountRequest (nonce : bytes)
  | CNewAccountResponse (body : bytes)
  | CNewOrderRequest (nonce : bytes)
  | CNewOrderResponse (body : bytes)
  | CNewAuthzRequest (url nonce : bytes)
  | CNewAuthzResponse (body : bytes)
  | CDpopToken (expiry : Z) (nonce : bytes)
  | CDpopRequest (token nonce : bytes)
  | CDpopResponse (body : bytes)
  | COidcRequest (id_token refresh_token nonce : bytes)
  | COidcResponse (body : bytes)
  | CCheckOrderRequest (url nonce : bytes)
  | CCheckOrderResponse (body : bytes)
  | CFinalizeRequest (nonce : bytes)
  | CFinalizeResponse (body : bytes)
  | CCertificateRequest (nonce : bytes).

(** What an enrollment has got so far. *)
Record progress := MkProgress {
  p_directory : bool; p_account : bool; p_user : bool; p_device : bool;
  p_order : bool; p_finalize : bool; p_token : bool;
}.

(** What a call needs, in the order in which it is asked for. *)
Definition needs (c : EnrollmentCall) : list ((progress -> bool) * string) :=
  match c with
  | CNewAccountRequest _ => [(p_directory, need_directory)]
  | CNewOrderRequest _ => [(p_directory, need_directory); (p_account, need_account)]
  | CNewAuthzRequest _ _ | CCheckOrderRequest _ _ => [(p_account, need_account)]
  | CDpopToken _ _ => [(p_device, need_authz)]
  | CDpopRequest _ _ => [(p_device, need_authz); (p_account, need_account)]
  | COidcRequest _ _ _ => [(p_user, need_authz); (p_account, need_account)]
  | COidcResponse _ => [(p_token, need_oidc)]
  | CFinalizeRequest _ => [(p_account, need_account); (p_order, need_order)]
  | CCertificateRequest _ => [(p_account, need_account); (p_finalize, need_finalize)]
  | _ => []
  end.

Fixpoint first_missing (l : list ((progress -> bool) * string)) (p : progress) : option string :=
  match l with
  | [] => None
  | (has, msg) :: l => if has p then first_missing l p else Some msg
  end.

Definition missing (c : EnrollmentCall) : progress -> option string := first_missing (needs c).

(** Is what is missing the first thing the call looks at? *)
Definition asks_first (c : EnrollmentCall) : bool :=
  match c with
  | COidcRequest _ [] _ | COidcResponse _ => false
  | _ => true
  end.

Definition with_user (p : progress) : progress :=
  MkProgress (p_directory p) (p_account p) true (p_device p) (p_order p) (p_finalize p) (p_token p).
Definition with_device (p : progress) : progress :=
  MkProgress (p_directory p) (p_account p) (p_user p) true (p_order p) (p_finalize p) (p_token p).
Definition with_token (t : bool) (p : progress) : progress :=
  MkProgress (p_directory p) (p_account p) (p_user p) (p_device p) (p_order p) (p_finalize p) t.
Definition with_account (p : progress) : progress :=
  MkProgress (p_directory p) true (p_user p) (p_device p) (p_order p) (p_finalize p) (p_token p).
(** The account and the finalized order are used up. *)
Definition spent (p : progress) : progress :=
  MkProgress (p_directory p) false (p_user p) (p_device p) (p_order p) false (p_token p).

(** The states a call can lead to. *)
Definition outcomes (c : EnrollmentCall) (ok : bool) (p : progress) : list progress :=
  match c, ok with
  | CDirectoryResponse _, true =>
      [MkProgress true (p_account p) (p_user p) (p_device p) (p_order p) (p_finalize p) (p_token p)]
  | CNewAccountResponse _, true => [with_account p]
  | CNewAuthzResponse _, true => [with_user p; with_device p]
  | CNewAuthzResponse _, false => [p; with_user p; with_device p]
  | COidcRequest _ _ _, true => [with_token true p]
  | COidcResponse _, true => [with_token false p]
  | COidcResponse _, false => [p; with_token false p]
  | CCheckOrderResponse _, true =>
      [MkProgress (p_directory p) (p_account p) (p_user p) (p_device p) true (p_finalize p) (p_token p)]
  | CFinalizeResponse _, true =>
      [MkProgress (p_directory p) (p_account p) (p_user p) (p_device p) (p_order p) true (p_token p)]
  | CCertificateRequest _, _ => if p_account p then [spent p] else [p]
  | _, _ => [p]
  end.

Definition fresh_progress (token : bool) : progress := MkProgress false false false false false false token.

(** ** The calls *)

Section spec.
Context `{SqlEngine, Provider, OpenMlsTypes} `{!OpenMls} `{!IdCodecs} `{Acme}.

Definition has {A} (o : option A) : bool := match o with Some _ => true | None => false end.

Definition progress_of (e : Enrollment) : progress :=
  MkProgress (has (directory e)) (has (account e)) (has (user_authz e)) (has (device_authz e))
    (has (valid_order e)) (has (finalize e)) (has (refresh_token e)).

Abbreviation EnrState := (MlsCryptoProvider * Enrollment)%type.

Definition reading {A} (f : Enrollment -> E2eIdentityResult A) : stm EnrState E2eIdentityError () :=
  fun s => (match f s.2 with Ok _ => Ok () | Err e => Err e end, s).
Definition stepping {A} (m : stm Enrollment E2eIdentityError A) : stm EnrState E2eIdentityError () :=
  fun s => let (r, e) := m s.2 in (match r with Ok _ => Ok () | Err e => Err e end, (s.1, e)).

Definition exec (c : EnrollmentCall) : stm EnrState E2eIdentityError () :=
  match c with
  | CDirectoryResponse b => stepping (directory_response b)
  | CNewAccountRequest n => reading (fun e => new_account_request e n)
  | CNewAccountResponse b => stepping (new_account_response b)
  | CNewOrderRequest n => reading (fun e => new_order_request e n)
  | CNewOrderResponse b => reading (fun e => new_order_response e b)
  | CNewAuthzRequest u n => reading (fun e => new_authz_request e u n)
  | CNewAuthzResponse b => stepping (new_authz_response b)
  | CDpopToken x n => reading (fun e => create_dpop_token e x n)
  | CDpopRequest t n => reading (fun e => new_dpop_challenge_request e t n)
  | CDpopResponse b => reading (fun e => new_dpop_challenge_response e b)
  | COidcRequest i t n => stepping (new_oidc_challenge_request i t n)
  | COidcResponse b => new_oidc_challenge_response b
  | CCheckOrderRequest u n => reading (fun e => check_order_request e u n)
  | CCheckOrderResponse b => stepping (check_order_response b)
  | CFinalizeRequest n => reading (fun e => finalize_request e n)
  | CFinalizeResponse b => stepping (finalize_response b)
  | CCertificateRequest n => stepping (certificate_request n)
  end.

(** ** The methods implement the state machine *)

Definition implements (c : EnrollmentCall) (s : EnrState) (r : E2eIdentityResult ()) (s' : EnrState) : Prop :=
  match missing c (progress_of s.2) with
  | Some msg => exists e, r = Err e /\ (asks_first c = true -> e = OutOfOrderEnrollment msg)
  | None => forall msg, r <> Err (OutOfOrderEnrollment msg)
  end /\
  progress_of s'.2 ∈ outcomes c (is_ok r) (progress_of s.2).

(** Errors of the library are not about the order. *)
Ltac lib_err :=
  repeat match goal with
  | |- context [json_err ?r] => destruct r; simpl
  | |- context [url_err ?r] => destruct r; simpl
  | |- context [acme_err ?r] => destruct r; simpl
  end.

Lemma AcmeDirectory_order d msg : AcmeDirectory_try_from d <> Err (OutOfOrderEnrollment msg).
Proof. unfold AcmeDirectory_try_from. by lib_err. Qed.

Lemma E2eiNewAcmeAuthz_order a msg : E2eiNewAcmeAuthz_try_from a <> Err (OutOfOrderEnrollment msg).
Proof. destruct a; simpl; unfold E2eiAcmeChallenge_try_from; by lib_err. Qed.

Lemma E2eiNewAcmeOrder_order a msg : E2eiNewAcmeOrder_try_from a <> Err (OutOfOrderEnrollment msg).
Proof. unfold E2eiNewAcmeOrder_try_from. by lib_err. Qed.

(** An authorization is kept for the one it is for. *)
Definition well_kinded (e : Enrollment) : Prop :=
  (forall i c, user_authz e <> Some (AuthzDevice i c)) /\
  (forall i k c, device_authz e <> Some (AuthzUser i k c)).

(** Case analysis on what the innermost [match] of the goal looks at. *)
Ltac case_step :=
  match goal with
  | |- context [match ?x with _ => _ end] =>
      lazymatch x with
      | context [match _ with _ => _ end] => fail
      | has ?o => destruct o eqn:?; simpl
      | _ => destruct x eqn:?; simpl
      end
  end.

Ltac calls := unfold exec, reading, stepping, directory_response, new_account_request, new_account_response,
    new_order_request, new_order_response, new_authz_request, new_authz_response, create_dpop_token,
    new_dpop_challenge_request, new_dpop_challenge_response, new_oidc_challenge_request, new_oidc_challenge_response,
    check_order_request, check_order_response, finalize_request, finalize_response,
    certificate_request, device_challenge, out_of_order, mbind, stm_bind, result_bind, st_get, st_lift,
    st_modify, st_fail, json_err, url_err, acme_err, map_err, ok_or.

Lemma exec_implements c s : well_kinded s.2 -> implements c s (exec c s).1 (exec c s).2.
Proof.
  intros [Hu Hd]. destruct s as [b e], e. simpl in *. unfold implements, missing, progress_of.
  destruct c as [| | | | | | | | | |i [|x t] n| | | | | |]; calls; simpl; repeat case_step; split;
    try done; try (by apply list_elem_of_singleton); try (by eexists); try set_solver.
  all: intros msg [= ->]; first [by eapply AcmeDirectory_order | by eapply E2eiNewAcmeAuthz_order
    | by eapply E2eiNewAcmeOrder_order].
Qed.

Lemma exec_well_kinded c s : well_kinded s.2 -> well_kinded (exec c s).2.2.
Proof.
  intros [Hu Hd]. destruct s as [b e], e. simpl in *.
  destruct c as [| | | | | | | | | |i [|x t] n| | | | | |]; calls; simpl; repeat case_step; by split.
Qed.

(** ** Every use of an enrollment *)

(** A call, and whatever else happens to the provider between calls. *)
Inductive enr_step (s : EnrState) : EnrState -> Prop :=
  | enr_call c : enr_step s (exec c s).2
  | enr_other b : enr_step s (b, s.2).

(** A new enrollment: nothing has been received. *)
Definition enrolled (e : Enrollment) : Prop :=
  exists b id name hdl tm ex cs kp tok b', try_new id name hdl tm ex cs kp tok b = (Ok e, b').

Lemma try_new_fresh e : enrolled e -> progress_of e = fresh_progress (has (refresh_token e)) /\ well_kinded e.
Proof.
  intros (b & id & name & hdl & tm & ex & cs & kp & tok & b' & Hx). unfold try_new in Hx.
  do 5 (apply stm_bind_inv in Hx as (? & ? & _ & Hx)). injection Hx as <- _. by split.
Qed.

Lemma enr_steps_kinded s s' : rtc enr_step s s' -> well_kinded s.2 -> well_kinded s'.2.
Proof.
  induction 1 as [|s1 s2 s3 Hs _ IH]; [done|]. intros Hk. apply IH.
  destruct Hs; [by apply exec_well_kinded|done].
Qed.

(** C9: an enrollment is a state machine: it starts with nothing received, and however it is used, a
    call whose prerequisites have not been received is an error, for most calls the one that says
    which call comes first; a call whose prerequisites are there is never out of order; and what
    has been received afterwards is what the state machine says: each response adds its part, a
    request for the certificate uses up the account and the finalized order, even when it fails. *)
Theorem enrollment_calls_in_order e b s :
  enrolled e -> rtc enr_step (b, e) s ->
  progress_of e = fresh_progress (has (refresh_token e)) /\
  forall c, implements c s (exec c s).1 (exec c s).2.
Proof.
  intros [Hf Hk]%try_new_fresh Hs. split; [done|]. intros c. apply exec_implements.
  by eapply (enr_steps_kinded (b, e)).
Qed.

(** C13: the authorizations of an enrollment have the types of their places: the user's is a user's, the
    device's a device's, whatever the server has answered and in whatever order; so no call
    answers that the library was used in a wrong way. *)
Theorem enrollment_well_typed e b s c :
  enrolled e -> rtc enr_step (b, e) s ->
  well_kinded s.2 /\ (exec c s).1 <> Err E2eImplementationError.
Proof.
  intros [_ Hk]%try_new_fresh Hs. assert (well_kinded s.2) as [Hu Hd] by by eapply (enr_steps_kinded (b, e)).
  split; [done|]. destruct s as [b' e'], e'. simpl in *.
  assert (forall d, AcmeDirectory_try_from d <> Err E2eImplementationError) as H1'.
  { intros d. unfold AcmeDirectory_try_from. by lib_err. }
  assert (forall a, E2eiNewAcmeAuthz_try_from a <> Err E2eImplementationError) as H2'.
  { intros a. destruct a; simpl; unfold E2eiAcmeChallenge_try_from; by lib_err. }
  assert (forall a, E2eiNewAcmeOrder_try_from a <> Err E2eImplementationError) as H3'.
  { intros a. unfold E2eiNewAcmeOrder_try_from. by lib_err. }
  destruct c as [| | | | | | | | | |i [|x t] n| | | | | |]; calls; simpl; repeat case_step; try done; naive_solver.
Qed.

(** ** One certificate for each account *)

(** Calls one after the other, and which of them succeeded. *)
Fixpoint run_calls (cs : list EnrollmentCall) (s : EnrState) : list (EnrollmentCall * bool) * EnrState :=
  match cs with
  | [] => ([], s)
  | c :: cs =>
      let (r, s) := exec c s in
      let (tr, s) := run_calls cs s in
      ((c, is_ok r) :: tr, s)
  end.

Definition count_calls (kind : EnrollmentCall -> bool) (tr : list (EnrollmentCall * bool)) : nat :=
  length (List.filter (fun p => kind p.1 && p.2) tr).

Definition is_account_response (c : EnrollmentCall) : bool := match c with CNewAccountResponse _ => true | _ => false end.
Definition is_finalize (c : EnrollmentCall) : bool := match c with CFinalizeResponse _ => true | _ => false end.
Definition is_order (c : EnrollmentCall) : bool := match c with CCheckOrderResponse _ => true | _ => false end.
Definition is_certificate (c : EnrollmentCall) : bool := match c with CCertificateRequest _ => true | _ => false end.

Definition one (b : bool) : nat := if b then 1%nat else 0%nat.

Lemma one_step_counts c s :
  well_kinded s.2 ->
  let ok := is_ok (exec c s).1 in let p := progress_of s.2 in let p' := progress_of (exec c s).2.2 in
  (one (is_certificate c && ok) + one (p_account p') <= one (is_account_response c && ok) + one (p_account p))%nat /\
  (one (is_certificate c && ok) + one (p_finalize p') <= one (is_finalize c && ok) + one (p_finalize p))%nat /\
  (one (p_order p') <= one (is_order c && ok) + one (p_order p))%nat.
Proof.
  intros Hk. pose proof (exec_implements c s Hk) as [Hm Ho]. cbv zeta. revert Hm Ho.
  generalize (exec c s).1 (progress_of s.2) (progress_of (exec c s).2.2). intros r p p'.
  destruct p as [? acc ? ? ? fin ?].
  destruct c, r as [[]|e], acc, fin; simpl; set_unfold; intros Hm Ho; destruct_or?; subst; simpl;
    try lia; by destruct Hm as (? & ? & _).
Qed.

(** C11: every certificate costs an account and a finalized order: in a new enrollment, however it is
    used, there are never more successful requests for a certificate than answered new accounts,
    nor than answered finalizations; and a certificate is only accepted after an order has been
    checked. *)
Theorem one_certificate_per_account e b cs chain certs :
  enrolled e ->
  let (tr, s) := run_calls cs (b, e) in
  (count_calls is_certificate tr <= count_calls is_account_response tr)%nat /\
  (count_calls is_certificate tr <= count_calls is_finalize tr)%nat /\
  (certificate_response s.2 chain = Ok certs -> (0 < count_calls is_order tr)%nat).
Proof.
  intros [Hf Hk]%try_new_fresh.
  assert (forall s, well_kinded s.2 -> let (tr, s') := run_calls cs s in
    let p := progress_of s.2 in let p' := progress_of s'.2 in
    (count_calls is_certificate tr + one (p_account p') <= count_calls is_account_response tr + one (p_account p))%nat /\
    (count_calls is_certificate tr + one (p_finalize p') <= count_calls is_finalize tr + one (p_finalize p))%nat /\
    (one (p_order p') <= count_calls is_order tr + one (p_order p))%nat) as Hall.
  { clear. induction cs as [|c cs IH]; intros s Hk; simpl; [lia|].
    pose proof (one_step_counts c s Hk) as Hs. pose proof (exec_well_kinded c s Hk) as Hk'.
    destruct (exec c s) as [r s1]. simpl in *. specialize (IH s1 Hk'). destruct (run_calls cs s1) as [tr s2].
    unfold count_calls in *. simpl.
    destruct (is_certificate c && is_ok r), (is_account_response c && is_ok r), (is_finalize c && is_ok r),
      (is_order c && is_ok r); simpl in *; lia. }
  specialize (Hall (b, e) Hk). destruct (run_calls cs (b, e)) as [tr s].
  injection Hf as _ Ha _ _ Ho Hfi. simpl in Hall. rewrite Ha, Ho, Hfi in Hall. simpl in Hall. split; [lia|]. split; [lia|]. unfold certificate_response, out_of_order.
  destruct (valid_order s.2); [|done]. simpl in Hall. lia.
Qed.

(** ** The signature key *)

(** The keys an enrollment is made with: given, or new ones. *)
Definition keys_for (kp : bytes * bytes) (cs : Ciphersuite) (given : option bytes) b : Prop :=
  given = Some (E2eiSignatureKeypair_from kp) \/
  given = None /\ exists b', signature_key_gen (signature_algorithm cs) b = (Ok kp, b').

Lemma try_new_sign_sk b id name hdl tm ex cs kp given tok e b' :
  keys_for kp cs given b -> try_new id name hdl tm ex cs given tok b = (Ok e, b') ->
  sign_sk e = kp.1 ++ kp.2.
Proof.
  intros Hk Hx. unfold try_new in Hx.
  apply stm_bind_inv in Hx as (alg & b1 & Ha & Hx). apply stm_bind_inv in Hx as (sk & b2 & Hs & Hx).
  do 3 (apply stm_bind_inv in Hx as (? & ? & _ & Hx)). injection Hx as <- _. simpl.
  assert (b1 = b) as -> by (unfold lift_res, st_lift in Ha; by injection Ha).
  destruct Hk as [->|(-> & b3 & Hg)]; [by injection Hs as <- _|].
  unfold new_sign_key, prov, st_map_err, mbind, stm_bind in Hs. rewrite Hg in Hs. by injection Hs as <- _.
Qed.

(** The key for MLS is taken out of an enrollment for the keys of Ed25519, of which both have 32
    bytes: it is the private key of the enrollment. The other curves that an enrollment can be
    made for have longer keys: every enrollment with the keys of P256 (32 and 65 bytes) or P384
    (48 and 97) ends in an error, once the certificate is there. *)
Lemma sign_key_for_mls_spec b id name hdl tm ex cs kp given tok e b' :
  keys_for kp cs given b -> try_new id name hdl tm ex cs given tok b = (Ok e, b') ->
  (length kp.1 = 32%nat -> length kp.2 = 32%nat -> get_sign_key_for_mls e = Ok kp.1) /\
  ((length kp.1 = 32%nat /\ length kp.2 = 65%nat) \/ (length kp.1 = 48%nat /\ length kp.2 = 97%nat) ->
     get_sign_key_for_mls e = Err (E2eiError InvalidSignatureKey)) /\
  (forall sk, get_sign_key_for_mls e = Ok sk -> length sk = 32%nat) /\
  (is_ok (JwsAlgorithm_try_from MLS_128_DHKEMP256_AES128GCM_SHA256_P256) &&
   is_ok (JwsAlgorithm_try_from MLS_256_DHKEMP384_AES256GCM_SHA384_P384)) = true.
Proof.
  intros Hk Hx. apply (try_new_sign_sk _ _ _ _ _ _ _ kp) in Hx as Hsk; [|done].
  unfold get_sign_key_for_mls, sign_key_of, SIGN_KEYPAIR_LENGTH, SIGN_KEY_LENGTH. rewrite Hsk, length_app.
  destruct kp as [sk pk]. simpl fst in *. simpl snd in *. split; [|split; [|split]].
  - intros Hs Hp. rewrite Hs, Hp. change (Nat.eqb (32 + 32) (32 * 2)) with true. cbv iota.
    by rewrite take_app_length' by done.
  - by intros [[-> ->]|[-> ->]].
  - intros x. destruct (Nat.eqb_spec (length sk + length pk) (32 * 2)) as [Hl|_].
    + intros [= <-]. rewrite length_take, length_app. lia.
    + destruct (Nat.eqb_spec (length sk + length pk) 32) as [Hl|_]; [|done]. intros [= <-]. by rewrite length_app.
  - done.
Qed.
End spec.

(** ** Putting an enrollment aside *)

Section stash.
Context `{SqlEngine, Provider, OpenMlsTypes} `{!OpenMls, !OpenMlsLaws} `{Acme} `{!EnrollmentSerde}.

(** What JSON writes of an enrollment it reads back. *)
Class EnrollmentSerdeLaws :=
  enr_read_write e b : enr_to_vec e = Ok b -> enr_from_slice b = Ok e.

Context `{!EnrollmentSerdeLaws}.

(** Saving adds the enrollment, unless its handle is in use or it is too big. *)
Lemma save_enrollment_inv b l hdl content b' :
  healthy (key_store b) -> rep E2eiEnrollment_layout (conn_view (key_store b)) l ->
  ks (save_e2ei_enrollment hdl content) b = (Ok (), b') ->
  stores E2eiEnrollment (key_store b') (l ++ [MkE2eiEnrollment hdl content]) /\
  hdl ∉ (en_id <$> l).
Proof.
  intros Hh Hl Hx. set (x := MkE2eiEnrollment hdl content).
  destruct (is_ok (check_buffer_size (blen content))) eqn:Hf.
  - pose proof (E2eiEnrollment_save_ok (conn_view (key_store b)) l x Hl Hf) as Hs.
    destruct (first (fun y => bool_decide (en_id y = en_id x)) l) eqn:Hn.
    + assert (run (save_e2ei_enrollment hdl content) (conn_view (key_store b)) =
        (Err AlreadyExists, conn_view (key_store b))) as Hr.
      { unfold save_e2ei_enrollment, Connection_save. rewrite prog_bind_assoc.
        by rewrite (run_bind_err _ _ _ _ _ Hs). }
      destruct (ks_run _ _ _ _ Hh Hr) as (c & Hk & _). rewrite Hk in Hx. done.
    + destruct Hs as (v' & Hs & Hrep & _).
      assert (run (save_e2ei_enrollment hdl content) (conn_view (key_store b)) = (Ok (), v')) as Hr.
      { unfold save_e2ei_enrollment, Connection_save. rewrite prog_bind_assoc.
        by rewrite (run_bind_ok _ _ _ _ _ Hs). }
      destruct (ks_run _ _ _ _ Hh Hr) as (c & Hk & <- & Hc). rewrite Hk in Hx. injection Hx as <-.
      split; [by split|]. intros (y & -> & Hy)%list_elem_of_fmap.
      pose proof (proj1 (first_None _ _) Hn y Hy) as Hb. simpl in Hb. by rewrite bool_decide_true in Hb.
  - assert (run (save_e2ei_enrollment hdl content) (conn_view (key_store b)) =
      (Err BlobTooBig, conn_view (key_store b))) as Hr.
    { unfold save_e2ei_enrollment, Connection_save. change (save ?y) with (E2eiEnrollment_save y).
      unfold E2eiEnrollment_save. cbn [en_content]. by rewrite (check_buffer_size_err _ Hf). }
    destruct (ks_run _ _ _ _ Hh Hr) as (c & Hk & _). rewrite Hk in Hx. done.
Qed.

(** C12: an enrollment that is put aside comes back as it was, once: the handle that [stash] answers is
    a new one, popping it gives the enrollment and takes it out of the store, so that popping it
    again finds nothing. *)
Theorem stash_pop_roundtrip b l e hdl b1 :
  healthy (key_store b) -> rep E2eiEnrollment_layout (conn_view (key_store b)) l -> NoDup (en_id <$> l) ->
  stash e b = (Ok hdl, b1) ->
  hdl ∉ (en_id <$> l) /\
  exists b2, stash_pop hdl b1 = (Ok e, b2) /\
    exists b3, stash_pop hdl b2 = (Err (Throw (KeyStoreError (MissingKeyInStore MissingE2eiEnrollment))), b3).
Proof.
  intros Hh Hl Hnd Hx. unfold stash in Hx.
  apply stm_bind_inv in Hx as (content & b0 & Hc & Hx).
  assert (enr_to_vec e = Ok content /\ b0 = b) as [Hv ->].
  { unfold lift_res, st_lift in Hc. destruct (enr_to_vec e) as [c|]; [|done].
    by injection Hc as -> ->. }
  apply stm_bind_inv in Hx as (h & b1' & Hr & Hx). apply stm_bind_inv in Hx as ([] & b2 & Hs & Hx).
  injection Hx as <- <-.
  assert (exists rng, b1' = MkProvider rng (key_store b) (pki_env b)) as [rng ->].
  { unfold prov, st_map_err in Hr. destruct (random_vec HANDLE_SIZE b) as [r0 b0] eqn:Hrand.
    injection Hr as _ <-. by eapply random_vec_rng. }
  destruct (save_enrollment_inv (MkProvider rng (key_store b) (pki_env b)) l h content b2 Hh Hl Hs) as [Hst Hnew]. split; [done|].
  destruct (pop_e2ei_enrollment_once (key_store b2) _ h content Hst) as (c1 & c2 & H1' & H2').
  - rewrite first_app. rewrite (proj2 (first_None _ _)); [unfold with_key; simpl; by rewrite bool_decide_true|].
    intros y Hy. apply bool_decide_eq_false. intros Hk. apply Hnew, list_elem_of_fmap. by exists y.
  - rewrite fmap_app. apply list.NoDup_app. split; [done|]. split; [|apply NoDup_singleton].
    intros y Hy ->%list_elem_of_singleton. by apply Hnew.
  - exists (set_key_store c1 b2). unfold stash_pop, ks, on, st_map_err, mbind, stm_bind. rewrite H1'. simpl.
    split; [by rewrite (enr_read_write _ _ Hv)|]. eexists. by rewrite H2'.
Qed.
End stash.
