(* ===== verification/ClientOps.v ===== *)
(** * Clients

    [crypto/src/mls/client]: making a client, loading it from the key store, its identities and
    its key packages ([mod.rs], [identifier.rs], [key_package.rs]). A client method acts on the
    provider and on the client; one that only reads the client acts on the provider. *)

From S2P Require Import Prelude KsError Sql SqlSpec Entity TableFrame.
From S2P Require Import MlsKeys MlsCredentials Keystore.
From S2P Require Import CcError Ids Backend OpenMls Config Credential.
Open Scope Z_scope.

(** [key_package.rs] *)
Definition INITIAL_KEYING_MATERIAL_COUNT : Z := 100.
Definition KEYPACKAGE_DEFAULT_LIFETIME : Z := 60 * 60 * 24 * 28 * 3.   (* seconds *)

(** [client/mod.rs] *)
Definition TEMP_KEY_SIZE : nat := 16.

Section client.
Context `{SqlEngine, Provider, OpenMlsTypes} `{!OpenMls} `{!X509Lib, !IdCodecs}.

(** ** Computations on a client *)

Abbreviation ClientState := (MlsCryptoProvider * Client)%type.

Definition get_client : cc ClientState Client := fun s => (Ok s.2, s).

Definition on_backend {A} (m : cc MlsCryptoProvider A) : cc ClientState A :=
  on fst (fun b s => (b, s.2)) m.

(** A client that is a local variable of the caller. *)
Definition local_client {A} (client : Client) (m : cc ClientState A) : cc MlsCryptoProvider (A * Client) :=
  fun b => match m (b, client) with
    | (Ok a, (b, client)) => (Ok (a, client), b)
    | (Err e, (b, _)) => (Err e, b)
    end.

(** A call of the key store whose error is looked at. *)
Definition ks_map {A} (f : CryptoKeystoreError -> CryptoError) (p : prog A) : cc MlsCryptoProvider A :=
  on key_store set_key_store (st_map_err (fun e => Throw (f e)) (exec_prog p)).

Definition set_identities (ids : gmap Z (list CredentialBundle)) (c : Client) : Client :=
  MkClient (client_id c) ids (keypackage_lifetime c).

Definition push_identity (sc : Z) (cb : CredentialBundle) : cc ClientState () := fun s =>
  let (r, ids) := push_credential_bundle sc cb (identities s.2) in
  (r, (s.1, set_identities ids s.2)).

(** [ciphersuites.iter().map(|cs| cs.signature_algorithm()).collect::<HashSet<_>>()], in an order
    the language leaves open. *)
Definition signature_schemes (ciphersuites : list Ciphersuite) : list Z :=
  elements (list_to_set (signature_algorithm <$> ciphersuites) : gset Z).

(** ** [ClientIdentifier] *)

Inductive ClientIdentifier :=
  | IdBasic (id : bytes)
  | IdX509 (certs : gmap Z CertificateBundle).

Definition get_id (self : ClientIdentifier) : CryptoResult bytes :=
  match self with
  | IdBasic id => Ok id
  | IdX509 certs =>
      cert ← ok_or ImplementationError (head (map_to_list certs));
      CertificateBundle_get_client_id cert.2
  end.

Definition generate_credential_bundles (self : ClientIdentifier) (schemes : list Z) :
    cc MlsCryptoProvider (list (Z * bytes * CredentialBundle)) :=
  match self with
  | IdBasic id =>
      st_map (fun sc => cb ← new_basic_credential_bundle id sc; mret (sc, id, cb)) schemes
  | IdX509 certs =>
      lift_res (try_map (fun p : Z * CertificateBundle =>
        id ← CertificateBundle_get_client_id p.2;
        cb ← new_x509_credential_bundle p.2;
        Ok (p.1, id, cb)) (map_to_list certs))
  end.

(** ** Identities *)

Definition bundle_created_at (created_at : Z) (cb : CredentialBundle) : CredentialBundle :=
  MkCredentialBundle (cb_credential cb) (cb_signature_key cb) created_at.

(** The credential, then the keypair, are written; then the client learns of them. *)
Definition save_identity (id : option bytes) (sc : Z) (cb : CredentialBundle) :
    cc ClientState CredentialBundle :=
  self ← get_client;
  let id := default (client_id self) id in
  credential ← lift_res (mls_err MlsTlsCodecError (credential_serialize (cb_credential cb)));
  created_at ← on_backend (ks (MlsCredential_insert (MkMlsCredential id credential 0)));
  keypair ← lift_res (mls_err MlsTlsCodecError (signature_keypair_serialize (cb_signature_key cb)));
  on_backend (ks_map (fun e => match e with
      | AlreadyExists => CredentialBundleConflict
      | e => KeyStoreError e
      end) (save (MkMlsSignatureKeyPair sc (skp_public (cb_signature_key cb)) keypair id)));;
  let cb := bundle_created_at created_at cb in
  push_identity sc cb;;
  mret cb.

Definition init_basic_credential_bundle_if_missing (sc : Z) : cc ClientState () :=
  self ← get_client;
  let existing_cb := find_most_recent_credential_bundle (identities self) sc Basic in
  match existing_cb with
  | None =>
      cb ← on_backend (new_basic_credential_bundle (client_id self) sc);
      save_identity None sc cb;;
      mret ()
  | Some _ => mret ()
  end.

Definition get_most_recent_or_create_credential_bundle (sc : Z) (ct : MlsCredentialType) :
    cc ClientState CredentialBundle :=
  match ct with
  | Basic =>
      init_basic_credential_bundle_if_missing sc;;
      self ← get_client;
      some_or (CredentialNotFound ct) (find_most_recent_credential_bundle (identities self) sc ct)
  | X509 =>
      self ← get_client;
      some_or E2eiEnrollmentNotDone (find_most_recent_credential_bundle (identities self) sc ct)
  end.

Definition save_new_x509_credential_bundle (sc : Z) (cb : CertificateBundle) :
    cc ClientState CredentialBundle :=
  id ← lift_res (CertificateBundle_get_client_id cb);
  cb ← lift_res (new_x509_credential_bundle cb);
  save_identity (Some id) sc cb.

Definition is_e2ei_capable (self : Client) : bool :=
  existsb (fun p => bool_decide (credential_type (cb_credential p.2) = CTX509))
    (identities_iter (identities self)).

(** ** Key packages *)

Definition generate_one_keypackage_from_credential_bundle (self : Client) (cs : Ciphersuite)
    (cb : CredentialBundle) : cc MlsCryptoProvider KeyPackage :=
  prov (fun e => CryptoError_from_MlsError (MlsKeyPackageBundleNewError e))
    (kp_build default_leaf_capabilities (keypackage_lifetime self) cs (cb_signature_key cb)
       (MkCredentialWithKey (cb_credential cb) (skp_public (cb_signature_key cb)))).

Definition generate_new_keypackages (self : Client) (cs : Ciphersuite) (cb : CredentialBundle)
    (count : nat) : cc MlsCryptoProvider (list KeyPackage) :=
  st_map (fun _ => generate_one_keypackage_from_credential_bundle self cs cb) (seq 0 count).

(** A key package without a lifetime does not expire. *)
Definition is_mls_keypackage_expired (kp : KeyPackage) : bool :=
  match kp_life_time_valid kp with
  | None => false
  | Some valid => negb valid
  end.

Definition find_all_keypackages : cc MlsCryptoProvider (list (MlsKeyPackage * KeyPackage)) :=
  kps ← ks (Connection_find_all (E := MlsKeyPackage) EntityFindParams_default);
  lift_res (try_map (fun raw_kp : MlsKeyPackage =>
    kp ← map_err KeyStoreError (deser (kp_keypackage raw_kp)); Ok (raw_kp, kp)) kps).

(** Which key packages [_prune_keypackages] deletes. *)
Definition to_prune (refs : list bytes) (p : MlsKeyPackage * KeyPackage) : bool :=
  let is_expired := is_mls_keypackage_expired p.2 in
  let to_delete := is_expired in
  if negb (is_expired || bool_decide (refs = [])) then
    existsb (fun r => bool_decide (r = kp_keypackage_ref p.1)) refs
  else to_delete.

Definition _prune_keypackages (kps : list (MlsKeyPackage * KeyPackage)) (refs : list bytes) :
    cc MlsCryptoProvider (list bytes) :=
  let kp_to_delete := List.filter (to_prune refs) kps in
  st_iter (fun p : MlsKeyPackage * KeyPackage =>
    ks (delete_ids MlsKeyPackage [kp_keypackage_ref p.1]);;
    ks (delete_ids MlsHpkePrivateKey [kp_hpke_init_key p.2]);;
    ks (delete_ids MlsEncryptionKeyPair [leaf_encryption_key (kp_leaf_node p.2)])) kp_to_delete;;
  mret ((fun p => kp_keypackage_ref p.1) <$> kp_to_delete).

Definition prune_keypackages (refs : list bytes) : cc MlsCryptoProvider () :=
  kps ← find_all_keypackages;
  _prune_keypackages kps refs;;
  mret ().

(** The key packages by the encoding of their credential. *)
Definition group_by_credential (kps : list (MlsKeyPackage * KeyPackage)) :
    CryptoResult (gmap bytes (list bytes)) :=
  try_fold (fun grouped p =>
    cred ← mls_err MlsTlsCodecError (credential_serialize (leaf_credential (kp_leaf_node p.2)));
    kp_ref ← mls_err MlsLibraryError (kp_hash_ref p.2);
    Ok (<[cred := default [] (grouped !! cred) ++ [kp_ref]]> grouped)) ∅ kps.

Definition prune_keypackages_and_credential (refs : list bytes) : cc ClientState () :=
  kps ← on_backend find_all_keypackages;
  kp_to_delete ← on_backend (_prune_keypackages kps refs);
  grouped_kps ← lift_res (group_by_credential kps);
  st_iter (fun p : bytes * list bytes =>
    let '(credential, kps) := p in
    let all_to_delete := forallb (fun kpr => bool_decide (kpr ∈ kp_to_delete)) kps in
    if all_to_delete then
      on_backend (ks (MlsCredential_delete_by_credential credential));;
      credential ← lift_res (mls_err MlsTlsCodecError (credential_deserialize credential));
      st_modify (fun s : ClientState => (s.1, set_identities (identities_remove credential (identities s.2)) s.2))
    else mret ()) (map_to_list grouped_kps).

Definition request_key_packages (self : Client) (count : Z) (cs : Ciphersuite)
    (credential_type : MlsCredentialType) : cc MlsCryptoProvider (list KeyPackage) :=
  prune_keypackages [];;
  existing_kps ← ks (mls_fetch_keypackages (V := KeyPackage) (as_u32 count));
  let existing_kps := List.filter (fun kp => bool_decide (kp_ciphersuite kp = cs)) existing_kps in
  let kpb_count := Z.of_nat (length existing_kps) in
  kps ← (if Z.ltb kpb_count count then
    let to_generate := count - kpb_count in
    cb ← some_or MlsNotInitialized
      (find_most_recent_credential_bundle (identities self) (signature_algorithm cs) credential_type);
    generate_new_keypackages self cs cb (Z.to_nat to_generate)
  else mret []);
  mret (kps ++ reverse existing_kps).

(** Those that do not decode are not counted; the [into()] of an unknown credential type panics. *)
Definition valid_keypackages_count (cs : Ciphersuite) (ct : MlsCredentialType) :
    cc MlsCryptoProvider Z :=
  kps ← ks (Connection_find_all (E := MlsKeyPackage) EntityFindParams_default);
  valid ← st_map (fun kp : MlsKeyPackage =>
    match deser (V := KeyPackage) (kp_keypackage kp) with
    | Ok b =>
        if bool_decide (kp_ciphersuite b = cs) then
          kp_ct ← unwrap (MlsCredentialType_from (credential_type (leaf_credential (kp_leaf_node b))));
          mret (bool_decide (kp_ct = ct) && negb (is_mls_keypackage_expired b))
        else mret false
    | Err _ => mret false
    end) kps;
  mret (Z.of_nat (length (List.filter id valid))).

(** ** Making a client *)

Definition generate (identifier : ClientIdentifier) (ciphersuites : list Ciphersuite)
    (nb_key_package : Z) : cc MlsCryptoProvider Client :=
  id ← lift_res (get_id identifier);
  let schemes := signature_schemes ciphersuites in
  let client := MkClient id ∅ KEYPACKAGE_DEFAULT_LIFETIME in
  ids ← generate_credential_bundles identifier schemes;
  '(_, client) ← local_client client (st_iter (fun p : Z * bytes * CredentialBundle =>
    let '(sc, id, cb) := p in save_identity (Some id) sc cb;; mret ()) ids);
  (if negb (Z.eqb nb_key_package 0) then
    st_iter (fun cs =>
      let sc := signature_algorithm cs in
      let identity := List.filter (fun p => Z.eqb p.1 sc) (identities_iter (identities client)) in
      st_iter (fun p : Z * CredentialBundle =>
        ct ← unwrap (MlsCredentialType_from (credential_type (cb_credential p.2)));
        request_key_packages client nb_key_package cs ct;;
        mret ()) identity) ciphersuites
  else mret ());;
  mret client.

(** What [load] demands of a credential, for the keypair found for a scheme. *)
Definition load_check (id : bytes) (signature_key : SignatureKeyPair) (credential : Credential) :
    CryptoResult () :=
  match certificates credential with
  | None => if bool_decide (id <> identity credential) then Err ImplementationError else Ok ()
  | Some cert =>
      spk ← chain_extract_public_key cert;
      spk ← ok_or InternalMlsError spk;
      if bool_decide (skp_public signature_key <> spk) then Err ImplementationError else Ok ()
  end.

Definition load_keypair (id : bytes) (store_skps : list MlsSignatureKeyPair) (sc : Z) :
    cc MlsCryptoProvider SignatureKeyPair :=
  match first (fun skp => Z.eqb (sk_signature_scheme skp) sc) store_skps with
  | Some kp => lift_res (mls_err MlsTlsCodecError (signature_keypair_deserialize (sk_keypair kp)))
  | None =>
      '(sk, pk) ← prov (fun e => MlsErrorC (MlsCryptoError e)) (signature_key_gen sc);
      let keypair := MkSignatureKeyPair sc sk pk in
      raw_keypair ← lift_res (mls_err MlsTlsCodecError (signature_keypair_serialize keypair));
      let store_keypair := MkMlsSignatureKeyPair sc pk raw_keypair id in
      ks (Connection_save store_keypair);;
      lift_res (mls_err MlsTlsCodecError (signature_keypair_deserialize (sk_keypair store_keypair)))
  end.

Definition load_scheme (id : bytes) (credentials : list (Credential * Z))
    (store_skps : list MlsSignatureKeyPair) (sc : Z) : cc ClientState () :=
  signature_key ← on_backend (load_keypair id store_skps sc);
  st_iter (fun p : Credential * Z =>
    let '(credential, created_at) := p in
    lift_res (load_check id signature_key credential);;
    push_identity sc (MkCredentialBundle credential signature_key created_at)) credentials.

Definition load (id : bytes) (credentials : list (Credential * Z)) (schemes : list Z) :
    cc MlsCryptoProvider Client :=
  let credentials := stable_sort snd credentials in
  store_skps ← ks (Connection_find_all (E := MlsSignatureKeyPair) EntityFindParams_default);
  '(_, client) ← local_client (MkClient id ∅ KEYPACKAGE_DEFAULT_LIFETIME)
    (st_iter (load_scheme id credentials store_skps) schemes);
  mret client.

(** The credentials of a client in the store, with their dates. *)
Definition read_credentials (id : bytes) (credentials : list MlsCredential) :
    CryptoResult (list (Credential * Z)) :=
  try_map (fun c : MlsCredential =>
    credential ← mls_err MlsTlsCodecError (credential_deserialize (cr_credential c));
    Ok (credential, cr_created_at c))
    (List.filter (fun c => bool_decide (cr_id c = id)) credentials).

Definition Client_init (identifier : ClientIdentifier) (ciphersuites : list Ciphersuite)
    (nb_key_package : Z) : cc MlsCryptoProvider Client :=
  id ← lift_res (get_id identifier);
  credentials ← ks (Connection_find_all (E := MlsCredential) EntityFindParams_default);
  credentials ← lift_res (read_credentials id credentials);
  match credentials with
  | _ :: _ =>
      let schemes := signature_schemes ciphersuites in
      r ← attempt (load id credentials schemes);
      match r with
      | Ok client => mret client
      | Err ClientSignatureNotFound => generate identifier ciphersuites nb_key_package
      | Err e => throw e
      end
  | [] => generate identifier ciphersuites nb_key_package
  end.

(** ** A client whose id is given later *)

Definition find_all_basic_credentials : cc MlsCryptoProvider (list Credential) :=
  store_credentials ← ks (Connection_find_all (E := MlsCredential) EntityFindParams_default);
  credentials ← lift_res (try_map (fun c : MlsCredential =>
    mls_err MlsTlsCodecError (credential_deserialize (cr_credential c))) store_credentials);
  mret (List.filter (fun c => bool_decide (credential_type c = CTBasic)) credentials).

Definition generate_raw_keypairs (ciphersuites : list Ciphersuite) : cc MlsCryptoProvider (list bytes) :=
  credentials ← find_all_basic_credentials;
  match credentials with
  | _ :: _ => throw IdentityAlreadyPresent
  | [] =>
      st_map (fun cs =>
        tmp_client_id ← prov MlsProviderError (random_vec TEMP_KEY_SIZE);
        cb ← new_basic_credential_bundle tmp_client_id (signature_algorithm cs);
        keypair ← lift_res (mls_err MlsTlsCodecError (signature_keypair_serialize (cb_signature_key cb)));
        ks (Connection_save (MkMlsSignatureKeyPair (signature_algorithm cs)
              (skp_public (cb_signature_key cb)) keypair tmp_client_id));;
        mret tmp_client_id) ciphersuites
  end.

(** One provisional keypair becomes an identity. *)
Definition adopt_keypair (id : bytes) (p : MlsSignatureKeyPair * Ciphersuite) : cc ClientState () :=
  let '(tmp_kp, cs) := p in
  scheme ← some_or ImplementationError (signature_scheme_try_from (sk_signature_scheme tmp_kp));
  let new_keypair := MkMlsSignatureKeyPair scheme (sk_pk tmp_kp) (sk_keypair tmp_kp) id in
  let new_credential := MkMlsCredential id (sk_credential_id tmp_kp) 0 in
  on_backend (ks (Connection_remove MlsSignatureKeyPair (sk_pk new_keypair)));;
  signature_key ← lift_res (mls_err MlsTlsCodecError
    (signature_keypair_deserialize (sk_keypair new_keypair)));
  let cb := MkCredentialBundle (new_basic (cr_credential new_credential)) signature_key 0 in
  save_identity (Some id) (signature_algorithm cs) cb;;
  mret ().

Definition init_with_external_client_id (client_id : bytes) (tmp_ids : list bytes)
    (ciphersuites : list Ciphersuite) : cc MlsCryptoProvider Client :=
  stored_skp ← ks (Connection_find_all (E := MlsSignatureKeyPair) EntityFindParams_default);
  if Nat.ltb (length stored_skp) (length tmp_ids) then throw NoProvisionalIdentityFound
  else if Nat.ltb (length tmp_ids) (length stored_skp) then throw TooManyIdentitiesPresent
  else if negb (forallb (fun kp => bool_decide (sk_credential_id kp ∈ tmp_ids)) stored_skp) then
    throw NoProvisionalIdentityFound
  else
    '(_, client) ← local_client (MkClient client_id ∅ KEYPACKAGE_DEFAULT_LIFETIME)
      (st_iter (adopt_keypair client_id) (zip stored_skp ciphersuites));
    mret client.
End client.
