(* ===== verification/Conversation.v ===== *)
(** * Conversations

    [MlsConversation] of [crypto/src/mls/conversation]: a group of OpenMLS with its id, its
    parent and its configuration, and the operations on it: writing it to the key store,
    encrypting, proposing, committing, merging and wiping. The methods act on the provider and
    on the conversation; a [Client] is only read. *)

From S2P Require Import Prelude KsError Sql SqlSpec Entity TableFrame MlsGroups MlsKeys Keystore.
From S2P Require Import CcError Ids Backend OpenMls Config Credential.
Open Scope Z_scope.

(** [MlsGroupInfoBundle] of [conversation/group_info.rs]; an unencrypted, full group info is the
    only kind the code makes. *)
Inductive MlsGroupInfoEncryptionType : Set := GiPlaintext | GiJweEncrypted.
Inductive MlsRatchetTreeType : Set := RtFull | RtDelta | RtByRef.

Record MlsGroupInfoBundle := MkGroupInfoBundle {
  gi_encryption_type : MlsGroupInfoEncryptionType;
  gi_ratchet_tree_type : MlsRatchetTreeType;
  gi_payload : bytes;
}.

Section conversation.
Context `{SqlEngine, Provider, OpenMlsTypes} `{!OpenMls} `{!X509Lib, !IdCodecs}.

Record MlsConversation := MkConversation {
  conv_id : bytes;
  conv_parent_id : option bytes;
  conv_group : MlsGroup;
  conv_configuration : MlsConversationConfiguration;
}.

Definition set_group (g : MlsGroup) (c : MlsConversation) : MlsConversation :=
  MkConversation (conv_id c) (conv_parent_id c) g (conv_configuration c).

(** ** Computations on a conversation *)

Abbreviation ConvState := (MlsCryptoProvider * MlsConversation)%type.

Definition get_conv : cc ConvState MlsConversation := fun s => (Ok s.2, s).
Definition get_group : cc ConvState MlsGroup := fun s => (Ok (conv_group s.2), s).
Definition get_backend : cc ConvState MlsCryptoProvider := fun s => (Ok s.1, s).

Definition backend {A} (m : cc MlsCryptoProvider A) : cc ConvState A :=
  on fst (fun b s => (b, s.2)) m.

Definition mod_group (f : MlsGroup -> MlsGroup) : cc ConvState () :=
  st_modify (fun s : ConvState => (s.1, set_group (f (conv_group s.2)) s.2)).

(** [self.group.op(backend, ..).await.map_err(f)?] *)
Definition group_op {E A} (f : E -> CryptoError)
    (op : stm (MlsCryptoProvider * MlsGroup) E A) : cc ConvState A :=
  on (fun s : ConvState => (s.1, conv_group s.2))
     (fun s' s => (s'.1, set_group s'.2 s.2))
     (st_map_err (fun e => Throw (f e)) op).

(** The usual conversion: [map_err(MlsError::from)?]. *)
Definition from_mls {E} (f : E -> MlsError) (e : E) : CryptoError := CryptoError_from_MlsError (f e).

(** ** The conversation itself *)

Definition ciphersuite_of (self : MlsConversation) : Ciphersuite :=
  ciphersuite (conv_configuration self).

Definition signature_scheme_of (self : MlsConversation) : Z :=
  signature_algorithm (ciphersuite_of self).

(** The [into()] of an unknown credential type panics. *)
Definition own_credential_type : cc ConvState MlsCredentialType :=
  g ← get_group;
  leaf ← some_or InternalMlsError (own_leaf_node g);
  unwrap (MlsCredentialType_from (credential_type (leaf_credential leaf))).

Definition find_current_credential_bundle (client : Client) : cc ConvState (option CredentialBundle) :=
  c ← get_conv;
  own_leaf ← some_or InternalMlsError (own_leaf (conv_group c));
  let sc := signature_algorithm (ciphersuite_of c) in
  ct ← own_credential_type;
  mret (find_credential_bundle_by_public_key (identities client) sc ct (leaf_signature_key own_leaf)).

Definition conv_find_most_recent_credential_bundle (client : Client) :
    cc ConvState (option CredentialBundle) :=
  c ← get_conv;
  let sc := signature_algorithm (ciphersuite_of c) in
  ct ← own_credential_type;
  mret (find_most_recent_credential_bundle (identities client) sc ct).

(** [members]: the first credential of an identity is kept. *)
Definition conv_members (self : MlsConversation) : gmap bytes Credential :=
  fold_left (fun acc kp =>
    let credential := member_credential kp in
    let id := identity credential in
    match acc !! id with Some _ => acc | None => <[id := credential]> acc end)
    (members (conv_group self)) ∅.

Definition get_client_ids (self : MlsConversation) : list bytes :=
  (fun kp => identity (member_credential kp)) <$> members (conv_group self).

Definition persist_group_when_changed (force : bool) : cc ConvState () :=
  c ← get_conv;
  if force || bool_decide (state_changed (conv_group c) = Changed) then
    state ← lift_res (map_err KeyStoreError (ser (conv_group c)));
    backend (ks (mls_group_persist (conv_id c) state (conv_parent_id c)));;
    mod_group (set_state Persisted)
  else mret ().

Definition from_serialized_state (buf : bytes) (parent_id : option bytes) :
    CryptoResult MlsConversation :=
  group ← map_err KeyStoreError (deser buf);
  let id := group_id group in
  let configuration := MkConversationConfiguration (group_ciphersuite group)
    [] MlsCustomConfiguration_default in
  Ok (MkConversation id parent_id group configuration).

Definition mark_as_child_of (parent_id : bytes) : cc ConvState () :=
  exists_ ← backend (ks (mls_group_exists parent_id));
  if exists_ : bool then
    st_modify (fun s : ConvState =>
      (s.1, MkConversation (conv_id s.2) (Some parent_id) (conv_group s.2) (conv_configuration s.2)));;
    persist_group_when_changed true
  else throw ParentGroupNotFound.

(** [drop_and_restore] of [conversation/durability.rs]. A missing row or a state that does not
    decode panics. *)
Definition drop_and_restore : cc ConvState () :=
  c ← get_conv;
  let group_id := group_id (conv_group c) in
  groups ← attempt (backend (ks mls_groups_restore));
  groups ← unwrap (res_ok groups);
  '(parent_id, group) ← unwrap (groups !! group_id);
  group ← unwrap (res_ok (from_serialized_state group parent_id));
  st_modify (fun s : ConvState => (s.1, group)).

(** [from_mls_group]: a new conversation, written at once. *)
Definition from_mls_group (group : MlsGroup) (configuration : MlsConversationConfiguration) :
    cc MlsCryptoProvider MlsConversation := fun b =>
  let id := group_id group in
  match persist_group_when_changed true (b, MkConversation id None group configuration) with
  | (Ok (), (b', conversation)) => (Ok conversation, b')
  | (Err e, (b', _)) => (Err e, b')
  end.

(** ** Encrypting *)

Definition encrypt_message (client : Client) (message : bytes) : cc ConvState bytes :=
  cb ← find_current_credential_bundle client;
  cb ← some_or IdentityInitializationError cb;
  encrypted ← group_op (from_mls MlsInvalidMessageError)
    (create_message (cb_signature_key cb) message);
  encrypted ← lift_res (mls_err MlsEncryptMessageError (message_to_bytes encrypted));
  persist_group_when_changed false;;
  mret encrypted.

(** ** Proposals *)

Record MlsProposalBundle := MkProposalBundle {
  pb_proposal : MlsMessageOut;
  pb_proposal_ref : bytes;
  pb_crl_new_distribution_points : option (list bytes);
}.

Definition MlsProposalBundle_from (p : MlsMessageOut * bytes) : MlsProposalBundle :=
  MkProposalBundle p.1 p.2 None.

Definition propose_add_member (client : Client) (key_package : KeyPackageIn) :
    cc ConvState MlsProposalBundle :=
  cb ← find_current_credential_bundle client;
  signer ← some_or IdentityInitializationError cb;
  crl_new_distribution_points ← lift_res (match certificates (kpi_credential key_package) with
    | Some cert => dp ← extract_dp cert; Ok (Some dp)
    | None => Ok None
    end);
  '(proposal, proposal_ref) ← group_op (from_mls ProposeAddMemberError)
    (group_propose_add_member (cb_signature_key signer) key_package);
  persist_group_when_changed false;;
  mret (MkProposalBundle proposal proposal_ref crl_new_distribution_points).

Definition propose_remove_member (client : Client) (member : Z) : cc ConvState MlsProposalBundle :=
  cb ← find_current_credential_bundle client;
  signer ← some_or IdentityInitializationError cb;
  proposal ← group_op (from_mls ProposeRemoveMemberError)
    (group_propose_remove_member (cb_signature_key signer) member);
  persist_group_when_changed false;;
  mret (MlsProposalBundle_from proposal).

Definition propose_explicit_self_update (client : Client) (leaf_node : option LeafNode) :
    cc ConvState MlsProposalBundle :=
  cb ← find_current_credential_bundle client;
  msg_signer ← some_or IdentityInitializationError cb;
  proposal ← (match leaf_node with
    | Some leaf_node =>
        cb ← conv_find_most_recent_credential_bundle client;
        leaf_node_signer ← some_or IdentityInitializationError cb;
        group_op (from_mls ProposeSelfUpdateError)
          (group_propose_explicit_self_update (cb_signature_key msg_signer) leaf_node
             (cb_signature_key leaf_node_signer))
    | None =>
        group_op (from_mls ProposeSelfUpdateError)
          (group_propose_self_update (cb_signature_key msg_signer))
    end);
  persist_group_when_changed false;;
  mret (MlsProposalBundle_from proposal).

Definition propose_self_update (client : Client) : cc ConvState MlsProposalBundle :=
  propose_explicit_self_update client None.

(** ** Commits *)

Record MlsConversationCreationMessage := MkCreationMessage {
  cm_welcome : MlsMessageOut;
  cm_commit : MlsMessageOut;
  cm_group_info : MlsGroupInfoBundle;
  cm_crl_new_distribution_points : option (list bytes);
}.

Record MlsCommitBundle := MkCommitBundle {
  cb_welcome : option MlsMessageOut;
  cb_commit : MlsMessageOut;
  cb_group_info : MlsGroupInfoBundle;
}.

Definition try_new_full_plaintext (gi : GroupInfo) : CryptoResult MlsGroupInfoBundle :=
  payload ← mls_err MlsTlsCodecError (group_info_serialize gi);
  Ok (MkGroupInfoBundle GiPlaintext RtFull payload).

(** The distribution points of a list of chains, [None] when there are none. *)
Definition chains_dps (chains : list (list bytes)) : CryptoResult (option (list bytes)) :=
  dps ← try_fold (fun acc c => dp ← extract_dp c; Ok (acc ++ dp)) [] chains;
  Ok (match dps with [] => None | _ => Some dps end).

Definition add_members (client : Client) (key_packages : list KeyPackageIn) :
    cc ConvState MlsConversationCreationMessage :=
  cb ← conv_find_most_recent_credential_bundle client;
  signer ← some_or IdentityInitializationError cb;
  crl_new_distribution_points ← lift_res
    (chains_dps (omap (M := list) (fun kp => certificates (kpi_credential kp)) key_packages));
  '(commit, welcome, gi) ← group_op (from_mls MlsAddMembersError)
    (group_add_members (cb_signature_key signer) key_packages);
  gi ← some_or ImplementationError gi;
  group_info ← lift_res (try_new_full_plaintext gi);
  persist_group_when_changed false;;
  mret (MkCreationMessage welcome commit group_info crl_new_distribution_points).

Definition remove_members (client : Client) (clients : list bytes) : cc ConvState MlsCommitBundle :=
  g ← get_group;
  let member_kps := member_index <$>
    List.filter (fun kp => existsb (fun client_id => bool_decide (client_id = identity (member_credential kp)))
                             clients) (members g) in
  cb ← conv_find_most_recent_credential_bundle client;
  signer ← some_or IdentityInitializationError cb;
  '(commit, welcome, gi) ← group_op (from_mls MlsRemoveMembersError)
    (group_remove_members (cb_signature_key signer) member_kps);
  gi ← some_or ImplementationError gi;
  group_info ← lift_res (try_new_full_plaintext gi);
  persist_group_when_changed false;;
  mret (MkCommitBundle welcome commit group_info).

Definition update_keying_material (client : Client) (cb : option CredentialBundle)
    (leaf_node : option LeafNode) : cc ConvState MlsCommitBundle :=
  cb ← (match cb with
    | Some cb => mret cb
    | None =>
        cb ← conv_find_most_recent_credential_bundle client;
        some_or IdentityInitializationError cb
    end);
  '(commit, welcome, group_info) ← group_op (from_mls MlsSelfUpdateError)
    (explicit_self_update (cb_signature_key cb) leaf_node);
  group_info ← some_or ImplementationError group_info;
  group_info ← lift_res (try_new_full_plaintext group_info);
  persist_group_when_changed false;;
  mret (MkCommitBundle welcome commit group_info).

Definition commit_pending_proposals (client : Client) : cc ConvState (option MlsCommitBundle) :=
  g ← get_group;
  match pending_proposals g with
  | _ :: _ =>
      cb ← conv_find_most_recent_credential_bundle client;
      signer ← some_or IdentityInitializationError cb;
      '(commit, welcome, gi) ← group_op (from_mls MlsCommitToPendingProposalsError)
        (commit_to_pending_proposals (cb_signature_key signer));
      gi ← unwrap gi;
      group_info ← lift_res (try_new_full_plaintext gi);
      persist_group_when_changed false;;
      mret (Some (MkCommitBundle welcome commit group_info))
  | [] => mret None
  end.

(** ** Merging *)

Definition commit_accepted : cc ConvState () :=
  g ← get_group;
  let previous_own_leaf_nodes := own_leaf_nodes g in
  group_op (from_mls MlsMergePendingCommitError) merge_pending_commit;;
  persist_group_when_changed false;;
  st_iter (fun oln =>
    let ek := leaf_encryption_key oln in
    attempt (backend (ks (Connection_remove MlsEncryptionKeyPair ek)));;
    mret ()) previous_own_leaf_nodes.

Definition clear_pending_proposal (proposal_ref : bytes) : cc ConvState () :=
  group_op (fun e => match e with
      | GroupPendingProposalNotFound => PendingProposalNotFound proposal_ref
      | e => from_mls MlsMlsGroupStateError e
      end) (remove_pending_proposal proposal_ref);;
  persist_group_when_changed true.

Definition conv_clear_pending_commit : cc ConvState () :=
  g ← get_group;
  match pending_commit g with
  | Some _ =>
      mod_group clear_pending_commit;;
      persist_group_when_changed true
  | None => throw PendingCommitNotFound
  end.

(** [MlsConversation::e2ei_rotate] of [e2e_identity/rotate.rs]: our leaf with another credential. *)
Definition e2ei_rotate (client : Client) (cb : CredentialBundle) : cc ConvState MlsCommitBundle :=
  g ← get_group;
  leaf_node ← some_or InternalMlsError (own_leaf g);
  let leaf_node := set_credential_with_key (to_mls_credential_with_key cb) leaf_node in
  update_keying_material client (Some cb) (Some leaf_node).

(** ** Wiping *)

Definition wipe_associated_entities : cc ConvState () :=
  attempt (group_op (fun e => MlsErrorC (MlsLibraryError e)) delete_previous_epoch_keypairs);;
  g ← get_group;
  st_iter (fun proposal =>
    group_op (from_mls MlsMlsGroupStateError) (remove_pending_proposal (qp_reference proposal)))
    (pending_proposals g).

(** ** Exporting *)

Definition EXPORTER_LABEL : string := "exporter".

Definition export_secret_key (b : MlsCryptoProvider) (key_length : Z) (self : MlsConversation) :
    CryptoResult bytes :=
  mls_err MlsExportSecretError (export_secret b EXPORTER_LABEL [] key_length (conv_group self)).

Definition get_external_sender (self : MlsConversation) : CryptoResult bytes :=
  ext_senders ← ok_or MissingExternalSenderExtension (OpenMls.external_senders (conv_group self));
  ext_sender ← ok_or MissingExternalSenderExtension (head ext_senders);
  Ok ext_sender.1.

Definition e2ei_conversation_state (b : MlsCryptoProvider) (self : MlsConversation) :
    E2eiConversationState :=
  compute_state (member_credential <$> members (conv_group self)) b X509.
End conversation.
