(* ===== verification/Renew.v ===== *)
(** * Renewing proposals

    [crypto/src/mls/conversation/renew.rs]: when another commit than ours is accepted, the
    proposals that it does not contain are made again for the new epoch. *)

From S2P Require Import Prelude KsError Sql SqlSpec Entity TableFrame MlsKeys Keystore.
From S2P Require Import CcError Ids Backend OpenMls Config Credential Conversation.
Open Scope Z_scope.

Section renew.
Context `{SqlEngine, Provider, OpenMlsTypes} `{!OpenMls} `{!X509Lib, !IdCodecs}.

(** ** [Renew] *)

(** [is_proposal_renewable]: [None] when the commit contains the proposal. *)
Definition is_proposal_renewable (proposal : QueuedProposal) (commit : option StagedCommit) :
    option QueuedProposal :=
  match commit with
  | Some commit =>
      let in_commit := match qp_proposal proposal with
        | PAdd add =>
            existsb (fun p =>
              let commits_identity := identity (leaf_credential (kp_leaf_node p.1)) in
              let proposal_identity := identity (leaf_credential (kp_leaf_node add)) in
              bool_decide (commits_identity = proposal_identity)) (add_proposals commit)
        | PRemove removed => existsb (fun p => Z.eqb p removed) (remove_proposals commit)
        | PUpdate update =>
            existsb (fun p => bool_decide (p.1 = update)) (update_proposals commit)
        | _ => true
        end in
      if in_commit : bool then None else Some proposal
  | None => Some proposal
  end.

Definition renew (self_index : Z) (pending_proposals : list QueuedProposal)
    (pending_commit : option StagedCommit) (valid_commit : StagedCommit) :
    list QueuedProposal * bool :=
  match pending_commit with
  | Some pending_commit =>
      let commit_proposals := queued_proposals pending_commit in
      let empty_commit := match commit_proposals with [] => true | _ => false end in
      let valid_commit_has_own_update_proposal :=
        existsb (fun p => match p.2 with SMember sender_index => Z.eqb self_index sender_index | _ => false end)
          (update_proposals valid_commit) in
      let needs_update := negb valid_commit_has_own_update_proposal && empty_commit in
      (omap (M := list) (fun p => is_proposal_renewable p (Some valid_commit)) commit_proposals, needs_update)
  | None =>
      (omap (M := list) (fun p => is_proposal_renewable p (Some valid_commit)) pending_proposals, false)
  end.

(** ** Making the proposals again *)

Abbreviation ConvState := (MlsCryptoProvider * MlsConversation)%type.

Definition renew_update (client : Client) (leaf_node : option LeafNode) :
    cc ConvState MlsProposalBundle :=
  match leaf_node with
  | Some leaf_node =>
      backend (ks (Connection_remove MlsEncryptionKeyPair (leaf_encryption_key leaf_node)))
  | None => mret ()
  end;;
  c ← get_conv;
  leaf_node ← some_or InternalMlsError
    (match leaf_node with Some l => Some l | None => own_leaf (conv_group c) end);
  let sc := signature_scheme_of c in
  ct ← own_credential_type;
  cb ← some_or MlsNotInitialized (find_most_recent_credential_bundle (identities client) sc ct);
  let leaf_node := set_credential_with_key (to_mls_credential_with_key cb) leaf_node in
  propose_explicit_self_update client (Some leaf_node).

Definition is_external (p : QueuedProposal) : bool :=
  match qp_sender p with SExternal _ | SNewMemberProposal => true | _ => false end.

Definition renew_one (client : Client) (proposal : QueuedProposal) : cc ConvState MlsProposalBundle :=
  match qp_proposal proposal with
  | PAdd add => propose_add_member client (kp_in add)
  | PRemove removed => propose_remove_member client removed
  | PUpdate update => renew_update client (Some update)
  | _ => throw ImplementationError
  end.

Definition renew_proposals_for_current_epoch (client : Client) (proposals : list QueuedProposal)
    (needs_update : bool) : cc ConvState (list MlsProposalBundle) :=
  bundle ← st_map (renew_one client) (List.filter (fun p => negb (is_external p)) proposals);
  if needs_update then
    proposal ← renew_update client None;
    mret (bundle ++ [proposal])
  else mret bundle.

Definition self_pending_proposals (self : MlsConversation) : list QueuedProposal :=
  List.filter (fun p => bool_decide (qp_sender p = SMember (own_leaf_index (conv_group self))))
    (pending_proposals (conv_group self)).

(** ** What is renewed *)

(** A commit covers a proposal when it adds a client of the same identity, removes the same
    leaf or updates to the same leaf node; proposals of other kinds always count as covered. *)
Definition covered (commit : StagedCommit) (p : Proposal) : Prop :=
  match p with
  | PAdd kp => exists q kp', q ∈ queued_proposals commit /\ qp_proposal q = PAdd kp' /\
      identity (leaf_credential (kp_leaf_node kp')) = identity (leaf_credential (kp_leaf_node kp))
  | PRemove i => exists q, q ∈ queued_proposals commit /\ qp_proposal q = PRemove i
  | PUpdate l => exists q, q ∈ queued_proposals commit /\ qp_proposal q = PUpdate l
  | _ => True
  end.

Lemma existsb_omap {A B} (f : A -> option B) (p : B -> bool) (l : list A) :
  existsb p (omap f l) = true <-> exists a b, a ∈ l /\ f a = Some b /\ p b = true.
Proof.
  rewrite existsb_exists. split.
  - intros (b & Hb & Hp). apply list_elem_of_In, list_elem_of_omap in Hb as (a & Ha & Hf). by eauto.
  - intros (a & b & Ha & Hf & Hp). exists b. split; [|done].
    apply list_elem_of_In, list_elem_of_omap. by eauto.
Qed.

Lemma is_proposal_renewable_spec p c :
  (is_proposal_renewable p (Some c) = None /\ covered c (qp_proposal p)) \/
  (is_proposal_renewable p (Some c) = Some p /\ ~ covered c (qp_proposal p)).
Proof.
  unfold is_proposal_renewable, covered.
  destruct (qp_proposal p) as [add|update|removed|k|o]; [| | |by left|by left];
    match goal with |- context [if ?b then _ else _] => destruct b eqn:Hb end.
  - left. split; [done|]. apply existsb_omap in Hb as (q & kp & Hq & Hk & Hi).
    apply bool_decide_eq_true in Hi. destruct (qp_proposal q) eqn:Hp; simplify_eq. by eauto 6.
  - right. split; [done|]. intros (q & kp & Hq & Hk & Hi). apply not_true_iff_false in Hb.
    apply Hb, existsb_omap. exists q, (kp, qp_sender q). rewrite Hk. split_and!; [done..|].
    by apply bool_decide_eq_true.
  - left. split; [done|]. apply existsb_omap in Hb as (q & kp & Hq & Hk & Hi).
    apply bool_decide_eq_true in Hi. destruct (qp_proposal q) eqn:Hp; simplify_eq/=. by eauto.
  - right. split; [done|]. intros (q & Hq & Hk). apply not_true_iff_false in Hb.
    apply Hb, existsb_omap. exists q, (update, qp_sender q). rewrite Hk. split_and!; [done..|].
    by apply bool_decide_eq_true.
  - left. split; [done|]. apply existsb_omap in Hb as (q & kp & Hq & Hk & Hi).
    apply Z.eqb_eq in Hi. destruct (qp_proposal q) eqn:Hp; simplify_eq/=. by eauto.
  - right. split; [done|]. intros (q & Hq & Hk). apply not_true_iff_false in Hb.
    apply Hb, existsb_omap. exists q, removed. rewrite Hk. split_and!; [done..|].
    by apply Z.eqb_eq.
Qed.

Lemma omap_sublist {A} (f : A -> option A) l :
  (forall a, f a = None \/ f a = Some a) -> sublist (omap f l) l.
Proof.
  intros Hf. induction l as [|a l IH]; [constructor|]. simpl.
  destruct (Hf a) as [->| ->]; by constructor.
Qed.

(** What may have to be renewed: the proposals of the pending commit if there is one, the pending
    proposals otherwise. *)
Definition to_renew (pending : list QueuedProposal) (pc : option StagedCommit) : list QueuedProposal :=
  match pc with Some c => queued_proposals c | None => pending end.

End renew.
