(* ===== verification/Decrypt.v ===== *)
(** * Decrypting messages

    [crypto/src/mls/conversation/decrypt.rs] with its helpers [duplicate.rs], [self_commit.rs],
    [buffer_messages.rs], and the validation of external proposals and commits
    ([external_proposal.rs], [external_commit.rs]). *)

From S2P Require Import Prelude KsError Sql SqlSpec Entity TableFrame MlsPending MlsKeys Keystore.
From S2P Require Import CcError Ids Backend OpenMls Config CommitDelay Credential Conversation Renew.
Open Scope Z_scope.

(** [CoreCryptoCallbacks] of [crypto/src/lib.rs]: what the application answers. *)
Record CoreCryptoCallbacks := MkCallbacks {
  authorize : bytes -> bytes -> bool;
  user_authorize : bytes -> bytes -> list bytes -> bool;
  client_is_existing_group_user : bytes -> bytes -> list bytes -> option (list bytes) -> bool;
}.

Section decrypt.
Context `{SqlEngine, Provider, OpenMlsTypes} `{!OpenMls} `{!X509Lib, !IdCodecs, !F32Ln}.

Abbreviation ConvState := (MlsCryptoProvider * MlsConversation)%type.

(** The parent conversation an operation is given. It is behind a lock of its own: reading the
    parent while the lock of the conversation is held waits for ever when they are the same. *)
Inductive ParentRef :=
  | ParentOther (c : MlsConversation)
  | ParentSelf.

Definition read_parent {S} (p : ParentRef) : cc S MlsConversation :=
  match p with
  | ParentOther c => mret c
  | ParentSelf => st_fail Deadlock
  end.

(** ** What is returned *)

(** [MlsBufferedConversationDecryptMessage] *)
Record MlsBufferedConversationDecryptMessage := MkBuffered {
  bm_app_msg : option bytes;
  bm_proposals : list MlsProposalBundle;
  bm_is_active : bool;
  bm_delay : option Z;
  bm_sender_client_id : option bytes;
  bm_has_epoch_changed : bool;
  bm_identity : option WireIdentity;
  bm_crl_new_distribution_points : option (list bytes);
}.

(** [MlsConversationDecryptMessage] *)
Record MlsConversationDecryptMessage := MkDecrypted {
  dm_app_msg : option bytes;
  dm_proposals : list MlsProposalBundle;
  dm_is_active : bool;
  dm_delay : option Z;
  dm_sender_client_id : option bytes;
  dm_has_epoch_changed : bool;
  dm_identity : option WireIdentity;
  dm_buffered_messages : option (list MlsBufferedConversationDecryptMessage);
  dm_crl_new_distribution_points : option (list bytes);
}.

Definition buffered_from (from : MlsConversationDecryptMessage) :
    MlsBufferedConversationDecryptMessage := {|
  bm_app_msg := dm_app_msg from;
  bm_proposals := dm_proposals from;
  bm_is_active := dm_is_active from;
  bm_delay := dm_delay from;
  bm_sender_client_id := dm_sender_client_id from;
  bm_has_epoch_changed := dm_has_epoch_changed from;
  bm_identity := dm_identity from;
  bm_crl_new_distribution_points := dm_crl_new_distribution_points from;
|}.

(** ** Duplicates *)

Definition is_duplicate_message (b : MlsCryptoProvider) (g : MlsGroup) (msg : PublicMessageIn) :
    CryptoResult bool :=
  match body_content_type (pub_body msg), pub_sender msg with
  | CTCommit, (SMember _ | SNewMemberCommit) =>
      match pub_confirmation_tag msg with
      | Some msg_ct =>
          group_ct ← mls_err MlsLibraryError (compute_confirmation_tag b g);
          Ok (bool_decide (msg_ct = group_ct))
      | None => Err InternalMlsError
      end
  | CTProposal, (SMember _ | SNewMemberProposal) =>
      match pub_body msg with
      | BProposal proposal =>
          Ok (existsb (fun pp => bool_decide (qp_proposal pp = proposal)) (pending_proposals g))
      | _ => Err InternalMlsError
      end
  | _, _ => Ok false
  end.

(** ** Commits of our own *)

Definition maybe_self_member_commit (g : MlsGroup) (msg : MlsMessageIn) :
    CryptoResult (option ConfirmationTag) :=
  match msg with
  | MPublicMessage msg =>
      let is_commit := bool_decide (body_content_type (pub_body msg) = CTCommit) in
      let is_self_sent := bool_decide (pub_sender msg = SMember (own_leaf_index g)) in
      let is_self_commit := is_commit && is_self_sent in
      match (if is_self_commit then Some (pub_body msg) else None) with
      | Some BCommit =>
          ct ← ok_or InternalMlsError (pub_confirmation_tag msg);
          Ok (Some ct)
      | _ => Ok None
      end
  | _ => Ok None
  end.

Definition eq_pending_commit (g : MlsGroup) (commit_ct : ConfirmationTag) : bool :=
  match pending_commit g with
  | Some pending_commit => bool_decide (confirmation_tag pending_commit = commit_ct)
  | None => false
  end.

Definition conv_merge_pending_commit : cc ConvState MlsConversationDecryptMessage :=
  commit_accepted;;
  g ← get_group;
  leaf ← some_or InternalMlsError (own_leaf g);
  ident ← lift_res (extract_identity (leaf_credential leaf));
  mret {|
    dm_app_msg := None;
    dm_proposals := [];
    dm_is_active := is_active g;
    dm_delay := compute_next_commit_delay g;
    dm_sender_client_id := None;
    dm_has_epoch_changed := true;
    dm_identity := ident;
    dm_buffered_messages := None;
    dm_crl_new_distribution_points := None;
  |}.

Definition handle_self_member_commit (ct : ConfirmationTag) :
    cc ConvState MlsConversationDecryptMessage :=
  g ← get_group;
  match pending_commit g with
  | Some _ =>
      if eq_pending_commit g ct then conv_merge_pending_commit
      else throw ClearingPendingCommitError
  | None => throw SelfCommitIgnored
  end.

(** ** Parsing *)

(** The error of [process_message], as [parse_message] reports it. *)
Definition parse_error (is_duplicate : bool) (msg_epoch group_epoch : Z) (content_type : ContentType)
    (e : ProcessMessageError) : CryptoError :=
  match e with
  | ProcessValidationError (UnableToDecrypt GenerationOutOfBound) => DuplicateMessage
  | ProcessValidationError ValidationWrongEpoch =>
      if is_duplicate then DuplicateMessage
      else if Z.eqb msg_epoch (group_epoch + 1) then BufferedFutureMessage
      else if Z.ltb msg_epoch group_epoch then
        match content_type with
        | CTApplication => WrongEpoch
        | CTCommit => StaleCommit
        | CTProposal => StaleProposal
        end
      else WrongEpoch
  | ProcessValidationError (UnableToDecrypt AeadError) => DecryptionError
  | ProcessValidationError (UnableToDecrypt (DecryptionSecretTreeError TooDistantInThePast)) =>
      MessageEpochTooOld
  | e => from_mls MlsMessageError e
  end.

Definition parse_message (msg_in : MlsMessageIn) : cc ConvState ProcessedMessage :=
  b ← get_backend;
  g ← get_group;
  '(protocol_message, content_type, is_duplicate) ← (match msg_in with
    | MPublicMessage m =>
        is_duplicate ← lift_res (is_duplicate_message b g m);
        mret (PMPublic m, body_content_type (pub_body m), is_duplicate)
    | MPrivateMessage m => mret (PMPrivate m, prv_content_type m, false)
    | _ => throw (MlsErrorC (MlsMessageError IncompatibleWireFormat))
    end);
  let msg_epoch := protocol_epoch protocol_message in
  let group_epoch := epoch g in
  processed_msg ← group_op (parse_error is_duplicate msg_epoch group_epoch content_type)
    (process_message protocol_message);
  if is_duplicate : bool then throw DuplicateMessage else mret processed_msg.

(** ** Validation *)

Definition pending_removals (self : MlsConversation) : list Z :=
  omap (M := list) (fun p => match qp_proposal p with PRemove i => Some i | _ => None end)
    (pending_proposals (conv_group self)).

Definition members_in_next_epoch (self : MlsConversation) : list bytes :=
  let pending_removals := pending_removals self in
  let existing_clients := omap (M := list) (fun kp =>
    if bool_decide (member_index kp ∈ pending_removals) then None
    else Some (identity (member_credential kp))) (members (conv_group self)) in
  via_hash_set existing_clients.

Definition parent_clients {S} (parent_conversation : option ParentRef) :
    cc S (option (list bytes)) :=
  match parent_conversation with
  | Some parent_conv =>
      c ← read_parent parent_conv;
      mret (Some (get_client_ids c))
  | None => mret None
  end.

Definition is_external_init (commit : StagedCommit) : bool :=
  existsb (fun p => bool_decide (qp_sender p = SNewMemberCommit) &&
    match qp_proposal p with PExternalInit _ => true | _ => false end) (queued_proposals commit).

(** The X509 credentials that a commit adds; the state they are in is computed and not acted on. *)
Definition added_x509 (commit : StagedCommit) : list Credential :=
  omap (M := list) (fun p =>
    let credential := leaf_credential (kp_leaf_node p.1) in
    if bool_decide (credential_type credential = CTX509) then Some credential else None)
    (add_proposals commit).

Definition validate_commit (commit : StagedCommit) : cc ConvState () :=
  b ← get_backend;
  if is_env_setup b then
    let state := compute_state (added_x509 commit) b X509 in
    if bool_decide (state <> Verified) then mret () else mret ()
  else mret ().

Definition validate_external_commit (commit : StagedCommit) (sender : bytes)
    (parent_conversation : option ParentRef) (callbacks : option CoreCryptoCallbacks) :
    cc ConvState () :=
  c ← get_conv;
  (if is_external_init commit then
    callbacks ← some_or CallbacksNotSet callbacks;
    let existing_clients := members_in_next_epoch c in
    parent_clients ← parent_clients parent_conversation;
    if negb (client_is_existing_group_user callbacks (conv_id c) sender existing_clients parent_clients)
    then throw UnauthorizedExternalCommit
    else if negb (user_authorize callbacks (conv_id c) sender existing_clients)
    then throw UnauthorizedExternalCommit
    else mret ()
  else mret ());;
  validate_commit commit.

Definition validate_external_proposal (proposal : QueuedProposal)
    (parent_conversation : option ParentRef) (callbacks : option CoreCryptoCallbacks) :
    cc ConvState () :=
  c ← get_conv;
  if is_external proposal then
    match qp_proposal proposal with
    | PAdd add_proposal =>
        callbacks ← some_or CallbacksNotSet callbacks;
        let existing_clients := members_in_next_epoch c in
        let self_identity := identity (leaf_credential (kp_leaf_node add_proposal)) in
        parent_clients ← parent_clients parent_conversation;
        let is_self_user_in_group := client_is_existing_group_user callbacks (conv_id c)
          self_identity existing_clients parent_clients in
        if negb is_self_user_in_group then throw UnauthorizedExternalAddProposal else mret ()
    | _ => mret ()
    end
  else mret ().

(** ** [decrypt_message] *)

(** A proposal, ours to keep for the next commit. *)
Definition decrypt_proposal (proposal : QueuedProposal) (ident : option WireIdentity) :
    cc ConvState MlsConversationDecryptMessage :=
  crl_dps ← lift_res (extract_crl_uris_from_proposals [qp_proposal proposal]);
  crl_new_distribution_points ← backend (get_new_crl_distribution_points crl_dps);
  mod_group (store_pending_proposal proposal);;
  g ← get_group;
  mret {|
    dm_app_msg := None;
    dm_proposals := [];
    dm_is_active := true;
    dm_delay := compute_next_commit_delay g;
    dm_sender_client_id := None;
    dm_has_epoch_changed := false;
    dm_identity := ident;
    dm_buffered_messages := None;
    dm_crl_new_distribution_points := crl_new_distribution_points;
  |}.

(** A commit of somebody else. [restore] is what is done with the buffered messages. *)
Definition decrypt_commit (client : Client) (staged_commit : StagedCommit) (ident : option WireIdentity)
    (restore : cc ConvState (option (list MlsBufferedConversationDecryptMessage))) :
    cc ConvState MlsConversationDecryptMessage :=
  c ← get_conv;
  let pending_proposals := self_pending_proposals c in
  let proposal_refs := (qp_proposal <$> pending_proposals)
    ++ ((fun p => PAdd p.1) <$> add_proposals staged_commit)
    ++ ((fun p => PUpdate p.1) <$> update_proposals staged_commit) in
  crl_dps_from_proposals ← lift_res (extract_crl_uris_from_proposals proposal_refs);
  crl_dps_from_update_path ← lift_res (extract_crl_uris_from_update_path staged_commit);
  crl_new_distribution_points ← backend (get_new_crl_distribution_points
    (crl_dps_from_proposals ++ crl_dps_from_update_path));
  let pending_commit := pending_commit (conv_group c) in
  group_op (from_mls MlsMergeCommitError) (merge_staged_commit staged_commit);;
  g ← get_group;
  let '(proposals_to_renew, needs_update) :=
    renew (own_leaf_index g) pending_proposals pending_commit staged_commit in
  proposals ← renew_proposals_for_current_epoch client proposals_to_renew needs_update;
  buffered_messages ← restore;
  g ← get_group;
  mret {|
    dm_app_msg := None;
    dm_proposals := proposals;
    dm_is_active := is_active g;
    dm_delay := compute_next_commit_delay g;
    dm_sender_client_id := None;
    dm_has_epoch_changed := true;
    dm_identity := ident;
    dm_buffered_messages := buffered_messages;
    dm_crl_new_distribution_points := crl_new_distribution_points;
  |}.

Definition decrypt_content (client : Client) (callbacks : option CoreCryptoCallbacks)
    (parent_conv : option ParentRef) (sender_client_id : bytes) (ident : option WireIdentity)
    (content : ProcessedMessageContent)
    (restore : cc ConvState (option (list MlsBufferedConversationDecryptMessage))) :
    cc ConvState MlsConversationDecryptMessage :=
  match content with
  | ApplicationMessage app_msg => mret {|
      dm_app_msg := Some app_msg;
      dm_proposals := [];
      dm_is_active := true;
      dm_delay := None;
      dm_sender_client_id := Some sender_client_id;
      dm_has_epoch_changed := false;
      dm_identity := ident;
      dm_buffered_messages := None;
      dm_crl_new_distribution_points := None;
    |}
  | ProposalMessage proposal => decrypt_proposal proposal ident
  | StagedCommitMessage staged_commit =>
      validate_external_commit staged_commit sender_client_id parent_conv callbacks;;
      validate_commit staged_commit;;
      decrypt_commit client staged_commit ident restore
  | ExternalJoinProposalMessage proposal =>
      validate_external_proposal proposal parent_conv callbacks;;
      decrypt_proposal proposal ident
  end.

Definition decrypt_with (restore : cc ConvState (option (list MlsBufferedConversationDecryptMessage)))
    (message : MlsMessageIn) (parent_conv : option ParentRef) (client : Client)
    (callbacks : option CoreCryptoCallbacks) : cc ConvState MlsConversationDecryptMessage :=
  g ← get_group;
  self_commit ← lift_res (maybe_self_member_commit g message);
  match self_commit with
  | Some ct => handle_self_member_commit ct
  | None =>
      message ← parse_message message;
      let credential := processed_credential message in
      ident ← lift_res (extract_identity credential);
      let sender_client_id := identity credential in
      decrypted ← decrypt_content client callbacks parent_conv sender_client_id ident
        (processed_content message) restore;
      persist_group_when_changed false;;
      mret decrypted
  end.

(** With [restore_pending] off, a commit leaves the buffered messages where they are. *)
Definition decrypt_no_restore := decrypt_with (mret None).

(** ** Buffered messages *)

(** A buffered message, with the content type it is sorted by. *)
Definition read_pending (m : MlsPendingMessage) : CryptoResult (Z * MlsMessageIn) :=
  msg ← mls_err MlsTlsCodecError (message_deserialize (pm_message m));
  ct ← (match msg with
    | MPublicMessage m => Ok (body_content_type (pub_body m))
    | MPrivateMessage m => Ok (prv_content_type m)
    | _ => Err ConsumerError
    end);
  Ok (ContentType_as_u8 ct, msg).

Definition decrypt_pending (client : Client) (callbacks : option CoreCryptoCallbacks)
    (parent_conversation : option ParentRef) (m : MlsMessageIn) :
    cc ConvState MlsBufferedConversationDecryptMessage :=
  c ← get_conv;
  parent_conversation ← (match conv_parent_id c with
    | Some _ => p ← some_or ParentGroupNotFound parent_conversation; mret (Some p)
    | None => mret None
    end);
  decrypted ← decrypt_no_restore m parent_conversation client callbacks;
  mret (buffered_from decrypted).

Definition restore_pending_messages (client : Client) (callbacks : option CoreCryptoCallbacks)
    (parent_conversation : option ParentRef) (is_rejoin : bool) :
    cc ConvState (option (list MlsBufferedConversationDecryptMessage)) :=
  c ← get_conv;
  let group_id := conv_id c in
  if is_rejoin then
    found ← backend (ks (Connection_find (E := MlsPendingMessage) group_id));
    (match found with
     | Some _ => backend (ks (Connection_remove MlsPendingMessage group_id))
     | None => mret ()
     end);;
    mret None
  else
    all ← backend (ks (Connection_find_all (E := MlsPendingMessage) EntityFindParams_default));
    pending_messages ← lift_res (try_map read_pending
      (List.filter (fun pm => bool_decide (pm_id pm = group_id)) all));
    let pending_messages := stable_sort fst pending_messages in
    decrypted_messages ← st_map (fun p => decrypt_pending client callbacks parent_conversation p.2)
      pending_messages;
    mret (match decrypted_messages with [] => None | _ => Some decrypted_messages end).

(** What [decrypt_message] does with the buffered messages after a commit. *)
Definition restore_after_commit (client : Client) (callbacks : option CoreCryptoCallbacks)
    (parent_conv : option ParentRef) :
    cc ConvState (option (list MlsBufferedConversationDecryptMessage)) :=
  pm ← restore_pending_messages client callbacks parent_conv false;
  match pm with
  | Some pm =>
      c ← get_conv;
      backend (ks (Connection_remove MlsPendingMessage (conv_id c)));;
      mret (Some pm)
  | None => mret None
  end.

(** [MlsConversation::decrypt_message] *)
Definition conv_decrypt_message (message : MlsMessageIn) (parent_conv : option ParentRef)
    (client : Client) (callbacks : option CoreCryptoCallbacks) (restore_pending : bool) :
    cc ConvState MlsConversationDecryptMessage :=
  decrypt_with (if restore_pending then restore_after_commit client callbacks parent_conv else mret None)
    message parent_conv client callbacks.
End decrypt.
