(* ===== verification/Central.v ===== *)
(** * MlsCentral

    [MlsCentral] of [crypto/src/mls]: the client, the provider, the group store and the
    callbacks of the application. Its methods find a conversation in the store and call the
    conversation's method behind its lock; make, join, rejoin, restore and wipe conversations;
    and keep messages that come too early. *)

From S2P Require Import Prelude KsError Sql SqlSpec Entity TableFrame.
From S2P Require Import MlsGroups MlsPending MlsKeys MlsCredentials E2eiEntities Keystore.
From S2P Require Import CcError Ids Backend GroupStore OpenMls Config CommitDelay Credential.
From S2P Require Import Certificates ClientOps Conversation Renew Decrypt.
Open Scope Z_scope.

(** ** Conversations in the group store *)

Section entity.
Context `{SqlEngine, Provider, OpenMlsTypes} `{!OpenMls}.

(** A conversation that is not active is treated as one that is not there. *)
Definition conv_fetch_from_id (id : bytes) (_ : option ()) : cc conn (option MlsConversation) :=
  store_value ← on_conn (find_one (E := PersistedMlsGroup) id);
  match store_value with
  | None => mret None
  | Some store_value =>
      conversation ← lift_res (from_serialized_state (pg_state store_value) (pg_parent_id store_value));
      mret (if is_active (conv_group conversation) then Some conversation else None)
  end.

Definition conv_fetch_all : cc conn (list MlsConversation) :=
  all_conversations ← on_conn (find_all (E := PersistedMlsGroup) EntityFindParams_default);
  conversations ← st_map (fun c : PersistedMlsGroup =>
    unwrap (res_ok (from_serialized_state (pg_state c) (pg_parent_id c)))) all_conversations;
  mret (List.filter (fun c => is_active (conv_group c)) conversations).

#[export] Instance MlsConversation_group_store_entity : GroupStoreEntity MlsConversation := {|
  IdentityType := ();
  gse_id c := Some (conv_id c);
  fetch_from_id := conv_fetch_from_id;
  fetch_all := conv_fetch_all;
|}.
End entity.

(** [serde_json] on a configuration, which a pending group is stored with. *)
Class ConfigSerde := {
  cfg_to_vec : MlsCustomConfiguration -> result ext_error bytes;
  cfg_from_slice : bytes -> result ext_error MlsCustomConfiguration;
}.

(** A configuration is a few fields of a few bytes. *)
Class ConfigSerdeLaws `{ConfigSerde} :=
  cfg_to_vec_small cfg b : cfg_to_vec cfg = Ok b -> blen b <= i32_max.

Section central.
Context `{SqlEngine, Provider, OpenMlsTypes} `{!OpenMls} `{!X509Lib, !IdCodecs, !F32Ln}.
Context `{SchnellruLimits, Schnellru} `{!ConfigSerde}.

Record MlsCentral := MkCentral {
  mls_client : option Client;
  mls_backend : MlsCryptoProvider;
  mls_groups : GroupStore MlsConversation;
  callbacks : option CoreCryptoCallbacks;
}.

Definition set_client (o : option Client) (c : MlsCentral) : MlsCentral :=
  MkCentral o (mls_backend c) (mls_groups c) (callbacks c).
Definition set_backend (b : MlsCryptoProvider) (c : MlsCentral) : MlsCentral :=
  MkCentral (mls_client c) b (mls_groups c) (callbacks c).
Definition set_groups (gs : GroupStore MlsConversation) (c : MlsCentral) : MlsCentral :=
  MkCentral (mls_client c) (mls_backend c) gs (callbacks c).

(** ** Computations on the parts *)

Definition get_central : cc MlsCentral MlsCentral := fun c => (Ok c, c).

Definition with_backend {A} (m : cc MlsCryptoProvider A) : cc MlsCentral A :=
  on mls_backend set_backend m.

(** The group store, with the connection of the provider. *)
Definition with_groups {A} (m : cc (conn * GroupStore MlsConversation) A) : cc MlsCentral A :=
  on (fun c => (key_store (mls_backend c), mls_groups c))
     (fun s c => set_groups s.2 (set_backend (set_key_store s.1 (mls_backend c)) c)) m.

Definition insert_group (id : bytes) (conversation : MlsConversation) : cc MlsCentral () :=
  st_modify (fun c => set_groups (gs_insert id conversation (mls_groups c)) c).

(** [self.mls_client()?] and [self.mls_client.as_mut().ok_or(..)?] *)
Definition the_client : cc MlsCentral Client :=
  c ← get_central; some_or MlsNotInitialized (mls_client c).

Definition with_client {A} (m : cc (MlsCryptoProvider * Client) A) : cc MlsCentral A := fun c =>
  match mls_client c with
  | None => (Err (Throw MlsNotInitialized), c)
  | Some client =>
      let (r, s) := m (mls_backend c, client) in
      (r, set_client (Some s.2) (set_backend s.1 c))
  end.

(** [conversation.write().await.m(..)]: the cell that the [Arc] stands for is there. *)
Definition with_conv {A} (a : Arc) (m : cc (MlsCryptoProvider * MlsConversation) A) :
    cc MlsCentral A := fun c =>
  match arc_read a (mls_groups c) with
  | None => (Err Panic, c)
  | Some conv =>
      let (r, s) := m (mls_backend c, conv) in
      (r, set_groups (arc_write a s.2 (mls_groups c)) (set_backend s.1 c))
  end.

(** [conversation.read().await] *)
Definition read_conv (a : Arc) : cc MlsCentral MlsConversation :=
  c ← get_central; unwrap (arc_read a (mls_groups c)).

(** A conversation that is a local variable. *)
Definition local_conv {A} (conversation : MlsConversation)
    (m : cc (MlsCryptoProvider * MlsConversation) A) : cc MlsCentral (A * MlsConversation) := fun c =>
  let (r, s) := m (mls_backend c, conversation) in
  (match r with Ok a => Ok (a, s.2) | Err e => Err e end, set_backend s.1 c).

(** ** Finding conversations ([conversation/mod.rs]) *)

Definition get_conversation (id : bytes) : cc MlsCentral Arc :=
  o ← with_groups (get_fetch id None);
  some_or (ConversationNotFound id) o.

Definition get_parent_conversation (conversation : Arc) : cc MlsCentral (option Arc) :=
  conversation_lock ← read_conv conversation;
  match conv_parent_id conversation_lock with
  | Some parent_id =>
      parent ← attempt (get_conversation parent_id);
      match parent with
      | Ok parent => mret (Some parent)
      | Err _ => throw ParentGroupNotFound
      end
  | None => mret None
  end.

Definition get_all_conversations : cc MlsCentral (list Arc) := with_groups get_fetch_all.

(** The parent as the conversation's method gets it, which runs with the lock of [child] held. *)
Definition parent_ref (child : option Arc) (parent : option Arc) : cc MlsCentral (option ParentRef) :=
  match parent with
  | None => mret None
  | Some p =>
      if bool_decide (child = Some p) then mret (Some ParentSelf)
      else c ← read_conv p; mret (Some (ParentOther c))
  end.

Definition mark_conversation_as_child_of (child_id parent_id : bytes) : cc MlsCentral () :=
  conversation ← get_conversation child_id;
  with_conv conversation (mark_as_child_of parent_id).

Definition conversation_exists (id : bytes) : cc MlsCentral bool :=
  r ← attempt (with_groups (get_fetch id None));
  mret (match r with Ok (Some _) => true | _ => false end).

Definition conversation_epoch (id : bytes) : cc MlsCentral Z :=
  conversation ← get_conversation id;
  conversation ← read_conv conversation;
  mret (epoch (conv_group conversation)).

(** ** Making a conversation *)

(** [MlsConversation::create] *)
Definition create (id : bytes) (creator_credential_type : MlsCredentialType)
    (configuration : MlsConversationConfiguration) :
    cc (MlsCryptoProvider * Client) MlsConversation :=
  let cs := ciphersuite configuration in
  cb ← get_most_recent_or_create_credential_bundle (signature_algorithm cs) creator_credential_type;
  gc ← lift_res (as_openmls_default_configuration configuration);
  group ← on_backend (prov (from_mls MlsNewGroupError)
    (new_with_group_id (cb_signature_key cb) gc id (to_mls_credential_with_key cb)));
  on_backend (fun b =>
    match persist_group_when_changed true (b, MkConversation id None group configuration) with
    | (Ok (), (b', conversation)) => (Ok conversation, b')
    | (Err e, (b', _)) => (Err e, b')
    end).

Definition pending_group_exists (id : bytes) : cc MlsCentral bool :=
  r ← attempt (with_backend (ks (Connection_find (E := PersistedMlsPendingGroup) id)));
  mret (match r with Ok (Some _) => true | _ => false end).

Definition new_conversation (id : bytes) (creator_credential_type : MlsCredentialType)
    (config : MlsConversationConfiguration) : cc MlsCentral () :=
  exists_ ← conversation_exists id;
  pending ← (if exists_ : bool then mret true else pending_group_exists id);
  if pending : bool then throw (ConversationAlreadyExists id)
  else
    conversation ← with_client (create id creator_credential_type config);
    insert_group id conversation.

(** ** Calls on a conversation ([commit.rs], [merge.rs], [encrypt.rs], [export.rs],
    [external_sender.rs], [proposal.rs], [conversation_state.rs]) *)

Definition authorized (id : bytes) : cc MlsCentral () :=
  c ← get_central;
  match callbacks c with
  | Some callbacks =>
      client ← the_client;
      if negb (authorize callbacks id (client_id client)) then throw Unauthorized else mret ()
  | None => mret ()
  end.

Definition add_members_to_conversation (id : bytes) (key_packages : list KeyPackageIn) :
    cc MlsCentral MlsConversationCreationMessage :=
  authorized id;;
  conversation ← get_conversation id;
  client ← the_client;
  with_conv conversation (add_members client key_packages).

Definition remove_members_from_conversation (id : bytes) (clients : list bytes) :
    cc MlsCentral MlsCommitBundle :=
  authorized id;;
  conversation ← get_conversation id;
  client ← the_client;
  with_conv conversation (remove_members client clients).

Definition central_update_keying_material (id : bytes) : cc MlsCentral MlsCommitBundle :=
  conversation ← get_conversation id;
  client ← the_client;
  with_conv conversation (update_keying_material client None None).

Definition central_commit_pending_proposals (id : bytes) : cc MlsCentral (option MlsCommitBundle) :=
  conversation ← get_conversation id;
  client ← the_client;
  with_conv conversation (commit_pending_proposals client).

Definition central_encrypt_message (id message : bytes) : cc MlsCentral bytes :=
  conversation ← get_conversation id;
  client ← the_client;
  with_conv conversation (encrypt_message client message).

Definition central_export_secret_key (id : bytes) (key_length : Z) : cc MlsCentral bytes :=
  conversation ← get_conversation id;
  conversation ← read_conv conversation;
  c ← get_central;
  lift_res (export_secret_key (mls_backend c) key_length conversation).

Definition central_get_client_ids (id : bytes) : cc MlsCentral (list bytes) :=
  conversation ← get_conversation id;
  conversation ← read_conv conversation;
  mret (get_client_ids conversation).

Definition central_get_external_sender (id : bytes) : cc MlsCentral bytes :=
  conversation ← get_conversation id;
  conversation ← read_conv conversation;
  lift_res (get_external_sender conversation).

Definition central_e2ei_conversation_state (id : bytes) : cc MlsCentral E2eiConversationState :=
  conversation ← get_conversation id;
  conversation ← read_conv conversation;
  c ← get_central;
  mret (e2ei_conversation_state (mls_backend c) conversation).

Definition central_clear_pending_proposal (id proposal_ref : bytes) : cc MlsCentral () :=
  conversation ← get_conversation id;
  with_conv conversation (clear_pending_proposal proposal_ref).

Definition central_clear_pending_commit (id : bytes) : cc MlsCentral () :=
  conversation ← get_conversation id;
  with_conv conversation conv_clear_pending_commit.

Inductive MlsProposal :=
  | ProposalAdd (key_package : KeyPackage)
  | ProposalUpdate
  | ProposalRemove (client_id : bytes).

Definition proposal_create (self : MlsProposal) (client : Client) :
    cc (MlsCryptoProvider * MlsConversation) MlsProposalBundle :=
  match self with
  | ProposalAdd key_package => propose_add_member client (kp_in key_package)
  | ProposalUpdate => propose_self_update client
  | ProposalRemove client_id =>
      g ← get_group;
      kp ← some_or (ClientNotFound client_id)
        (first (fun kp => bool_decide (identity (member_credential kp) = client_id)) (members g));
      propose_remove_member client (member_index kp)
  end.

Definition new_proposal (id : bytes) (proposal : MlsProposal) : cc MlsCentral MlsProposalBundle :=
  conversation ← get_conversation id;
  client ← the_client;
  with_conv conversation (proposal_create proposal client).

Definition new_add_proposal id key_package := new_proposal id (ProposalAdd key_package).
Definition new_remove_proposal id client_id := new_proposal id (ProposalRemove client_id).
Definition new_update_proposal id := new_proposal id ProposalUpdate.

(** A proposal of a client that is not a member ([external_proposal.rs]). *)
Definition new_external_add_proposal (conversation_id : bytes) (epoch : Z) (cs : Ciphersuite)
    (credential_type : MlsCredentialType) : cc MlsCentral MlsMessageOut :=
  let sc := signature_algorithm cs in
  client ← the_client;
  cb ← (match find_most_recent_credential_bundle (identities client) sc credential_type, credential_type with
    | Some cb, _ => mret cb
    | None, Basic =>
        with_client (init_basic_credential_bundle_if_missing sc);;
        client ← the_client;
        some_or (CredentialNotFound credential_type)
          (find_most_recent_credential_bundle (identities client) sc credential_type)
    | None, X509 => throw E2eiEnrollmentNotDone
    end);
  client ← the_client;
  kp ← with_backend (generate_one_keypackage_from_credential_bundle client cs cb);
  lift_res (mls_err ProposeAddMemberError
    (join_proposal_new kp conversation_id epoch (cb_signature_key cb))).

(** ** Messages that come too early ([buffer_messages.rs], [buffer_external_commit.rs]) *)

Definition handle_future_message (id message : bytes) : cc MlsCentral MlsConversationDecryptMessage :=
  with_backend (ks (Connection_save (MkMlsPendingMessage id message)));;
  throw BufferedFutureMessage.

Definition handle_when_group_is_pending (id message : bytes) :
    cc MlsCentral MlsConversationDecryptMessage :=
  pending_group ← attempt (with_backend (ks (Connection_find (E := PersistedMlsPendingGroup) id)));
  match pending_group with
  | Ok (Some pending_group) =>
      with_backend (ks (Connection_save (MkMlsPendingMessage (ppg_id pending_group) message)));;
      throw UnmergedPendingGroup
  | _ => throw (ConversationNotFound id)
  end.

(** The parent of a conversation, if it can be found. *)
Definition restore_parent (parent_id : option bytes) : cc MlsCentral (option Arc) :=
  match parent_id with
  | Some id => r ← attempt (get_conversation id); mret (res_ok r)
  | None => mret None
  end.

(** [MlsCentral::restore_pending_messages] on the conversation in a cell, whose lock is held. *)
Definition central_restore_pending_messages (conversation : Arc) (is_rejoin : bool) :
    cc MlsCentral (option (list MlsBufferedConversationDecryptMessage)) :=
  conv ← read_conv conversation;
  parent ← restore_parent (conv_parent_id conv);
  c ← get_central;
  client ← the_client;
  parent ← parent_ref (Some conversation) parent;
  with_conv conversation (restore_pending_messages client (callbacks c) parent is_rejoin).

(** ... and on one that is a local variable. *)
Definition local_restore_pending_messages (conversation : MlsConversation) (is_rejoin : bool) :
    cc MlsCentral (option (list MlsBufferedConversationDecryptMessage) * MlsConversation) :=
  parent ← restore_parent (conv_parent_id conversation);
  c ← get_central;
  client ← the_client;
  parent ← parent_ref None parent;
  local_conv conversation (restore_pending_messages client (callbacks c) parent is_rejoin).

(** [if pending_messages.is_some() { remove::<MlsPendingMessage>(id) }] *)
Definition remove_restored (id : bytes)
    (pending_messages : option (list MlsBufferedConversationDecryptMessage)) : cc MlsCentral () :=
  match pending_messages with
  | Some _ => with_backend (ks (Connection_remove MlsPendingMessage id))
  | None => mret ()
  end.

Definition central_commit_accepted (id : bytes) :
    cc MlsCentral (option (list MlsBufferedConversationDecryptMessage)) :=
  conv ← get_conversation id;
  with_conv conv commit_accepted;;
  pending_messages ← central_restore_pending_messages conv false;
  remove_restored id pending_messages;;
  mret pending_messages.

(** ** Wiping and decrypting *)

Definition wipe_conversation (id : bytes) : cc MlsCentral () :=
  conversation ← get_conversation id;
  with_conv conversation wipe_associated_entities;;
  with_backend (ks (mls_group_delete id));;
  st_modify (fun c => set_groups (gs_remove id (mls_groups c)).2 c).

Definition decrypt_message (id message : bytes) : cc MlsCentral MlsConversationDecryptMessage :=
  msg ← lift_res (mls_err MlsTlsCodecError (message_deserialize message));
  conversation ← attempt (get_conversation id);
  match conversation with
  | Err _ => handle_when_group_is_pending id message
  | Ok conversation =>
      parent_conversation ← get_parent_conversation conversation;
      c ← get_central;
      client ← the_client;
      parent ← parent_ref (Some conversation) parent_conversation;
      decrypt_message ← attempt (with_conv conversation
        (conv_decrypt_message msg parent client (callbacks c) true));
      decrypt_message ← (match decrypt_message with
        | Err BufferedFutureMessage => handle_future_message id message
        | r => lift_res r
        end);
      (if negb (dm_is_active decrypt_message) then wipe_conversation id else mret ());;
      mret decrypt_message
  end.

(** ** Joining with a welcome ([welcome.rs]) *)

Record WelcomeBundle := MkWelcomeBundle {
  wb_id : bytes;
  wb_crl_new_distribution_points : option (list bytes);
}.

Definition from_welcome_message (welcome : Welcome) (configuration : MlsConversationConfiguration) :
    cc MlsCentral MlsConversation :=
  mls_group_config ← lift_res (as_openmls_default_configuration configuration);
  group ← with_backend (prov (fun e => match e with
      | NoMatchingKeyPackage => OrphanWelcome
      | e => from_mls MlsWelcomeError e
      end) (new_from_welcome mls_group_config welcome));
  let id := group_id group in
  conversation_exists ← conversation_exists id;
  pending_group_exists ← pending_group_exists id;
  if conversation_exists || pending_group_exists then throw (ConversationAlreadyExists id)
  else with_backend (from_mls_group group configuration).

Definition process_welcome_message (welcome : MlsMessageIn) (custom_cfg : MlsCustomConfiguration) :
    cc MlsCentral WelcomeBundle :=
  welcome ← (match welcome with MWelcome welcome => mret welcome | _ => throw ConsumerError end);
  let configuration := MkConversationConfiguration (welcome_ciphersuite welcome) [] custom_cfg in
  conversation ← from_welcome_message welcome configuration;
  crl_new_distribution_points ← lift_res (chains_dps
    (omap (M := list) (fun m => certificates (member_credential m)) (members (conv_group conversation))));
  let id := conv_id conversation in
  insert_group id conversation;;
  mret (MkWelcomeBundle id crl_new_distribution_points).

Definition process_raw_welcome_message (welcome : bytes) (custom_cfg : MlsCustomConfiguration) :
    cc MlsCentral WelcomeBundle :=
  welcome ← lift_res (mls_err MlsTlsCodecError (message_deserialize welcome));
  process_welcome_message welcome custom_cfg.

(** ** Joining with an external commit ([external_commit.rs]) *)

Record MlsConversationInitBundle := MkInitBundle {
  ib_conversation_id : bytes;
  ib_commit : MlsMessageOut;
  ib_group_info : MlsGroupInfoBundle;
  ib_crl_new_distribution_points : option (list bytes);
}.

(** [MlsError::MlsKeystoreSerializationError] *)
Definition json {S A} (r : result ext_error A) : cc S A :=
  lift_res (mls_err MlsKeystoreSerializationError r).

Definition join_by_external_commit (group_info : VerifiableGroupInfo)
    (custom_cfg : MlsCustomConfiguration) (credential_type : MlsCredentialType) :
    cc MlsCentral MlsConversationInitBundle :=
  let cs := verifiable_ciphersuite group_info in
  cb ← with_client (get_most_recent_or_create_credential_bundle (signature_algorithm cs) credential_type);
  serialized_cfg ← json (cfg_to_vec custom_cfg);
  let configuration := MkConversationConfiguration cs [] custom_cfg in
  gc ← lift_res (as_openmls_default_configuration configuration);
  '(group, commit, group_info) ← with_backend (prov (from_mls MlsExternalCommitError)
    (group_join_by_external_commit (cb_signature_key cb) group_info gc (to_mls_credential_with_key cb)));
  group_info ← some_or ImplementationError group_info;
  group_info ← lift_res (try_new_full_plaintext group_info);
  crl_new_distribution_points ← lift_res (match certificates (cb_credential cb) with
    | Some cert => dp ← extract_dp cert; Ok (Some dp)
    | None => Ok None
    end);
  state ← lift_res (map_err KeyStoreError (ser group));
  with_backend (ks (mls_pending_groups_save (group_id group) state serialized_cfg None));;
  mret (MkInitBundle (group_id group) commit group_info crl_new_distribution_points).

(** [mls_group.merge_pending_commit(&self.mls_backend)] on a group that is a local variable. *)
Definition merge_local (g : MlsGroup) : cc MlsCentral MlsGroup := fun c =>
  match merge_pending_commit (mls_backend c, g) with
  | (Ok (), (b, g)) => (Ok g, set_backend b c)
  | (Err e, (b, _)) => (Err (Throw (from_mls MlsMergePendingCommitError e)), set_backend b c)
  end.

Definition merge_pending_group_from_external_commit (id : bytes) :
    cc MlsCentral (option (list MlsBufferedConversationDecryptMessage)) :=
  '(group, cfg) ← with_backend (ks (mls_pending_groups_load id));
  mls_group ← lift_res (map_err KeyStoreError (deser (V := MlsGroup) group));
  mls_group ← merge_local mls_group;
  custom_cfg ← json (cfg_from_slice cfg);
  let configuration := MkConversationConfiguration (group_ciphersuite mls_group) [] custom_cfg in
  is_rejoin ← with_backend (ks (mls_group_exists id));
  conversation ← with_backend (from_mls_group mls_group configuration);
  '(pending_messages, conversation) ← local_restore_pending_messages conversation is_rejoin;
  insert_group id conversation;;
  with_backend (ks (mls_pending_groups_delete id));;
  remove_restored id pending_messages;;
  mret pending_messages.

Definition clear_pending_group_from_external_commit (id : bytes) : cc MlsCentral () :=
  with_backend (ks (mls_pending_groups_delete id)).

(** ** Restoring ([restore.rs], [durability.rs]) *)

(** The loop stops at the first conversation that the store refuses. *)
Fixpoint restore_loop (groups : list (bytes * (option bytes * bytes)))
    (group_store : GroupStore MlsConversation) : CryptoResult (GroupStore MlsConversation) :=
  match groups with
  | [] => Ok group_store
  | (group_id, (parent_id, state)) :: groups =>
      match from_serialized_state state parent_id with
      | Err e => Err e
      | Ok conversation =>
          match gs_try_insert group_id conversation group_store with
          | (Ok (), group_store) => restore_loop groups group_store
          | (Err _, group_store) => Ok group_store
          end
      end
  end.

(** The cells that other holders of an [Arc] may still have are kept. *)
Definition restore_groups (cells : list MlsConversation) :
    cc MlsCryptoProvider (GroupStore MlsConversation) :=
  groups ← ks mls_groups_restore;
  let group_store := GroupStore_default cells in
  if bool_decide (groups = ∅) then mret group_store
  else lift_res (restore_loop (map_to_list groups) group_store).

Definition restore_from_disk : cc MlsCentral () :=
  c ← get_central;
  groups ← with_backend (restore_groups (gs_cells (mls_groups c)));
  st_modify (set_groups groups);;
  with_backend init_pki_env.

Definition central_drop_and_restore (id : bytes) : cc MlsCentral () :=
  groups ← attempt (with_backend (ks mls_groups_restore));
  groups ← unwrap (res_ok groups);
  '(parent_id, group) ← unwrap (groups !! id);
  group ← unwrap (res_ok (from_serialized_state group parent_id));
  insert_group id group.

(** ** Setting up ([mls/mod.rs]) *)

(** [try_new] and [try_new_in_memory], once the provider has opened the key store. *)
Definition MlsCentral_try_new (configuration : MlsCentralConfiguration) :
    cc MlsCryptoProvider MlsCentral := fun b =>
  let m : cc MlsCryptoProvider (option Client * GroupStore MlsConversation) :=
    mls_client ← (match cfg_client_id configuration with
      | Some id =>
          client ← Client_init (IdBasic id) (ciphersuites configuration)
            (default INITIAL_KEYING_MATERIAL_COUNT (nb_init_key_packages configuration));
          mret (Some client)
      | None => mret None
      end);
    mls_groups ← restore_groups [];
    init_pki_env;;
    mret (mls_client, mls_groups) in
  match m b with
  | (Ok (client, groups), b) => (Ok (MkCentral client b groups None), b)
  | (Err e, b) => (Err e, b)
  end.

(** [if self.mls_client.is_some() { return Err(CryptoError::ConsumerError) }] *)
Definition not_initialized : cc MlsCentral () :=
  c ← get_central;
  match mls_client c with Some _ => throw ConsumerError | None => mret () end.

Definition mls_init (identifier : ClientIdentifier) (ciphersuites : list Ciphersuite)
    (nb_init_key_packages : option Z) : cc MlsCentral () :=
  not_initialized;;
  let nb_key_package := default INITIAL_KEYING_MATERIAL_COUNT nb_init_key_packages in
  mls_client ← with_backend (Client_init identifier ciphersuites nb_key_package);
  (if is_e2ei_capable mls_client then with_backend init_pki_env else mret ());;
  st_modify (set_client (Some mls_client)).

Definition mls_generate_keypairs (ciphersuites : list Ciphersuite) : cc MlsCentral (list bytes) :=
  not_initialized;;
  with_backend (generate_raw_keypairs ciphersuites).

Definition mls_init_with_client_id (client_id : bytes) (tmp_client_ids : list bytes)
    (ciphersuites : list Ciphersuite) : cc MlsCentral () :=
  not_initialized;;
  mls_client ← with_backend (init_with_external_client_id client_id tmp_client_ids ciphersuites);
  st_modify (set_client (Some mls_client)).

Definition set_callbacks (cb : CoreCryptoCallbacks) (c : MlsCentral) : MlsCentral :=
  MkCentral (mls_client c) (mls_backend c) (mls_groups c) (Some cb).

Definition client_public_key (cs : Ciphersuite) (ct : MlsCredentialType) : cc MlsCentral bytes :=
  client ← the_client;
  cb ← some_or ClientSignatureNotFound
    (find_most_recent_credential_bundle (identities client) (signature_algorithm cs) ct);
  mret (skp_public (cb_signature_key cb)).

Definition central_client_id : cc MlsCentral bytes :=
  client ← the_client; mret (client_id client).

Definition random_bytes (len : nat) : cc MlsCentral bytes :=
  with_backend (prov MlsProviderError (random_vec len)).

(** [e2e_identity/enabled.rs] *)
Definition e2ei_is_enabled (signature_scheme : Z) : cc MlsCentral bool :=
  client ← the_client;
  match find_most_recent_credential_bundle (identities client) signature_scheme X509 with
  | None =>
      some_or (CredentialNotFound Basic)
        (find_most_recent_credential_bundle (identities client) signature_scheme Basic);;
      mret false
  | Some _ => mret true
  end.

(** ** Key packages ([client/key_package.rs]) *)

Definition get_or_create_client_keypackages (cs : Ciphersuite) (ct : MlsCredentialType)
    (amount_requested : Z) : cc MlsCentral (list KeyPackage) :=
  client ← the_client;
  with_backend (request_key_packages client amount_requested cs ct).

Definition client_valid_key_packages_count (cs : Ciphersuite) (ct : MlsCredentialType) :
    cc MlsCentral Z :=
  the_client;;
  with_backend (valid_keypackages_count cs ct).

Definition delete_keypackages (refs : list bytes) : cc MlsCentral () :=
  match refs with
  | [] => throw ConsumerError
  | _ => with_client (prune_keypackages_and_credential refs)
  end.

(** ** [db_count.rs] *)

Record EntitiesCount := MkEntitiesCount {
  n_credential : Z; n_encryption_keypair : Z; n_epoch_encryption_keypair : Z; n_enrollment : Z;
  n_group : Z; n_hpke_private_key : Z; n_key_package : Z; n_pending_group : Z;
  n_pending_messages : Z; n_psk_bundle : Z; n_signature_keypair : Z;
}.

(** [keystore.count::<E>().await.unwrap()] *)
Definition count_of (E : Type) `{EntityBase E} : cc MlsCentral Z :=
  r ← attempt (with_backend (ks (Connection_count (E := E)))); unwrap (res_ok r).

Definition count_entities : cc MlsCentral EntitiesCount :=
  credential ← count_of MlsCredential;
  encryption_keypair ← count_of MlsEncryptionKeyPair;
  epoch_encryption_keypair ← count_of MlsEpochEncryptionKeyPair;
  enrollment ← count_of E2eiEnrollment;
  group ← count_of PersistedMlsGroup;
  hpke_private_key ← count_of MlsHpkePrivateKey;
  key_package ← count_of MlsKeyPackage;
  pending_group ← count_of PersistedMlsPendingGroup;
  pending_messages ← count_of MlsPendingMessage;
  psk_bundle ← count_of MlsPskBundle;
  signature_keypair ← count_of MlsSignatureKeyPair;
  mret (MkEntitiesCount credential encryption_keypair epoch_encryption_keypair enrollment group
    hpke_private_key key_package pending_group pending_messages psk_bundle signature_keypair).
End central.
