(* ===== verification/E2eiCentral.v ===== *)
(** * MlsCentral and certificates

    The methods of [MlsCentral] in [crypto/src/e2e_identity]: starting an enrollment ([mod.rs],
    [rotate.rs]), putting it aside ([stash.rs]), and using the certificate it ends with: for a new
    client ([e2ei_mls_init_only]) or in all conversations of an old one ([rotate.rs]). *)

From S2P Require Import Prelude KsError Sql SqlSpec Entity TableFrame.
From S2P Require Import MlsGroups MlsPending MlsKeys MlsCredentials E2eiEntities Keystore.
From S2P Require Import CcError Ids Backend GroupStore OpenMls Config CommitDelay Credential.
From S2P Require Import Certificates Acme Enrollment ClientOps Conversation Renew Decrypt Central.
Open Scope Z_scope.

Section central.
Context `{SqlEngine, Provider, OpenMlsTypes} `{!OpenMls} `{!X509Lib, !IdCodecs, !F32Ln}.
Context `{SchnellruLimits, Schnellru} `{!ConfigSerde} `{Acme} `{!EnrollmentSerde}.

(** [MlsRotateBundle] *)
Record MlsRotateBundle := MkRotateBundle {
  rb_commits : gmap bytes MlsCommitBundle;
  rb_new_key_packages : list KeyPackage;
  rb_key_package_refs_to_remove : list bytes;
  rb_crl_new_distribution_points : option (list bytes);
}.

(** ** Starting an enrollment *)

Definition e2ei_new_enrollment (client_id display_name handle : bytes) (team : option bytes)
    (expiry_sec : Z) (cs : Ciphersuite) : cc MlsCentral Enrollment :=
  with_backend (try_new client_id display_name handle team expiry_sec cs None None).

Definition e2ei_new_activation_enrollment (display_name handle : bytes) (team : option bytes)
    (expiry_sec : Z) (cs : Ciphersuite) : cc MlsCentral Enrollment :=
  client ← the_client;
  cb ← some_or (E2eiError (MissingExistingClient Basic))
    (find_most_recent_credential_bundle (identities client) (signature_algorithm cs) Basic);
  let client_id := identity (cb_credential cb) in
  sign_keypair ← lift_res (E2eiSignatureKeypair_try_from (cb_signature_key cb));
  with_backend (try_new client_id display_name handle team expiry_sec cs (Some sign_keypair) None).

Definition e2ei_new_rotate_enrollment (display_name handle team : option bytes) (expiry_sec : Z)
    (cs : Ciphersuite) : cc MlsCentral Enrollment :=
  client ← the_client;
  cb ← some_or (E2eiError (MissingExistingClient X509))
    (find_most_recent_credential_bundle (identities client) (signature_algorithm cs) X509);
  let client_id := identity (cb_credential cb) in
  sign_keypair ← lift_res (E2eiSignatureKeypair_try_from (cb_signature_key cb));
  existing_identity ← lift_res (extract_identity (cb_credential cb));
  existing_identity ← some_or (E2eiError E2eInvalidIdentity) existing_identity;
  let display_name := default (wi_display_name existing_identity) display_name in
  let handle := default (wi_handle existing_identity) handle in
  refresh_token ← with_backend find_refresh_token;
  with_backend (try_new client_id display_name handle team expiry_sec cs (Some sign_keypair)
    (Some refresh_token)).

Definition e2ei_enrollment_stash (enrollment : Enrollment) : cc MlsCentral bytes :=
  with_backend (stash enrollment).
Definition e2ei_enrollment_stash_pop (handle : bytes) : cc MlsCentral Enrollment :=
  with_backend (stash_pop handle).

(** ** A new client *)

Definition e2ei_mls_init_only (enrollment : Enrollment) (certificate_chain : bytes)
    (nb_init_key_packages : option Z) : cc MlsCentral (option (list bytes)) :=
  sk ← lift_res (get_sign_key_for_mls enrollment);
  let cs := enr_ciphersuite enrollment in
  certificate_chain ← lift_res (map_err E2eiError (certificate_response enrollment certificate_chain));
  crl_new_distribution_points ← with_backend (extract_dp_on_init certificate_chain);
  let cert_bundle := MkCertificateBundle certificate_chain sk (signature_algorithm cs) in
  let identifier := IdX509 {[ signature_algorithm cs := cert_bundle ]} in
  mls_init identifier [cs] nb_init_key_packages;;
  mret crl_new_distribution_points.

(** ** A new certificate for an old client *)

Fixpoint rotate_loop (cb : CredentialBundle) (conversations : list Arc)
    (commits : gmap bytes MlsCommitBundle) : cc MlsCentral (gmap bytes MlsCommitBundle) :=
  match conversations with
  | [] => mret commits
  | conv :: conversations =>
      c ← read_conv conv;
      let id := conv_id c in
      client ← the_client;
      commit ← with_conv conv (e2ei_rotate client cb);
      rotate_loop cb conversations (<[id := commit]> commits)
  end.

Definition e2ei_update_all (cb : CredentialBundle) : cc MlsCentral (gmap bytes MlsCommitBundle) :=
  all_conversations ← get_all_conversations;
  rotate_loop cb all_conversations ∅.

(** Is the key package one that the credential [cb] replaces? *)
Definition kp_deprecated (cb : CredentialBundle) (kp : KeyPackage) : CryptoResult bool :=
  let kp_cred := certificates (leaf_credential (kp_leaf_node kp)) in
  let local_cred := certificates (cb_credential cb) in
  match kp_cred, local_cred with
  | _, None => Err ImplementationError
  | Some kp_cert, Some local_cert => Ok (bool_decide (kp_cert <> local_cert))
  | None, _ => Ok true
  end.

Definition find_key_packages_to_remove (cb : CredentialBundle) : cc MlsCryptoProvider (list bytes) :=
  nb_kp ← ks (Connection_count (E := MlsKeyPackage));
  kps ← ks (mls_fetch_keypackages (V := KeyPackage) (as_u32 nb_kp));
  lift_res (try_fold (fun kp_refs kp =>
    deprecated ← kp_deprecated cb kp;
    if deprecated : bool then kpr ← mls_err MlsLibraryError (kp_hash_ref kp); Ok (kp_refs ++ [kpr])
    else Ok kp_refs) [] kps).

Definition e2ei_rotate_all (enrollment : Enrollment) (certificate_chain : bytes)
    (new_key_packages_count : nat) : cc MlsCentral MlsRotateBundle :=
  sk ← lift_res (get_sign_key_for_mls enrollment);
  let cs := enr_ciphersuite enrollment in
  certificate_chain ← lift_res (map_err E2eiError (certificate_response enrollment certificate_chain));
  crl_new_distribution_points ← with_backend (extract_dp_on_init certificate_chain);
  let cert_bundle := MkCertificateBundle certificate_chain sk (signature_algorithm cs) in
  new_cb ← with_client (save_new_x509_credential_bundle (signature_algorithm cs) cert_bundle);
  commits ← e2ei_update_all new_cb;
  key_package_refs_to_remove ← with_backend (find_key_packages_to_remove new_cb);
  client ← the_client;
  new_key_packages ← with_backend (generate_new_keypackages client cs new_cb new_key_packages_count);
  mret (MkRotateBundle commits new_key_packages key_package_refs_to_remove crl_new_distribution_points).
End central.
