(* ===== verification/MemberIdentities.v ===== *)
(** * The identities of the members of a conversation

    [crypto/src/e2e_identity/identity.rs]: which identities the certificates of the members of a
    conversation give, by device and by user. The members are a [HashMap], which is listed in an
    order that the language leaves open: [member_order]. *)

From S2P Require Import Prelude KsError Sql SqlSpec Entity Keystore.
From S2P Require Import CcError Ids Backend GroupStore OpenMls Config CommitDelay Credential Conversation Central.
Open Scope Z_scope.

(** [Result<Option<T>>::transpose], [Option<Result<T>>] *)
Definition transpose {X A} (r : result X (option A)) : option (result X A) :=
  match r with
  | Ok (Some a) => Some (Ok a)
  | Ok None => None
  | Err e => Some (Err e)
  end.

(** [collect::<Result<Vec<_>, _>>()] *)
Definition collect_results {X A} (l : list (result X A)) : result X (list A) := try_map id l.

(** [Itertools::group_by]: neighbours with one key make a group. *)
Fixpoint group_by {K A} `{EqDecision K} (l : list (K * A)) : list (K * list A) :=
  match l with
  | [] => []
  | (k, a) :: l =>
      match group_by l with
      | (k', as_) :: groups => if decide (k = k') then (k, a :: as_) :: groups else (k, [a]) :: (k', as_) :: groups
      | [] => [(k, [a])]
      end
  end.

(** [collect::<HashMap<_, _>>()]: the last value of a key is kept. *)
Definition collect_map {A} (l : list (bytes * A)) : gmap bytes A :=
  fold_left (fun m p => <[p.1 := p.2]> m) l ∅.

Section identities.
Context `{SqlEngine, Provider, OpenMlsTypes} `{!OpenMls} `{!X509Lib, !IdCodecs, !F32Ln}.
Context `{SchnellruLimits, Schnellru} `{!ConfigSerde}.

(** The order of a [HashMap] of members. *)
Class MemberOrder := {
  member_order : gmap bytes Credential -> list (bytes * Credential);
  member_order_perm m : member_order m ≡ₚ map_to_list m;
}.
Context `{!MemberOrder}.

(** ** By device *)

Definition get_device_identities (self : MlsConversation) (device_ids : list bytes) :
    CryptoResult (list WireIdentity) :=
  match device_ids with
  | [] => Err ConsumerError
  | _ =>
      collect_results (omap (M := list) (fun p : bytes * Credential =>
        if bool_decide (p.1 ∈ device_ids) then transpose (extract_identity p.2) else None)
        (member_order (conv_members self)))
  end.

(** ** By user *)

(** The members of the users that have an identity, or an error instead of one. *)
Definition user_identities (user_ids : list bytes) (l : list (bytes * Credential)) :
    list (bytes * result CryptoError WireIdentity) :=
  omap (M := list) (fun p : bytes * Credential =>
    match res_ok (UserId_try_from p.1) with
    | Some uid =>
        if bool_decide (uid ∈ user_ids) then (fun i => (uid, i)) <$> transpose (extract_identity p.2) else None
    | None => None
    end) l.

Definition get_user_identities (self : MlsConversation) (user_ids : list bytes) :
    CryptoResult (gmap bytes (list WireIdentity)) :=
  match user_ids with
  | [] => Err ConsumerError
  | _ =>
      groups ← try_map (fun g : bytes * list (result CryptoError WireIdentity) =>
          uid ← UserId_to_String g.1;
          ids ← collect_results g.2;
          Ok (uid, ids))
        (group_by (user_identities user_ids (member_order (conv_members self))));
      Ok (collect_map groups)
  end.

(** ** [MlsCentral] *)

Definition central_get_device_identities (conversation_id : bytes) (client_ids : list bytes) :
    cc MlsCentral (list WireIdentity) :=
  conversation ← get_conversation conversation_id;
  conversation ← read_conv conversation;
  lift_res (get_device_identities conversation client_ids).

Definition central_get_user_identities (conversation_id : bytes) (user_ids : list bytes) :
    cc MlsCentral (gmap bytes (list WireIdentity)) :=
  conversation ← get_conversation conversation_id;
  conversation ← read_conv conversation;
  lift_res (get_user_identities conversation user_ids).

(** ** What they answer *)

Lemma collect_results_ok {X A} (l : list (result X A)) as_ :
  collect_results l = Ok as_ <-> l = Ok <$> as_.
Proof.
  unfold collect_results. revert as_. induction l as [|r l IH]; intros as_; cbn.
  - split; [by intros [= <-]|]. by destruct as_.
  - destruct r as [a|e]; cbn; [|split; [done|by destruct as_]].
    destruct (try_map id l) as [l'|e] eqn:Hl; cbn.
    + split; [intros [= <-]; cbn; f_equal; by apply IH|].
      destruct as_ as [|a' as_]; [done|]. intros [= -> Hl']. apply IH in Hl'. by injection Hl' as ->.
    + split; [done|]. destruct as_ as [|a' as_]; [done|]. intros [= -> Hl']. by apply IH in Hl'.
Qed.

(** Asked for devices, the answer holds the identity of every member among them whose credential
    is a certificate, each once, and nothing else; without a device it is refused. *)
Lemma get_device_identities_spec (self : MlsConversation) device_ids ids :
  get_device_identities self device_ids = Ok ids ->
  device_ids <> [] /\
  forall i, i ∈ ids <-> exists id c, conv_members self !! id = Some c /\ id ∈ device_ids /\
    extract_identity c = Ok (Some i).
Proof.
  unfold get_device_identities. destruct device_ids as [|d ds]; [done|]. set (devices := d :: ds).
  intros Hc%collect_results_ok. split; [done|]. intros i.
  assert (i ∈ ids <-> Ok i ∈ (Ok <$> ids : list (result CryptoError WireIdentity))) as ->.
  { rewrite list_elem_of_fmap. split; [by exists i|]. by intros (? & [= ->] & ?). }
  rewrite <-Hc, list_elem_of_omap. split.
  - intros ([id c] & Hin & Hp). cbn in Hp. case_bool_decide; [|done].
    rewrite member_order_perm, elem_of_map_to_list in Hin. exists id, c. split_and!; [done|done|].
    unfold transpose in Hp. by destruct (extract_identity c) as [[?|]|]; simplify_eq.
  - intros (id & c & Hm & Hid & Hi). exists (id, c).
    rewrite member_order_perm, elem_of_map_to_list. split; [done|]. cbn.
    by rewrite bool_decide_eq_true_2, Hi.
Qed.

(** Grouping keeps every identity with its user. *)
Lemma elem_of_group_by {K A} `{EqDecision K} (l : list (K * A)) k a :
  (k, a) ∈ l <-> exists as_, (k, as_) ∈ group_by l /\ a ∈ as_.
Proof.
  induction l as [|[k1 a1] l IH]; cbn.
  { split; [by intros ?%not_elem_of_nil|]. by intros (? & ?%not_elem_of_nil & _). }
  rewrite elem_of_cons, IH. destruct (group_by l) as [|[k2 as2] groups].
  - setoid_rewrite elem_of_cons. setoid_rewrite elem_of_nil. split.
    + intros [[= -> ->]|(? & [] & _)]. exists [a1]. split; [by left|by left].
    + intros (as_ & [[= -> ->]|[]] & [->|[]%not_elem_of_nil]%elem_of_cons). by left.
  - case_decide as Hk; [subst k2|]; setoid_rewrite elem_of_cons.
    + split.
      * intros [[= -> ->]|(as_ & [[= -> ->]|Hin] & Ha)].
        -- exists (a1 :: as2). split; [by left|by left].
        -- exists (a1 :: as2). split; [by left|by right].
        -- exists as_. split; [by right|done].
      * intros (as_ & [[= -> ->]|Hin] & Ha); [|right; exists as_; split; [by right|done]].
        apply elem_of_cons in Ha as [->|Ha]; [by left|]. right. exists as2. split; [by left|done].
    + setoid_rewrite elem_of_cons. split.
      * intros [[= -> ->]|(as_ & Hin & Ha)]; [by exists [a1]; split; left|].
        exists as_. split; [by right|done].
      * intros (as_ & [[= -> ->]|Hin] & Ha); [|right; by exists as_].
        apply elem_of_cons in Ha as [->|[]%not_elem_of_nil]; by left.
Qed.

Lemma lookup_collect_map {A} (l : list (bytes * A)) k v : collect_map l !! k = Some v -> (k, v) ∈ l.
Proof.
  unfold collect_map.
  assert (forall m : gmap bytes A, fold_left (fun m p => <[p.1 := p.2]> m) l m !! k = Some v -> (k, v) ∈ l \/ m !! k = Some v) as Hgen.
  { induction l as [|[k1 v1] l IH]; intros m; cbn; [by right|]. intros [Hin|Hm]%IH; [set_solver|].
    destruct (decide (k1 = k)) as [->|]; [rewrite lookup_insert_eq in Hm|rewrite lookup_insert_ne in Hm by done];
      set_solver. }
  intros [?|Hm]%Hgen; [done|]. by rewrite lookup_empty in Hm.
Qed.

(** Asked for users, every identity answered for a user is that of a member with the user's id,
    and the user is one asked for. *)
Lemma get_user_identities_sound (self : MlsConversation) user_ids m uid ids i :
  get_user_identities self user_ids = Ok m -> m !! uid = Some ids -> i ∈ ids ->
  uid ∈ user_ids /\ exists id c, conv_members self !! id = Some c /\ UserId_try_from id = Ok uid /\
    extract_identity c = Ok (Some i).
Proof.
  unfold get_user_identities. destruct user_ids as [|u us]; [done|]. set (users := u :: us).
  destruct (try_map _ _) as [groups|] eqn:Hg; [|done]. intros [= <-] Hm%lookup_collect_map Hi.
  assert (exists as_, (uid, as_) ∈ group_by (user_identities users (member_order (conv_members self))) /\
    as_ = Ok <$> ids) as (as_ & Hin & Has).
  { revert groups Hg Hm. generalize (group_by (user_identities users (member_order (conv_members self)))).
    intros l. induction l as [|[k as_] l IH]; intros groups; cbn; [by intros [= <-] ?%not_elem_of_nil|].
    unfold UserId_to_String. destruct (utf8_valid k); cbn; [|done].
    destruct (try_map id as_) as [found|] eqn:His; cbn; [|done].
    destruct (try_map _ l) as [rest|] eqn:Hrest; cbn; [|done]. intros [= <-] [[= -> ->]|Hin]%elem_of_cons.
    - exists as_. split; [by left|]. by apply collect_results_ok.
    - destruct (IH rest eq_refl Hin) as (as' & Hin' & Has'). exists as'. split; [by right|done]. }
  assert ((uid, Ok i) ∈ user_identities users (member_order (conv_members self))) as Hu.
  { apply elem_of_group_by. exists as_. split; [done|]. rewrite Has. by apply list_elem_of_fmap_2. }
  unfold user_identities in Hu. apply list_elem_of_omap in Hu as ([id c] & Hmem & Hp). cbn in Hp.
  rewrite member_order_perm, elem_of_map_to_list in Hmem.
  destruct (UserId_try_from id) as [uid'|] eqn:Huid; cbn in Hp; [|done].
  case_bool_decide as Hus; [|done]. unfold transpose in Hp.
  destruct (extract_identity c) as [[i'|]|] eqn:Hi'; cbn in Hp; simplify_eq.
  split; [done|]. by exists id, c.
Qed.
End identities.

(** But not every identity of a user is answered: when the order of the members puts another
    user between two devices of one, the group of the second replaces that of the first. *)
Lemma user_identities_overwritten {A} (alice bob : bytes) (a1 a2 b : A) : alice <> bob ->
  collect_map (group_by [(alice, a1); (bob, b); (alice, a2)]) !! alice = Some [a2].
Proof.
  intros Hne. cbn. rewrite decide_False by done. rewrite decide_False by done.
  unfold collect_map. cbn. by rewrite lookup_insert_eq.
Qed.
