(* ===== verification/Example.v ===== *)
(** * A small instance of the interfaces

    Concrete functions for the parts that are parameters of the development: an MLS without
    cryptography, whose groups are plain data and whose messages are what they say, the X.509
    library, the delay curve. They satisfy the laws, which shows that these can hold, and the theorems
    are evaluated on them. *)

From Stdlib.Strings Require Import Byte.
From S2P Require Import Prelude KsError Sql SqlSpec Entity TableFrame.
From S2P Require Import MlsGroups MlsPending MlsKeys E2eiEntities Keystore.
From S2P Require Import CcError Ids Backend OpenMls Config CommitDelay Credential.
Open Scope Z_scope.

(** ** Encoding *)

(** One byte for each binary digit. *)
Fixpoint pos_bytes (p : positive) : bytes :=
  match p with
  | xH => []
  | xO p => x00 :: pos_bytes p
  | xI p => x01 :: pos_bytes p
  end.

Fixpoint bytes_pos (b : bytes) : option positive :=
  match b with
  | [] => Some xH
  | x00 :: b => xO <$> bytes_pos b
  | x01 :: b => xI <$> bytes_pos b
  | _ => None
  end.

Lemma bytes_pos_bytes p : bytes_pos (pos_bytes p) = Some p.
Proof. induction p as [p IH|p IH|]; simpl; rewrite ?IH; done. Qed.

Definition encode_bytes {A} `{Countable A} (a : A) : bytes := pos_bytes (encode a).
Definition decode_bytes {A} `{Countable A} (b : bytes) : option A := bytes_pos b ≫= decode.

Lemma decode_encode_bytes {A} `{Countable A} (a : A) : decode_bytes (encode_bytes a) = Some a.
Proof. unfold decode_bytes, encode_bytes. rewrite bytes_pos_bytes. apply decode_encode. Qed.

(** ** Types *)

(** A credential: has it a certificate, the identity, the chain. A leaf: the credential, the
    encryption key and the signature key. A key package is its leaf. *)
Abbreviation ex_credential := (bool * bytes * list bytes)%type.
Abbreviation ex_leaf := (ex_credential * bytes * bytes)%type.

(** Proposals, queued proposals and staged commits, as data that can be encoded. *)
Abbreviation ex_proposal := (ex_leaf + ex_leaf + (Z + (bytes + bytes)))%type.
Abbreviation ex_sender := (Z + Z + bool)%type.
Abbreviation ex_queued := (ex_proposal * ex_sender * bytes)%type.
Abbreviation ex_commit := (list ex_queued * option ex_leaf * Z * bytes)%type.

(** A group: its id, epoch, whether it is active, its members by leaf, the pending proposals and
    the pending commit; and the mark. Our own leaf is the one with the index 0. *)
Abbreviation ex_data :=
  (bytes * Z * bool * list (Z * ex_leaf) * list ex_queued * option ex_commit)%type.
Record ex_group := ExGroup { eg_data : ex_data; eg_state : InnerState }.

#[export] Instance example_provider : Provider := {|
  Rng := (); PkiEnvironment := list bytes; debug_assertions_on := true |}.

#[export] Instance example_types : OpenMlsTypes := {|
  Credential := ex_credential;
  KeyPackage := ex_leaf;
  KeyPackageIn := ex_leaf;
  LeafNode := ex_leaf;
  ConfirmationTag := Z;
  MlsMessageOut := bytes;
  GroupInfo := bytes;
  Welcome := bytes;
  VerifiableGroupInfo := bytes;
  MlsGroup := ex_group;
  Credential_eq_dec := _;
  KeyPackage_eq_dec := _;
  LeafNode_eq_dec := _;
  ConfirmationTag_eq_dec := _;
|}.

Definition of_proposal (p : Proposal) : ex_proposal :=
  match p with
  | PAdd kp => inl (inl kp)
  | PUpdate l => inl (inr l)
  | PRemove i => inr (inl i)
  | PExternalInit k => inr (inr (inl k))
  | POther b => inr (inr (inr b))
  end.
Definition to_proposal (p : ex_proposal) : Proposal :=
  match p with
  | inl (inl kp) => PAdd (kp : KeyPackage)
  | inl (inr l) => PUpdate (l : LeafNode)
  | inr (inl i) => PRemove i
  | inr (inr (inl k)) => PExternalInit k
  | inr (inr (inr b)) => POther b
  end.
Definition of_sender (s : Sender) : ex_sender :=
  match s with
  | SMember i => inl (inl i)
  | SExternal i => inl (inr i)
  | SNewMemberProposal => inr true
  | SNewMemberCommit => inr false
  end.
Definition to_sender (s : ex_sender) : Sender :=
  match s with
  | inl (inl i) => SMember i
  | inl (inr i) => SExternal i
  | inr true => SNewMemberProposal
  | inr false => SNewMemberCommit
  end.
Definition of_queued (q : QueuedProposal) : ex_queued :=
  (of_proposal (qp_proposal q), of_sender (qp_sender q), qp_reference q).
Definition to_queued (q : ex_queued) : QueuedProposal :=
  MkQueuedProposal (to_proposal q.1.1) (to_sender q.1.2) q.2.
Definition of_commit (c : StagedCommit) : ex_commit :=
  (of_queued <$> queued_proposals c, update_path_leaf_node c, confirmation_tag c, staged_state c).
Definition to_commit (c : ex_commit) : StagedCommit :=
  let '(qs, l, t, st) := c in
  MkStagedCommit (to_queued <$> qs) (l : option LeafNode) (t : ConfirmationTag) st.

(** ** Groups *)

Definition eg_id (d : ex_data) : bytes := let '(id, _, _, _, _, _) := d in id.
Definition eg_epoch (d : ex_data) : Z := let '(_, e, _, _, _, _) := d in e.
Definition eg_active (d : ex_data) : bool := let '(_, _, a, _, _, _) := d in a.
Definition eg_members (d : ex_data) : list (Z * ex_leaf) := let '(_, _, _, m, _, _) := d in m.
Definition eg_pending (d : ex_data) : list ex_queued := let '(_, _, _, _, p, _) := d in p.
Definition eg_commit (d : ex_data) : option ex_commit := let '(_, _, _, _, _, c) := d in c.

Definition eg_set_pending (p : list ex_queued) (d : ex_data) : ex_data :=
  let '(id, e, a, m, _, c) := d in (id, e, a, m, p, c).
Definition eg_set_commit (c : option ex_commit) (d : ex_data) : ex_data :=
  let '(id, e, a, m, p, _) := d in (id, e, a, m, p, c).

(** A proposal carried out on the members: a new one gets the next free leaf. *)
Definition eg_apply (ms : list (Z * ex_leaf)) (q : ex_queued) : list (Z * ex_leaf) :=
  match q.1.1 with
  | inl (inl kp) => ms ++ [(fold_left Z.max (fst <$> ms) (-1) + 1, kp)]
  | inr (inl i) => List.filter (fun m => negb (Z.eqb m.1 i)) ms
  | _ => ms
  end.

(** The next epoch. We are out of the group when our own leaf is gone. *)
Definition eg_merge (c : ex_commit) (d : ex_data) : ex_data :=
  let '(id, e, a, m, _, _) := d in
  let m := fold_left eg_apply c.1.1.1 m in
  (id, e + 1, existsb (fun x => Z.eqb x.1 0) m, m, [], None).

(** An operation: an answer, and new data if there is any. *)
Definition eg_op {E A} (f : ex_data -> result E A * option ex_data) :
    stm (@MlsCryptoProvider ref_engine example_provider * ex_group) E A := fun s =>
  let (r, o) := f (eg_data s.2) in
  (r, (s.1, match o with Some d => ExGroup d Changed | None => s.2 end)).

Definition eg_propose (p : ex_proposal) (d : ex_data) :
    result ext_error (bytes * bytes) * option ex_data :=
  let r := [x50; byte_of (Z.of_nat (length (eg_pending d)))] in
  let q := (p, inl (inl 0) : ex_sender, r) in
  (Ok (r, r), Some (eg_set_pending (eg_pending d ++ [q]) d)).

Definition eg_stage (qs : list ex_queued) (d : ex_data) : ex_data :=
  eg_set_commit (Some (qs, None, eg_epoch d + 1, [])) d.

(** What is read of a message: the commit of a message carries the pending proposals, and that of
    a new member its external init as well. *)
Definition eg_read (m : ProtocolMessage) (d : ex_data) :
    result ProcessMessageError ProcessedMessage * option ex_data :=
  let cred (i : Z) : ex_credential := match first (fun x => Z.eqb x.1 i) (eg_members d) with
    | Some x => x.2.1.1 | None => (false, [], []) end in
  let ok c content := (Ok (MkProcessedMessage (c : Credential) content), None) in
  if negb (Z.eqb (protocol_epoch m) (eg_epoch d)) then
    (Err (ProcessValidationError ValidationWrongEpoch), None)
  else match m with
  | PMPublic m =>
      let c := match pub_sender m with SMember i => cred i | _ => (false, pub_encoded m, []) end in
      match pub_body m with
      | BApplication => (Err (ProcessMessageOther "unencrypted application message"), None)
      | BProposal p =>
          let q := MkQueuedProposal p (pub_sender m) (pub_encoded m) in
          ok c (match pub_sender m with SMember _ => ProposalMessage q
                | _ => ExternalJoinProposalMessage q end)
      | BCommit =>
          let init := match pub_sender m with
            | SNewMemberCommit => [MkQueuedProposal (PExternalInit []) SNewMemberCommit []]
            | _ => [] end in
          ok c (StagedCommitMessage (MkStagedCommit (init ++ (to_queued <$> eg_pending d)) None
            (eg_epoch d + 1 : ConfirmationTag) []))
      end
  | PMPrivate m =>
      match prv_content_type m with
      | CTApplication => ok (cred 1) (ApplicationMessage (prv_encoded m))
      | CTProposal => (Err (ProcessMessageOther "not in the example"), None)
      | CTCommit => ok (cred 1) (StagedCommitMessage (MkStagedCommit (to_queued <$> eg_pending d) None
            (eg_epoch d + 1 : ConfirmationTag) []))
      end
  end.

#[export] Instance example_group_serde : Serde ex_group := {|
  to_stdvec g := Some (encode_bytes (eg_data g));
  from_bytes b := (fun d => ExGroup d Persisted) <$> decode_bytes b;
|}.

#[export] Instance example_leaf_serde : Serde ex_leaf := {|
  to_stdvec l := Some (encode_bytes l);
  from_bytes := decode_bytes;
|}.

(** A message is its own encoding: a byte for its kind and its epoch, and the rest. The last kind is
    the public commit of someone who joins. *)
Definition ex_message_deserialize (b : bytes) : result ext_error MlsMessageIn :=
  match b with
  | kind :: ep :: rest =>
      let m ct := Ok (MPrivateMessage (MkPrivateMessage ct (byte_val ep) rest)) in
      match kind with
      | x01 => m CTApplication
      | x02 => m CTProposal
      | x03 => m CTCommit
      | x04 => Ok (MPublicMessage (MkPublicMessage SNewMemberCommit (byte_val ep) BCommit (Some 9) rest))
      | _ => Err "unknown kind of message"
      end
  | _ => Err "short message"
  end.

Definition ex_signer (c : ex_credential) : SignatureKeyPair := MkSignatureKeyPair 0 (c.1.2) (c.1.2).

Definition ex_config_data (id : bytes) (own : ex_leaf) : ex_data :=
  (id, 0, true, [(0, own)], [], None).

Definition ex_merge_pending (d : ex_data) : result ext_error () * option ex_data :=
  match eg_commit d with
  | Some c => (Ok (), Some (eg_merge c d))
  | None => (Err "no pending commit", None)
  end.

Definition ex_remove_pending (r : bytes) (d : ex_data) :
    result MlsGroupStateError () * option ex_data :=
  if existsb (fun q => bool_decide (q.2 = r)) (eg_pending d)
  then (Ok (), Some (eg_set_pending (List.filter (fun q => negb (bool_decide (q.2 = r))) (eg_pending d)) d))
  else (Err GroupPendingProposalNotFound, None).

Definition ex_update_leaf (l : option ex_leaf) (d : ex_data) : ex_data :=
  eg_set_commit (Some (eg_pending d, l, eg_epoch d + 1, [])) d.

Definition ex_own_leaf (d : ex_data) : option ex_leaf := snd <$> first (fun x => Z.eqb x.1 0) (eg_members d).

#[export] Instance example_openmls : OpenMls := {|
  credential_type c := if c.1.1 : bool then CTX509 else CTBasic;
  identity c := c.1.2;
  certificates c := if c.1.1 : bool then Some c.2 else None;
  new_basic id := (false, id, []);
  new_x509 chain := Ok (true, default [] (head chain), chain);
  credential_serialize c := Ok (encode_bytes (c : ex_credential));
  credential_deserialize b := match decode_bytes (A := ex_credential) b with
    | Some c => Ok c | None => Err "credential" end;
  signature_keypair_serialize k := Ok (encode_bytes (skp_signature_scheme k, skp_private k, skp_public k));
  signature_keypair_deserialize b := match decode_bytes (A := Z * bytes * bytes) b with
    | Some (s, p, q) => Ok (MkSignatureKeyPair s p q) | None => Err "keypair" end;
  certificate_keypair sk chain := Ok (MkSignatureKeyPair 0 sk sk);
  signature_key_gen sc := fun b => (Ok ([x07], [x07]), b);
  random_vec n := fun b => (Ok (replicate n x2a), b);
  signature_algorithm _ := 0;
  kp_leaf_node kp := kp;
  kp_in kp := kp;
  kpi_credential kp := kp.1.1;
  kp_ciphersuite _ := MLS_128_DHKEMX25519_AES128GCM_SHA256_Ed25519;
  kp_hash_ref kp := Ok kp.1.2;
  kp_hpke_init_key kp := kp.1.2;
  signature_scheme_try_from n := Some n;
  join_proposal_new kp _ _ _ := Ok (encode_bytes (kp : ex_leaf));
  kp_life_time_valid _ := Some true;
  kp_serde := example_leaf_serde;
  kp_build _ _ _ signer c := fun b =>
    (Ok (cwk_credential c : ex_credential, skp_public signer, cwk_signature_key c), b);
  leaf_credential l := l.1.1;
  leaf_encryption_key l := l.1.2;
  leaf_signature_key l := l.2;
  set_credential_with_key c l := (cwk_credential c : ex_credential, l.1.2, cwk_signature_key c);
  message_deserialize := ex_message_deserialize;
  message_to_bytes m := Ok m;
  group_info_serialize gi := Ok gi;
  welcome_ciphersuite _ := MLS_128_DHKEMX25519_AES128GCM_SHA256_Ed25519;
  verifiable_ciphersuite _ := MLS_128_DHKEMX25519_AES128GCM_SHA256_Ed25519;
  group_id g := eg_id (eg_data g);
  group_ciphersuite _ := MLS_128_DHKEMX25519_AES128GCM_SHA256_Ed25519;
  OpenMls.external_senders _ := None;
  export_secret _ _ _ n g := Ok (replicate (Z.to_nat n) x00);
  epoch g := eg_epoch (eg_data g);
  is_active g := eg_active (eg_data g);
  members g := (fun x : Z * ex_leaf => MkMember x.1 (x.2.1.1 : Credential)) <$> eg_members (eg_data g);
  own_leaf_index _ := 0;
  own_leaf g := ex_own_leaf (eg_data g);
  own_leaf_node g := ex_own_leaf (eg_data g);
  own_leaf_nodes g := [];
  pending_proposals g := to_queued <$> eg_pending (eg_data g);
  pending_commit g := to_commit <$> eg_commit (eg_data g);
  compute_confirmation_tag _ g := Ok (eg_epoch (eg_data g));
  state_changed := eg_state;
  set_state st g := ExGroup (eg_data g) st;
  group_serde := example_group_serde;
  new_with_group_id signer _ id c := fun b =>
    (Ok (ExGroup (ex_config_data id (cwk_credential c : ex_credential, skp_public signer, cwk_signature_key c))
           Changed), b);
  group_join_by_external_commit signer vgi _ c := fun b =>
    (Ok (ExGroup (ex_config_data vgi (cwk_credential c : ex_credential, skp_public signer, cwk_signature_key c))
           Changed, vgi, Some vgi), b);
  new_from_welcome _ w := fun b =>
    match decode_bytes (A := ex_data) w with
    | Some d => (Ok (ExGroup d Changed), b)
    | None => (Err NoMatchingKeyPackage, b)
    end;
  process_message m := eg_op (eg_read m);
  store_pending_proposal q g :=
    ExGroup (eg_set_pending (eg_pending (eg_data g) ++ [of_queued q]) (eg_data g)) Changed;
  clear_pending_commit g := ExGroup (eg_set_commit None (eg_data g)) Changed;
  merge_staged_commit c := eg_op (fun d => (Ok (), Some (eg_merge (of_commit c) d)));
  merge_pending_commit := eg_op ex_merge_pending;
  remove_pending_proposal r := eg_op (ex_remove_pending r);
  delete_previous_epoch_keypairs := eg_op (fun _ => (Ok (), None));
  group_propose_add_member _ kp := eg_op (eg_propose (inl (inl kp)));
  group_propose_remove_member _ i := eg_op (eg_propose (inr (inl i)));
  group_propose_self_update _ := eg_op (fun d =>
    match ex_own_leaf d with
    | Some l => eg_propose (inl (inr l)) d
    | None => (Err "no leaf", None)
    end);
  group_propose_explicit_self_update _ l _ := eg_op (eg_propose (inl (inr l)));
  group_add_members _ kps := eg_op (fun d =>
    let qs := (fun kp : ex_leaf => (inl (inl kp) : ex_proposal, inl (inl 0) : ex_sender, kp.1.2)) <$> kps in
    (Ok ([x03], [], Some []), Some (eg_stage (eg_pending d ++ qs) d)));
  group_remove_members _ ixs := eg_op (fun d =>
    let qs := (fun i : Z => (inr (inl i) : ex_proposal, inl (inl 0) : ex_sender, [byte_of i])) <$> ixs in
    (Ok ([x03], None, Some []), Some (eg_stage (eg_pending d ++ qs) d)));
  explicit_self_update _ l := eg_op (fun d => (Ok ([], None, Some []), Some (ex_update_leaf l d)));
  commit_to_pending_proposals _ := eg_op (fun d =>
    (Ok ([x03], None, Some []), Some (eg_stage (eg_pending d) d)));
  create_message _ m := eg_op (fun d => (Ok (x01 :: byte_of (eg_epoch d) :: m), Some d));
|}.

(** ** The laws hold *)

Lemma eg_op_framed {E A} (f : ex_data -> result E A * option ex_data) :
  (forall d d', (f d).2 = Some d' -> eg_id d' = eg_id d /\ eg_epoch d <= eg_epoch d') ->
  framed (eg_op f).
Proof.
  intros Hf [b g] r [b' g']. unfold eg_op. simpl. specialize (Hf (eg_data g)).
  destruct (f (eg_data g)) as [r0 [d|]]; intros [= <- <- <-].
  - destruct (Hf d eq_refl) as [Hid He]. split; [apply tables_refl|]. simpl. by auto.
  - split; [apply tables_refl|]. simpl. split_and!; auto. lia.
Qed.

Lemma eg_set_pending_frame p d : eg_id (eg_set_pending p d) = eg_id d /\
  eg_epoch d <= eg_epoch (eg_set_pending p d).
Proof. destruct d as [[[[[]]]]]. simpl. split; [done|lia]. Qed.

Lemma eg_set_commit_frame c d : eg_id (eg_set_commit c d) = eg_id d /\
  eg_epoch d <= eg_epoch (eg_set_commit c d).
Proof. destruct d as [[[[[]]]]]. simpl. split; [done|lia]. Qed.

Lemma eg_merge_frame c d : eg_id (eg_merge c d) = eg_id d /\ eg_epoch d <= eg_epoch (eg_merge c d).
Proof. destruct d as [[[[[]]]]]. simpl. split; [done|lia]. Qed.

Ltac ex_frame :=
  refine (eg_op_framed _ _); intros d d'; cbv beta;
  unfold ex_merge_pending, ex_remove_pending, eg_stage, ex_update_leaf, eg_propose; cbv beta zeta;
  repeat match goal with |- context [match ?x with _ => _ end] => destruct x eqn:? end;
  cbn; intros; simplify_eq; auto using eg_set_pending_frame, eg_set_commit_frame, eg_merge_frame;
  try (split; [done|lia]).

Lemma eg_read_none m d : (eg_read m d).2 = None.
Proof.
  unfold eg_read. destruct (negb _); [done|]. destruct m as [m|m].
  - by destruct (pub_body m).
  - by destruct (prv_content_type m).
Qed.

#[export] Program Instance example_laws : OpenMlsLaws.
Solve Obligations with intros; ex_frame.
Next Obligation. intros. refine (eg_op_framed _ _). intros d d'. by rewrite eg_read_none. Qed.
Next Obligation. intros q [[[[[[]]]]] st]. done. Qed.
Next Obligation. intros [[[[[[]]]]] st]. done. Qed.
Next Obligation.
  intros m b g r b' g' H.
  assert (eg_op (eg_read m) (b, g) = (r, (b', g'))) as Hx by exact H. unfold eg_op in Hx.
  pose proof (eg_read_none m (eg_data g)) as Hn. simpl in Hx.
  destruct (eg_read m (eg_data g)) as [r0 o]. simpl in Hn. subst o. injection Hx as _ _ <-.
  by split_and!.
Qed.
Next Obligation.
  intros c b [[[[[[]]]]] st] b' g' H.
  assert (eg_op (fun d => (Ok (), Some (eg_merge (of_commit c) d))) (b, ExGroup _ st) = (Ok (), (b', g')))
    as Hx by exact H.
  injection Hx as _ <-. by split_and!.
Qed.
Next Obligation.
  intros b [[[[[[? ?] ?] ?] ?] pc] st] b' g' H.
  assert (eg_op ex_merge_pending (b, ExGroup _ st) = (Ok (), (b', g'))) as Hx by exact H.
  destruct pc as [pc|]; [|done]. injection Hx as _ <-. by split; [split_and!|eexists].
Qed.
Next Obligation. intros [[[[[[]]]]] st]. done. Qed.
Next Obligation. intros q [[[[[[]]]]] st]. done. Qed.
Next Obligation. done. Qed.
Next Obligation. done. Qed.
Next Obligation. intros. by split_and!. Qed.
Next Obligation. by intros []. Qed.
Next Obligation. done. Qed.
Next Obligation.
  intros [d st] b Hb. injection Hb as <-. change (((fun d => ExGroup d Persisted) <$> decode_bytes
    (encode_bytes d)) = Some (ExGroup d Persisted)). by rewrite decode_encode_bytes.
Qed.
Next Obligation. by intros k gc id c b r b' [= _ <-]. Qed.
Next Obligation. by intros k gc id c b g b' [= <- _]. Qed.
Next Obligation. by intros k gi gc c b r b' [= _ <-]. Qed.
Next Obligation. intros gc w b r b'. simpl. by destruct (decode_bytes w); intros [= _ <-]. Qed.
Next Obligation. by intros caps n cs k c b r b' [= _ <-]. Qed.
Next Obligation. intros sc [[] c e] r b' [= _ <-]. by exists tt. Qed.
Next Obligation. intros n [[] c e] r b' [= _ <-]. by exists tt. Qed.

(** ** The other interfaces *)

(** Certificates are their own encoding; the environment is the list of those that are revoked. *)
#[export] Instance example_x509 : X509Lib := {|
  Certificate := bytes;
  CertificateList := list bytes;
  Certificate_eq_dec := _;
  cert_from_der c := Ok c;
  encode_cert_to_der c := Ok c;
  decode_pem_cert c := Ok c;
  der_to_pem c := Ok c;
  extract_crl_uris _ := Ok None;
  extract_ski_aki_from_cert c := Ok (c, None);
  read_identity _ := None;
  cert_has_identity _ := true;
  read_public_key c := Some c;
  read_created_at _ := Some 0;
  is_time_valid _ := Some true;
  crl_from_der c := Ok [c];
  decode_der_crl c := Ok [c];
  encode_crl_to_der _ := Ok [];
  revoked_certificates _ := None;
  extract_expiration_from_crl _ := None;
  pki_init _ _ _ := Ok [];
  validate_cert_and_revocation (env : list bytes) c :=
    if bool_decide (c ∈ env) then Err (PathValidation CertificateRevoked) else Ok ();
  x509_error_text _ := "invalid";
  validate_trust_anchor_cert _ _ := Ok ();
  validate_crl_with_raw _ c := Ok [c];
|}.

(** The logarithm of the power of two below a number. *)
#[export] Program Instance example_ln : F32Ln := {|
  f32_ln x := (Z.log2 x - 149) * (693 * F32_ONE / 1000) |}.
Next Obligation.
  intros x y [Hx Hxy]. cbv beta. apply Z.mul_le_mono_nonneg_r; [by vm_compute|].
  pose proof (Z.log2_le_mono x y Hxy). lia.
Qed.
Next Obligation. by vm_compute. Qed.
