(* ===== verification/ConvFrame.v ===== *)
(** * What every operation on a conversation respects

    For a preorder that the basic steps on a conversation respect (class [ConvRel]), every
    operation of [Conversation], [Renew] and [Decrypt] is [within] it, by composition. The instances are in the files that use them: that a
    conversation is on disk ([Durable]), that the buffered messages stay ([DecryptSpec]). *)

From S2P Require Import Prelude KsError Sql SqlSpec Entity TableFrame.
From S2P Require Import MlsGroups MlsPending MlsKeys E2eiEntities Keystore.
From S2P Require Import CcError Ids Backend OpenMls Config CommitDelay Credential Conversation.
From S2P Require Import Renew Decrypt.
Open Scope Z_scope.

(** The tables conversations are kept in. *)
Definition conv_rows : list string := ["mls_groups"; "mls_pending_groups"; "mls_pending_messages"].

(** On success the state is taken apart by the first step of a computation. *)
Ltac stm_ok := erewrite stm_bind_ok by reflexivity.

Section within.
Context `{En : SqlEngine, Provider, OpenMlsTypes} `{!OpenMls, !OpenMlsLaws, !X509Lib, !IdCodecs, !F32Ln}.

Abbreviation ConvState := (MlsCryptoProvider * MlsConversation)%type.

Class ConvRel (R : relation ConvState) := {
  cr_preorder :: PreOrder R;
  cr_group_op {E A} f (op : stm (MlsCryptoProvider * MlsGroup) E A) :
    framed op -> within R (group_op f op);
  cr_clear : within R (mod_group clear_pending_commit);
  cr_store q : within R (mod_group (store_pending_proposal q));
  cr_persist force : within R (persist_group_when_changed force);
  cr_other {A} (m : cc MlsCryptoProvider A) :
    (forall b r b', m b = (r, b') -> tables conv_rows b b') -> within R (backend m);
}.

Context (R : relation ConvState) `{!ConvRel R}.

Lemma within_get_conv : within R get_conv.
Proof. apply (within_pure R (fun s => Ok s.2)). Qed.
Lemma within_get_group : within R get_group.
Proof. apply (within_pure R (fun s => Ok (conv_group s.2))). Qed.
Lemma within_get_backend : within R get_backend.
Proof. apply (within_pure R (fun s => Ok s.1)). Qed.

(** A call of the key store that writes to another table, or to none. *)
Lemma within_ks t {A} (p : prog A) :
  only t p -> closes p -> t ∉ conv_rows -> within R (backend (ks p)).
Proof. intros Ho Hc Ht. apply cr_other. intros b r b'. by apply (ks_frame t). Qed.

(** ** Persisting *)

Lemma ks_group_persist ts i st p b r b' :
  "mls_groups" ∉ ts -> ks (mls_group_persist i st p) b = (r, b') -> tables ts b b'.
Proof.
  intros Hts. assert (forall rid p, only "mls_groups" (write_parent "mls_groups" rid p)) as Hwp.
  { intros rid q. unfold write_parent. apply only_blob_open. intros h Hh.
    apply only_bind; [|intros; apply only_step; by left].
    destruct q; [by apply only_blob_write_all|apply only_ret]. }
  apply (ks_frame "mls_groups"); [| |done].
  - apply only_bind; [|intros; apply only_ret]. apply only_bind; [|intros; apply only_ret].
    change (only "mls_groups" (PersistedMlsGroup_save (MkPersistedMlsGroup i st p))).
    unfold PersistedMlsGroup_save. repeat (solve_only; try apply Hwp).
  - apply closes_bind; [|intros; apply closes_ret].
    apply closes_bind; [apply closes_with_tx|intros; apply closes_ret].
Qed.

(** What persisting may do: at most one write of the group, and the mark. *)
Lemma persist_inv ts force s r s' :
  "mls_groups" ∉ ts -> persist_group_when_changed force s = (r, s') ->
  tables ts s.1 s'.1 /\
  (s'.2 = s.2 \/ s'.2 = set_group (set_state Persisted (conv_group s.2)) s.2).
Proof.
  intros Hts. unfold persist_group_when_changed. erewrite stm_bind_ok by reflexivity.
  destruct (force || _); [|intros [= _ <-]; by auto].
  unfold ser. destruct (to_stdvec (conv_group s.2)) as [st|]; [|intros [= _ <-]; by auto].
  erewrite stm_bind_ok by reflexivity. unfold mbind, stm_bind, backend, on.
  destruct (ks _ s.1) as [[[]|e] b] eqn:Hk; apply (ks_group_persist ts) in Hk; try done; intros [= _ <-]; by auto.
Qed.

End within.

#[export] Hint Resolve within_get_conv within_get_group within_get_backend cr_group_op cr_clear cr_store
  cr_persist : within.
#[export] Hint Extern 0 (ConvRel _) => typeclasses eauto : within.

(** ** The operations *)

Section ops.
Context `{En : SqlEngine, Provider, OpenMlsTypes} `{!OpenMls, !OpenMlsLaws, !X509Lib, !IdCodecs, !F32Ln}.

Abbreviation ConvState := (MlsCryptoProvider * MlsConversation)%type.
Context (R : relation ConvState) `{!ConvRel R}.

Lemma within_own_credential_type : within R own_credential_type.
Proof. unfold own_credential_type. solve_within. Qed.

#[local] Hint Resolve within_own_credential_type : within.

Lemma within_find_current client : within R (find_current_credential_bundle client).
Proof. unfold find_current_credential_bundle. solve_within. Qed.

Lemma within_find_recent client : within R (conv_find_most_recent_credential_bundle client).
Proof. unfold conv_find_most_recent_credential_bundle. solve_within. Qed.

#[local] Hint Resolve within_find_current within_find_recent : within.

#[local] Hint Resolve process_message_framed merge_staged_commit_framed merge_pending_commit_framed
  remove_pending_proposal_framed delete_previous_epoch_keypairs_framed propose_add_member_framed
  propose_remove_member_framed propose_self_update_framed propose_explicit_self_update_framed
  add_members_framed remove_members_framed explicit_self_update_framed
  commit_to_pending_proposals_framed create_message_framed : within.

Lemma within_encrypt_message client m : within R (encrypt_message client m).
Proof. unfold encrypt_message. solve_within. Qed.

Lemma within_propose_add_member client kp : within R (propose_add_member client kp).
Proof. unfold propose_add_member. solve_within. Qed.

Lemma within_propose_remove_member client i : within R (propose_remove_member client i).
Proof. unfold propose_remove_member. solve_within. Qed.

Lemma within_propose_explicit_self_update client l : within R (propose_explicit_self_update client l).
Proof. unfold propose_explicit_self_update. solve_within. Qed.

Lemma within_propose_self_update client : within R (propose_self_update client).
Proof. apply within_propose_explicit_self_update. Qed.

Lemma within_add_members client l : within R (add_members client l).
Proof. unfold add_members. solve_within. Qed.

Lemma within_remove_members client l : within R (remove_members client l).
Proof. unfold remove_members. solve_within. Qed.

Lemma within_update_keying_material client cb l : within R (update_keying_material client cb l).
Proof. unfold update_keying_material. solve_within. Qed.

#[local] Hint Resolve within_encrypt_message within_propose_add_member within_propose_remove_member
  within_propose_explicit_self_update within_propose_self_update within_add_members
  within_remove_members within_update_keying_material : within.

Lemma within_e2ei_rotate client cb : within R (e2ei_rotate client cb).
Proof. unfold e2ei_rotate. solve_within. Qed.

Lemma within_commit_pending_proposals client : within R (commit_pending_proposals client).
Proof. unfold commit_pending_proposals. solve_within. Qed.

Lemma within_remove_encryption_keypair id :
  within R (backend (ks (Connection_remove MlsEncryptionKeyPair id))).
Proof.
  apply (within_ks R "mls_encryption_keypairs"); [| |set_solver].
  - apply only_bind; [apply only_delete_all_or_nothing|]. intros. apply only_ret.
  - apply closes_bind; [apply closes_delete_all_or_nothing|]. intros. apply closes_ret.
Qed.

#[local] Hint Resolve within_remove_encryption_keypair : within.

Lemma within_commit_accepted : within R commit_accepted.
Proof. unfold commit_accepted. solve_within. Qed.

Lemma within_clear_pending_proposal r : within R (clear_pending_proposal r).
Proof. unfold clear_pending_proposal. solve_within. Qed.

#[local] Hint Resolve within_commit_accepted : within.

Lemma within_clear_pending_commit : within R conv_clear_pending_commit.
Proof. unfold conv_clear_pending_commit. solve_within. Qed.

Lemma within_wipe_associated_entities : within R wipe_associated_entities.
Proof. unfold wipe_associated_entities. solve_within. Qed.

Lemma within_get_new_crl dps : within R (backend (get_new_crl_distribution_points dps)).
Proof.
  apply cr_other. intros b r b'. unfold get_new_crl_distribution_points.
  destruct dps; [by intros [= _ <-]|]. intros Hx.
  assert (tables conv_rows b b') as Ht; [|exact Ht]. revert Hx.
  unfold mbind, stm_bind. destruct (ks _ b) as [r1 b1] eqn:Hk.
  apply (ks_frame "e2ei_crls" conv_rows) in Hk; [| | |set_solver].
  - destruct r1; by intros [= _ <-].
  - unfold Connection_find_all. simpl. unfold E2eiCrl_find_all, E2eiCrl_read. solve_only.
  - unfold Connection_find_all. simpl. unfold E2eiCrl_find_all. solve_closes.
Qed.

Lemma within_find_pending id : within R (backend (ks (Connection_find (E := MlsPendingMessage) id))).
Proof.
  apply (within_ks R ""); [| |set_solver]; unfold Connection_find; simpl;
    unfold MlsPendingMessage_find_one, MlsPendingMessage_read; [solve_only|solve_closes].
Qed.

Lemma within_find_all_pending p :
  within R (backend (ks (Connection_find_all (E := MlsPendingMessage) p))).
Proof.
  apply (within_ks R ""); [| |set_solver]; unfold Connection_find_all; simpl;
    unfold MlsPendingMessage_find_all, MlsPendingMessage_read; [solve_only|solve_closes].
Qed.

#[local] Hint Resolve within_get_new_crl within_find_pending within_find_all_pending : within.

Lemma within_parent_clients p : within R (parent_clients p).
Proof. unfold parent_clients, read_parent. solve_within. Qed.

#[local] Hint Resolve within_parent_clients : within.

Lemma within_validate_commit c : within R (validate_commit c).
Proof. unfold validate_commit. solve_within. Qed.

#[local] Hint Resolve within_validate_commit : within.

Lemma within_validate_external_commit c i p cb : within R (validate_external_commit c i p cb).
Proof. unfold validate_external_commit. solve_within. Qed.

Lemma within_validate_external_proposal q p cb : within R (validate_external_proposal q p cb).
Proof. unfold validate_external_proposal. solve_within. Qed.

#[local] Hint Resolve within_validate_external_commit within_validate_external_proposal : within.

Lemma within_decrypt_proposal q i : within R (decrypt_proposal q i).
Proof. unfold decrypt_proposal. solve_within. Qed.

Lemma within_renew_update client l : within R (renew_update client l).
Proof. unfold renew_update. solve_within. Qed.

#[local] Hint Resolve within_decrypt_proposal within_renew_update : within.

Lemma within_renew_one client q : within R (renew_one client q).
Proof. unfold renew_one. solve_within. Qed.

#[local] Hint Resolve within_renew_one : within.

Lemma within_renew_proposals client l n : within R (renew_proposals_for_current_epoch client l n).
Proof. unfold renew_proposals_for_current_epoch. solve_within. Qed.

#[local] Hint Resolve within_renew_proposals : within.

Lemma within_parse_message m : within R (parse_message m).
Proof. unfold parse_message. solve_within. Qed.

#[local] Hint Resolve within_parse_message : within.

Lemma within_handle_self_commit ct : within R (handle_self_member_commit ct).
Proof. unfold handle_self_member_commit, conv_merge_pending_commit. solve_within. Qed.

#[local] Hint Resolve within_handle_self_commit : within.

Section restore.

Context (restore : cc ConvState (option (list MlsBufferedConversationDecryptMessage))).

Hypothesis within_restore : within R restore.

#[local] Hint Resolve within_restore : within.

Lemma within_decrypt_commit client c i : within R (decrypt_commit client c i restore).
Proof. unfold decrypt_commit. solve_within. Qed.

#[local] Hint Resolve within_decrypt_commit : within.

Lemma within_decrypt_content client cb p sid i content :
  within R (decrypt_content client cb p sid i content restore).
Proof. unfold decrypt_content. solve_within. Qed.

#[local] Hint Resolve within_decrypt_content : within.

Lemma within_decrypt_with m p client cb : within R (decrypt_with restore m p client cb).
Proof. unfold decrypt_with. solve_within. Qed.

End restore.

Lemma within_decrypt_pending client cb p m : within R (decrypt_pending client cb p m).
Proof.
  assert (forall m p, within R (decrypt_no_restore m p client cb)) as Hd.
  { intros. apply within_decrypt_with. solve_within. }
  unfold decrypt_pending. repeat (solve_within; try apply Hd).
Qed.

#[local] Hint Resolve within_decrypt_pending : within.

Lemma ks_remove_pending ts id b r b' :
  "mls_pending_messages" ∉ ts -> ks (Connection_remove MlsPendingMessage id) b = (r, b') ->
  tables ts b b'.
Proof.
  intros Hts. apply (ks_frame "mls_pending_messages"); [| |done].
  - apply only_bind; [|intros; apply only_ret].
    change (only "mls_pending_messages" (MlsPendingMessage_delete [id])).
    unfold MlsPendingMessage_delete. solve_only.
  - apply closes_bind; [apply closes_with_tx|intros; apply closes_ret].
Qed.

(** The buffered messages are removed only after a commit has been applied, and on rejoining. *)
Section remove_pending.
Hypothesis within_remove_pending :
  forall id, within R (backend (ks (Connection_remove MlsPendingMessage id))).
#[local] Hint Resolve within_remove_pending : within.

Lemma within_restore_pending client cb p rj : within R (restore_pending_messages client cb p rj).
Proof. unfold restore_pending_messages. solve_within. Qed.

#[local] Hint Resolve within_restore_pending : within.

Lemma within_restore_after_commit client cb p : within R (restore_after_commit client cb p).
Proof. unfold restore_after_commit. solve_within. Qed.

Lemma within_decrypt_message m p client cb r : within R (conv_decrypt_message m p client cb r).
Proof.
  unfold conv_decrypt_message. apply within_decrypt_with. destruct r; [|solve_within].
  apply within_restore_after_commit.
Qed.
End remove_pending.
End ops.

#[export] Hint Resolve within_own_credential_type within_find_current within_find_recent
  within_encrypt_message within_propose_add_member within_propose_remove_member
  within_propose_explicit_self_update within_propose_self_update within_add_members
  within_remove_members within_update_keying_material within_e2ei_rotate within_commit_pending_proposals
  within_remove_encryption_keypair within_commit_accepted within_clear_pending_proposal
  within_clear_pending_commit
  within_wipe_associated_entities within_get_new_crl within_find_pending
  within_find_all_pending within_parent_clients within_validate_commit
  within_validate_external_commit within_validate_external_proposal
  within_decrypt_proposal within_renew_update within_renew_one within_renew_proposals
  within_parse_message within_handle_self_commit within_decrypt_commit
  within_decrypt_content within_decrypt_with within_decrypt_pending
  within_restore_pending within_restore_after_commit within_decrypt_message : within.
#[export] Hint Resolve process_message_framed merge_staged_commit_framed merge_pending_commit_framed
  remove_pending_proposal_framed delete_previous_epoch_keypairs_framed propose_add_member_framed
  propose_remove_member_framed propose_self_update_framed propose_explicit_self_update_framed
  add_members_framed remove_members_framed explicit_self_update_framed
  commit_to_pending_proposals_framed create_message_framed : within.
