(* ===== verification/Durable.v ===== *)
(** * Durability of conversations

    The invariant behind the [durable] attribute of [crypto-attributes]: a conversation whose
    group is not marked as changed is in the key store exactly as it is in memory. Every operation
    keeps it, whether it succeeds, fails or panics; and every operation that is meant to be durable leaves
    the group unmarked when it succeeds. *)

From S2P Require Import Prelude KsError Sql SqlSpec Entity TableFrame.
From S2P Require Import MlsGroups MlsPending MlsKeys E2eiEntities Keystore.
From S2P Require Import CcError Ids Backend OpenMls Config CommitDelay Credential Conversation.
From S2P Require Import Renew Decrypt ConvFrame.
Open Scope Z_scope.

Section durable.
Context `{En : SqlEngine, Provider, OpenMlsTypes} `{!OpenMls, !OpenMlsLaws}.
Context `{!X509Lib, !IdCodecs, !F32Ln}.

Abbreviation ConvState := (MlsCryptoProvider * MlsConversation)%type.

(** ** The invariant *)

Definition view_of (s : ConvState) : view := conn_view (key_store s.1).
Definition clean (s : ConvState) : Prop := state_changed (conv_group s.2) = Persisted.

(** The entity a conversation is written as. *)
Definition conv_entity (c : MlsConversation) (state : bytes) : PersistedMlsGroup :=
  PersistedMlsGroup_stored (MkPersistedMlsGroup (conv_id c) state (conv_parent_id c)).

(** [groups_hold b l]: the engine works and the table of groups holds [l]. *)
Definition groups_hold (b : MlsCryptoProvider) (l : list PersistedMlsGroup) : Prop :=
  healthy (key_store b) /\ rep PersistedMlsGroup_layout (conn_view (key_store b)) l /\
  NoDup (pg_id <$> l).

Definition on_disk (l : list PersistedMlsGroup) (c : MlsConversation) : Prop :=
  exists state, to_stdvec (conv_group c) = Some state /\
    PersistedMlsGroup_stored <$> first (with_key (conv_id c)) l = Some (conv_entity c state).

Definition durable (s : ConvState) : Prop :=
  exists l, groups_hold s.1 l /\ group_id (conv_group s.2) = conv_id s.2 /\
    (clean s -> on_disk l s.2).

(** ** Computations that keep it *)

(** The invariant, as what is kept from one state to the next. *)
Definition kept (s s' : ConvState) : Prop := durable s -> durable s'.

(** On success the group is on disk. *)
Definition settles {A} (m : cc ConvState A) : Prop :=
  forall s a s', durable s -> m s = (Ok a, s') -> clean s'.

(** Never touches the conversation. *)
Definition calm {A} (m : cc ConvState A) : Prop :=
  forall s r s', m s = (r, s') -> s'.2 = s.2.

(** A step that leaves the table of groups alone, and the group too or marks it. *)
Lemma durable_step ts s s' :
  durable s -> tables ts s.1 s'.1 -> "mls_groups" ∈ ts -> conv_id s'.2 = conv_id s.2 ->
  conv_parent_id s'.2 = conv_parent_id s.2 ->
  group_id (conv_group s'.2) = group_id (conv_group s.2) ->
  (conv_group s'.2 = conv_group s.2 \/ state_changed (conv_group s'.2) = Changed) -> durable s'.
Proof.
  intros (l & (Hh & Hl & Hnd) & Hid & Hc) Ht Hts Hci Hp Hg Hch.
  destruct (tables_rep _ _ _ _ _ Hh Hl Ht Hts) as [Hh' Hl'].
  exists l. split; [done|]. split; [by rewrite Hg, Hci|]. intros Hclean. unfold clean in *.
  destruct Hch as [Hch|Hch]; [|congruence]. rewrite Hch in Hclean.
  destruct (Hc Hclean) as (st & Hst & Hf). exists st. rewrite Hch, Hci. split; [done|].
  rewrite Hf. unfold conv_entity. by rewrite Hci, Hp.
Qed.

(** ** Writing the group *)

Lemma group_persist_run v l c state :
  rep PersistedMlsGroup_layout v l ->
  exists r v', run (mls_group_persist (conv_id c) state (conv_parent_id c)) v = (r, v') /\
    match r with
    | Ok () => becomes PersistedMlsGroup_layout v v' (upsert (with_key (conv_id c)) (conv_entity c state) l)
    | Err _ => v' = v
    end.
Proof.
  intros Hl. set (e := MkPersistedMlsGroup (conv_id c) state (conv_parent_id c)).
  pose proof (Connection_save_run (E := PersistedMlsGroup) v l e) as Hs.
  pose proof (ul_save_big (E := PersistedMlsGroup) v l e) as Hbig.
  destruct (ul_fits (E := PersistedMlsGroup) e) eqn:Hf.
  - destruct (Hs Hl eq_refl) as (v' & Hr & Hb). exists (Ok ()), v'.
    split; [|exact Hb]. unfold mls_group_persist. by rewrite (run_bind_ok _ _ _ _ _ Hr).
  - exists (Err BlobTooBig), v. split; [|done]. unfold mls_group_persist, Connection_save.
    rewrite prog_bind_assoc. by rewrite (run_bind_err _ _ _ _ _ (Hbig Hl eq_refl)).
Qed.

(** The steps of [persist_group_when_changed] when it writes. *)
Definition write_group (s : ConvState) : result Stop () * ConvState :=
  (state ← lift_res (map_err KeyStoreError (ser (conv_group s.2)));
   backend (ks (mls_group_persist (conv_id s.2) state (conv_parent_id s.2)));;
   mod_group (set_state Persisted)) s.

(** Writing puts the group in its place among the rows and removes the mark, or nothing has
    happened. *)
Lemma write_group_run s r s' l :
  groups_hold s.1 l -> write_group s = (r, s') ->
  (exists state, r = Ok () /\ to_stdvec (conv_group s.2) = Some state /\
     groups_hold s'.1 (upsert (with_key (conv_id s.2)) (conv_entity s.2 state) l) /\
     s'.2 = set_group (set_state Persisted (conv_group s.2)) s.2) \/
  (exists b, s' = (b, s.2) /\ groups_hold b l) /\ r <> Ok ().
Proof.
  intros (Hh & Hl & Hnd). unfold write_group, ser.
  destruct (to_stdvec (conv_group s.2)) as [state|] eqn:Hst.
  2: { intros [= <- <-]. right. split; [|done]. exists s.1. by destruct s. }
  change (lift_res (map_err KeyStoreError (ok_or KeyStoreValueTransformError (Some state))) ≫= ?f)
    with (f state). cbv beta.
  destruct (group_persist_run _ _ s.2 state Hl) as (rk & v' & Hr & Hv).
  unfold mbind, stm_bind. destruct rk as [[]|e].
  - destruct (ks_ok _ _ _ _ Hh Hr) as (c' & Hk & <- & Hh').
    unfold backend. rewrite (on_ok _ _ _ _ _ _ Hk). intros [= <- <-]. left. exists state.
    split_and!; [done..| |done]. simpl.
    split_and!; [done|apply Hv|exact (NoDup_upsert pg_id (conv_entity s.2 state) l Hnd)].
  - destruct (ks_err _ _ _ _ Hh Hr) as (c' & Hk & Hv' & Hh').
    unfold backend. rewrite (on_err _ _ _ _ _ _ Hk). intros [= <- <-]. right.
    split; [|done]. eexists. split; [done|]. split_and!; [done| |done]. simpl. by rewrite Hv', Hv.
Qed.

(** The row that has been written is what the conversation now is. *)
Lemma written_on_disk c state l :
  to_stdvec (conv_group c) = Some state ->
  on_disk (upsert (with_key (conv_id c)) (conv_entity c state) l)
    (set_group (set_state Persisted (conv_group c)) c).
Proof.
  intros Hst. exists state. simpl. split; [by rewrite group_to_stdvec_state|].
  rewrite first_upsert by (by apply bool_decide_eq_true). simpl. f_equal.
  unfold conv_entity.
  exact (ul_stored_twice (E := PersistedMlsGroup) (MkPersistedMlsGroup _ state _)).
Qed.

(** Writing succeeds and the group is on disk as it is, or nothing has happened. *)
Lemma persist_write s r s' l :
  groups_hold s.1 l -> group_id (conv_group s.2) = conv_id s.2 -> write_group s = (r, s') ->
  (r = Ok () /\ clean s' /\ durable s' /\ conv_parent_id s'.2 = conv_parent_id s.2) \/
  (exists b, s' = (b, s.2) /\ groups_hold b l) /\ r <> Ok ().
Proof.
  intros Hg Hid Hx. destruct (write_group_run _ _ _ _ Hg Hx) as [(state & -> & Hst & Hg' & E)|]; [left|by right].
  unfold clean. rewrite E. split; [done|]. split; [apply set_state_state|]. split; [|done].
  eexists. split; [exact Hg'|]. rewrite E. split; [simpl; by rewrite set_state_id|].
  intros _. by apply written_on_disk.
Qed.

Lemma persist_run force s :
  persist_group_when_changed force s =
  if force || bool_decide (state_changed (conv_group s.2) = Changed) then write_group s
  else (Ok (), s).
Proof.
  unfold persist_group_when_changed, get_conv, mbind at 1, stm_bind at 1.
  by destruct (force || _).
Qed.

Lemma clean_or_changed s : clean s \/ state_changed (conv_group s.2) = Changed.
Proof. unfold clean. destruct (state_changed (conv_group s.2)); auto. Qed.

#[export] Program Instance kept_conv_rel : ConvRel kept.
Next Obligation. split; [intros s Hs; exact Hs|intros s1 s2 s3 H12 H23 Hs; exact (H23 (H12 Hs))]. Qed.
Next Obligation.
  intros E A f op Hop s r s' (t & Hx & ->)%on_inv Hs. unfold st_map_err in Hx.
  destruct (op (s.1, conv_group s.2)) as [r1 t1] eqn:Ho. injection Hx as _ <-.
  destruct (Hop _ _ _ Ho) as (Ht & _ & Hg & _ & Hch).
  eapply durable_step; [done|exact Ht|by left|done..].
Qed.
Next Obligation.
  intros s r s' [= _ <-] Hs. destruct (clear_pending_commit_changed (conv_group s.2)) as [Hg Hc].
  eapply (durable_step ["mls_groups"]); [done|apply tables_refl|by left|done..|by right].
Qed.
Next Obligation.
  intros q s r s' [= _ <-] Hs. destruct (store_pending_proposal_changed q (conv_group s.2)) as [Hg Hc].
  eapply (durable_step ["mls_groups"]); [done|apply tables_refl|by left|done..|by right].
Qed.
Next Obligation.
  intros force s r s' Hx (l & Hl & Hid & Hc). rewrite persist_run in Hx.
  destruct (force || _); [|injection Hx as _ <-; by exists l].
  destruct (persist_write _ _ _ _ Hl Hid Hx) as [(_ & _ & Hd & _)|[(b & -> & Hb) _]]; [done|].
  by exists l.
Qed.
Next Obligation.
  intros A m Hm s r s' (b & Hx & ->)%on_inv Hs.
  eapply durable_step; [done|by eapply Hm|by left|done..|by left].
Qed.

Lemma settles_persist force : settles (persist_group_when_changed force).
Proof.
  intros s r s' (l & Hl & Hid & Hc). rewrite persist_run.
  destruct (force || _) eqn:Hf.
  - intros Hx. destruct (persist_write _ _ _ _ Hl Hid Hx) as [(_ & Hd & _)|[_ Hn]]; [done|].
    by destruct r.
  - intros [= _ <-]. destruct (clean_or_changed s) as [|Hch]; [done|].
    rewrite (bool_decide_true _ Hch), orb_true_r in Hf. done.
Qed.

(** ** Combining *)

Lemma settles_bind {A B} (m : cc ConvState A) (f : A -> cc ConvState B) :
  within kept m -> (forall a, settles (f a)) -> settles (m ≫= f).
Proof.
  intros Hm Hf s b s' Hs (a & s1 & Hx & Hy)%stm_bind_inv. eapply Hf; [|exact Hy]. by eapply (Hm _ _ _ Hx).
Qed.

Lemma settles_calm {A B} (m : cc ConvState A) (f : A -> cc ConvState B) :
  settles m -> (forall a, calm (f a)) -> settles (m ≫= f).
Proof.
  intros Hm Hf s b s' Hs (a & s1 & Hx & Hy)%stm_bind_inv. unfold clean.
  rewrite (Hf a _ _ _ Hy). by eapply Hm.
Qed.

Lemma settles_fail {A} (e : Stop) : settles (st_fail e : cc _ A).
Proof. by intros s a s' Hs. Qed.

Lemma calm_ret {A} (a : A) : calm (mret a).
Proof. by intros s r s' [= _ <-]. Qed.

Lemma calm_backend {A} (m : cc MlsCryptoProvider A) : calm (backend m).
Proof. by intros s r s' (b & _ & ->)%on_inv. Qed.

Lemma calm_bind {A B} (m : cc ConvState A) (f : A -> cc ConvState B) :
  calm m -> (forall a, calm (f a)) -> calm (m ≫= f).
Proof.
  intros Hm Hf s r s'. unfold mbind, stm_bind. destruct (m s) as [[a|e] s1] eqn:Hx.
  - intros Hy. rewrite (Hf _ _ _ _ Hy). by eapply Hm.
  - intros [= _ <-]. by eapply Hm.
Qed.

Lemma calm_attempt {A} (m : cc ConvState A) : calm m -> calm (attempt m).
Proof.
  intros Hm s r s'. unfold attempt. destruct (m s) as [r1 s1] eqn:Hx. apply Hm in Hx.
  destruct r1 as [|[| |]]; by intros [= _ <-].
Qed.

Lemma calm_st_iter {A} (f : A -> cc ConvState ()) l : (forall a, calm (f a)) -> calm (st_iter f l).
Proof.
  intros Hf. induction l as [|a l IH]; simpl; [apply calm_ret|]. apply calm_bind; [done|].
  intros _. done.
Qed.

Lemma calm_get_conv : calm get_conv.
Proof. by intros s r s' [= _ <-]. Qed.
Lemma calm_get_group : calm get_group.
Proof. by intros s r s' [= _ <-]. Qed.
Lemma calm_lift {A} (r : CryptoResult A) : calm (lift_res r).
Proof. by intros s r' s' [= _ <-]. Qed.


Lemma kept_remove_pending id : within kept (backend (ks (Connection_remove MlsPendingMessage id))).
Proof.
  intros s r s' (b & Hx & ->)%on_inv Hs. apply (ks_remove_pending ["mls_groups"]) in Hx; [|set_solver].
  eapply durable_step; [done|exact Hx|by left|done..|by left].
Qed.
#[local] Hint Resolve kept_remove_pending : within.

(** ** The operations *)

Ltac solve_settles :=
  repeat match goal with
  | |- forall _, _ => intros ?
  | |- settles (throw _) => apply settles_fail
  | |- settles (st_fail _) => apply settles_fail
  | |- settles (persist_group_when_changed _) => apply settles_persist
  | |- settles (persist_group_when_changed _ ≫= _) => apply settles_calm; [apply settles_persist|]
  | |- settles (_ ≫= _) => apply settles_bind; [solve [solve_within]|]
  | |- settles (let _ := _ in _) => cbv zeta
  | |- settles (match ?x with _ => _ end) => destruct x
  | |- calm (mret _) => apply calm_ret
  end.

Lemma settles_encrypt_message client m : settles (encrypt_message client m).
Proof. unfold encrypt_message. solve_settles. Qed.

Lemma settles_propose_add_member client kp : settles (propose_add_member client kp).
Proof. unfold propose_add_member. solve_settles. Qed.

Lemma settles_propose_remove_member client i : settles (propose_remove_member client i).
Proof. unfold propose_remove_member. solve_settles. Qed.

Lemma settles_propose_explicit_self_update client l : settles (propose_explicit_self_update client l).
Proof. unfold propose_explicit_self_update. solve_settles. Qed.

Lemma settles_propose_self_update client : settles (propose_self_update client).
Proof. apply settles_propose_explicit_self_update. Qed.

Lemma settles_add_members client l : settles (add_members client l).
Proof. unfold add_members. solve_settles. Qed.

Lemma settles_remove_members client l : settles (remove_members client l).
Proof. unfold remove_members. solve_settles. Qed.

Lemma settles_update_keying_material client cb l : settles (update_keying_material client cb l).
Proof. unfold update_keying_material. solve_settles. Qed.
Lemma settles_e2ei_rotate client cb : settles (e2ei_rotate client cb).
Proof. unfold e2ei_rotate. solve_settles. apply settles_update_keying_material. Qed.

Lemma settles_commit_accepted : settles commit_accepted.
Proof.
  unfold commit_accepted. solve_settles. apply calm_st_iter. intros oln.
  apply calm_bind; [apply calm_attempt, calm_backend|intros; apply calm_ret].
Qed.

Lemma settles_clear_pending_proposal r : settles (clear_pending_proposal r).
Proof. unfold clear_pending_proposal. solve_settles. Qed.

Lemma settles_clear_pending_commit : settles conv_clear_pending_commit.
Proof. unfold conv_clear_pending_commit. solve_settles. Qed.

(** Decrypting. *)
Lemma settles_handle_self_commit ct : settles (handle_self_member_commit ct).
Proof.
  unfold handle_self_member_commit, conv_merge_pending_commit.
  apply settles_bind; [solve_within|]. intros g.
  destruct (pending_commit g); [|apply settles_fail].
  destruct (eq_pending_commit g ct); [|apply settles_fail].
  apply settles_calm; [apply settles_commit_accepted|]. intros _.
  repeat first [apply calm_bind; [|intros ?] | apply calm_ret | apply calm_get_group | apply calm_lift].
Qed.

Lemma settles_decrypt_with restore m p client cb :
  within kept restore -> settles (decrypt_with restore m p client cb).
Proof.
  intros Hr. unfold decrypt_with. apply settles_bind; [solve_within|]. intros g.
  apply settles_bind; [solve_within|]. intros [ct|]; [apply settles_handle_self_commit|].
  solve_settles.
Qed.

Lemma settles_decrypt_message m p client cb r : settles (conv_decrypt_message m p client cb r).
Proof.
  unfold conv_decrypt_message. apply settles_decrypt_with. destruct r; solve_within.
Qed.

(** ** Reading the groups back *)

Lemma restore_fold (l : list PersistedMlsGroup) (m : gmap bytes (option bytes * bytes)) id :
  NoDup (pg_id <$> l) ->
  fold_left (fun m g => <[pg_id g := (pg_parent_id g, pg_state g)]> m) l m !! id =
  match first (with_key id) l with
  | Some g => Some (pg_parent_id g, pg_state g)
  | None => m !! id
  end.
Proof.
  revert m. induction l as [|g l IH]; intros m Hnd; [done|].
  rewrite fmap_cons in Hnd. apply list.NoDup_cons in Hnd as [Hg Hnd]. simpl.
  rewrite IH by done. unfold with_key at 2. simpl. destruct (decide (pg_id g = id)) as [<-|Hne].
  - rewrite bool_decide_true by done. assert (first (with_key (pg_id g)) l = None) as ->.
    { apply first_None. intros x Hx. apply bool_decide_false. intros Hk. apply Hg.
      simpl in Hk. rewrite <-Hk. by apply list_elem_of_fmap_2. }
    apply lookup_insert_eq.
  - rewrite bool_decide_false by done. destruct (first _ l); [done|]. by rewrite lookup_insert_ne.
Qed.

Lemma mls_groups_restore_run v l :
  rep PersistedMlsGroup_layout v l -> NoDup (pg_id <$> l) ->
  exists m, run mls_groups_restore v = (Ok m, v) /\
    forall id, m !! id = (fun g => (pg_parent_id g, pg_state g)) <$>
      (PersistedMlsGroup_stored <$> first (with_key id) l).
Proof.
  intros Hl Hnd. eexists. split.
  - unfold mls_groups_restore, Connection_find_all.
    erewrite run_bind_ok; [|exact (el_find_all (E := PersistedMlsGroup) _ _ Hl)]. reflexivity.
  - intros id. rewrite restore_fold.
    + rewrite first_map. destruct (first _ l) eqn:Hf; [|done]. done.
    + rewrite <-list_fmap_compose. by rewrite (list_fmap_ext _ pg_id).
Qed.

(** What the store gives back of a parent id: one that is empty is none at all. *)
Definition stored_parent (p : option bytes) : option bytes :=
  match p with Some [] => None | p => p end.

(** What dropping the conversation and reading the groups back gives: the id and the group it had,
    the parent if its id is not empty, and the configuration every conversation is read back with,
    that of the group's ciphersuite, without external senders and with the default settings. *)
Definition restored_configuration (g : MlsGroup) : MlsConversationConfiguration :=
  MkConversationConfiguration (group_ciphersuite g) [] MlsCustomConfiguration_default.

Definition restores (s : ConvState) : Prop :=
  exists s', drop_and_restore s = (Ok (), s') /\ durable s' /\
    s'.2 = MkConversation (conv_id s.2) (stored_parent (conv_parent_id s.2)) (conv_group s.2)
      (restored_configuration (conv_group s.2)).

Lemma drop_and_restore_clean s : durable s -> clean s -> restores s.
Proof.
  intros (l & (Hh & Hl & Hnd) & Hid & Hc) Hcl. destruct (Hc Hcl) as (state & Hst & Hf).
  destruct (mls_groups_restore_run _ _ Hl Hnd) as (m & Hr & Hm).
  destruct (ks_ok _ _ _ _ Hh Hr) as (c' & Hk & Hv & Hh').
  specialize (Hm (group_id (conv_group s.2))). rewrite Hid, Hf in Hm. simpl in Hm.
  assert (set_state Persisted (conv_group s.2) = conv_group s.2) as Hg.
  { rewrite <-Hcl. apply set_state_self. }
  exists (set_key_store c' s.1,
    MkConversation (conv_id s.2) (stored_parent (conv_parent_id s.2)) (conv_group s.2)
      (restored_configuration (conv_group s.2))).
  split.
  - unfold drop_and_restore. erewrite stm_bind_ok by reflexivity. cbv zeta.
    erewrite stm_bind_ok by (unfold attempt, backend; rewrite (on_ok _ _ _ _ _ _ Hk); reflexivity).
    erewrite stm_bind_ok by reflexivity. rewrite Hid, Hm. erewrite stm_bind_ok by reflexivity.
    unfold from_serialized_state, deser. rewrite (group_from_to _ _ Hst), Hg. simpl.
    erewrite stm_bind_ok by reflexivity. unfold st_modify. rewrite Hid.
    by destruct (conv_parent_id s.2) as [[|]|].
  - split_and!; [|done..]. exists l. split; [|split; [done|]].
    + split_and!; [done| |done]. simpl. by rewrite Hv.
    + intros _. exists state. split; [done|]. etrans; [exact Hf|]. f_equal. unfold conv_entity. simpl.
      by destruct (conv_parent_id s.2) as [[|]|].
Qed.

(** ** Marking as a child *)

Lemma mls_group_exists_run v l id :
  rep PersistedMlsGroup_layout v l ->
  run (mls_group_exists id) v = (Ok (bool_decide (is_Some (first (with_key id) l))), v).
Proof.
  intros Hl. unfold mls_group_exists, Connection_find.
  pose proof (el_find_one (E := PersistedMlsGroup) v l id Hl eq_refl) as Hr.
  unfold mbind, prog_bind, ptry. rewrite !run_then, Hr. fold (with_key (E := PersistedMlsGroup) id).
  simpl. destruct (first _ l); [by rewrite bool_decide_true|].
  rewrite bool_decide_false; [done|]. by intros [? [=]].
Qed.

(** [mark_as_child_of] looks for the parent in the store and refuses one that is not there,
    with nothing changed; when it succeeds the conversation is in the store with its new parent;
    any other error comes from the write, and leaves the conversation in memory with a parent
    that the store does not know of. *)
Lemma mark_as_child_of_spec s l parent r s' :
  groups_hold s.1 l -> group_id (conv_group s.2) = conv_id s.2 ->
  (clean s -> on_disk l s.2) -> mark_as_child_of parent s = (r, s') ->
  match r with
  | Ok () => is_Some (first (with_key parent) l) /\ durable s' /\ clean s' /\
      conv_parent_id s'.2 = Some parent
  | Err e => groups_hold s'.1 l /\
      (first (with_key parent) l = None /\ e = Throw ParentGroupNotFound /\ s'.2 = s.2 \/
       is_Some (first (with_key parent) l) /\ conv_parent_id s'.2 = Some parent)
  end.
Proof.
  intros (Hh & Hl & Hnd) Hid Hc. unfold mark_as_child_of.
  destruct (ks_ok _ _ _ _ Hh (mls_group_exists_run _ _ parent Hl)) as (c & Hk & Hv & Hh').
  erewrite stm_bind_ok by (unfold backend; rewrite (on_ok _ _ _ _ _ _ Hk); reflexivity).
  assert (groups_hold (set_key_store c s.1) l) as Hg.
  { split_and!; [done| |done]. simpl. by rewrite Hv. }
  destruct (bool_decide_reflect (is_Some (first (with_key parent) l))) as [Hp|Hp].
  - erewrite stm_bind_ok by reflexivity. rewrite persist_run. simpl.
    set (s1 := (set_key_store c s.1, MkConversation (conv_id s.2) (Some parent)
      (conv_group s.2) (conv_configuration s.2)) : ConvState).
    intros Hx. destruct (persist_write s1 r s' l Hg Hid Hx) as [(-> & Hcl & Hd & Hpar)|[(b & -> & Hb) Hr]].
    + by split_and!.
    + destruct r as [[]|e]; [done|]. split; [done|]. by right.
  - intros [= <- <-]. split; [done|]. left. destruct (first _ l); [|done]. by destruct Hp.
Qed.
Lemma mark_keeps parent s r s' :
  durable s -> mark_as_child_of parent s = (r, s') -> r = Ok () \/ s'.2 = s.2 -> durable s'.
Proof.
  intros (l & Hl & Hid & Hc) Hm Hr. pose proof (mark_as_child_of_spec _ _ _ _ _ Hl Hid Hc Hm) as Hs.
  destruct r as [[]|e]; [by destruct Hs as (_ & Hs & _)|]. destruct Hs as [Hl' _].
  destruct Hr as [[=]|Hr]. exists l. unfold clean. by rewrite Hr.
Qed.

Lemma mark_restores parent s s' : durable s -> mark_as_child_of parent s = (Ok (), s') -> restores s'.
Proof.
  intros (l & Hl & Hid & Hc) Hm.
  destruct (mark_as_child_of_spec _ _ _ _ _ Hl Hid Hc Hm) as (_ & Hd & Hcl & _).
  by apply drop_and_restore_clean.
Qed.

(** ** Sequences of calls *)

(** The calls that are to be durable, with the answers that mean that there was something to do. *)
Inductive durable_call : forall A, cc ConvState A -> (A -> bool) -> Prop :=
  | DEncrypt client m : durable_call _ (encrypt_message client m) (fun _ => true)
  | DProposeAdd client kp : durable_call _ (propose_add_member client kp) (fun _ => true)
  | DProposeRemove client i : durable_call _ (propose_remove_member client i) (fun _ => true)
  | DProposeUpdate client l : durable_call _ (propose_explicit_self_update client l) (fun _ => true)
  | DAddMembers client kps : durable_call _ (add_members client kps) (fun _ => true)
  | DRemoveMembers client ids : durable_call _ (remove_members client ids) (fun _ => true)
  | DUpdate client cb l : durable_call _ (update_keying_material client cb l) (fun _ => true)
  | DRotate client cb : durable_call _ (e2ei_rotate client cb) (fun _ => true)
  | DCommitPending client :
      durable_call _ (commit_pending_proposals client) (fun o => bool_decide (is_Some o))
  | DCommitAccepted : durable_call _ commit_accepted (fun _ => true)
  | DClearProposal r : durable_call _ (clear_pending_proposal r) (fun _ => true)
  | DClearCommit : durable_call _ conv_clear_pending_commit (fun _ => true)
  | DDecrypt m p client cb r :
      durable_call _ (conv_decrypt_message m p client cb r) (fun _ => true).

(** Any number of calls, whatever they answer: a success, an error, a panic. A conversation is marked
    as a child by a call that succeeds or leaves it alone: one whose write fails leaves a parent in
    memory that the store does not know of. *)
Inductive conv_steps : ConvState -> ConvState -> Prop :=
  | steps_refl s : conv_steps s s
  | steps_call s s1 s' A (m : cc ConvState A) d r :
      durable_call A m d -> m s = (r, s1) -> conv_steps s1 s' -> conv_steps s s'
  | steps_wipe s s1 s' r :
      wipe_associated_entities s = (r, s1) -> conv_steps s1 s' -> conv_steps s s'
  | steps_mark s s1 s' parent r :
      mark_as_child_of parent s = (r, s1) -> r = Ok () \/ s1.2 = s.2 ->
      conv_steps s1 s' -> conv_steps s s'.

Lemma durable_call_keeps A m d : durable_call A m d -> within kept m.
Proof. destruct 1; eauto using kept_remove_pending with within nocore. Qed.

Lemma settles_commit_pending client s a s' :
  durable s -> commit_pending_proposals client s = (Ok a, s') -> is_Some a -> clean s'.
Proof.
  intros Hs (g & s1 & Hg & Hx)%stm_bind_inv [b ->]. injection Hg as <- <-.
  destruct (pending_proposals _); [done|]. revert Hx.
  match goal with |- ?m s = _ -> _ => assert (settles m) as Hm end.
  { solve_settles. }
  intros Hx. by eapply Hm.
Qed.

Lemma durable_call_settles A m d s a s' :
  durable_call A m d -> durable s -> m s = (Ok a, s') -> d a = true -> clean s'.
Proof.
  intros Hc Hs Hm Hd.
  destruct Hc; try solve [eapply settles_commit_pending; [..|by apply bool_decide_eq_true in Hd]; done];
    [by eapply settles_encrypt_message|by eapply settles_propose_add_member
    |by eapply settles_propose_remove_member|by eapply settles_propose_explicit_self_update
    |by eapply settles_add_members|by eapply settles_remove_members
    |by eapply settles_update_keying_material|by eapply settles_e2ei_rotate|by eapply settles_commit_accepted
    |by eapply settles_clear_pending_proposal|by eapply settles_clear_pending_commit
    |by eapply settles_decrypt_message].
Qed.

Lemma conv_steps_durable s s' : conv_steps s s' -> durable s -> durable s'.
Proof.
  induction 1 as [s|s s1 s' A m d r Hc Hm _ IH|s s1 s' r Hm _ IH|s s1 s' parent r Hm Hr _ IH];
    intros Hs; [done|..]; apply IH.
  - by eapply (durable_call_keeps _ _ _ Hc).
  - by eapply (within_wipe_associated_entities kept).
  - by eapply mark_keeps.
Qed.

(** ** The properties *)

(** C8: after any sequence of calls on a conversation that the store holds, of which some may have
    failed or panicked half way, a durable call that succeeds leaves the conversation in the
    store: dropping it and reading it back gives the id and the group as they are in memory, and
    the parent unless its id is empty; the configuration becomes the default one of the group's
    ciphersuite. The durable calls are those that change the group, and [mark_as_child_of];
    [commit_pending_proposals] is one when it answers with a commit, and when it has found nothing
    to commit the same holds as long as the group is not marked as changed. *)
Theorem durable_call_restores s0 s :
  durable s0 -> conv_steps s0 s ->
  (forall A (m : cc ConvState A) d a s', durable_call A m d -> m s = (Ok a, s') ->
     d a = true \/ state_changed (conv_group s'.2) = Persisted -> restores s') /\
  (forall parent s', mark_as_child_of parent s = (Ok (), s') -> restores s').
Proof.
  intros Hs0 Hst. pose proof (conv_steps_durable _ _ Hst Hs0) as Hs. split.
  - intros A m d a s' Hc Hm Hd. apply drop_and_restore_clean; [by eapply (durable_call_keeps _ _ _ Hc)|].
    destruct Hd as [Hd|Hd]; [by eapply durable_call_settles|done].
  - intros parent s' Hm. by eapply mark_restores.
Qed.

(** A call that does not succeed never makes the store differ from a conversation that is not
    marked: whatever sequence of calls is made, a conversation without the mark is in the store
    as it is, so nothing that was changed in memory can be forgotten by a later
    [persist_group_when_changed]. *)
Lemma unmarked_is_stored s0 s :
  durable s0 -> conv_steps s0 s -> state_changed (conv_group s.2) = Persisted ->
  exists l, groups_hold s.1 l /\ on_disk l s.2.
Proof.
  intros Hs0 Hst Hc. destruct (conv_steps_durable _ _ Hst Hs0) as (l & Hl & _ & Hd). by eauto.
Qed.

End durable.
