(* ===== verification/Coherence.v ===== *)
(** * A conversation and the others

    What an operation on one conversation leaves true of all of them: the rows of the other
    conversations stay, its own row is what it is in memory as long as it is not marked, its
    parent stays what it was. Proved for every operation at once, as an instance of [ConvRel]. *)

From S2P Require Import Prelude KsError Sql SqlSpec Entity TableFrame.
From S2P Require Import MlsGroups MlsPending MlsKeys E2eiEntities Keystore.
From S2P Require Import CcError Ids Backend OpenMls Config CommitDelay Credential Conversation.
From S2P Require Import Renew Decrypt ConvFrame Durable.
Open Scope Z_scope.

(** ** What is not promised

    Two calls can leave a conversation in a state that the others are not about: one that is marked
    as a child of itself is its own parent; and one whose call fails half way - marking it, or
    rejoining while it is in memory - may differ in memory from its row without being marked as
    changed. The ids of such conversations are collected, and the invariant is about the others. *)
Class Exempt := MkExempt { own_parents : gset bytes; torn : gset bytes }.

(** Those that may differ from their rows: the rules for a conversation and its parent are for two
    that differ, so one that is its own parent is among them. *)
Definition loose {E : Exempt} : gset bytes := own_parents ∪ torn.

Definition no_exempt : Exempt := MkExempt ∅ ∅.
Definition add_own_parent (k : bytes) (E : Exempt) : Exempt :=
  MkExempt ({[k]} ∪ @own_parents E) (@torn E).
Definition add_torn (k : bytes) (E : Exempt) : Exempt :=
  MkExempt (@own_parents E) ({[k]} ∪ @torn E).

Section coherence.
Context `{En : SqlEngine, Provider, OpenMlsTypes} `{!OpenMls, !OpenMlsLaws}.
Context `{!X509Lib, !IdCodecs, !F32Ln} {Ex : Exempt}.

Abbreviation ConvState := (MlsCryptoProvider * MlsConversation)%type.

(** ** Rows *)

(** A row is a group with the id of the row; a group is not its own parent. *)
Definition row_ok (e : PersistedMlsGroup) : Prop :=
  (exists g, to_stdvec g = Some (pg_state e) /\ group_id g = pg_id e) /\
  (pg_id e ∉ own_parents -> pg_parent_id e <> Some (pg_id e)).

Definition rows_ok (l : list PersistedMlsGroup) : Prop := forall e, e ∈ l -> row_ok e.

Definition row_of (l : list PersistedMlsGroup) (k : bytes) : option PersistedMlsGroup :=
  first (with_key k) l.

(** The rows of all the other groups are the same. *)
Definition others_same (k : bytes) (l l' : list PersistedMlsGroup) : Prop :=
  forall k', k' <> k -> row_of l' k' = row_of l k'.

(** What a conversation in memory is, given the rows: it has the id, it has a row, and if it is not
    marked it is what the row says. *)
Definition conv_ok (l : list PersistedMlsGroup) (k : bytes) (c : MlsConversation) : Prop :=
  conv_id c = k /\ group_id (conv_group c) = k /\ is_Some (row_of l k) /\
  (k ∉ own_parents -> conv_parent_id c <> Some k) /\
  (k ∉ loose -> state_changed (conv_group c) = Persisted -> on_disk l c).

Lemma row_of_upsert k e l :
  pg_id e = k -> row_of (upsert (with_key k) e l) k = Some e.
Proof. intros Hk. unfold row_of. apply first_upsert. by apply bool_decide_eq_true. Qed.

Lemma others_same_upsert k e l :
  pg_id e = k -> others_same k l (upsert (with_key k) e l).
Proof.
  intros Hk k' Hne. unfold row_of. apply first_upsert_other.
  - apply bool_decide_eq_false. simpl. congruence.
  - intros x Hx%bool_decide_eq_true. apply bool_decide_eq_false. simpl in *. congruence.
Qed.

Lemma others_same_refl k l : others_same k l l.
Proof. done. Qed.

Lemma others_same_trans k l1 l2 l3 : others_same k l1 l2 -> others_same k l2 l3 -> others_same k l1 l3.
Proof. intros E1 E2 k' Hk. by rewrite E2, E1. Qed.

Lemma rows_ok_upsert k e l : row_ok e -> rows_ok l -> rows_ok (upsert (with_key k) e l).
Proof. intros He Hl x [->|Hx]%elem_of_upsert; [done|by apply Hl]. Qed.

(** A conversation does not care about the rows of others. *)
Lemma on_disk_same l l' c : row_of l' (conv_id c) = row_of l (conv_id c) -> on_disk l c -> on_disk l' c.
Proof. unfold on_disk, row_of. by intros ->. Qed.

Lemma conv_ok_same l l' k c : row_of l' k = row_of l k -> conv_ok l k c -> conv_ok l' k c.
Proof.
  intros Hr (Hk & Hg & Hs & Hp & Hd). split_and!; [done..|by rewrite Hr|done|].
  intros Ht Hc. apply (on_disk_same l); [by rewrite Hk|auto].
Qed.

(** One that may differ from its row has to have one. *)
Lemma conv_ok_loose l l' k c :
  k ∈ loose -> conv_ok l k c -> is_Some (row_of l' k) -> conv_ok l' k c.
Proof. intros Hl (Hk & Hg & _ & Hp & _) Hs. by split_and!. Qed.

Lemma own_parents_loose k : k ∈ own_parents -> k ∈ loose.
Proof. unfold loose. set_solver. Qed.

Lemma parent_or_loose (k p : bytes) :
  (k ∉ own_parents -> Some p <> Some k) -> p <> k \/ k ∈ loose.
Proof.
  intros Hp. destruct (decide (k ∈ own_parents)); [right; by apply own_parents_loose|left].
  intros ->. by apply Hp.
Qed.

Lemma conv_entity_row c state :
  to_stdvec (conv_group c) = Some state -> group_id (conv_group c) = conv_id c ->
  (conv_id c ∉ own_parents -> conv_parent_id c <> Some (conv_id c)) -> row_ok (conv_entity c state).
Proof.
  intros Hst Hid Hp. split; [by exists (conv_group c)|]. unfold conv_entity. simpl. intros Hk%Hp.
  by destruct (conv_parent_id c) as [[|]|].
Qed.

(** ** What an operation does *)

Definition own (s s' : ConvState) : Prop :=
  conv_id s'.2 = conv_id s.2 /\ conv_parent_id s'.2 = conv_parent_id s.2 /\
  tables ["mls_pending_groups"] s.1 s'.1 /\
  forall l k, groups_hold s.1 l -> rows_ok l -> conv_ok l k s.2 ->
    exists l', groups_hold s'.1 l' /\ rows_ok l' /\ conv_ok l' k s'.2 /\ others_same k l l'.

Lemma own_refl s : own s s.
Proof. split_and!; [done..|by apply tables_refl|]. intros l k Hg Hr Hc. by exists l. Qed.

(** A step that leaves the tables alone, and the group too or marks it. *)
Lemma own_step ts s s' :
  tables ts s.1 s'.1 -> "mls_groups" ∈ ts -> "mls_pending_groups" ∈ ts ->
  conv_id s'.2 = conv_id s.2 -> conv_parent_id s'.2 = conv_parent_id s.2 ->
  group_id (conv_group s'.2) = group_id (conv_group s.2) ->
  (conv_group s'.2 = conv_group s.2 \/ state_changed (conv_group s'.2) = Changed) -> own s s'.
Proof.
  intros Ht Hts1 Hts2 Hci Hp Hg Hch. split; [done|]. split; [done|]. split.
  { eapply tables_sub; [|exact Ht]. by intros t ->%list_elem_of_singleton. }
  intros l k (Hh & Hl & Hnd) Hrows (Hk & Hgk & Hs & Hpk & Hd).
  destruct (tables_rep _ _ _ _ _ Hh Hl Ht Hts1) as [Hh' Hl'].
  exists l. split; [done|]. split; [done|]. split; [|done].
  split_and!; [congruence..|by rewrite Hp|]. intros Ht' Hc. destruct Hch as [Hch|Hch]; [|congruence].
  rewrite Hch in Hc. destruct (Hd Ht' Hc) as (st & Hst & Hf). exists st.
  rewrite Hch, Hci. split; [done|]. rewrite Hf. unfold conv_entity. by rewrite Hci, Hp.
Qed.

Lemma own_write s r s' :
  tables ["mls_pending_groups"] s.1 s'.1 -> write_group s = (r, s') -> own s s'.
Proof.
  intros Ht Hx.
  assert (s'.2 = s.2 \/ s'.2 = set_group (set_state Persisted (conv_group s.2)) s.2) as E.
  { revert Hx. unfold write_group, ser. destruct (to_stdvec _); [|intros [= _ <-]; by left].
    erewrite stm_bind_ok by reflexivity. unfold mbind, stm_bind, backend, on.
    destruct (ks _ s.1) as [[[]|e] b]; intros [= _ <-]; auto. }
  split; [by destruct E as [-> | ->]|]. split; [by destruct E as [-> | ->]|]. split; [done|].
  intros l k Hg Hrows (Hk & Hgk & Hs & Hpk & Hd).
  destruct (write_group_run _ _ _ _ Hg Hx) as [(state & -> & Hst & Hg' & E')|[(b & -> & Hb) _]].
  - exists (upsert (with_key (conv_id s.2)) (conv_entity s.2 state) l).
    assert (pg_id (conv_entity s.2 state) = conv_id s.2) as Hpid by done.
    split; [done|]. split; [|split].
    + apply rows_ok_upsert; [|done]. apply conv_entity_row; [done|congruence|by rewrite Hk].
    + rewrite E'. split_and!; [done|simpl; by rewrite set_state_id| |done|].
      * rewrite Hk in *. rewrite row_of_upsert by done. by eexists.
      * intros _ _. by apply written_on_disk.
    + rewrite <-Hk. by apply others_same_upsert.
  - exists l. by split_and!.
Qed.

#[export] Program Instance own_conv_rel : ConvRel own.
Next Obligation.
  split.
  - exact own_refl.
  - intros s1 s2 s3 (Hi1 & Hp1 & Ht1 & H12) (Hi2 & Hp2 & Ht2 & H23).
    split_and!; [congruence..|by eapply tables_trans|]. intros l k Hg Hr Hc.
    destruct (H12 l k Hg Hr Hc) as (l1 & Hg1 & Hr1 & Hc1 & Ho1).
    destruct (H23 l1 k Hg1 Hr1 Hc1) as (l2 & Hg2 & Hr2 & Hc2 & Ho2).
    exists l2. split_and!; [done..|]. by eapply others_same_trans.
Qed.
Next Obligation.
  intros E A f op Hop s r s' (t & Hx & ->)%on_inv. unfold st_map_err in Hx.
  destruct (op (s.1, conv_group s.2)) as [r1 t1] eqn:Ho. injection Hx as _ <-.
  destruct (Hop _ _ _ Ho) as (Ht & _ & Hg & _ & Hch).
  eapply own_step; [exact Ht|..]; unfold conv_tables; try done; set_solver.
Qed.
Next Obligation.
  intros s r s' [= _ <-]. destruct (clear_pending_commit_changed (conv_group s.2)) as [Hg Hc].
  eapply (own_step ["mls_groups"; "mls_pending_groups"]); [apply tables_refl|set_solver..|done|done|done|by right].
Qed.
Next Obligation.
  intros q s r s' [= _ <-]. destruct (store_pending_proposal_changed q (conv_group s.2)) as [Hg Hc].
  eapply (own_step ["mls_groups"; "mls_pending_groups"]); [apply tables_refl|set_solver..|done|done|done|by right].
Qed.
Next Obligation.
  intros force s r s' Hx.
  destruct (persist_inv ["mls_pending_groups"] _ _ _ _ ltac:(set_solver) Hx) as [Ht _].
  rewrite persist_run in Hx. destruct (force || _); [by eapply own_write|].
  injection Hx as _ <-. apply own_refl.
Qed.
Next Obligation.
  intros A m Hm s r s' (b & Hx & ->)%on_inv.
  eapply own_step; [by eapply Hm|unfold conv_rows; set_solver..|done|done|done|by left].
Qed.

Lemma own_remove_pending id : within own (backend (ks (Connection_remove MlsPendingMessage id))).
Proof.
  intros s r s' (b & Hx & ->)%on_inv.
  apply (ks_remove_pending ["mls_groups"; "mls_pending_groups"]) in Hx; [|set_solver].
  eapply own_step; [exact Hx|set_solver..|done|done|done|by left].
Qed.
End coherence.

(** ** Exempting one more *)

Section exempt.
Context `{En : SqlEngine, Provider, OpenMlsTypes} `{!OpenMls, !OpenMlsLaws}.
Context `{!X509Lib, !IdCodecs, !F32Ln} {Ex : Exempt}.

Lemma conv_ok_torn l id k c : conv_ok l k c -> conv_ok (Ex := add_torn id Ex) l k c.
Proof.
  intros (Hk & Hg & Hs & Hp & Hd). split_and!; [done..|]. intros Hl. apply Hd.
  unfold loose, add_torn in *. cbn in *. set_solver.
Qed.

Lemma conv_ok_untorn l id k c :
  k <> id \/ id ∈ loose -> conv_ok (Ex := add_torn id Ex) l k c -> conv_ok l k c.
Proof.
  intros Hid (Hk & Hg & Hs & Hp & Hd). split_and!; [done..|]. intros Hl. apply Hd.
  unfold loose, add_torn in *. cbn in *. set_solver.
Qed.

Lemma loose_torn id : id ∈ @loose (add_torn id Ex).
Proof. unfold loose, add_torn. cbn. set_solver. Qed.

End exempt.

#[export] Hint Resolve own_remove_pending : within.
