(* ===== verification/ClientFrame.v ===== *)
(** * What clients and certificates leave alone

    The operations of a client and the registrations of certificates never touch the tables of
    the conversations: they are [within (tables group_tables)]. *)

From S2P Require Import Prelude KsError Sql SqlSpec Entity TableFrame.
From S2P Require Import MlsGroups MlsPending MlsKeys MlsCredentials E2eiEntities Keystore.
From S2P Require Import CcError Ids Backend OpenMls Config Credential Certificates ClientOps.
Open Scope Z_scope.

(** The tables of the conversations, and of those that are being joined. *)
Definition group_tables : list string := ["mls_groups"; "mls_pending_groups"].

Section frame.
Context `{En : SqlEngine, Provider}.

#[export] Instance tables_preorder ts : PreOrder (tables ts).
Proof. split; [intros b; apply tables_refl|intros b1 b2 b3; apply tables_trans]. Qed.

(** A call of the key store with a program that works on another table. *)
Lemma within_ks_on t ts {A} (p : prog A) :
  only t p -> closes p -> t ∉ ts -> within (tables ts) (ks p).
Proof. intros Ho Hc Ht b r b'. by apply (ks_frame t). Qed.

(** Another name for the error does not matter. *)
Lemma within_ks_map R f {A} (p : prog A) : within R (ks p) -> within R (ks_map f p).
Proof.
  intros Hk b r b' Hx. destruct (ks p b) as [r0 b0] eqn:Hp.
  assert (b' = b0) as ->; [|by eapply Hk]. revert Hx Hp. unfold ks_map, ks, on, st_map_err.
  destruct (exec_prog p (key_store b)) as [r1 c1]. by intros [= _ <-] [= _ <-].
Qed.
End frame.

(** The programs of the key store that are called, down to their statements. *)
Create HintDb programs.
#[export] Hint Unfold Connection_find Connection_find_all Connection_save Connection_remove
  MlsCredential_find_all MlsCredential_read MlsCredential_insert MlsCredential_delete_by_credential
  MlsSignatureKeyPair_find_all MlsSignatureKeyPair_read MlsSignatureKeyPair_save
  MlsSignatureKeyPair_insert MlsSignatureKeyPair_delete
  MlsKeyPackage_find_all MlsKeyPackage_read MlsKeyPackage_delete mls_fetch_keypackages
  MlsHpkePrivateKey_delete MlsEncryptionKeyPair_delete
  E2eiAcmeCA_find_unique E2eiAcmeCA_replace E2eiIntermediateCert_find_all E2eiIntermediateCert_read
  E2eiIntermediateCert_save E2eiCrl_find_all E2eiCrl_find_one E2eiCrl_read E2eiCrl_save
  PersistedMlsPendingGroup_find_one MlsPendingMessage_save MlsPendingMessage_delete Connection_count MlsKeyPackage_count
  E2eiRefreshToken_find_unique save_e2ei_enrollment pop_e2ei_enrollment E2eiEnrollment_save
  E2eiEnrollment_find_one E2eiEnrollment_read E2eiEnrollment_delete : programs.

Ltac unfold_program :=
  repeat (progress (autounfold with programs;
    cbn [save insert_entity find_all find_one count delete_ids MlsCredential_entity
         MlsSignatureKeyPair_entity MlsKeyPackage_entity MlsHpkePrivateKey_entity
         MlsEncryptionKeyPair_entity E2eiIntermediateCert_entity E2eiCrl_entity
         PersistedMlsPendingGroup_entity MlsPendingMessage_entity E2eiEnrollment_entity])).

Ltac ks_on t :=
  apply (within_ks_on t);
  [ unfold_program; repeat (solve_only; try apply only_delete_all_or_nothing)
  | unfold_program; repeat (solve_closes; try apply closes_delete_all_or_nothing)
  | unfold group_tables; set_solver ].

Section programs.
Context `{En : SqlEngine, Provider}.

Abbreviation quiet_on := (within (tables group_tables)).

Lemma quiet_find_credentials p : quiet_on (ks (Connection_find_all (E := MlsCredential) p)).
Proof. ks_on "mls_credentials". Qed.
Lemma quiet_insert_credential c : quiet_on (ks (MlsCredential_insert c)).
Proof. ks_on "mls_credentials". Qed.
Lemma quiet_delete_credential c : quiet_on (ks (MlsCredential_delete_by_credential c)).
Proof. ks_on "mls_credentials". Qed.
Lemma quiet_find_signature_keypairs p : quiet_on (ks (Connection_find_all (E := MlsSignatureKeyPair) p)).
Proof. ks_on "mls_signature_keypairs". Qed.
Lemma quiet_connection_save_signature_keypair (k : MlsSignatureKeyPair) : quiet_on (ks (Connection_save k)).
Proof. ks_on "mls_signature_keypairs". Qed.
Lemma quiet_save_signature_keypair f (k : MlsSignatureKeyPair) : quiet_on (ks_map f (save k)).
Proof. apply within_ks_map. ks_on "mls_signature_keypairs". Qed.
Lemma quiet_remove_signature_keypair k : quiet_on (ks (Connection_remove MlsSignatureKeyPair k)).
Proof. ks_on "mls_signature_keypairs". Qed.
Lemma quiet_find_keypackages p : quiet_on (ks (Connection_find_all (E := MlsKeyPackage) p)).
Proof. ks_on "mls_keypackages". Qed.
Lemma quiet_fetch_keypackages {V} `{!Serde V} n : quiet_on (ks (mls_fetch_keypackages (V := V) n)).
Proof. ks_on "mls_keypackages". Qed.
Lemma quiet_delete_keypackage l : quiet_on (ks (delete_ids MlsKeyPackage l)).
Proof. ks_on "mls_keypackages". Qed.
Lemma quiet_delete_hpke l : quiet_on (ks (delete_ids MlsHpkePrivateKey l)).
Proof. ks_on "mls_hpke_private_keys". Qed.
Lemma quiet_delete_encryption l : quiet_on (ks (delete_ids MlsEncryptionKeyPair l)).
Proof. ks_on "mls_encryption_keypairs". Qed.
Lemma quiet_find_ca : quiet_on (ks E2eiAcmeCA_find_unique).
Proof. ks_on "e2ei_acme_ca". Qed.
Lemma quiet_replace_ca c : quiet_on (ks (E2eiAcmeCA_replace c)).
Proof. ks_on "e2ei_acme_ca". Qed.
Lemma quiet_find_intermediates p : quiet_on (ks (find_all (E := E2eiIntermediateCert) p)).
Proof. ks_on "e2ei_intermediate_certs". Qed.
Lemma quiet_save_intermediate (c : E2eiIntermediateCert) : quiet_on (ks (Connection_save c)).
Proof. ks_on "e2ei_intermediate_certs". Qed.
Lemma quiet_find_crls p : quiet_on (ks (find_all (E := E2eiCrl) p)).
Proof. ks_on "e2ei_crls". Qed.
Lemma quiet_find_crl id : quiet_on (ks (Connection_find (E := E2eiCrl) id)).
Proof. ks_on "e2ei_crls". Qed.
Lemma quiet_save_crl (c : E2eiCrl) : quiet_on (ks (Connection_save c)).
Proof. ks_on "e2ei_crls". Qed.
Lemma quiet_find_pending_group id : quiet_on (ks (Connection_find (E := PersistedMlsPendingGroup) id)).
Proof. ks_on "". Qed.
Lemma quiet_save_pending_message (m : MlsPendingMessage) : quiet_on (ks (Connection_save m)).
Proof. ks_on "mls_pending_messages". Qed.
Lemma quiet_remove_pending_message id : quiet_on (ks (Connection_remove MlsPendingMessage id)).
Proof. ks_on "mls_pending_messages". Qed.

Lemma quiet_prov {E A} (f : E -> CryptoError) (m : stm MlsCryptoProvider E A) :
  (forall b r b', m b = (r, b') -> tables group_tables b b') -> quiet_on (prov f m).
Proof.
  intros Hm b r b'. unfold prov, st_map_err. destruct (m b) as [r0 b0] eqn:Hx.
  intros [= _ <-]. by eapply Hm.
Qed.

Lemma quiet_modify_env env : quiet_on (st_modify (update_env env)).
Proof. apply within_modify. intros b. apply (tables_refl group_tables b). Qed.
End programs.

#[export] Hint Resolve quiet_find_credentials quiet_insert_credential quiet_delete_credential
  quiet_find_signature_keypairs quiet_connection_save_signature_keypair
  quiet_save_signature_keypair quiet_remove_signature_keypair quiet_find_keypackages
  quiet_fetch_keypackages quiet_delete_keypackage quiet_delete_hpke quiet_delete_encryption
  quiet_find_ca quiet_replace_ca quiet_find_intermediates quiet_save_intermediate quiet_find_crls
  quiet_find_crl quiet_save_crl quiet_find_pending_group quiet_save_pending_message
  quiet_remove_pending_message quiet_modify_env : within.

(** ** The operations *)

Section ops.
Context `{En : SqlEngine, Provider, OpenMlsTypes} `{!OpenMls, !OpenMlsLaws, !X509Lib, !IdCodecs}.

Abbreviation ClientState := (MlsCryptoProvider * Client)%type.
Abbreviation quiet_on := (within (tables group_tables)).

(** ... of a client, which acts on the provider and on itself. *)
Definition client_tables (s s' : ClientState) : Prop := tables group_tables s.1 s'.1.

#[export] Instance client_tables_preorder : PreOrder client_tables.
Proof. split; [intros s; apply tables_refl|intros s1 s2 s3; apply tables_trans]. Qed.

Abbreviation quiet := (within client_tables).

Lemma bframed_groups {E A} (m : stm MlsCryptoProvider E A) b r b' :
  bframed m -> m b = (r, b') -> tables group_tables b b'.
Proof.
  intros Hm Hx. eapply tables_sub; [|by eapply Hm]. unfold group_tables, conv_tables. set_solver.
Qed.

Lemma quiet_bframed {E A} (f : E -> CryptoError) (m : stm MlsCryptoProvider E A) :
  bframed m -> quiet_on (prov f m).
Proof. intros Hm. apply quiet_prov. intros b r b'. by apply bframed_groups. Qed.

Lemma quiet_on_backend {A} (m : cc MlsCryptoProvider A) : quiet_on m -> quiet (on_backend m).
Proof. intros Hm. by apply (within_on _ (tables group_tables)). Qed.

Lemma quiet_local_client {A} client (m : cc ClientState A) : quiet m -> quiet_on (local_client client m).
Proof.
  intros Hm b r b'. unfold local_client. destruct (m (b, client)) as [r0 [b0 c0]] eqn:Hx.
  apply Hm in Hx. destruct r0; by intros [= _ <-].
Qed.

Lemma quiet_get_client : quiet get_client.
Proof. apply (within_pure _ (fun s => Ok s.2)). Qed.
Lemma quiet_get_provider : quiet_on get_provider.
Proof. apply (within_pure _ (fun b => Ok b)). Qed.
Lemma quiet_e2ei {A} (r : result ext_error A) : quiet_on (e2ei r).
Proof. apply within_lift. typeclasses eauto. Qed.
Lemma quiet_push_identity sc cb : quiet (push_identity sc cb).
Proof. intros s r s'. unfold push_identity. destruct (push_credential_bundle _ _ _). by intros [= _ <-]. Qed.
Lemma quiet_set_client f : quiet (st_modify (fun s : ClientState => (s.1, f s))).
Proof. apply within_modify. intros s. apply (tables_refl group_tables). Qed.

#[local] Hint Resolve quiet_on_backend quiet_local_client quiet_get_client quiet_get_provider
  quiet_e2ei quiet_push_identity quiet_set_client quiet_bframed kp_build_framed
  signature_key_gen_framed random_vec_framed : within.

(** Certificates *)
Lemma quiet_restore_pki_env : quiet_on restore_pki_env.
Proof. unfold restore_pki_env. solve_within. Qed.
#[local] Hint Resolve quiet_restore_pki_env : within.
Lemma quiet_init_pki_env : quiet_on init_pki_env.
Proof. unfold init_pki_env. solve_within. Qed.
Lemma quiet_get_pki_env : quiet_on get_pki_env.
Proof. unfold get_pki_env. solve_within. Qed.
#[local] Hint Resolve quiet_init_pki_env quiet_get_pki_env : within.
Lemma quiet_register_acme_ca pem : quiet_on (e2ei_register_acme_ca pem).
Proof. unfold e2ei_register_acme_ca. solve_within. Qed.
Lemma quiet_register_intermediate_ca cert : quiet_on (e2ei_register_intermediate_ca cert).
Proof. unfold e2ei_register_intermediate_ca. solve_within. Qed.
#[local] Hint Resolve quiet_register_intermediate_ca : within.
Lemma quiet_register_intermediate_ca_pem pem : quiet_on (e2ei_register_intermediate_ca_pem pem).
Proof. unfold e2ei_register_intermediate_ca_pem. solve_within. Qed.
Lemma quiet_register_intermediate_ca_der der : quiet_on (e2ei_register_intermediate_ca_der der).
Proof. unfold e2ei_register_intermediate_ca_der. solve_within. Qed.
Lemma quiet_register_crl dp der : quiet_on (e2ei_register_crl dp der).
Proof. unfold e2ei_register_crl. solve_within. Qed.

(** Clients *)
Lemma quiet_new_basic id sc : quiet_on (new_basic_credential_bundle id sc).
Proof. unfold new_basic_credential_bundle. solve_within. Qed.
#[local] Hint Resolve quiet_new_basic : within.
Lemma quiet_save_identity id sc cb : quiet (save_identity id sc cb).
Proof. unfold save_identity. solve_within. Qed.
#[local] Hint Resolve quiet_save_identity : within.
Lemma quiet_init_basic sc : quiet (init_basic_credential_bundle_if_missing sc).
Proof. unfold init_basic_credential_bundle_if_missing. solve_within. Qed.
#[local] Hint Resolve quiet_init_basic : within.
Lemma quiet_get_or_create sc ct : quiet (get_most_recent_or_create_credential_bundle sc ct).
Proof. unfold get_most_recent_or_create_credential_bundle. solve_within. Qed.
Lemma quiet_save_new_x509 sc cb : quiet (save_new_x509_credential_bundle sc cb).
Proof. unfold save_new_x509_credential_bundle. solve_within. Qed.
Lemma quiet_generate_one c cs cb : quiet_on (generate_one_keypackage_from_credential_bundle c cs cb).
Proof. unfold generate_one_keypackage_from_credential_bundle. solve_within. Qed.
#[local] Hint Resolve quiet_generate_one : within.
Lemma quiet_generate_new c cs cb n : quiet_on (generate_new_keypackages c cs cb n).
Proof. unfold generate_new_keypackages. solve_within. Qed.
Lemma quiet_find_all_keypackages : quiet_on find_all_keypackages.
Proof. unfold find_all_keypackages. solve_within. Qed.
Lemma quiet__prune kps refs : quiet_on (_prune_keypackages kps refs).
Proof. unfold _prune_keypackages. solve_within. Qed.
#[local] Hint Resolve quiet_generate_new quiet_find_all_keypackages quiet__prune : within.
Lemma quiet_prune refs : quiet_on (prune_keypackages refs).
Proof. unfold prune_keypackages. solve_within. Qed.
#[local] Hint Resolve quiet_prune : within.
Lemma quiet_prune_and_credential refs : quiet (prune_keypackages_and_credential refs).
Proof. unfold prune_keypackages_and_credential. solve_within. Qed.
Lemma quiet_request c n cs ct : quiet_on (request_key_packages c n cs ct).
Proof. unfold request_key_packages. solve_within. Qed.
Lemma quiet_valid_count cs ct : quiet_on (valid_keypackages_count cs ct).
Proof. unfold valid_keypackages_count. solve_within. Qed.
Lemma quiet_generate_bundles i schemes : quiet_on (generate_credential_bundles i schemes).
Proof. unfold generate_credential_bundles. solve_within. Qed.
#[local] Hint Resolve quiet_request quiet_generate_bundles : within.
Lemma quiet_generate i css n : quiet_on (generate i css n).
Proof. unfold generate. solve_within. apply quiet_local_client. solve_within. Qed.
Lemma quiet_load_keypair id l sc : quiet_on (load_keypair id l sc).
Proof. unfold load_keypair. solve_within. Qed.
#[local] Hint Resolve quiet_generate quiet_load_keypair : within.
Lemma quiet_load_scheme id l k sc : quiet (load_scheme id l k sc).
Proof. unfold load_scheme. solve_within. Qed.
#[local] Hint Resolve quiet_load_scheme : within.
Lemma quiet_load id l schemes : quiet_on (load id l schemes).
Proof. unfold load. solve_within. apply quiet_local_client. solve_within. Qed.
#[local] Hint Resolve quiet_load : within.
Lemma quiet_Client_init i css n : quiet_on (Client_init i css n).
Proof. unfold Client_init. solve_within. Qed.
Lemma quiet_find_basic : quiet_on find_all_basic_credentials.
Proof. unfold find_all_basic_credentials. solve_within. Qed.
#[local] Hint Resolve quiet_find_basic : within.
Lemma quiet_raw_keypairs css : quiet_on (generate_raw_keypairs css).
Proof. unfold generate_raw_keypairs. solve_within. Qed.
Lemma quiet_adopt id p : quiet (adopt_keypair id p).
Proof. unfold adopt_keypair. solve_within. Qed.
#[local] Hint Resolve quiet_adopt : within.
Lemma quiet_external_client id tmp css : quiet_on (init_with_external_client_id id tmp css).
Proof. unfold init_with_external_client_id. solve_within. apply quiet_local_client. solve_within. Qed.
End ops.

#[export] Hint Resolve quiet_on_backend quiet_local_client quiet_get_client quiet_bframed
  kp_build_framed signature_key_gen_framed random_vec_framed quiet_restore_pki_env
  quiet_init_pki_env quiet_register_acme_ca quiet_register_intermediate_ca_pem quiet_register_crl
  quiet_save_identity quiet_init_basic quiet_get_or_create quiet_save_new_x509
  quiet_generate_one quiet_generate_new quiet_register_intermediate_ca_der quiet_e2ei
  quiet_prune_and_credential quiet_request quiet_valid_count quiet_Client_init
  quiet_raw_keypairs quiet_external_client : within.
