(* ===== verification/CentralFrame.v ===== *)
(** * The group store and the key store

    The invariant of [MlsCentral], [coherent]: every conversation in the cache has its row in the
    key store, and is what the row says unless its group is marked as changed. What a lookup
    answers, and that every call on one conversation keeps the invariant, by composition:
    [within keeps] for a call, [within (keeps_arc id a)] for a step of a call that holds the
    conversation [id] behind [a]. *)

From S2P Require Import Prelude KsError Sql SqlSpec Entity TableFrame.
From S2P Require Import MlsGroups MlsPending MlsKeys MlsCredentials E2eiEntities Keystore.
From S2P Require Import CcError Ids Backend GroupStore OpenMls Config CommitDelay Credential.
From S2P Require Import Certificates ClientOps Conversation Renew Decrypt Central.
From S2P Require Import ConvFrame Durable Coherence ClientFrame.
Open Scope Z_scope.

Section central.
Context `{En : SqlEngine, Pr : Provider, Ty : OpenMlsTypes} `{!OpenMls, !OpenMlsLaws}.
Context `{!X509Lib, !IdCodecs, !F32Ln} {Ex : Exempt}.
Context `{Li : SchnellruLimits, Sc : Schnellru} `{!SchnellruLaws} `{!ConfigSerde, !ConfigSerdeLaws}.
Implicit Types (c : MlsCentral) (b : MlsCryptoProvider) (id : bytes).

Abbreviation cached c := (lru_contents (gs_lru (mls_groups c))).

(** ** The invariant *)

(** The groups that are being joined: what is loaded for an id is a group of that id. *)
Definition pending_ok b : Prop :=
  exists pl, rep PersistedMlsPendingGroup_layout (conn_view (key_store b)) pl /\
    NoDup (ppg_id <$> pl) /\
    forall p g, p ∈ pl -> from_bytes (V := MlsGroup) (ppg_state (PersistedMlsPendingGroup_found p)) = Some g ->
      group_id g = ppg_id p.

Definition coherent_rows (l : list PersistedMlsGroup) c : Prop :=
  groups_hold (mls_backend c) l /\ rows_ok l /\ pending_ok (mls_backend c) /\
  holds (conv_ok l) (mls_groups c).

Definition coherent c : Prop := exists l, coherent_rows l c.

(** The conversation behind an [Arc] that the caller holds for an id: if the cache has one for
    the id it is the same. (It may be another one when it has been looked up again as its own
    parent.) *)
Definition owned (l : list PersistedMlsGroup) id (a : Arc) c : Prop :=
  (exists conv, arc_read a (mls_groups c) = Some conv /\ conv_ok l id conv) /\
  (id ∉ loose -> forall a', cached c !! id = Some a' -> a' = a).

Definition coherent_with id (a : Arc) c : Prop :=
  exists l, coherent_rows l c /\ owned l id a c.

Lemma coherent_with_coherent id a c : coherent_with id a c -> coherent c.
Proof. intros (l & Hl & _). by exists l. Qed.

(** As what is kept from one state to the next. *)
Definition keeps c c' : Prop := coherent c -> coherent c'.
Definition keeps_arc id (a : Arc) c c' : Prop := coherent_with id a c -> coherent_with id a c'.

#[export] Instance keeps_preorder : PreOrder keeps.
Proof. split; [by intros c Hc|intros c1 c2 c3 H12 H23 Hc; by apply H23, H12]. Qed.
#[export] Instance keeps_arc_preorder id a : PreOrder (keeps_arc id a).
Proof. split; [by intros c Hc|intros c1 c2 c3 H12 H23 Hc; by apply H23, H12]. Qed.

(** ** Steps on the provider *)

Lemma tables_pending b b' :
  healthy (key_store b) -> tables group_tables b b' -> pending_ok b -> pending_ok b'.
Proof.
  intros Hh Ht (pl & Hr & Hp). exists pl. split; [|done].
  eapply (tables_rep _ _ _ _ _ Hh Hr Ht). unfold group_tables. set_solver.
Qed.

Lemma tables_groups b b' l : tables group_tables b b' -> groups_hold b l -> groups_hold b' l.
Proof.
  intros Ht (Hh & Hr & Hnd). destruct (tables_rep _ _ _ _ _ Hh Hr Ht) as [Hh' Hr'].
  { unfold group_tables. set_solver. }
  by split_and!.
Qed.

Lemma coherent_backend l b c :
  tables group_tables (mls_backend c) b -> coherent_rows l c -> coherent_rows l (set_backend b c).
Proof.
  intros Ht (Hg & Hrows & Hp & Hc). split_and!; [by eapply tables_groups|done| |done].
  eapply tables_pending; [apply Hg|done..].
Qed.

Lemma quiet_with_backend {A} (m : cc MlsCryptoProvider A) :
  within (tables group_tables) m -> within keeps (with_backend m).
Proof.
  intros Hm. apply (within_on _ (tables group_tables)); [done|].
  intros c b Ht (l & Hc). exists l. by apply coherent_backend.
Qed.

Lemma quiet_with_backend_arc id a {A} (m : cc MlsCryptoProvider A) :
  within (tables group_tables) m -> within (keeps_arc id a) (with_backend m).
Proof.
  intros Hm. apply (within_on _ (tables group_tables)); [done|].
  intros c b Ht (l & Hc & Ho). exists l. split; [by apply coherent_backend|done].
Qed.

Lemma quiet_with_client {A} (m : cc (MlsCryptoProvider * Client) A) :
  within client_tables m -> within keeps (with_client m).
Proof.
  intros Hm c r c'. unfold with_client. destruct (mls_client c) as [client|]; [|by intros [= _ <-]].
  destruct (m (mls_backend c, client)) as [r0 [b cl]] eqn:Hx. intros [= _ <-] (l & Hc). exists l.
  apply Hm in Hx. change (coherent_rows l (set_client (Some cl) (set_backend b c))).
  exact (coherent_backend l b c Hx Hc).
Qed.

Lemma keeps_get_central : within keeps get_central.
Proof. apply (within_pure _ (fun c => Ok c)). Qed.
Lemma keeps_arc_get_central id a : within (keeps_arc id a) get_central.
Proof. apply (within_pure _ (fun c => Ok c)). Qed.

(** ** Reading from the key store *)

(** The conversation a row stands for. *)
Definition stored_conv (l : list PersistedMlsGroup) id : option MlsConversation :=
  e ← row_of l id;
  res_ok (from_serialized_state (pg_state (PersistedMlsGroup_stored e))
            (pg_parent_id (PersistedMlsGroup_stored e))).

(** What is fetched: one that is not active counts as absent. *)
Definition fetched (l : list PersistedMlsGroup) id : option MlsConversation :=
  conv ← stored_conv l id; if is_active (conv_group conv) then Some conv else None.

Lemma row_of_id l id e : row_of l id = Some e -> pg_id e = id /\ e ∈ l.
Proof. intros [Hin He%bool_decide_eq_true]%first_Some. done. Qed.

(** A row decodes to a conversation that is what the row says. *)
Lemma row_conv l id e :
  rows_ok l -> row_of l id = Some e ->
  exists conv, from_serialized_state (pg_state (PersistedMlsGroup_stored e))
    (pg_parent_id (PersistedMlsGroup_stored e)) = Ok conv /\ conv_ok l id conv.
Proof.
  intros Hrows He. destruct (row_of_id _ _ _ He) as [Hid Hin].
  destruct (Hrows e Hin) as [(g & Hst & Hgid) Hpar].
  unfold from_serialized_state, deser. simpl. rewrite (group_from_to _ _ Hst). simpl.
  eexists. split; [done|]. unfold conv_ok. simpl. rewrite !set_state_id, Hgid.
  split; [done|]. split; [done|]. split; [by rewrite He|]. split.
  - rewrite <-Hid. intros Hk%Hpar. by destruct (pg_parent_id e) as [[|]|].
  - intros _ _. exists (pg_state e). simpl. rewrite group_to_stdvec_state. split; [done|].
    unfold row_of in He. rewrite Hid, He. simpl. f_equal. unfold conv_entity. simpl.
    rewrite <-Hid. clear. by destruct e as [? ? [[|]|]].
Qed.

Lemma stored_conv_ok l id conv : rows_ok l -> stored_conv l id = Some conv -> conv_ok l id conv.
Proof.
  intros Hrows. unfold stored_conv. destruct (row_of l id) as [e|] eqn:He; [|done].
  destruct (row_conv _ _ _ Hrows He) as (conv' & Hf & Hok). cbn [mbind option_bind]. rewrite Hf.
  by intros [= <-].
Qed.

Lemma fetch_run l (cn : conn) id i :
  healthy cn -> rep PersistedMlsGroup_layout (conn_view cn) l -> rows_ok l ->
  exists cn', conv_fetch_from_id id i cn = (Ok (fetched l id), cn') /\
    conn_view cn' = conn_view cn /\ healthy cn'.
Proof.
  intros Hh Hl Hrows. unfold conv_fetch_from_id, fetched, stored_conv.
  pose proof (el_find_one (E := PersistedMlsGroup) (conn_view cn) l id Hl eq_refl) as Hr.
  destruct (on_conn_run _ _ _ _ Hh Hr) as (cn' & Hx & Hv & Hc). exists cn'. split; [|done].
  change (first _ l) with (row_of l id) in Hx.
  rewrite (stm_bind_ok _ _ _ _ _ Hx). destruct (row_of l id) as [e|] eqn:He; [|done].
  destruct (row_conv _ _ _ Hrows He) as (conv & Hf & _). cbn [mbind option_bind fmap option_fmap option_map].
  change (el_stored e) with (PersistedMlsGroup_stored e). rewrite Hf. by erewrite stm_bind_ok by reflexivity.
Qed.

(** ** Looking up a conversation *)

Lemma tables_look ts b (cn : conn) :
  healthy cn -> conn_view cn = conn_view (key_store b) -> tables ts b (set_key_store cn b).
Proof. intros Hc Hv _ Htx. simpl. by rewrite Hv. Qed.

(** What a lookup answers, and what it leaves: at most the cell of the answer is new, and in the
    cache at most the entry of the answer. *)
Definition looked_up (l : list PersistedMlsGroup) id c (o : option Arc) c' : Prop :=
  coherent_rows l c' /\ mls_client c' = mls_client c /\ callbacks c' = callbacks c /\
  (forall k a, k <> id -> cached c' !! k = Some a -> cached c !! k = Some a) /\
  (forall a v, arc_read a (mls_groups c) = Some v -> arc_read a (mls_groups c') = Some v) /\
  match o with
  | Some a => owned l id a c' /\
      (cached c !! id = Some a \/
       cached c !! id = None /\ a = length (gs_cells (mls_groups c)) /\
       fetched l id = arc_read a (mls_groups c'))
  | None => cached c !! id = None /\ cached c' !! id = None /\ fetched l id = None
  end.

Lemma set_groups_rows l gs c : coherent_rows l c -> holds (conv_ok l) gs -> coherent_rows l (set_groups gs c).
Proof. by intros (Hg & Hr & Hp & _) Hh. Qed.

Ltac split_lookup := split; [|split; [done|split; [done|split; [|split]]]].

Lemma lookup_run l c id :
  coherent_rows l c ->
  exists o c', with_groups (get_fetch id None) c = (Ok o, c') /\ looked_up l id c o c'.
Proof.
  intros Hc. pose proof Hc as (Hg & Hrows & Hp & Hh). pose proof Hg as (Hhe & Hl & _).
  destruct (get_fetch_run id None (key_store (mls_backend c)) (mls_groups c)) as (gs1 & Hca & Hce & _ & Hr).
  unfold with_groups, on. rewrite Hr. clear Hr.
  assert (coherent_rows l (set_groups gs1 c)) as Hc1.
  { apply set_groups_rows; [done|]. intros k a Ha. rewrite Hca in Ha. rewrite Hce. by apply Hh. }
  destruct (cached c !! id) as [a|] eqn:Ha.
  - eexists _, _. split; [done|]. destruct c as [cl b gs cb]. split_lookup.
    + change (coherent_rows l (set_backend (set_key_store (key_store b) b) (set_groups gs1 (MkCentral cl b gs cb)))).
      apply coherent_backend; [|done]. apply tables_look; [apply Hhe|done].
    + intros k a' _. simpl. by rewrite Hca.
    + intros a' v. unfold arc_read. simpl. by rewrite Hce.
    + split; [|by left]. split.
      * destruct (Hh id a Ha) as (v & Hv & Hok). exists v. unfold arc_read. simpl. by rewrite Hce.
      * intros _ a'. simpl. rewrite Hca, Ha. by intros [= ->].
  - destruct (fetch_run _ _ id None Hhe Hl Hrows) as (cn & Hf & Hv & Hcn).
    change (fetch_from_id id None) with (conv_fetch_from_id id None). rewrite Hf.
    assert (forall gs, holds (conv_ok l) gs ->
      coherent_rows l (set_groups gs (set_backend (set_key_store cn (mls_backend c)) c))) as Hcoh.
    { intros gs Hgs. apply (set_groups_rows l gs (set_backend (set_key_store cn (mls_backend c)) c)); [|done].
      apply coherent_backend; [by apply tables_look|done]. }
    destruct Hc1 as (_ & _ & _ & Hh1). simpl in Hh1.
    destruct (fetched l id) as [v|] eqn:Hfe; eexists _, _; (split; [done|]).
    + assert (conv_ok l id v) as Hok.
      { apply stored_conv_ok; [done|]. revert Hfe. unfold fetched. destruct (stored_conv l id) as [v0|]; [|done].
        simpl. by destruct (is_active _); intros [= <-]. }
      assert ((gs_cells gs1 ++ [v]) !! length (gs_cells gs1) = Some v) as Hnew by by apply list_lookup_middle.
      split_lookup.
      * apply Hcoh. eapply holds_insert_prepped; [by apply holds_new| |exact Hok]. simpl. by rewrite <-Hce.
      * intros k a Hk Hin. apply insert_prepped_cached in Hin. rewrite decide_False in Hin by done.
        simpl in Hin. by rewrite Hca in Hin.
      * intros a v' Hv'. unfold arc_read in *. simpl. rewrite Hce. by apply lookup_app_l_Some.
      * split; [split|right; split_and!; [done..|]].
        -- exists v. split; [|done]. unfold arc_read. simpl. by rewrite <-Hce.
        -- intros _ a' Hin. apply insert_prepped_cached in Hin. by rewrite decide_True in Hin.
        -- rewrite Hfe. unfold arc_read. simpl. by rewrite <-Hce, Hnew.
    + split_lookup; [by apply Hcoh| | |split_and!; [done| |done]].
      * intros k a' _. simpl. by rewrite Hca.
      * intros a' v. unfold arc_read. simpl. by rewrite Hce.
      * simpl. by rewrite Hca.
Qed.

Lemma get_conversation_run l c id :
  coherent_rows l c ->
  exists o c', get_conversation id c =
    (match o with Some a => Ok a | None => Err (Throw (ConversationNotFound id)) end, c') /\
    looked_up l id c o c'.
Proof.
  intros Hc. destruct (lookup_run l c id Hc) as (o & c' & Hx & Ho). exists o, c'. split; [|done].
  unfold get_conversation. rewrite (stm_bind_ok _ _ _ _ _ Hx). by destruct o.
Qed.

(** Looking up another conversation leaves the one that is held as it is. *)
Lemma looked_up_owned l id k a c o c' :
  looked_up l k c o c' -> k <> id \/ id ∈ loose -> owned l id a c -> owned l id a c'.
Proof.
  intros (_ & _ & _ & Hin & Hr & _) Hk [(conv & Hv & Hok) Ha]. split; [by eauto|].
  intros Ht a' Ha'. apply Ha, (Hin id); [done|intros ->; by destruct Hk|done].
Qed.

Lemma keeps_lookup id : within keeps (with_groups (get_fetch id None)).
Proof.
  intros c r c' Hx (l & Hc). destruct (lookup_run l c id Hc) as (o & c1 & Hx' & Ho & _).
  rewrite Hx in Hx'. injection Hx' as _ ->. by exists l.
Qed.

Lemma keeps_get_conversation id : within keeps (get_conversation id).
Proof. unfold get_conversation. apply within_bind; [typeclasses eauto|apply keeps_lookup|intros o; apply within_some_or; typeclasses eauto]. Qed.

Lemma keeps_arc_get_conversation id k a :
  k <> id \/ id ∈ loose -> within (keeps_arc id a) (get_conversation k).
Proof.
  intros Hk c r c' Hx (l & Hc & Ho). destruct (get_conversation_run l c k Hc) as (o & c1 & Hx' & Hl).
  rewrite Hx in Hx'. injection Hx' as _ ->. exists l. split; [apply Hl|by eapply looked_up_owned].
Qed.

(** ** Computations on a conversation that is held *)

(** Those that end with the caller letting go of it. *)
Definition ends id (a : Arc) {A} (m : cc MlsCentral A) : Prop :=
  forall c r c', coherent_with id a c -> m c = (r, c') -> coherent c'.

Lemma ends_within id a {A} (m : cc MlsCentral A) : within (keeps_arc id a) m -> ends id a m.
Proof. intros Hm c r c' Hc Hx. eapply coherent_with_coherent. by eapply Hm. Qed.

Lemma ends_keeps id a {A} (m : cc MlsCentral A) : within keeps m -> ends id a m.
Proof. intros Hm c r c' Hc Hx. eapply Hm; [exact Hx|]. by eapply coherent_with_coherent. Qed.

Lemma ends_bind id a {A B} (m : cc MlsCentral A) (f : A -> cc MlsCentral B) :
  within (keeps_arc id a) m -> (forall x, ends id a (f x)) -> ends id a (m ≫= f).
Proof.
  intros Hm Hf c r c' Hc. unfold mbind, stm_bind. destruct (m c) as [[x|e] c1] eqn:Hx.
  - intros Hy. eapply Hf; [by eapply Hm|exact Hy].
  - intros [= _ <-]. eapply coherent_with_coherent. by eapply Hm.
Qed.

Lemma keeps_conversation id {A} (f : Arc -> cc MlsCentral A) :
  (forall a, ends id a (f a)) -> within keeps (get_conversation id ≫= f).
Proof.
  intros Hf c r c' Hx (l & Hc). destruct (get_conversation_run l c id Hc) as (o & c1 & Hx' & Hl).
  revert Hx. unfold mbind, stm_bind. rewrite Hx'. destruct o as [a|].
  - intros Hx. eapply Hf; [|exact Hx]. destruct Hl as (Hc1 & _ & _ & _ & _ & Ho & _). by exists l.
  - intros [= _ <-]. exists l. apply Hl.
Qed.

(** What a step on the conversation in memory does to its row and to the others. *)
Definition own_at (l : list PersistedMlsGroup) id (s s' : MlsCryptoProvider * MlsConversation)
    (l' : list PersistedMlsGroup) : Prop :=
  tables ["mls_pending_groups"] s.1 s'.1 /\
  groups_hold s'.1 l' /\ rows_ok l' /\ conv_ok l' id s'.2 /\ others_same id l l'.

Lemma pending_only b b' :
  healthy (key_store b) -> tables ["mls_pending_groups"] b b' -> pending_ok b -> pending_ok b'.
Proof.
  intros Hh Ht (pl & Hr & Hp). exists pl. split; [|done].
  eapply (tables_rep _ _ _ _ _ Hh Hr Ht). set_solver.
Qed.

Lemma with_conv_step l id a c conv s' l' :
  coherent_rows l c -> owned l id a c -> arc_read a (mls_groups c) = Some conv ->
  own_at l id (mls_backend c, conv) s' l' ->
  let c' := set_groups (arc_write a s'.2 (mls_groups c)) (set_backend s'.1 c) in
  coherent_rows l' c' /\ owned l' id a c'.
Proof.
  intros (Hg & Hrows & Hp & Hh) [(conv0 & Hv0 & Hok) Ha] Hv (Ht & Hg' & Hrows' & Hok' & Ho).
  rewrite Hv in Hv0. injection Hv0 as <-. pose proof Hg as (Hhe & _ & _).
  assert (arc_read a (arc_write a s'.2 (mls_groups c)) = Some s'.2) as Hnew.
  { unfold arc_read, arc_write in *. simpl. apply list_lookup_insert_eq. by eapply lookup_lt_Some. }
  split.
  - split; [done|]. split; [done|]. split; [by eapply pending_only|]. intros k a' Hk.
    change (cached c !! k = Some a') in Hk. destruct (Hh k a' Hk) as (v & Hv' & Hvok).
    destruct (decide (a' = a)) as [->|Hne].
    + unfold arc_read in Hv. rewrite Hv in Hv'. injection Hv' as <-. exists s'.2. split; [exact Hnew|].
      destruct Hok as [<- _], Hvok as [<- _]. done.
    + exists v. split.
      * change (gs_cells (arc_write a s'.2 (mls_groups c)) !! a' = Some v). unfold arc_write. simpl.
        by rewrite list_lookup_insert_ne.
      * destruct (decide (k = id)) as [->|Hki].
        -- apply (conv_ok_loose l); [|done|apply Hok']. destruct (decide (id ∈ loose)) as [|Hl]; [done|].
           by destruct Hne; apply Ha.
        -- eapply conv_ok_same; [|exact Hvok]. by apply Ho.
  - split; [by exists s'.2|]. exact Ha.
Qed.

Lemma with_conv_inv l id a {A} (m : cc (MlsCryptoProvider * MlsConversation) A) c r c' :
  within own m -> coherent_rows l c -> owned l id a c -> with_conv a m c = (r, c') ->
  exists l', coherent_rows l' c' /\ owned l' id a c' /\ others_same id l l'.
Proof.
  intros Hm Hc Hown. unfold with_conv. pose proof Hown as [(conv & Hv & Hok) _]. rewrite Hv.
  destruct (m (mls_backend c, conv)) as [r0 s'] eqn:Hs. intros [= _ <-].
  destruct (Hm _ _ _ Hs) as (_ & _ & Ht & Hl). pose proof Hc as (Hg & Hrows & _).
  destruct (Hl l id Hg Hrows Hok) as (l' & Hg' & Hrows' & Hok' & Ho). exists l'.
  by edestruct (with_conv_step l id a c conv s' l').
Qed.

Lemma keeps_arc_with_conv id a {A} (m : cc (MlsCryptoProvider * MlsConversation) A) :
  within own m -> within (keeps_arc id a) (with_conv a m).
Proof.
  intros Hm c r c' Hx (l & Hc & Hown).
  destruct (with_conv_inv _ _ _ _ _ _ _ Hm Hc Hown Hx) as (l' & Hc' & Ho' & _). by exists l'.
Qed.

(** ** Computations that only look *)

Definition looks {A} (m : cc MlsCentral A) : Prop := forall c, (m c).2 = c.

Lemma within_looks R `{!PreOrder R} {A} (m : cc MlsCentral A) : looks m -> within R m.
Proof. intros Hm c r c' Hx. specialize (Hm c). rewrite Hx in Hm. simpl in Hm. by subst. Qed.

Lemma read_conv_run a c :
  read_conv a c = (match arc_read a (mls_groups c) with Some v => Ok v | None => Err Panic end, c).
Proof. unfold read_conv. erewrite stm_bind_ok by reflexivity. by destruct (arc_read _ _). Qed.

Lemma looks_read_conv a : looks (read_conv a).
Proof. intros c. by rewrite read_conv_run. Qed.
Lemma looks_get_central : looks get_central.
Proof. done. Qed.
Lemma the_client_run c :
  the_client c = (match mls_client c with Some cl => Ok cl | None => Err (Throw MlsNotInitialized) end, c).
Proof. unfold the_client. erewrite stm_bind_ok by reflexivity. by destruct (mls_client c). Qed.
Lemma looks_the_client : looks the_client.
Proof. intros c. by rewrite the_client_run. Qed.
Lemma looks_authorized id : looks (authorized id).
Proof.
  intros c. unfold authorized. erewrite stm_bind_ok by reflexivity. destruct (callbacks c) as [cb|]; [|done].
  unfold mbind, stm_bind. rewrite the_client_run. destruct (mls_client c); [|done]. by destruct (negb _).
Qed.
Lemma looks_parent_ref child parent : looks (parent_ref child parent).
Proof.
  intros c. unfold parent_ref. destruct parent as [p|]; [|done]. case_bool_decide; [done|].
  unfold mbind, stm_bind. rewrite read_conv_run. by destruct (arc_read _ _).
Qed.

End central.

Ltac solve_ends :=
  repeat match goal with
  | |- forall _, _ => intros ?
  | |- ends _ _ (_ ≫= _) => apply ends_bind; [solve [solve_within]|]
  | |- ends _ _ (match ?x with _ => _ end) => destruct x
  | |- ends _ _ _ => apply ends_within; solve [solve_within]
  end.

Ltac solve_keeps :=
  repeat match goal with
  | |- forall _, _ => intros ?
  | |- PreOrder _ => typeclasses eauto
  | |- within keeps (get_conversation _ ≫= _) => apply keeps_conversation; solve_ends
  | |- within keeps (_ ≫= _) => apply within_bind
  | |- within keeps (attempt _) => apply within_attempt
  | |- within keeps (throw _) => apply within_fail
  | |- within keeps (let _ := _ in _) => cbv zeta
  | |- within keeps (match ?x with _ => _ end) => destruct x
  | |- within keeps _ => solve [eauto with within nocore]
  end.

Section calls.
Context `{En : SqlEngine, Pr : Provider, Ty : OpenMlsTypes} `{!OpenMls, !OpenMlsLaws}.
Context `{!X509Lib, !IdCodecs, !F32Ln} {Ex : Exempt}.
Context `{Li : SchnellruLimits, Sc : Schnellru} `{!SchnellruLaws} `{!ConfigSerde, !ConfigSerdeLaws}.
Implicit Types (c : MlsCentral) (b : MlsCryptoProvider) (id : bytes).

Abbreviation cached c := (lru_contents (gs_lru (mls_groups c))).

#[local] Hint Resolve within_looks looks_read_conv looks_get_central looks_the_client looks_authorized
  looks_parent_ref keeps_arc_with_conv quiet_with_backend quiet_with_backend_arc quiet_with_client
  keeps_get_conversation keeps_lookup : within.

(** ** The calls on one conversation *)

Lemma own_proposal_create p client : within own (proposal_create p client).
Proof. unfold proposal_create. solve_within. Qed.

#[local] Hint Resolve own_proposal_create : within.

Lemma keeps_conversation_exists id : within keeps (conversation_exists id).
Proof. unfold conversation_exists. solve_keeps. Qed.
Lemma keeps_conversation_epoch id : within keeps (conversation_epoch id).
Proof. unfold conversation_epoch. solve_keeps. Qed.
Lemma keeps_add_members id l : within keeps (add_members_to_conversation id l).
Proof. unfold add_members_to_conversation. solve_keeps. Qed.
Lemma keeps_remove_members id l : within keeps (remove_members_from_conversation id l).
Proof. unfold remove_members_from_conversation. solve_keeps. Qed.
Lemma keeps_update id : within keeps (central_update_keying_material id).
Proof. unfold central_update_keying_material. solve_keeps. Qed.
Lemma keeps_commit_pending id : within keeps (central_commit_pending_proposals id).
Proof. unfold central_commit_pending_proposals. solve_keeps. Qed.
Lemma keeps_encrypt id m : within keeps (central_encrypt_message id m).
Proof. unfold central_encrypt_message. solve_keeps. Qed.
Lemma keeps_export id n : within keeps (central_export_secret_key id n).
Proof. unfold central_export_secret_key. solve_keeps. Qed.
Lemma keeps_client_ids id : within keeps (central_get_client_ids id).
Proof. unfold central_get_client_ids. solve_keeps. Qed.
Lemma keeps_external_sender id : within keeps (central_get_external_sender id).
Proof. unfold central_get_external_sender. solve_keeps. Qed.
Lemma keeps_conversation_state id : within keeps (central_e2ei_conversation_state id).
Proof. unfold central_e2ei_conversation_state. solve_keeps. Qed.
Lemma keeps_clear_pending_proposal id r : within keeps (central_clear_pending_proposal id r).
Proof. unfold central_clear_pending_proposal. solve_keeps. Qed.
Lemma keeps_clear_pending_commit id : within keeps (central_clear_pending_commit id).
Proof. unfold central_clear_pending_commit. solve_keeps. Qed.
Lemma keeps_new_proposal id p : within keeps (new_proposal id p).
Proof. unfold new_proposal. solve_keeps. Qed.
Lemma keeps_external_add id ep cs ct : within keeps (new_external_add_proposal id ep cs ct).
Proof. unfold new_external_add_proposal. solve_keeps. Qed.

(** ** Conversations with a parent *)

(** Finding the parent of a conversation that is held: it is another one. *)
Lemma keeps_arc_get_parent id a : within (keeps_arc id a) (get_parent_conversation a).
Proof.
  intros c r c' Hx Hc. revert Hx. unfold get_parent_conversation, mbind at 1, stm_bind at 1.
  rewrite read_conv_run. pose proof Hc as (l & _ & [(conv & -> & _ & _ & _ & Hp & _) _]).
  destruct (conv_parent_id conv) as [p|]; [|by intros [= _ <-]].
  intros Hx. eapply (within_bind (keeps_arc id a)); [| |exact Hx|exact Hc].
  - apply within_attempt. by apply keeps_arc_get_conversation, parent_or_loose.
  - intros [q|e]; solve_within.
Qed.

Lemma own_restore_pending client cb p rj : within own (restore_pending_messages client cb p rj).
Proof. eauto using own_remove_pending with within nocore. Qed.

Lemma own_decrypt m p client cb r : within own (conv_decrypt_message m p client cb r).
Proof. eauto using own_remove_pending with within nocore. Qed.

#[local] Hint Resolve keeps_arc_get_parent own_restore_pending own_decrypt : within.

Lemma keeps_arc_restore id a rj : within (keeps_arc id a) (central_restore_pending_messages a rj).
Proof.
  intros c r c' Hx Hc. revert Hx. unfold central_restore_pending_messages, mbind at 1, stm_bind at 1.
  rewrite read_conv_run. pose proof Hc as (l & _ & [(conv & -> & _ & _ & _ & Hp & _) _]).
  intros Hx. eapply (within_bind (keeps_arc id a)); [| |exact Hx|exact Hc]; [|intros p; cbv beta; solve_within].
  unfold restore_parent. destruct (conv_parent_id conv) as [p|]; [|solve_within].
  apply within_bind; try typeclasses eauto; [|intros; solve_within].
  apply within_attempt. by apply keeps_arc_get_conversation, parent_or_loose.
Qed.

Lemma keeps_arc_remove_restored id a k o : within (keeps_arc id a) (remove_restored k o).
Proof. unfold remove_restored. solve_within. Qed.

#[local] Hint Resolve keeps_arc_restore keeps_arc_remove_restored : within.

Lemma keeps_commit_accepted id : within keeps (central_commit_accepted id).
Proof. unfold central_commit_accepted. solve_keeps. Qed.

(** ** Wiping *)

Lemma remove_cached k gs :
  lru_contents (gs_lru (gs_remove (V := MlsConversation) k gs).2) = delete k (lru_contents (gs_lru gs)).
Proof.
  unfold gs_remove. pose proof (lru_remove_contents k (gs_lru gs)) as (_ & Hc & _).
  by destruct (lru_remove k (gs_lru gs)) as [o m].
Qed.

Lemma remove_cells k gs : gs_cells (gs_remove (V := MlsConversation) k gs).2 = gs_cells gs.
Proof. unfold gs_remove. by destruct (lru_remove k (gs_lru gs)). Qed.

Lemma rows_ok_remove id l : rows_ok l -> rows_ok (remove_keys pg_id [id] l).
Proof. intros Hl e [Hin _]%list_elem_of_In%filter_In. by apply Hl, list_elem_of_In. Qed.

Lemma row_of_remove id l k :
  row_of (remove_keys pg_id [id] l) k = if decide (k = id) then None else row_of l k.
Proof.
  unfold row_of, remove_keys. simpl. case_decide as Hk.
  - subst. apply first_None. intros e [_ He]%list_elem_of_In%filter_In.
    apply negb_true_iff, bool_decide_eq_false in He. by apply bool_decide_eq_false.
  - induction l as [|e l IH]; [done|]. simpl. unfold with_key at 2. simpl.
    destruct (bool_decide_reflect (pg_id e = id)) as [He|He]; simpl.
    + rewrite IH. rewrite (bool_decide_false (pg_id e = k)) by congruence. done.
    + unfold with_key at 1. simpl. by destruct (bool_decide _).
Qed.

(** Deleting the row of a group: it is gone, or the call is refused and nothing has happened. *)
Lemma group_delete_run l b id r b' :
  groups_hold b l -> rows_ok l -> ks (mls_group_delete id) b = (r, b') ->
  tables ["mls_pending_groups"] b b' /\
  (r = Ok () /\ groups_hold b' (remove_keys pg_id [id] l) \/
   is_ok r = false /\ row_of l id = None /\ groups_hold b' l).
Proof.
  intros (Hh & Hl & Hnd) Hrows Hx.
  assert (tables ["mls_pending_groups"] b b') as Ht.
  { eapply (ks_frame "mls_groups"); [| | |exact Hx].
    - apply only_bind; [apply only_delete_all_or_nothing|intros; apply only_ret].
    - apply closes_bind; [apply closes_delete_all_or_nothing|intros; apply closes_ret].
    - set_solver. }
  split; [done|]. change (mls_group_delete id) with (Connection_remove PersistedMlsGroup id) in Hx.
  pose proof (Connection_remove_run (E := PersistedMlsGroup) (conn_view (key_store b)) l id Hl eq_refl) as Hr.
  cbv zeta in Hr. change (fun e => negb (bool_decide (el_key e = id)))
    with (fun e => negb (bool_decide (pg_id e = id))) in Hr.
  pose proof (length_filter_key pg_id id l Hnd) as Hlen.
  change (first _ l) with (row_of l id) in Hlen. rewrite Hlen in Hr.
  destruct Hr as (v' & Hr & Hrep). destruct (ks_run _ _ _ _ Hh Hr) as (cn & Hk & Hv & Hcn).
  rewrite Hk in Hx. injection Hx as <- <-. clear Hk Hr.
  destruct (row_of l id) as [e|] eqn:He.
  - assert (length l = S (pred (length l))) as Hs.
    { destruct (row_of_id _ _ _ He) as [_ Hin]. destruct l; [by apply not_elem_of_nil in Hin|done]. }
    rewrite bool_decide_true in Hrep |- * by done. left. split; [done|].
    split_and!; [done|simpl; by rewrite Hv|]. by apply NoDup_filter_key.
  - rewrite bool_decide_false in Hrep |- * by lia. right. split; [done|]. split; [done|].
    split_and!; [done|simpl; by rewrite Hv|done].
Qed.

Lemma coherent_deleted l b id c :
  coherent_rows l c -> groups_hold b (remove_keys pg_id [id] l) -> pending_ok b ->
  coherent_rows (remove_keys pg_id [id] l) (set_groups (gs_remove id (mls_groups c)).2 (set_backend b c)).
Proof.
  intros (_ & Hrows & _ & Hh) Hg Hp.
  split; [done|]. split; [by apply rows_ok_remove|]. split; [done|].
  intros k a'. simpl. rewrite remove_cached, remove_cells.
  intros [Hk Hin]%lookup_delete_Some. destruct (Hh k a' Hin) as (v & Hv & Hok). exists v.
  split; [done|]. eapply conv_ok_same; [|exact Hok].
  etrans; [apply (row_of_remove id l k)|]. by rewrite decide_False.
Qed.

(** Deleting the row and the entry of the cache of a conversation that is held. *)
Lemma delete_inv l id a c r c' :
  coherent_rows l c -> owned l id a c ->
  (with_backend (ks (mls_group_delete id));;
    st_modify (fun c => set_groups (gs_remove id (mls_groups c)).2 c)) c = (r, c') ->
  r = Ok () /\ coherent_rows (remove_keys pg_id [id] l) c' /\ cached c' !! id = None.
Proof.
  intros Hc [(conv & _ & _ & _ & [e He] & _) _]. pose proof Hc as (Hg & Hrows & Hp & Hh).
  unfold mbind, stm_bind, with_backend, on. destruct (ks _ (mls_backend c)) as [r0 b] eqn:Hx.
  destruct (group_delete_run _ _ _ _ _ Hg Hrows Hx) as [Ht [[-> Hg']|[Hr [Hn _]]]]; [|congruence].
  assert (pending_ok b) as Hp' by (eapply pending_only; [apply Hg|done..]).
  intros [= <- <-]. split; [done|]. split; [by apply coherent_deleted|].
  simpl. by rewrite remove_cached, lookup_delete_eq.
Qed.

Lemma ends_delete id a :
  ends id a (with_backend (ks (mls_group_delete id));;
    st_modify (fun c => set_groups (gs_remove id (mls_groups c)).2 c)).
Proof.
  intros c r c' (l & Hc & Ho) Hx. destruct (delete_inv _ _ _ _ _ _ Hc Ho Hx) as (_ & Hc' & _).
  by eexists.
Qed.

Lemma own_wipe : within own wipe_associated_entities.
Proof. eauto with within nocore. Qed.
#[local] Hint Resolve own_wipe : within.

Lemma keeps_wipe id : within keeps (wipe_conversation id).
Proof.
  unfold wipe_conversation. apply keeps_conversation. intros a.
  apply ends_bind; [solve_within|]. intros _. apply ends_delete.
Qed.

(** ** Decrypting *)

Lemma keeps_future id m : within keeps (handle_future_message id m).
Proof. unfold handle_future_message. solve_keeps. Qed.
Lemma keeps_arc_future id a k m : within (keeps_arc id a) (handle_future_message k m).
Proof. unfold handle_future_message. solve_within. Qed.
Lemma keeps_when_pending id m : within keeps (handle_when_group_is_pending id m).
Proof. unfold handle_when_group_is_pending. solve_keeps. Qed.

#[local] Hint Resolve keeps_future keeps_arc_future keeps_when_pending keeps_wipe : within.

Lemma keeps_decrypt id m : within keeps (decrypt_message id m).
Proof.
  unfold decrypt_message. apply within_bind; [typeclasses eauto|solve_keeps|]. intros msg c r c' Hx (l & Hc).
  destruct (get_conversation_run l c id Hc) as (o & c1 & Hg & Hl). revert Hx.
  unfold mbind at 1, stm_bind at 1, attempt at 1. rewrite Hg. destruct o as [a|]; cbv beta iota.
  - assert (coherent_with id a c1) as Hc1 by (exists l; split; apply Hl). revert Hc1.
    match goal with |- _ -> ?m _ = _ -> _ => enough (ends id a m) as Hm by (intros; by eapply Hm) end.
    apply ends_bind; [apply keeps_arc_get_parent|]. intros p.
    apply ends_bind; [solve_within|]. intros c0.
    apply ends_bind; [solve_within|]. intros client.
    apply ends_bind; [solve_within|]. intros pr.
    apply ends_bind; [solve_within|]. intros dm.
    apply ends_bind; [destruct dm as [|[]]; solve_within|]. intros d. apply ends_keeps.
    solve_keeps.
  - intros Hx. eapply keeps_when_pending; [exact Hx|]. exists l. apply Hl.
Qed.
End calls.

#[export] Hint Resolve within_looks looks_read_conv looks_get_central looks_the_client looks_authorized
  looks_parent_ref keeps_arc_with_conv quiet_with_backend quiet_with_backend_arc quiet_with_client
  keeps_get_conversation keeps_lookup keeps_conversation_exists keeps_conversation_epoch
  keeps_add_members keeps_remove_members keeps_update keeps_commit_pending keeps_encrypt
  keeps_export keeps_client_ids keeps_external_sender keeps_conversation_state
  keeps_clear_pending_proposal keeps_clear_pending_commit keeps_new_proposal keeps_external_add
  keeps_commit_accepted keeps_wipe keeps_decrypt own_restore_pending : within.
