(* ===== verification/CoreCrypto.v ===== *)
(** * CoreCrypto

    [crypto/src/lib.rs] and [impl CoreCrypto] of [crypto/src/proteus.rs]: the structure that holds
    [MlsCentral] and, once [proteus_init] was called, [ProteusCentral]. Both work on the one key
    store, which is [MlsCentral]'s. *)

From S2P Require Import Prelude KsError Sql SqlSpec Entity TableFrame.
From S2P Require Import MlsGroups MlsPending MlsKeys MlsCredentials E2eiEntities ProteusEntities Keystore.
From S2P Require Import CcError Ids Backend GroupStore Proteus ProteusSpec ProteusRefinement ProteusFrame Cryptobox.
From S2P Require Import OpenMls Config CommitDelay Credential Certificates ClientOps Conversation Renew Decrypt Central.
From S2P Require Import ConvFrame Durable Coherence ClientFrame CentralFrame.
Open Scope Z_scope.

Section core_crypto.
Context `{En : SqlEngine, Pr : Provider, Ty : OpenMlsTypes} `{!OpenMls}.
Context `{Li : SchnellruLimits, Sc : Schnellru} `{Pl : ProteusLib}.

Record CoreCrypto := MkCoreCrypto {
  mls : MlsCentral;
  proteus : option ProteusCentral;
  os_rng : OsRng;              (* the generator that the crate [proteus-wasm] draws from *)
}.

(** [impl From<MlsCentral> for CoreCrypto] and [take] *)
Definition CoreCrypto_from (mls : MlsCentral) (os : OsRng) : CoreCrypto := MkCoreCrypto mls None os.
Definition take_mls (self : CoreCrypto) : MlsCentral := mls self.

(** [borrow_keystore], and what is put back. *)
Definition borrow_keystore (self : CoreCrypto) : conn := key_store (mls_backend (mls self)).
Definition set_keystore (c : conn) (m : MlsCentral) : MlsCentral := set_backend (set_key_store c (mls_backend m)) m.

(** [Deref]: any other call is [MlsCentral]'s. *)
Definition deref_mls {A} (m : cc MlsCentral A) : cc CoreCrypto A :=
  on mls (fun m self => MkCoreCrypto m (proteus self) (os_rng self)) m.

(** A call of the client on the borrowed key store. *)
Definition run_proteus {A} (client : ProteusCentral) (m : cc ProteusState A) : cc CoreCrypto A := fun self =>
  let (r, s) := m (MkProteusState (borrow_keystore self) (os_rng self) client) in
  (r, MkCoreCrypto (set_keystore (st_conn s) (mls self)) (Some (st_central s)) (st_os s)).

(** [self.proteus.as_mut().ok_or(CryptoError::ProteusNotInitialized)?] *)
Definition with_proteus {A} (m : cc ProteusState A) : cc CoreCrypto A := fun self =>
  match proteus self with
  | Some client => run_proteus client m self
  | None => throw ProteusNotInitialized self
  end.

(** The client is put in place only when its prekey of last resort is there. *)
Definition proteus_init : cc CoreCrypto () := fun self =>
  match ProteusCentral_try_new (borrow_keystore self, os_rng self) with
  | (Err e, (c, os)) => (Err e, MkCoreCrypto (set_keystore c (mls self)) (proteus self) os)
  | (Ok proteus_client, (c, os)) =>
      let (r, s) := last_resort_prekey (MkProteusState c os proteus_client) in
      match r with
      | Ok _ => (Ok (), MkCoreCrypto (set_keystore (st_conn s) (mls self)) (Some (st_central s)) (st_os s))
      | Err e => (Err e, MkCoreCrypto (set_keystore (st_conn s) (mls self)) (proteus self) (st_os s))
      end
  end.

Definition proteus_reload_sessions : cc CoreCrypto () := fun self =>
  match proteus self with
  | Some client => run_proteus client reload_sessions self
  | None => (Ok (), self)
  end.

Definition proteus_session_from_prekey (session_id prekey : bytes) : cc CoreCrypto Arc :=
  with_proteus (saved_session_from_prekey session_id prekey).
Definition proteus_session_from_message (session_id envelope : bytes) : cc CoreCrypto (Arc * bytes) :=
  with_proteus (saved_session_from_message session_id envelope).
Definition proteus_session_save (session_id : bytes) : cc CoreCrypto () := with_proteus (session_save session_id).
Definition proteus_session_delete (session_id : bytes) : cc CoreCrypto () := with_proteus (session_delete session_id).
Definition proteus_session (session_id : bytes) : cc CoreCrypto (option Arc) := with_proteus (session_get session_id).
Definition proteus_session_exists (session_id : bytes) : cc CoreCrypto bool :=
  with_proteus (session_exists session_id).
Definition proteus_decrypt (session_id ciphertext : bytes) : cc CoreCrypto bytes :=
  with_proteus (pc_decrypt session_id ciphertext).
Definition proteus_encrypt (session_id plaintext : bytes) : cc CoreCrypto bytes :=
  with_proteus (pc_encrypt session_id plaintext).
Definition proteus_encrypt_batched (sessions : list bytes) (plaintext : bytes) : cc CoreCrypto (gmap bytes bytes) :=
  with_proteus (encrypt_batched sessions plaintext).
Definition proteus_new_prekey (prekey_id : Z) : cc CoreCrypto bytes := with_proteus (new_prekey prekey_id).
Definition proteus_new_prekey_auto : cc CoreCrypto (Z * bytes) := with_proteus new_prekey_auto.
Definition proteus_last_resort_prekey : cc CoreCrypto bytes := with_proteus last_resort_prekey.
Definition proteus_last_resort_prekey_id : Z := last_resort_prekey_id.

(** The identity and its fingerprint are read. *)
Definition read_proteus {A} (f : ProteusCentral -> A) : cc CoreCrypto A := fun self =>
  match proteus self with
  | Some client => (Ok (f client), self)
  | None => throw ProteusNotInitialized self
  end.

Definition get_proteus_identity : cc CoreCrypto IdentityKeyPair := read_proteus proteus_identity.
Definition proteus_fingerprint : cc CoreCrypto bytes := read_proteus pc_fingerprint.

Definition proteus_fingerprint_local (session_id : bytes) : cc CoreCrypto bytes :=
  with_proteus (pc_fingerprint_local session_id).
Definition proteus_fingerprint_remote (session_id : bytes) : cc CoreCrypto bytes :=
  with_proteus (pc_fingerprint_remote session_id).

(** The migration is done before the client is made. *)
Definition proteus_cryptobox_migrate `{!CryptoboxLib} `{Files} (path : bytes) : cc (CoreCrypto * Fs) () :=
  on (fun s => (borrow_keystore s.1, s.2))
    (fun t s => (MkCoreCrypto (set_keystore t.1 (mls s.1)) (proteus s.1) (os_rng s.1), t.2))
    (cryptobox_migrate_impl path).

(** ** The calls *)

Inductive proteus_call : forall A, cc CoreCrypto A -> Prop :=
  | PInit : proteus_call () proteus_init
  | PReload : proteus_call () proteus_reload_sessions
  | PFromPrekey id key : proteus_call _ (proteus_session_from_prekey id key)
  | PFromMessage id m : proteus_call _ (proteus_session_from_message id m)
  | PSave id : proteus_call _ (proteus_session_save id)
  | PDelete id : proteus_call _ (proteus_session_delete id)
  | PSession id : proteus_call _ (proteus_session id)
  | PExists id : proteus_call _ (proteus_session_exists id)
  | PDecrypt id m : proteus_call _ (proteus_decrypt id m)
  | PEncrypt id m : proteus_call _ (proteus_encrypt id m)
  | PEncryptBatched ids m : proteus_call _ (proteus_encrypt_batched ids m)
  | PNewPrekey id : proteus_call _ (proteus_new_prekey id)
  | PNewPrekeyAuto : proteus_call _ proteus_new_prekey_auto
  | PLastResort : proteus_call _ proteus_last_resort_prekey
  | PIdentity : proteus_call _ get_proteus_identity
  | PFingerprint : proteus_call _ proteus_fingerprint
  | PFingerprintLocal id : proteus_call _ (proteus_fingerprint_local id)
  | PFingerprintRemote id : proteus_call _ (proteus_fingerprint_remote id).

(** What a Proteus call may do to the MLS part: nothing but that the key store moves on. *)
Definition mls_kept (self self' : CoreCrypto) : Prop :=
  exists c, mls self' = set_keystore c (mls self) /\ proteus_only (borrow_keystore self) c.

Lemma mls_kept_refl self : mls_kept self self.
Proof. exists (borrow_keystore self). split; [by destruct self as [[? [] ? ?] ? ?]|reflexivity]. Qed.

Lemma run_proteus_kept {A} client (m : cc ProteusState A) :
  within leaves_mls m -> within mls_kept (run_proteus client m).
Proof.
  intros Hm self r self'. unfold run_proteus. destruct (m _) as [r0 s] eqn:Hx. apply Hm in Hx.
  intros [= _ <-]. by exists (st_conn s).
Qed.

Lemma with_proteus_kept {A} (m : cc ProteusState A) : within leaves_mls m -> within mls_kept (with_proteus m).
Proof.
  intros Hm self r self'. unfold with_proteus. destruct (proteus self); [by apply run_proteus_kept|].
  intros [= _ <-]. apply mls_kept_refl.
Qed.

Lemma init_kept : within mls_kept proteus_init.
Proof.
  intros self r self'. unfold proteus_init. destruct (ProteusCentral_try_new _) as [x [c os]] eqn:Hn.
  apply try_new_frame in Hn. cbn [fst] in Hn. destruct x as [client|e]; [|intros [= _ <-]; by exists c].
  destruct (last_resort_prekey _) as [y s] eqn:Hl. apply last_resort_frame in Hl.
  assert (proteus_only (borrow_keystore self) (st_conn s)) as Hs by by etrans.
  destruct y; intros [= _ <-]; by exists (st_conn s).
Qed.

Lemma read_proteus_kept {A} (f : ProteusCentral -> A) : within mls_kept (read_proteus f).
Proof. intros self r self'. unfold read_proteus. destruct (proteus self); intros [= _ <-]; apply mls_kept_refl. Qed.

Lemma reload_kept : within mls_kept proteus_reload_sessions.
Proof.
  intros self r self'. unfold proteus_reload_sessions. destruct (proteus self).
  - apply run_proteus_kept, reload_frame.
  - intros [= _ <-]. apply mls_kept_refl.
Qed.

Lemma proteus_call_kept A (m : cc CoreCrypto A) : proteus_call A m -> within mls_kept m.
Proof.
  intros Hm. destruct Hm; first [apply init_kept|apply reload_kept|apply read_proteus_kept|apply with_proteus_kept];
    first [apply encrypt_batched_frame|eauto with within nocore].
Qed.

(** Before [proteus_init] the calls of a client are refused. *)
Lemma with_proteus_none {A} (m : cc ProteusState A) self :
  proteus self = None -> with_proteus m self = (Err (Throw ProteusNotInitialized), self).
Proof. unfold with_proteus. by intros ->. Qed.
End core_crypto.

(** ** The two clients *)

Section together.
Context `{En : SqlEngine, Pr : Provider, Ty : OpenMlsTypes} `{!OpenMls, !OpenMlsLaws} `{!ConfigSerde, !ConfigSerdeLaws}.
Context `{Li : SchnellruLimits, Sc : Schnellru} `{!SchnellruLaws} `{Pl : ProteusLib, !ProteusLaws}.

Lemma proteus_only_tables (b : MlsCryptoProvider) c :
  proteus_only (key_store b) c -> tables group_tables b (set_key_store c b).
Proof.
  intros Hc Hh Htx. destruct (Hc Hh Htx) as (Hh' & Htx' & Heq). split_and!; [done..|].
  intros t Ht. apply Heq. unfold group_tables, proteus_tables in *. set_solver.
Qed.

(** C20: no call of the Proteus client, whatever it answers, touches the MLS client: its conversations
    in memory, its client and its callbacks are the same, every table of the key store that is not
    one of Proteus is the same, and what is in memory still agrees with the key store. *)
Theorem proteus_keeps_mls `{Ex : Exempt} A (m : cc CoreCrypto A) self r self' :
  proteus_call A m -> coherent (mls self) -> m self = (r, self') ->
  coherent (mls self') /\ mls_groups (mls self') = mls_groups (mls self) /\
  mls_client (mls self') = mls_client (mls self) /\ callbacks (mls self') = callbacks (mls self) /\
  forall t, t ∉ proteus_tables ->
    v_db (conn_view (borrow_keystore self')) !! t = v_db (conn_view (borrow_keystore self)) !! t.
Proof.
  intros Hm (l & Hl) Hx. destruct (proteus_call_kept _ _ Hm _ _ _ Hx) as (c & Hmls & Hc).
  unfold borrow_keystore in *. rewrite Hmls. split; [|split_and!; [done..|]].
  - exists l. apply coherent_backend; [by apply proteus_only_tables|done].
  - destruct Hl as ((Hh & (k & (Htx & _) & _) & _) & _). by apply Hc.
Qed.

(** The client is there, and is as the abstract one. *)
Definition served (ab : ProteusAbs) (self : CoreCrypto) : Prop :=
  exists client, proteus self = Some client /\
    refines ab (MkProteusState (borrow_keystore self) (os_rng self) client).

(** What the prekey of last resort does to the abstract state. *)
Lemma spec_last_resort_kept ab :
  match spec_last_resort ab with
  | (Ok _, ab') => ab_identity ab' = ab_identity ab /\ ab_sessions ab' = ab_sessions ab /\
      is_Some (ab_prekeys ab' !! last_resort_prekey_id) /\
      forall id, is_Some (ab_prekeys ab !! id) \/ id <> last_resort_prekey_id ->
        ab_prekeys ab' !! id = ab_prekeys ab !! id
  | (Err e, _) => exists p, e = Throw (ProteusErrorC p)
  end.
Proof.
  unfold last_resort_prekey_id. rewrite max_prekey_id. unfold spec_last_resort.
  change (st_get ≫= ?f) with (fun ab : ProteusAbs => f ab ab). cbv beta.
  destruct (ab_prekeys ab !! u16_max) as [b|] eqn:Hu; unfold mbind, stm_bind; simpl.
  - destruct (PreKey_deserialise b) as [prekey|e]; simpl; [|by eexists].
    unfold spec_bundle. destruct (PreKeyBundle_serialise _); simpl; [|by eexists].
    split_and!; [done..|by rewrite Hu|done].
  - unfold spec_run. destruct (PreKey_last_resort (ab_os ab)) as [prekey os]. simpl.
    destruct (PreKey_serialise prekey) as [b|e]; simpl; [|by eexists].
    unfold spec_bundle. destruct (PreKeyBundle_serialise _); simpl; [|by eexists].
    split_and!; [done..|by rewrite lookup_insert_eq|]. intros id Hid.
    rewrite lookup_insert_ne; [done|]. intros <-. destruct Hid as [[b' Hb]|]; [by rewrite Hu in Hb|done].
Qed.

(** [proteus_init] over a key store that a client left gives a client with the identity, the
    sessions and the prekeys that were there and, if there was none, a new prekey of last resort
    under the last id. It fails only when the prekey of last resort cannot be read or serialised,
    and then there is no new client. *)
Lemma proteus_init_spec (self : CoreCrypto) ab r self' :
  healthy (borrow_keystore self) -> stored ab (conn_view (borrow_keystore self)) ->
  proteus_init self = (r, self') ->
  match r with
  | Ok _ => exists ab', served ab' self' /\ ab_identity ab' = ab_identity ab /\
      ab_sessions ab' = ab_sessions ab /\ is_Some (ab_prekeys ab' !! last_resort_prekey_id) /\
      forall id, is_Some (ab_prekeys ab !! id) \/ id <> last_resort_prekey_id ->
        ab_prekeys ab' !! id = ab_prekeys ab !! id
  | Err e => proteus self' = proteus self /\ exists p, e = Throw (ProteusErrorC p)
  end.
Proof.
  intros Hh Hst. destruct (start_kept ab _ (os_rng self) Hh Hst) as (client & c & Hs & Hr).
  unfold proteus_init. rewrite Hs.
  destruct (last_resort_prekey (MkProteusState c (os_rng self) client)) as [r1 s1] eqn:Hl.
  destruct (last_resort_sim _ _ _ _ Hr Hl) as (ab1 & Hp & Hd & Hm).
  pose proof (spec_last_resort_kept (set_os (os_rng self) ab)) as Hk. rewrite Hp in Hk.
  destruct r1 as [b|e]; intros [= <- <-]; [|split; [done|exact Hk]].
  exists ab1. split; [|exact Hk]. exists (st_central s1). split; [done|].
  split; [|by apply Hm]. destruct Hd as (Hh1 & Hos1 & Hme1 & Hst1). by split_and!.
Qed.
End together.
