(* ===== verification/CentralJoin.v ===== *)
(** * Conversations that are made, joined and restored

    The calls of [MlsCentral] that bring a conversation into the store: creating one, joining with
    a welcome or an external commit, restoring from the key store; and marking one as the child
    of another. They keep the invariant of [CentralFrame]. *)

From S2P Require Import Prelude KsError Sql SqlSpec Entity TableFrame.
From S2P Require Import MlsGroups MlsPending MlsKeys MlsCredentials E2eiEntities Keystore.
From S2P Require Import CcError Ids Backend GroupStore OpenMls Config CommitDelay Credential.
From S2P Require Import Certificates ClientOps Conversation Renew Decrypt Central.
From S2P Require Import ConvFrame Durable Coherence ClientFrame CentralFrame.
Open Scope Z_scope.

Section joining.
Context `{En : SqlEngine, Pr : Provider, Ty : OpenMlsTypes} `{!OpenMls, !OpenMlsLaws}.
Context `{!X509Lib, !IdCodecs, !F32Ln} {Ex : Exempt}.
Context `{Li : SchnellruLimits, Sc : Schnellru} `{!SchnellruLaws} `{!ConfigSerde, !ConfigSerdeLaws}.
Implicit Types (c : MlsCentral) (b : MlsCryptoProvider) (id : bytes).

Abbreviation cached c := (lru_contents (gs_lru (mls_groups c))).

(** ** New conversations *)

(** Coherent but for what the cache has for one id. *)
Definition coherent_but (l : list PersistedMlsGroup) id c : Prop :=
  coherent_rows (Ex := add_torn id Ex) l c.

Lemma coherent_but_absent l id c : coherent_but l id c -> cached c !! id = None -> coherent_rows l c.
Proof.
  intros (Hg & Hr & Hp & Hh) Hid. split_and!; [done..|]. intros k a Hk.
  destruct (Hh k a Hk) as (v & Hv & Hok). exists v. split; [done|].
  apply (conv_ok_untorn l id); [left; intros ->; congruence|done].
Qed.

Lemma coherent_but_loose l id c : id ∈ loose -> coherent_but l id c -> coherent_rows l c.
Proof.
  intros Hid (Hg & Hr & Hp & Hh). split_and!; [done..|]. intros k a Hk.
  destruct (Hh k a Hk) as (v & Hv & Hok). exists v. split; [done|].
  apply (conv_ok_untorn l id); [by right|done].
Qed.

Lemma coherent_but_insert l id c conv :
  coherent_but l id c -> conv_ok l id conv ->
  coherent_rows l (set_groups (gs_insert id conv (mls_groups c)) c).
Proof.
  intros (Hg & Hr & Hp & Hh) Hok. split_and!; [done..|]. intros k a Hin. unfold gs_insert in *.
  destruct (arc_new conv (mls_groups c)) as [a0 gs] eqn:Hn.
  destruct (arc_new_cells _ _ _ _ Hn) as (Ha0 & Hca & _ & Hlen & Hce).
  apply insert_prepped_cached in Hin. simpl. case_decide as Hk.
  - subst. exists conv. split; [|done]. exact Ha0.
  - rewrite Hca in Hin. destruct (Hh k a Hin) as (v & Hv & Hvok). exists v. split; [|by apply (conv_ok_untorn l id); [left|]].
    change (gs_cells gs !! a = Some v). rewrite Hce; [done|]. apply lookup_lt_Some in Hv. subst. lia.
Qed.

(** A conversation that has just been written. *)
Definition fresh (l : list PersistedMlsGroup) (conv : MlsConversation) : Prop :=
  conv_parent_id conv = None /\ state_changed (conv_group conv) = Persisted /\ on_disk l conv.

(** A group was made and written, or there was an error and the groups are what they were. *)
Definition made (l : list PersistedMlsGroup) id (r : result Stop MlsConversation) b : Prop :=
  pending_ok b /\ exists l', groups_hold b l' /\ rows_ok l' /\ others_same id l l' /\
  match r with
  | Ok conv => conv_ok l' id conv /\ fresh l' conv
  | Err _ => l' = l
  end.

Definition makes {S} (prv : S -> MlsCryptoProvider) id (m : cc S MlsConversation) : Prop :=
  forall l s r s', groups_hold (prv s) l -> rows_ok l -> pending_ok (prv s) -> m s = (r, s') ->
    made l id r (prv s').

Lemma makes_bind {S A} (prv : S -> MlsCryptoProvider) id (Q : A -> Prop) (m : cc S A)
    (f : A -> cc S MlsConversation) :
  within (fun s s' => tables group_tables (prv s) (prv s')) m ->
  (forall s a s', m s = (Ok a, s') -> Q a) -> (forall a, Q a -> makes prv id (f a)) ->
  makes prv id (m ≫= f).
Proof.
  intros Hm HQ Hf l s r s' Hg Hr Hp. unfold mbind, stm_bind. destruct (m s) as [[a|e] s1] eqn:Hx.
  - intros Hy. pose proof (Hm _ _ _ Hx) as Ht. cbv beta in Ht.
    eapply (Hf a); [by eapply HQ|by eapply tables_groups|done|eapply tables_pending; [apply Hg|done..]|done].
  - intros [= <- <-]. pose proof (Hm _ _ _ Hx) as Ht. cbv beta in Ht.
    split; [eapply tables_pending; [apply Hg|done..]|]. exists l. split_and!; [by eapply tables_groups|done..].
Qed.

Lemma persist_new l b g id cfg r b' conv :
  groups_hold b l -> rows_ok l -> pending_ok b -> group_id g = id ->
  persist_group_when_changed true (b, MkConversation id None g cfg) = (r, (b', conv)) ->
  made l id (match r with Ok _ => Ok conv | Err e => Err e end) b'.
Proof.
  intros Hg Hrows Hp Hid Hx.
  destruct (persist_inv ["mls_pending_groups"] _ _ _ _ ltac:(set_solver) Hx) as [Ht _].
  split; [eapply pending_only; [apply Hg|done..]|]. rewrite persist_run in Hx. cbn [orb] in Hx.
  destruct (write_group_run (b, _) _ _ l Hg Hx) as [(st & -> & Hst & Hg' & E)|[(b0 & [= -> ->] & Hb) Hr]].
  - eexists. split; [exact Hg'|]. simpl in *. split; [|split].
    + apply rows_ok_upsert; [|done]. by apply conv_entity_row.
    + by apply others_same_upsert.
    + subst conv. split; [|split; [done|split; [apply set_state_state|]]].
      2: { by apply (written_on_disk (MkConversation id None g cfg) st l). }
      unfold conv_ok. simpl. rewrite set_state_id.
      split_and!; [done..|by rewrite row_of_upsert|done|]. intros _ _.
      by apply (written_on_disk (MkConversation id None g cfg) st l).
  - exists l. split_and!; [done..|]. by destruct r as [[]|].
Qed.

Lemma makes_from_mls_group g cfg : makes (fun b => b) (group_id g) (from_mls_group g cfg).
Proof.
  intros l b r b' Hg Hr Hp. unfold from_mls_group.
  destruct (persist_group_when_changed _ _) as [r0 [b0 conv]] eqn:Hx.
  pose proof (persist_new _ _ _ _ _ _ _ _ Hg Hr Hp eq_refl Hx) as Hm.
  destruct r0 as [[]|e]; by intros [= <- <-].
Qed.

Lemma makes_create id ct cfg : makes fst id (create id ct cfg).
Proof.
  unfold create. cbv zeta.
  apply (makes_bind _ _ (fun _ => True)); [exact (quiet_get_or_create _ _)|done|]. intros cb _.
  apply (makes_bind _ _ (fun _ => True)); [apply (within_lift client_tables)|done|]. intros gc _.
  apply (makes_bind _ _ (fun g => group_id g = id)).
  - apply (quiet_on_backend), quiet_bframed, new_with_group_id_framed.
  - intros s g s' (b & Hx & ->)%on_inv. unfold prov, st_map_err in Hx.
    destruct (new_with_group_id _ _ _ _ s.1) as [[g0|e] b0] eqn:Hn; [|done]. injection Hx as <- <-.
    by eapply new_with_group_id_id.
  - intros g Hid l s r s' Hg Hr Hp. unfold on_backend. intros (b & Hx & ->)%on_inv. revert Hx.
    destruct (persist_group_when_changed _ _) as [r0 [b0 conv]] eqn:Hx0.
    pose proof (persist_new _ _ _ _ _ _ _ _ Hg Hr Hp Hid Hx0) as Hm.
    destruct r0 as [[]|e]; by intros [= <- <-].
Qed.

Lemma made_coherent l id r b c :
  coherent_rows l c -> made l id r b ->
  match r with
  | Ok conv => exists l', coherent_but l' id (set_backend b c) /\ conv_ok l' id conv /\
      fresh l' conv /\ others_same id l l'
  | Err _ => coherent_rows l (set_backend b c)
  end.
Proof.
  intros (_ & _ & _ & Hh) (Hp & l' & Hg & Hr & Ho & Hm). destruct r as [conv|e].
  - destruct Hm as [Hok Hpar]. exists l'. split; [|done]. split_and!; [done..|].
    eapply holds_impl; [|exact Hh]. intros k v Hv. destruct (decide (k = id)) as [->|Hk].
    + apply (conv_ok_loose l); [apply loose_torn|by apply conv_ok_torn|apply Hok].
    + apply conv_ok_torn. eapply conv_ok_same; [|exact Hv]. by apply Ho.
  - subst. by split_and!.
Qed.

Lemma conversation_exists_run l c id :
  coherent_rows l c ->
  exists o c', conversation_exists id c = (Ok (bool_decide (is_Some o)), c') /\ looked_up l id c o c'.
Proof.
  intros Hc. destruct (lookup_run l c id Hc) as (o & c' & Hx & Ho). exists o, c'. split; [|done].
  unfold conversation_exists, mbind, stm_bind, attempt. rewrite Hx. destruct o.
  - by rewrite bool_decide_true.
  - rewrite bool_decide_false; [done|]. by intros [? ?].
Qed.

(** A quiet step on the provider, with the state it leads to. *)
Lemma with_backend_inv {A} (m : cc MlsCryptoProvider A) l c r c' :
  within (tables group_tables) m -> coherent_rows l c -> with_backend m c = (r, c') ->
  coherent_rows l c' /\ mls_groups c' = mls_groups c /\ mls_client c' = mls_client c /\
  callbacks c' = callbacks c.
Proof.
  intros Hm Hc (b & Hx & ->)%on_inv. split; [|done]. apply coherent_backend; [by eapply Hm|done].
Qed.

Lemma pending_group_exists_inv l c id r c' :
  coherent_rows l c -> pending_group_exists id c = (r, c') ->
  coherent_rows l c' /\ mls_groups c' = mls_groups c /\ mls_client c' = mls_client c.
Proof.
  intros Hc. unfold pending_group_exists, mbind, stm_bind, attempt.
  destruct (with_backend _ c) as [r0 c0] eqn:Hx.
  apply (with_backend_inv _ l) in Hx as (Hc0 & Hg & Hcl & _); [|apply quiet_find_pending_group|done].
  destruct r0 as [x|[| |]]; by intros [= _ <-].
Qed.

Lemma create_then_insert l c id r c' (m : cc (MlsCryptoProvider * Client) MlsConversation) :
  makes fst id m -> coherent_rows l c -> cached c !! id = None ->
  (conversation ← with_client m; insert_group id conversation) c = (r, c') ->
  exists l', coherent_rows l' c' /\ others_same id l l' /\
    match r with
    | Ok _ => exists conv, conv_ok l' id conv /\ fresh l' conv
    | Err _ => l' = l
    end.
Proof.
  intros Hm Hc Hid. unfold mbind, stm_bind, with_client.
  destruct (mls_client c) as [cl|]; [|intros [= <- <-]; exists l; by split_and!].
  destruct (m (mls_backend c, cl)) as [r0 [b cl']] eqn:Hx. pose proof Hc as (Hg & Hr & Hp & _).
  pose proof (Hm l (_, _) _ _ Hg Hr Hp Hx) as Hmade. simpl in Hmade.
  pose proof (made_coherent _ _ _ _ c Hc Hmade) as H'. destruct r0 as [conv|e]; intros [= <- <-].
  - destruct H' as (l' & Hb & Hok & Hpar & Ho). exists l'. split; [|by eauto].
    exact (coherent_but_insert l' id (set_client (Some cl') (set_backend b c)) conv Hb Hok).
  - exists l. by split_and!.
Qed.

(** [new_conversation] refuses an id for which there is a conversation or one being joined; else it
    makes a group, and there is a row for it. *)
Lemma new_conversation_inv l c id ct cfg r c' :
  coherent_rows l c -> new_conversation id ct cfg c = (r, c') ->
  exists l', coherent_rows l' c' /\ others_same id l l' /\
    (is_Some (cached c !! id) \/ is_Some (fetched l id) -> r = Err (Throw (ConversationAlreadyExists id))) /\
    match r with
    | Ok _ => exists conv, conv_ok l' id conv /\ fresh l' conv
    | Err _ => l' = l
    end.
Proof.
  intros Hc. unfold new_conversation, mbind at 1, stm_bind at 1.
  destruct (conversation_exists_run l c id Hc) as (o & c1 & -> & Ho).
  destruct Ho as (Hc1 & _ & _ & _ & _ & Ho). destruct o as [a|].
  { rewrite bool_decide_true by done. intros [= <- <-]. exists l. by split_and!. }
  rewrite bool_decide_false by (by intros [? ?]). destruct Ho as (Hnc & Hid & Hnf).
  unfold mbind at 1, stm_bind at 1. destruct (pending_group_exists id c1) as [rp c2] eqn:Hp.
  destruct (pending_group_exists_inv _ _ _ _ _ Hc1 Hp) as (Hc2 & Hg2 & _).
  assert (forall P : Prop, is_Some (cached c !! id) \/ is_Some (fetched l id) -> P) as Hno.
  { rewrite Hnc, Hnf. by intros P [[? [=]]|[? [=]]]. }
  destruct rp as [[|]|]; [intros [= <- <-]; exists l; by split_and!| |intros [= <- <-]; exists l; split_and!; try done; by apply Hno].
  intros Hx. apply (create_then_insert l) in Hx as (l' & Hc' & Ho & Hr); [|apply makes_create|done|by rewrite Hg2].
  exists l'. split_and!; try done. by apply Hno.
Qed.

Lemma keeps_new_conversation id ct cfg : within keeps (new_conversation id ct cfg).
Proof. intros c r c' Hx (l & Hc). destruct (new_conversation_inv _ _ _ _ _ _ _ Hc Hx) as (l' & Hc' & _). by exists l'. Qed.

(** ** Joining with a welcome *)

Lemma from_welcome_inv l c w cfg r c' :
  coherent_rows l c -> from_welcome_message w cfg c = (r, c') ->
  exists l', coherent_rows l' c' /\
    match r with
    | Ok conv => conv_ok l' (conv_id conv) conv /\ cached c' !! conv_id conv = None
    | Err _ => True
    end.
Proof.
  intros Hc. unfold from_welcome_message. cbv zeta. unfold mbind at 1, stm_bind at 1.
  destruct (lift_res _ c) as [rg c0] eqn:Hl.
  assert (c0 = c) as -> by (revert Hl; unfold lift_res, st_lift; by intros [= _ <-]).
  destruct rg as [gc|e]; [|intros [= <- <-]; by eauto].
  unfold mbind at 1, stm_bind at 1. destruct (with_backend _ c) as [rg c1] eqn:Hw.
  apply (with_backend_inv _ l) in Hw as (Hc1 & _); [|apply quiet_bframed, new_from_welcome_framed|done].
  destruct rg as [g|e]; [|intros [= <- <-]; by eauto].
  unfold mbind at 1, stm_bind at 1.
  destruct (conversation_exists_run l c1 (group_id g) Hc1) as (o & c2 & -> & Ho).
  destruct Ho as (Hc2 & _ & _ & _ & _ & Ho). unfold mbind at 1, stm_bind at 1.
  destruct (pending_group_exists (group_id g) c2) as [rp c3] eqn:Hp.
  destruct (pending_group_exists_inv _ _ _ _ _ Hc2 Hp) as (Hc3 & Hg3 & _).
  destruct rp as [pe|e]; [|intros [= <- <-]; by eauto].
  destruct o as [a|].
  { rewrite bool_decide_true by done. intros [= <- <-]. by eauto. }
  rewrite bool_decide_false by (by intros [? ?]). destruct Ho as (_ & Hid & _).
  destruct pe; simpl; [intros [= <- <-]; by eauto|]. unfold with_backend, on.
  destruct (from_mls_group g cfg (mls_backend c3)) as [rm b] eqn:Hx. intros [= <- <-].
  pose proof Hc3 as (Hg & Hr & Hpe & _).
  pose proof (made_coherent _ _ _ _ c3 Hc3 (makes_from_mls_group g cfg l _ _ _ Hg Hr Hpe Hx)) as Hm.
  destruct rm as [conv|e]; [|by eauto]. destruct Hm as (l' & Hb & Hok & _).
  assert (cached c3 !! group_id g = None) as Hn by by rewrite Hg3.
  exists l'. split; [by apply (coherent_but_absent _ (group_id g))|].
  destruct Hok as [Hci Hok']. rewrite Hci. by split; [split|].
Qed.

Lemma keeps_process_welcome w cfg : within keeps (process_welcome_message w cfg).
Proof.
  unfold process_welcome_message.
  apply within_bind; [typeclasses eauto|destruct w; solve_keeps|]. intros welcome. cbv zeta.
  intros c r c' Hx (l & Hc). revert Hx. unfold mbind at 1, stm_bind at 1.
  destruct (from_welcome_message welcome _ c) as [rw c1] eqn:Hw.
  destruct (from_welcome_inv _ _ _ _ _ _ Hc Hw) as (l' & Hc1 & Hok).
  destruct rw as [conv|e]; [|intros [= _ <-]; by exists l'].
  unfold mbind at 1, stm_bind at 1. destruct (lift_res _ c1) as [rd c2] eqn:Hd.
  assert (c2 = c1) as -> by (revert Hd; unfold lift_res, st_lift; by intros [= _ <-]).
  destruct rd as [dps|e]; [|intros [= _ <-]; by exists l']. intros [= _ <-].
  exists l'. apply coherent_but_insert; [|by apply Hok].
  destruct Hc1 as (Hg & Hr & Hp & Hh). split_and!; [done..|].
  eapply holds_impl; [|exact Hh]. intros k v Hv. by apply conv_ok_torn.
Qed.

Lemma keeps_process_raw_welcome w cfg : within keeps (process_raw_welcome_message w cfg).
Proof.
  unfold process_raw_welcome_message. apply within_bind; [typeclasses eauto|solve_keeps|].
  intros. apply keeps_process_welcome.
Qed.

(** ** The groups that are being joined *)

Lemma only_write_parent t rid p : only t (write_parent t rid p).
Proof.
  unfold write_parent. apply only_blob_open. intros h Hh.
  apply only_bind; [|intros; apply only_step; by left].
  destruct p; [by apply only_blob_write_all|apply only_ret].
Qed.

Lemma only_pending_save e : only "mls_pending_groups" (Connection_save (e : PersistedMlsPendingGroup)).
Proof.
  apply only_bind; [|intros; apply only_ret]. change (save e) with (PersistedMlsPendingGroup_save e).
  unfold PersistedMlsPendingGroup_save. repeat (solve_only; try apply only_write_parent).
Qed.

Lemma tables_pending_call {A} (p : prog A) b r b' :
  only "mls_pending_groups" p -> closes p -> ks p b = (r, b') -> tables ["mls_groups"] b b'.
Proof. intros Ho Hc. apply (ks_frame "mls_pending_groups"); [done..|set_solver]. Qed.

(** A group is saved under its own id. *)
Lemma pending_save b g st cfg r b' :
  healthy (key_store b) -> pending_ok b -> to_stdvec g = Some st -> blen cfg <= i32_max ->
  ks (mls_pending_groups_save (group_id g) st cfg None) b = (r, b') ->
  tables ["mls_groups"] b b' /\ pending_ok b'.
Proof.
  intros Hh (pl & Hrep & Hnd & Hdec) Hst Hcfg Hx.
  set (e := MkPersistedMlsPendingGroup (group_id g) st None cfg) in *.
  split.
  { eapply tables_pending_call; [| |exact Hx]; unfold mls_pending_groups_save.
    - apply only_bind; [apply only_pending_save|intros; apply only_ret].
    - apply closes_bind; [|intros; apply closes_ret].
      apply closes_bind; [apply closes_with_tx|intros; apply closes_ret]. }
  assert (exists r0 v', run (mls_pending_groups_save (group_id g) st cfg None) (conn_view (key_store b)) = (r0, v') /\
    exists pl', rep PersistedMlsPendingGroup_layout v' pl' /\ (pl' = pl \/
      pl' = upsert (fun x => bool_decide (ppg_id x = ppg_id e)) e pl)) as (r0 & v' & Hr & pl' & Hrep' & Hpl').
  { unfold mls_pending_groups_save, Connection_save. fold e.
    destruct (PersistedMlsPendingGroup_fits e) eqn:Hf.
    - destruct (PersistedMlsPendingGroup_save_ok _ _ _ Hrep Hnd Hf Hcfg) as (v' & Hr & Hb & _).
      eexists _, v'. split; [|by eauto]. rewrite prog_bind_assoc.
      by erewrite run_bind_ok by exact Hr.
    - pose proof (PersistedMlsPendingGroup_save_big _ _ _ Hrep Hf) as Hr.
      eexists _, _. split; [|by eauto]. rewrite prog_bind_assoc. by erewrite run_bind_err by exact Hr. }
  destruct (ks_run _ _ _ _ Hh Hr) as (cn & Hk & Hv & _). rewrite Hk in Hx. injection Hx as _ <-.
  exists pl'. simpl. rewrite Hv. split; [done|]. destruct Hpl' as [->| ->]; [done|]. split.
  - apply (NoDup_upsert ppg_id e pl Hnd).
  - intros p g' [->|Hp]%elem_of_upsert; [|by apply Hdec]. simpl. rewrite app_nil_r, (group_from_to _ _ Hst).
    intros [= <-]. by rewrite set_state_id.
Qed.

Lemma pending_delete b id r b' :
  healthy (key_store b) -> pending_ok b -> ks (mls_pending_groups_delete id) b = (r, b') ->
  tables ["mls_groups"] b b' /\ pending_ok b'.
Proof.
  intros Hh (pl & Hrep & Hnd & Hdec) Hx. split.
  { eapply tables_pending_call; [| |exact Hx].
    - apply only_bind; [apply only_delete_all_or_nothing|intros; apply only_ret].
    - apply closes_bind; [apply closes_delete_all_or_nothing|intros; apply closes_ret]. }
  pose proof (PersistedMlsPendingGroup_delete_ok _ _ [id] Hrep) as Hd. cbv zeta in Hd.
  assert (exists r0 v', run (mls_pending_groups_delete id) (conn_view (key_store b)) = (r0, v') /\
    exists pl', rep PersistedMlsPendingGroup_layout v' pl' /\ (pl' = pl \/
      pl' = remove_keys ppg_id [id] pl)) as (r0 & v' & Hr & pl' & Hrep' & Hpl').
  { unfold mls_pending_groups_delete, Connection_remove. case_bool_decide.
    - destruct Hd as (v' & Hd & Hb & _). eexists _, v'. split; [|by eauto].
      by erewrite run_bind_ok by exact Hd.
    - eexists _, _. split; [|by eauto]. by erewrite run_bind_err by exact Hd. }
  destruct (ks_run _ _ _ _ Hh Hr) as (cn & Hk & Hv & _). rewrite Hk in Hx. injection Hx as _ <-.
  exists pl'. simpl. rewrite Hv. split; [done|]. destruct Hpl' as [->| ->]; [done|].
  split; [by apply NoDup_filter_key|].
  intros p g [Hp _]%list_elem_of_In%filter_In. by apply Hdec, list_elem_of_In.
Qed.

(** What is loaded for an id decodes to a group of that id, or not at all. *)
Lemma pending_load b id r b' :
  healthy (key_store b) -> pending_ok b -> ks (mls_pending_groups_load id) b = (r, b') ->
  (exists cn, b' = set_key_store cn b /\ healthy cn /\ conn_view cn = conn_view (key_store b)) /\
  forall st cfg g, r = Ok (st, cfg) -> from_bytes (V := MlsGroup) st = Some g -> group_id g = id.
Proof.
  intros Hh (pl & Hrep & Hnd & Hdec) Hx.
  pose proof (PersistedMlsPendingGroup_find_one_ok (conn_view (key_store b)) pl id Hrep) as Hf.
  assert (run (mls_pending_groups_load id) (conn_view (key_store b)) =
    (ok_or (MissingKeyInStore MlsPendingGroupMissing)
      (option_map (fun r => (ppg_state r, ppg_custom_configuration r))
        (PersistedMlsPendingGroup_found <$> first (fun g => bool_decide (ppg_id g = id)) pl)),
     conn_view (key_store b))) as Hr.
  { unfold mls_pending_groups_load. rewrite (run_bind_ok _ _ _ _ _ Hf). by destruct (_ <$> _). }
  destruct (ks_run _ _ _ _ Hh Hr) as (cn & Hk & Hv & Hcn). rewrite Hk in Hx. injection Hx as <- <-.
  split; [by eauto|]. intros st cfg g Hres Hg.
  destruct (first _ pl) as [p|] eqn:Hp; [|done]. simpl in Hres. injection Hres as <- _.
  apply first_Some in Hp as [Hin <-%bool_decide_eq_true]. by eapply Hdec.
Qed.

Lemma coherent_pending l b c :
  coherent_rows l c -> tables ["mls_groups"] (mls_backend c) b -> pending_ok b ->
  coherent_rows l (set_backend b c).
Proof.
  intros ((Hh & Hl & Hnd) & Hr & _ & Hc) Ht Hp. split_and!; [|done..].
  destruct (tables_rep _ _ _ _ _ Hh Hl Ht) as [Hh' Hl']; [by left|]. by split_and!.
Qed.

Lemma keeps_pending_delete id : within keeps (with_backend (ks (mls_pending_groups_delete id))).
Proof.
  intros c r c' (b & Hx & ->)%on_inv (l & Hc). pose proof Hc as ((Hh & _) & _ & Hp & _).
  destruct (pending_delete _ _ _ _ Hh Hp Hx) as [Ht Hp']. exists l. by apply coherent_pending.
Qed.

Lemma keeps_clear_pending_group id : within keeps (clear_pending_group_from_external_commit id).
Proof. apply keeps_pending_delete. Qed.

(** A result that is looked at. *)
Lemma within_lift_bind {S A B} (R : relation S) `{!PreOrder R} (x : CryptoResult A) (f : A -> cc S B) :
  (forall a, x = Ok a -> within R (f a)) -> within R (lift_res x ≫= f).
Proof.
  intros Hf s r s'. unfold mbind, stm_bind, lift_res, st_lift. destruct x as [a|e]; simpl.
  - by apply Hf.
  - by intros [= _ <-].
Qed.

Lemma keeps_join gi cfg ct : within keeps (join_by_external_commit gi cfg ct).
Proof.
  unfold join_by_external_commit. cbv zeta.
  apply within_bind; [typeclasses eauto|solve_keeps|]. intros cb.
  apply within_lift_bind; [typeclasses eauto|]. intros scfg Hcfg.
  apply within_bind; [typeclasses eauto|solve_keeps|]. intros gc.
  apply within_bind; [typeclasses eauto| |].
  { apply quiet_with_backend, quiet_bframed, join_framed. }
  intros [[g commit] ginfo]. do 3 (apply within_bind; [typeclasses eauto|solve_keeps|]; intros ?).
  apply within_lift_bind; [typeclasses eauto|]. intros st Hst.
  apply within_bind; [typeclasses eauto| |intros; solve_keeps].
  intros c r c' (b & Hx & ->)%on_inv (l & Hc). pose proof Hc as ((Hh & _) & _ & Hp & _).
  assert (to_stdvec g = Some st) as Hser.
  { unfold ser in Hst. destruct (to_stdvec g); [|done]. by injection Hst as <-. }
  assert (blen scfg <= i32_max) as Hsmall.
  { eapply cfg_to_vec_small. unfold mls_err in Hcfg. destruct (cfg_to_vec cfg) eqn:E; [|done].
    injection Hcfg as <-. exact E. }
  destruct (pending_save _ _ _ _ _ _ Hh Hp Hser Hsmall Hx) as [Ht Hp']. exists l.
  by apply coherent_pending.
Qed.

(** Merging, once the new group is in the store. *)
Lemma merge_restore l id conv rj c r c' :
  coherent_but l id c -> conv_ok l id conv -> conv_parent_id conv = None ->
  local_restore_pending_messages conv rj c = (r, c') ->
  mls_groups c' = mls_groups c /\ exists l', coherent_but l' id c' /\
    match r with Ok (_, conv') => conv_ok l' id conv' | Err _ => True end.
Proof.
  intros Hc Hok Hpar. unfold local_restore_pending_messages. rewrite Hpar.
  erewrite stm_bind_ok by reflexivity. erewrite stm_bind_ok by reflexivity.
  unfold mbind at 1, stm_bind at 1. rewrite the_client_run.
  destruct (mls_client c) as [cl|]; [|intros [= <- <-]; by eauto].
  erewrite stm_bind_ok by reflexivity. unfold local_conv.
  destruct (restore_pending_messages cl _ _ _ _) as [r0 s'] eqn:Hs. intros [= <- <-].
  apply own_restore_pending in Hs as (_ & _ & Ht & Hl). pose proof Hc as (Hg & Hr & Hp & Hh).
  destruct (Hl l id Hg Hr Hok) as (l' & Hg' & Hr' & Hok' & Ho). split; [done|]. exists l'.
  split; [|by destruct r0]. split_and!; [done..|eapply pending_only; [apply Hg|done..]|].
  eapply holds_impl; [|exact Hh]. intros k v Hv. destruct (decide (k = id)) as [->|Hk].
  - apply (conv_ok_loose l); [apply loose_torn|done|apply Hok'].
  - eapply conv_ok_same; [|exact Hv]. by apply Ho.
Qed.

Lemma merge_tail l id conv rj c r c' :
  coherent_but l id c -> conv_ok l id conv -> conv_parent_id conv = None ->
  ('(pending_messages, conversation) ← local_restore_pending_messages conv rj;
   insert_group id conversation;;
   with_backend (ks (mls_pending_groups_delete id));;
   remove_restored id pending_messages;;
   mret pending_messages) c = (r, c') ->
  cached c !! id = None \/ is_ok r = true \/ id ∈ loose -> coherent c'.
Proof.
  intros Hc Hok Hpar. unfold mbind at 1, stm_bind at 1.
  destruct (local_restore_pending_messages conv rj c) as [r0 c1] eqn:Hx.
  destruct (merge_restore _ _ _ _ _ _ _ Hc Hok Hpar Hx) as (Hgs & l' & Hc1 & Hr).
  destruct r0 as [[pm conv']|e].
  - intros Hy _. revert Hy. erewrite stm_bind_ok by reflexivity. intros Hy.
    assert (within keeps (with_backend (ks (mls_pending_groups_delete id));;
      remove_restored id pm;; mret pm)) as Hk.
    { apply within_bind; [typeclasses eauto|apply keeps_pending_delete|]. unfold remove_restored. solve_keeps. }
    eapply Hk; [exact Hy|]. exists l'. by apply coherent_but_insert.
  - intros [= <- <-] [Hid|[Hid|Hid]]; [|done|].
    + exists l'. apply (coherent_but_absent _ id); [done|]. by rewrite Hgs.
    + exists l'. by apply (coherent_but_loose _ id).
Qed.

Lemma with_backend_look {A} (p : prog A) l c r c' :
  (exists r0, run p (conn_view (key_store (mls_backend c))) = (r0, conn_view (key_store (mls_backend c)))) ->
  coherent_rows l c -> with_backend (ks p) c = (r, c') -> coherent_rows l c' /\ mls_groups c' = mls_groups c.
Proof.
  intros (r0 & Hr) Hc (b & Hx & ->)%on_inv. split; [|done]. pose proof Hc as ((Hh & _) & _).
  destruct (ks_run _ _ _ _ Hh Hr) as (cn & Hk & Hv & Hcn). rewrite Hk in Hx. injection Hx as _ <-.
  apply coherent_backend; [by apply tables_look|done].
Qed.

Lemma merge_local_inv l g c r c' :
  coherent_rows l c -> merge_local g c = (r, c') ->
  coherent_rows l c' /\ mls_groups c' = mls_groups c /\
  match r with Ok g' => group_id g' = group_id g | Err _ => True end.
Proof.
  intros Hc. unfold merge_local. destruct (merge_pending_commit _) as [r0 [b g']] eqn:Hx.
  destruct (merge_pending_commit_framed _ _ _ Hx) as (Ht & _ & Hid & _). simpl in *.
  assert (coherent_rows l (set_backend b c)) as Hc'.
  { apply coherent_backend; [|done]. eapply tables_sub; [|exact Ht]. unfold group_tables, conv_tables. set_solver. }
  destruct r0 as [[]|e]; by intros [= <- <-].
Qed.

(** Merging keeps the invariant if it succeeds, or if the conversation was not in memory or may
    differ from its row. *)
Lemma merge_coherent l id c r c' :
  coherent_rows l c -> merge_pending_group_from_external_commit id c = (r, c') ->
  cached c !! id = None \/ is_ok r = true \/ id ∈ loose -> coherent c'.
Proof.
  intros Hc. unfold merge_pending_group_from_external_commit. unfold mbind at 1, stm_bind at 1.
  destruct (with_backend (ks (mls_pending_groups_load id)) c) as [r1 c1] eqn:Hx1.
  pose proof Hx1 as (b1 & Hl1 & E1)%on_inv. pose proof Hc as ((Hh & _) & _ & Hp & _).
  destruct (pending_load _ _ _ _ Hh Hp Hl1) as ((cn & -> & Hcn & Hv) & Hdec). clear Hx1 Hl1.
  assert (coherent_rows l c1) as Hc1 by (subst; apply coherent_backend; [by apply tables_look|done]).
  assert (mls_groups c1 = mls_groups c) as Hg1 by by subst. clear E1.
  destruct r1 as [[st cfg]|e]; [|intros [= <- <-]; by exists l].
  unfold mbind at 1, stm_bind at 1. unfold lift_res at 1, st_lift at 1, deser.
  destruct (from_bytes st) as [g0|] eqn:Hg0; [|intros [= <- <-]; by exists l].
  specialize (Hdec st cfg g0 eq_refl Hg0). cbn [ok_or map_err].
  unfold mbind at 1, stm_bind at 1. destruct (merge_local g0 c1) as [r2 c2] eqn:Hx2.
  destruct (merge_local_inv _ _ _ _ _ Hc1 Hx2) as (Hc2 & Hg2 & Hid2).
  destruct r2 as [g|e]; [|intros [= <- <-]; by exists l].
  unfold json. unfold mbind at 1, stm_bind at 1. destruct (lift_res _ c2) as [r3 c3] eqn:Hx3.
  assert (c3 = c2) as -> by (revert Hx3; unfold lift_res, st_lift; by intros [= _ <-]).
  destruct r3 as [ccfg|e]; [|intros [= <- <-]; by exists l]. cbv zeta.
  unfold mbind at 1, stm_bind at 1. destruct (with_backend (ks (mls_group_exists id)) c2) as [r4 c4] eqn:Hx4.
  apply (with_backend_look _ l) in Hx4 as [Hc4 Hg4]; [| |done].
  2: { pose proof Hc2 as ((_ & Hrep & _) & _). rewrite (mls_group_exists_run _ _ id Hrep). by eexists. }
  destruct r4 as [rj|e]; [|intros [= <- <-]; by exists l].
  unfold mbind at 1, stm_bind at 1. unfold with_backend at 1, on at 1.
  destruct (from_mls_group g _ (mls_backend c4)) as [r5 b5] eqn:Hx5. pose proof Hc4 as (Hgh & Hr & Hp4 & _).
  pose proof (made_coherent _ _ _ _ c4 Hc4 (makes_from_mls_group _ _ _ _ _ _ Hgh Hr Hp4 Hx5)) as Hm.
  destruct r5 as [conv|e]; [|intros [= <- <-]; by exists l].
  destruct Hm as (l5 & Hc5 & Hok & [Hpar _] & _). rewrite Hid2, Hdec in Hc5, Hok. intros Hy Hid.
  eapply merge_tail; [exact Hc5|exact Hok|exact Hpar|exact Hy|]. simpl. by rewrite Hg4, Hg2, Hg1.
Qed.

(** ** Restoring *)

Lemma groups_restore_inv l b r b' :
  groups_hold b l -> ks mls_groups_restore b = (r, b') ->
  tables group_tables b b' /\ exists m, r = Ok m /\
    forall id, m !! id = (fun g => (pg_parent_id g, pg_state g)) <$>
      (PersistedMlsGroup_stored <$> row_of l id).
Proof.
  intros (Hh & Hl & Hnd) Hx. destruct (mls_groups_restore_run _ _ Hl Hnd) as (m & Hr & Hm).
  destruct (ks_ok _ _ _ _ Hh Hr) as (cn & Hk & Hv & Hcn). rewrite Hk in Hx. injection Hx as <- <-.
  split; [by apply tables_look|]. by exists m.
Qed.

(** An entry of the map is a row, and decodes to a conversation that is what the row says. *)
Lemma restored_ok (l : list PersistedMlsGroup) (m : gmap bytes (option bytes * bytes)) id p st :
  rows_ok l -> (forall id, m !! id = (fun g => (pg_parent_id g, pg_state g)) <$>
      (PersistedMlsGroup_stored <$> row_of l id)) ->
  m !! id = Some (p, st) ->
  exists conv, from_serialized_state st p = Ok conv /\ conv_ok l id conv.
Proof.
  intros Hr Hm. rewrite Hm. destruct (row_of l id) as [e|] eqn:He; [|done]. intros [= <- <-].
  exact (row_conv _ _ _ Hr He).
Qed.

Lemma restore_loop_holds l groups gs gs' :
  (forall id p st, (id, (p, st)) ∈ groups ->
     exists conv, from_serialized_state st p = Ok conv /\ conv_ok l id conv) ->
  holds (conv_ok l) gs -> restore_loop groups gs = Ok gs' -> holds (conv_ok l) gs'.
Proof.
  revert gs. induction groups as [|[id [p st]] groups IH]; intros gs Hin Hh; simpl; [by intros [= <-]|].
  destruct (Hin id p st) as (conv & -> & Hok); [by left|].
  pose proof (holds_try_insert _ id conv gs Hh Hok) as Hh'.
  destruct (gs_try_insert id conv gs) as [[[]|] gs1]; [|by intros [= <-]].
  apply IH; [|done]. intros id' p' st' Hin'. apply (Hin id' p' st'). by right.
Qed.

Lemma restore_groups_inv l b cells r b' :
  groups_hold b l -> rows_ok l -> restore_groups cells b = (r, b') ->
  tables group_tables b b' /\ match r with Ok gs => holds (conv_ok l) gs | Err _ => True end.
Proof.
  intros Hg Hr. unfold restore_groups, mbind, stm_bind. destruct (ks _ b) as [r0 b0] eqn:Hx.
  destruct (groups_restore_inv _ _ _ _ Hg Hx) as (Ht & m & -> & Hm). cbv zeta.
  assert (holds (conv_ok l) (GroupStore_default cells)) as Hempty.
  { apply holds_default. }
  case_bool_decide; [by intros [= <- <-]|].
  unfold lift_res, st_lift. intros [= <- <-]. split; [done|].
  destruct (restore_loop _ _) as [gs|e] eqn:Hl; [|done]. simpl.
  eapply restore_loop_holds; [|exact Hempty|exact Hl]. intros id p st Hin.
  apply elem_of_map_to_list in Hin. by eapply restored_ok.
Qed.

Lemma keeps_restore_from_disk : within keeps restore_from_disk.
Proof.
  unfold restore_from_disk. intros c r c' Hx (l & Hc). revert Hx.
  erewrite stm_bind_ok by reflexivity. unfold mbind at 1, stm_bind at 1.
  destruct (with_backend _ c) as [r0 c0] eqn:Hx0. pose proof Hc as (Hg & Hr & Hp & _).
  apply on_inv in Hx0 as (b & Hb & ->). destruct (restore_groups_inv _ _ _ _ _ Hg Hr Hb) as [Ht Hgs].
  pose proof (coherent_backend _ _ _ Ht Hc) as Hc0.
  destruct r0 as [gs|e]; [|intros [= _ <-]; by exists l].
  erewrite stm_bind_ok by reflexivity. intros Hx.
  eapply (quiet_with_backend init_pki_env); [apply quiet_init_pki_env|exact Hx|].
  exists l. by apply set_groups_rows.
Qed.

Lemma coherent_insert l id c conv :
  coherent_rows l c -> conv_ok l id conv -> coherent_rows l (set_groups (gs_insert id conv (mls_groups c)) c).
Proof. intros Hc Hok. apply set_groups_rows; [done|]. apply holds_insert; [apply Hc|done]. Qed.

Lemma keeps_drop_and_restore id : within keeps (central_drop_and_restore id).
Proof.
  intros c r c' Hx (l & Hc). revert Hx. unfold central_drop_and_restore. unfold mbind at 1, stm_bind at 1, attempt.
  destruct (with_backend _ c) as [r0 c0] eqn:Hx0. pose proof Hc as (Hg & Hr & Hp & _).
  apply on_inv in Hx0 as (b & Hb & ->). destruct (groups_restore_inv _ _ _ _ Hg Hb) as (Ht & m & -> & Hm).
  pose proof (coherent_backend _ _ _ Ht Hc) as Hc0. erewrite stm_bind_ok by reflexivity.
  unfold mbind at 1, stm_bind at 1, unwrap at 1. destruct (m !! id) as [[p st]|] eqn:Hid;
    [|intros [= _ <-]; by exists l].
  destruct (restored_ok _ _ _ _ _ Hr Hm Hid) as (conv & -> & Hok).
  erewrite stm_bind_ok by reflexivity. intros [= _ <-]. exists l.
  exact (coherent_insert l id (set_backend b c) conv Hc0 Hok).
Qed.

(** ** All conversations *)

Lemma row_of_in l e : NoDup (pg_id <$> l) -> e ∈ l -> row_of l (pg_id e) = Some e.
Proof. apply (first_key pg_id). Qed.

Lemma st_map_rows l es (cn : conn) :
  rows_ok l -> (forall e, e ∈ es -> row_of l (pg_id e) = Some e) ->
  exists convs, st_map (fun c : PersistedMlsGroup =>
      unwrap (res_ok (from_serialized_state (pg_state c) (pg_parent_id c)))) (PersistedMlsGroup_stored <$> es) cn =
    (Ok convs, cn) /\ Forall2 (fun e conv => stored_conv l (pg_id e) = Some conv) es convs.
Proof.
  intros Hr. induction es as [|e es IH]; intros Hes; [by exists []|].
  destruct IH as (convs & Hx & Hall); [intros e' He'; apply Hes; by right|].
  pose proof (Hes e (list_elem_of_here _ _)) as He. destruct (row_conv _ _ _ Hr He) as (conv & Hf & _).
  exists (conv :: convs). rewrite fmap_cons. split.
  - cbn [st_map]. erewrite stm_bind_ok by (rewrite Hf; reflexivity). by rewrite (stm_bind_ok _ _ _ _ _ Hx).
  - constructor; [|done]. unfold stored_conv. rewrite He. cbn [mbind option_bind]. by rewrite Hf.
Qed.

Lemma stored_conv_id l id conv : rows_ok l -> stored_conv l id = Some conv -> conv_id conv = id.
Proof. intros Hr Hs. by destruct (stored_conv_ok _ _ _ Hr Hs) as [-> _]. Qed.

(** What is fetched when everything is: the active conversations, each once. *)
Lemma fetch_all_run l b :
  groups_hold b l -> rows_ok l ->
  exists all cn, conv_fetch_all (key_store b) = (Ok all, cn) /\
    conn_view cn = conn_view (key_store b) /\ healthy cn /\ NoDup (conv_id <$> all) /\
    forall id conv, fetched l id = Some conv <-> conv ∈ all /\ conv_id conv = id.
Proof.
  intros (Hhe & Hl & Hnd) Hr. unfold conv_fetch_all.
  pose proof (el_find_all (E := PersistedMlsGroup) (conn_view (key_store b)) l Hl) as Hrun.
  destruct (on_conn_run _ _ _ _ Hhe Hrun) as (c1 & Hx & Hv & Hc1).
  destruct (st_map_rows l l c1 Hr) as (convs & Hm & Hall); [intros e He; by apply row_of_in|].
  exists (List.filter (fun v => is_active (conv_group v)) convs), c1.
  split; [by rewrite (stm_bind_ok _ _ _ _ _ Hx), (stm_bind_ok _ _ _ _ _ Hm)|]. split; [done|]. split; [done|].
  assert (conv_id <$> convs = pg_id <$> l) as Hids.
  { assert (forall es cs, Forall2 (fun e conv => stored_conv l (pg_id e) = Some conv) es cs ->
      conv_id <$> cs = pg_id <$> es) as Hmap; [|by apply Hmap].
    induction 1 as [|e conv es0 convs0 He _ IH]; [done|]. rewrite !fmap_cons, IH. f_equal.
    by eapply stored_conv_id. }
  split; [apply NoDup_filter_key; by rewrite Hids|]. intros id conv. unfold fetched. split.
  - destruct (stored_conv l id) as [conv0|] eqn:Hs; [|done]. cbn [mbind option_bind].
    destruct (is_active _) eqn:Ha; [|done]. intros [= ->]. split; [|by eapply stored_conv_id].
    apply list_elem_of_In, filter_In. split; [|done]. apply list_elem_of_In.
    pose proof Hs as Hs'. unfold stored_conv in Hs'. destruct (row_of l id) as [e|] eqn:He; [|done].
    destruct (row_of_id _ _ _ He) as [<- [i Hi]%list_elem_of_lookup].
    destruct (Forall2_lookup_l _ _ _ i e Hall Hi) as (y & Hy & Hsy).
    rewrite Hs in Hsy. injection Hsy as <-. by eapply list_elem_of_lookup_2.
  - intros [[Hin Ha]%list_elem_of_In%filter_In Hid]. apply list_elem_of_In in Hin.
    apply list_elem_of_lookup in Hin as [i Hi]. destruct (Forall2_lookup_r _ _ _ i conv Hall Hi) as (e & _ & Hs).
    pose proof (stored_conv_id _ _ _ Hr Hs). assert (pg_id e = id) as <- by congruence.
    rewrite Hs. cbn [mbind option_bind]. by rewrite Ha.
Qed.

(** The caller of [get_all_conversations] holds the active conversations of the store. *)
Lemma get_all_run l c :
  coherent_rows l c ->
  exists all arcs c', get_all_conversations c = (Ok arcs, c') /\ coherent_rows l c' /\
    mls_client c' = mls_client c /\
    Forall2 (fun conv a => owned l (conv_id conv) a c' /\ arc_read a (mls_groups c') = Some conv) all arcs /\
    NoDup (conv_id <$> all) /\
    forall id conv, fetched l id = Some conv <-> conv ∈ all /\ conv_id conv = id.
Proof.
  intros Hc. pose proof Hc as (Hg & Hr & _ & Hh).
  destruct (fetch_all_run l _ Hg Hr) as (all & cn & Ha & Hv & Hcn & Hnd & Hf).
  assert (forall conv, conv ∈ all -> conv_ok l (conv_id conv) conv) as Hok.
  { intros conv Hin. assert (fetched l (conv_id conv) = Some conv) as Hfe by by apply Hf.
    apply stored_conv_ok; [done|]. revert Hfe. unfold fetched. destruct (stored_conv _ _) as [v|]; [|done].
    cbn [mbind option_bind]. by destruct (is_active _); intros [= ->]. }
  unfold get_all_conversations, with_groups, on.
  destruct (get_fetch_all (key_store (mls_backend c), mls_groups c)) as [r [cn' gs]] eqn:Hx.
  destruct (get_fetch_all_inv (holds (conv_ok l)) (key_store (mls_backend c)) (mls_groups c) r cn' gs)
    as [Hgs Hcn']; [|exact Hh|exact Hx|].
  { intros all' cf g id gs0 Hfa Hin Hid Hgs0.
    change (conv_fetch_all (key_store (mls_backend c)) = (Ok all', cf)) in Hfa.
    rewrite Ha in Hfa. injection Hfa as <- _. injection Hid as <-. apply holds_insert; [done|by apply Hok]. }
  change (fetch_all (V := MlsConversation)) with conv_fetch_all in Hcn'. rewrite Ha in Hcn'. simpl in Hcn'. subst cn'.
  assert (exists arcs, r = Ok arcs /\ Forall2 (fun g a => gs_cells gs !! a = Some g /\
    forall id a', gse_id g = Some id -> lru_contents (gs_lru gs) !! id = Some a' -> a' = a) all arcs)
    as (arcs & -> & Hall).
  { revert Hx. unfold get_fetch_all. unfold mbind at 1, stm_bind at 1, in_conn, on. cbn [fst snd].
    change (fetch_all (V := MlsConversation)) with conv_fetch_all. rewrite Ha. cbv beta iota.
    apply (insert_all_arcs all cn (mls_groups c)); [|by eexists].
    change (gse_id <$> all) with ((Some ∘ conv_id) <$> all).
    rewrite list_fmap_compose. apply (NoDup_fmap_2 Some). exact Hnd. }
  eexists all, arcs, _. split; [done|]. split; [|split; [done|split; [|done]]].
  - apply (set_groups_rows l gs (set_backend (set_key_store cn (mls_backend c)) c)); [|done].
    apply coherent_backend; [by apply tables_look|done].
  - apply Forall2_same_length_lookup. split; [by eapply Forall2_length|].
    intros i conv a Hi Hj. destruct (Forall2_lookup_lr _ _ _ _ _ _ Hall Hi Hj) as [Hca Hcache].
    split; [|exact Hca]. split; [|intros _ a'; by apply Hcache]. exists conv. split; [exact Hca|].
    by eapply Hok, list_elem_of_lookup_2.
Qed.

Lemma keeps_get_all : within keeps get_all_conversations.
Proof.
  intros c r c' Hx (l & Hc). destruct (get_all_run l c Hc) as (all & arcs & c1 & Hx' & Hc1 & _).
  rewrite Hx in Hx'. injection Hx' as _ ->. by exists l.
Qed.

(** ** Marking as a child *)

Lemma write_group_errors s r s' :
  write_group s = (r, s') -> r = Ok () \/ exists e, r = Err (Throw (KeyStoreError e)).
Proof.
  unfold write_group, ser. destruct (to_stdvec _); [|intros [= <- _]; by eauto].
  erewrite stm_bind_ok by reflexivity. unfold mbind, stm_bind, backend, ks, on, st_map_err.
  destruct (exec_prog _ _) as [[[]|e] b]; intros [= <- _]; eauto.
Qed.

Lemma mark_errors parent s r s' :
  mark_as_child_of parent s = (r, s') ->
  r = Ok () \/ r = Err (Throw ParentGroupNotFound) \/ exists e, r = Err (Throw (KeyStoreError e)).
Proof.
  unfold mark_as_child_of. unfold mbind at 1, stm_bind at 1.
  destruct (backend _ s) as [[[|]|e] s1] eqn:Hx.
  - erewrite stm_bind_ok by reflexivity. rewrite persist_run. cbn [orb].
    intros [->|He]%write_group_errors; auto.
  - intros [= <- _]. auto.
  - intros [= <- _]. right. right. revert Hx. unfold backend, ks, on, st_map_err.
    destruct (exec_prog _ _) as [[x|e'] b]; intros [= <- _]. eauto.
Qed.

(** The conversation has its new parent, in its row too or, if writing failed, in memory alone. *)
Lemma own_at_mark l id parent s r s' :
  groups_hold s.1 l -> rows_ok l -> conv_ok l id s.2 -> mark_as_child_of parent s = (r, s') ->
  r = Err (Throw ParentGroupNotFound) \/
    (id ∉ own_parents -> parent <> id) /\ (r = Ok () \/ id ∈ loose) ->
  exists l', own_at l id s s' l'.
Proof.
  intros Hg Hr Hok. pose proof Hg as (Hh & Hl & Hnd). pose proof Hok as (Hci & Hgi & Hrow & Hpar & Hd).
  unfold mark_as_child_of.
  destruct (ks_ok _ _ _ _ Hh (mls_group_exists_run _ _ parent Hl)) as (c & Hk & Hv & Hh').
  erewrite stm_bind_ok by (unfold backend; rewrite (on_ok _ _ _ _ _ _ Hk); reflexivity).
  assert (groups_hold (set_key_store c s.1) l) as Hg1 by (split_and!; [done|simpl; by rewrite Hv|done]).
  destruct (bool_decide _).
  - erewrite stm_bind_ok by reflexivity. intros Hx [->|[Hne Hres]].
    { rewrite persist_run in Hx. by apply write_group_errors in Hx as [|[e [=]]]. }
    assert (id ∉ own_parents -> Some parent <> Some id) as Hne' by (intros Hi [= ?]; by apply Hne).
    destruct (persist_inv ["mls_pending_groups"] _ _ _ _ ltac:(set_solver) Hx) as [Ht _]. rewrite persist_run in Hx.
    assert (tables ["mls_pending_groups"] s.1 s'.1) as Ht'.
    { eapply (tables_trans _ _ (set_key_store c s.1)); [by apply tables_look|exact Ht]. }
    destruct (write_group_run (_, _) _ _ l Hg1 Hx) as [(st & -> & Hst & Hg' & E)|[(b & -> & Hb) Hn]].
    + simpl in *. eexists. split; [exact Ht'|split; [exact Hg'|split; [|split]]].
      * apply rows_ok_upsert; [|done]. apply conv_entity_row; [done|simpl; congruence|simpl; by rewrite Hci].
      * rewrite E. unfold conv_ok. simpl. rewrite set_state_id. split_and!; [done..| |done|].
        -- rewrite Hci. by rewrite row_of_upsert.
        -- intros _ _. by apply (written_on_disk (MkConversation (conv_id s.2) (Some parent) (conv_group s.2) (conv_configuration s.2)) st l).
      * rewrite Hci. by apply others_same_upsert.
    + exists l. split; [done|]. split; [done|]. split; [done|]. split; [|done]. simpl.
      split_and!; [done..|]. intros Hi. by destruct Hres.
  - intros [= <- <-] _. exists l. split; [|by split_and!]. by apply tables_look.
Qed.

(** Marking keeps the invariant when it is refused because one of the two is not there; and else when
    the parent is another conversation, or the child may be its own parent, and the call succeeds
    or the child may differ from its row. *)
Lemma mark_coherent l child parent c r c' :
  coherent_rows l c -> mark_conversation_as_child_of child parent c = (r, c') ->
  r = Err (Throw ParentGroupNotFound) \/ r = Err (Throw (ConversationNotFound child)) \/
    (child ∉ own_parents -> parent <> child) /\ (r = Ok () \/ child ∈ loose) ->
  coherent c'.
Proof.
  intros Hc. unfold mark_conversation_as_child_of, mbind, stm_bind.
  destruct (get_conversation_run l c child Hc) as (o & c1 & -> & Hl).
  pose proof Hl as (Hc1 & _ & _ & _ & _ & Ho). destruct o as [a|]; [|intros [= _ <-] _; by exists l].
  destruct Ho as [Hown _]. pose proof Hown as [(conv & Hv & Hok) _]. pose proof Hc1 as (Hg & Hr & _).
  unfold with_conv. rewrite Hv. destruct (mark_as_child_of parent _) as [r0 s'] eqn:Hx.
  intros [= <- <-] Hres. destruct (own_at_mark l child parent (_, _) _ _ Hg Hr Hok Hx) as (l' & Hat).
  { destruct Hres as [->|[->|Hres]]; auto. by apply mark_errors in Hx as [|[|[e [=]]]]. }
  destruct (with_conv_step _ _ _ _ _ _ _ Hc1 Hown Hv Hat) as [Hc' _]. by exists l'.
Qed.
End joining.
