(* ===== verification/CentralRotate.v ===== *)
(** * Certificates in all conversations

    The calls of [E2eiCentral] keep the invariant of [CentralFrame]: enrollments do not touch the
    conversations, and a rotation, which holds all conversations at once, makes a commit in each
    of them. *)

From S2P Require Import Prelude KsError Sql SqlSpec Entity TableFrame.
From S2P Require Import MlsGroups MlsPending MlsKeys MlsCredentials E2eiEntities Keystore.
From S2P Require Import CcError Ids Backend GroupStore OpenMls Config CommitDelay Credential.
From S2P Require Import Certificates Acme Enrollment ClientOps Conversation Renew Decrypt Central E2eiCentral.
From S2P Require Import ConvFrame Durable Coherence ClientFrame CentralFrame CentralJoin.
Open Scope Z_scope.

(** ** Several conversations that are held *)

Section held.
Context `{En : SqlEngine, Pr : Provider, Ty : OpenMlsTypes} `{!OpenMls, !OpenMlsLaws}.
Context `{!X509Lib, !IdCodecs, !F32Ln} {Ex : Exempt}.
Context `{Li : SchnellruLimits, Sc : Schnellru} `{!SchnellruLaws} `{!ConfigSerde, !ConfigSerdeLaws}.
Implicit Types (c : MlsCentral) (id : bytes) (a : Arc).

Abbreviation cached c := (lru_contents (gs_lru (mls_groups c))).

(** Both that are held have the id they are held for. *)
Lemma owned_differ l id k a a' c : k <> id -> owned l id a c -> owned l k a' c -> a' <> a.
Proof.
  intros Hk [(v & Hv & Hid & _) _] [(v' & Hv' & Hid' & _) _] ->. congruence.
Qed.

(** A step on one leaves the cells of the others, the cache and the client as they are. *)
Lemma with_conv_frame {A} a (m : cc (MlsCryptoProvider * MlsConversation) A) c r c' :
  with_conv a m c = (r, c') ->
  cached c' = cached c /\ mls_client c' = mls_client c /\
  forall a', a' <> a -> arc_read a' (mls_groups c') = arc_read a' (mls_groups c).
Proof.
  unfold with_conv. destruct (arc_read a _) as [conv|]; [|by intros [= _ <-]].
  destruct (m _) as [r0 s]. intros [= _ <-]. split; [done|]. split; [done|]. intros a' Ha.
  unfold arc_read, arc_write. simpl. by rewrite list_lookup_insert_ne.
Qed.

Lemma owned_others l l' id k a c c' :
  owned l id a c -> others_same k l l' -> id <> k -> cached c' = cached c ->
  arc_read a (mls_groups c') = arc_read a (mls_groups c) -> owned l' id a c'.
Proof.
  intros [(conv & Hv & Hok) Ha] Ho Hk Hc Hr. split; [|by rewrite Hc].
  exists conv. rewrite Hr. split; [done|]. eapply conv_ok_same; [|exact Hok]. by apply Ho.
Qed.

(** The conversations [convs] are held, and are what the store had. *)
Definition held (l : list PersistedMlsGroup) c (convs : list MlsConversation) (arcs : list Arc) : Prop :=
  Forall2 (fun conv a => owned l (conv_id conv) a c /\ arc_read a (mls_groups c) = Some conv) convs arcs /\
  NoDup (conv_id <$> convs).

Lemma held_step {A} l (m : cc (MlsCryptoProvider * MlsConversation) A) c conv convs a arcs r c' :
  within own m -> coherent_rows l c -> held l c (conv :: convs) (a :: arcs) -> with_conv a m c = (r, c') ->
  exists l', coherent_rows l' c' /\ others_same (conv_id conv) l l' /\ held l' c' convs arcs.
Proof.
  intros Hm Hc [[[Hown _] Hall]%Forall2_cons_1 Hnd] Hx.
  destruct (with_conv_inv _ _ _ _ _ _ _ Hm Hc Hown Hx) as (l' & Hc' & _ & Ho).
  destruct (with_conv_frame _ _ _ _ _ Hx) as (Hca & _ & Hr).
  exists l'. split; [done|]. split; [done|]. rewrite fmap_cons in Hnd.
  apply list.NoDup_cons in Hnd as [Hni Hnd]. split; [|done].
  apply Forall2_same_length_lookup. split; [by eapply Forall2_length|]. intros i v a' Hi Ha'.
  destruct (Forall2_lookup_lr _ _ _ _ _ _ Hall Hi Ha') as [Hown' Hv].
  assert (conv_id v <> conv_id conv) as Hne.
  { intros E. apply Hni. rewrite <-E. by eapply list_elem_of_fmap_2, list_elem_of_lookup_2. }
  assert (arc_read a' (mls_groups c') = arc_read a' (mls_groups c)) as Hra
    by (apply Hr; by eapply owned_differ).
  split; [by eapply owned_others|]. by rewrite Hra.
Qed.

(** ** A commit in each *)

(** What a rotation makes of the conversations [convs]: a commit for each of them, made on the
    conversation that the store had. *)
Definition rotated (cl : Client) (cb : CredentialBundle) (convs : list MlsConversation)
    (before after : gmap bytes MlsCommitBundle) : Prop :=
  (forall id, id ∉ conv_id <$> convs -> after !! id = before !! id) /\
  forall conv, conv ∈ convs -> exists commit b s', after !! conv_id conv = Some commit /\
    e2ei_rotate cl cb (b, conv) = (Ok commit, s').

Lemma within_own_rotate client cb : within own (e2ei_rotate client cb).
Proof. eauto with within nocore. Qed.

Lemma rotate_loop_inv cb arcs : forall convs l commits c r c',
  coherent_rows l c -> held l c convs arcs -> rotate_loop cb arcs commits c = (r, c') ->
  exists l', coherent_rows l' c' /\ mls_client c' = mls_client c /\
    (forall id, id ∉ conv_id <$> convs -> row_of l' id = row_of l id) /\
    match r with
    | Ok after => forall cl, mls_client c = Some cl -> rotated cl cb convs commits after
    | Err _ => True
    end.
Proof.
  induction arcs as [|a arcs IH]; intros convs l commits c r c' Hc Hh; cbn [rotate_loop].
  { destruct Hh as [->%Forall2_nil_inv_r _]. intros [= <- <-]. exists l. split_and!; [done..|].
    intros cl _. split; [done|]. by intros conv ?%not_elem_of_nil. }
  destruct convs as [|conv convs]; [by destruct Hh as [?%Forall2_nil_cons_inv _]|].
  pose proof Hh as [[[_ Hv] _]%Forall2_cons_1 Hnd]. rewrite fmap_cons in Hnd. apply list.NoDup_cons in Hnd as [Hni _].
  unfold mbind at 1, stm_bind at 1. rewrite read_conv_run, Hv. cbv zeta.
  unfold mbind at 1, stm_bind at 1. rewrite the_client_run.
  destruct (mls_client c) as [cl|] eqn:Hcl; [|intros [= <- <-]; exists l; by split_and!].
  unfold mbind at 1, stm_bind at 1. destruct (with_conv a _ c) as [r0 c1] eqn:Hx.
  destruct (held_step _ _ _ _ _ _ _ _ _ (within_own_rotate cl cb) Hc Hh Hx) as (l1 & Hc1 & Ho & Hh1).
  destruct (with_conv_frame _ _ _ _ _ Hx) as (_ & Hcl1 & _).
  assert (forall id, id ∉ conv_id <$> conv :: convs -> id ≠ conv_id conv /\ id ∉ conv_id <$> convs) as Hsplit.
  { intros id Hid. rewrite fmap_cons in Hid. by apply not_elem_of_cons in Hid. }
  destruct r0 as [commit|e].
  - intros Hy. destruct (IH _ _ _ _ _ _ Hc1 Hh1 Hy) as (l' & Hc' & Hcl' & Hrows & Hr).
    exists l'. split; [done|]. split; [congruence|]. split.
    { intros id [Hne Hid]%Hsplit. rewrite Hrows by done. by apply Ho. }
    destruct r as [after|e]; [|done]. rewrite Hcl1, Hcl in Hr. intros cl0 [= <-].
    destruct (Hr cl eq_refl) as [Hout Hin]. split.
    + intros id [Hne Hid]%Hsplit. rewrite Hout by done. by rewrite lookup_insert_ne.
    + intros v [->|Hv']%elem_of_cons; [|by apply Hin].
      revert Hx. unfold with_conv. rewrite Hv. destruct (e2ei_rotate cl cb _) as [r1 s1] eqn:Hrot.
      intros [= -> _]. exists commit, (mls_backend c), s1. split; [|done].
      rewrite Hout by done. by rewrite lookup_insert_eq.
  - intros [= <- <-]. exists l1. split; [done|]. split; [congruence|]. split; [|done].
    intros id [Hne _]%Hsplit. by apply Ho.
Qed.

(** C10: updating all conversations makes a commit in every active conversation of the store, on the
    conversation as the store has it, and in no other; when one of them fails the call fails. In
    either case the rows of all conversations that are not active stay as they were, and what is in
    memory stays with what is in the store. *)
Theorem update_all_everywhere l cb cl c r c' :
  coherent_rows l c -> mls_client c = Some cl -> e2ei_update_all cb c = (r, c') ->
  exists l', coherent_rows l' c' /\
    (forall id, fetched l id = None -> row_of l' id = row_of l id) /\
    match r with
    | Ok commits => forall id,
        match fetched l id with
        | Some conv => exists commit b s', commits !! id = Some commit /\
            e2ei_rotate cl cb (b, conv) = (Ok commit, s')
        | None => commits !! id = None
        end
    | Err _ => True
    end.
Proof.
  intros Hc Hcl. unfold e2ei_update_all, mbind at 1, stm_bind at 1.
  destruct (get_all_run l c Hc) as (all & arcs & c1 & -> & Hc1 & Hcl1 & Hall & Hnd & Hf). intros Hx.
  destruct (rotate_loop_inv _ _ _ _ _ _ _ _ Hc1 (conj Hall Hnd) Hx) as (l' & Hc' & _ & Hrows & Hr).
  exists l'. split; [done|].
  assert (forall id, fetched l id = None -> id ∉ conv_id <$> all) as Hno.
  { intros id Hn (conv & -> & Hin)%list_elem_of_fmap. assert (fetched l (conv_id conv) = Some conv) by by apply Hf.
    congruence. }
  split; [intros id Hn; by apply Hrows, Hno|]. destruct r as [commits|]; [|done].
  destruct (Hr cl) as [Hout Hin]; [congruence|]. intros id. destruct (fetched l id) as [conv|] eqn:Hfe.
  - apply Hf in Hfe as [Hi <-]. by apply Hin.
  - rewrite Hout by by apply Hno. apply lookup_empty.
Qed.

Lemma keeps_update_all cb : within keeps (e2ei_update_all cb).
Proof.
  intros c r c' Hx (l & Hc). revert Hx. unfold e2ei_update_all, mbind at 1, stm_bind at 1.
  destruct (get_all_run l c Hc) as (all & arcs & c1 & -> & Hc1 & _ & Hall & Hnd & _). intros Hx.
  destruct (rotate_loop_inv _ _ _ _ _ _ _ _ Hc1 (conj Hall Hnd) Hx) as (l' & Hc' & _). by exists l'.
Qed.
End held.

(** ** Enrollments do not touch the conversations *)

Section enrollments.
Context `{En : SqlEngine, Pr : Provider, Ty : OpenMlsTypes} `{!OpenMls, !OpenMlsLaws}.
Context `{!X509Lib, !IdCodecs} `{Acme} `{!EnrollmentSerde}.

Abbreviation quiet_on := (within (tables group_tables)).

Lemma quiet_find_token : quiet_on (ks E2eiRefreshToken_find_unique).
Proof. ks_on "e2ei_refresh_token". Qed.
Lemma quiet_save_enrollment id content : quiet_on (ks (save_e2ei_enrollment id content)).
Proof. ks_on "e2ei_enrollment". Qed.
Lemma quiet_pop_enrollment id : quiet_on (ks (pop_e2ei_enrollment id)).
Proof. ks_on "e2ei_enrollment". Qed.
Lemma quiet_count_keypackages : quiet_on (ks (Connection_count (E := MlsKeyPackage))).
Proof. ks_on "mls_keypackages". Qed.

#[local] Hint Resolve quiet_find_token quiet_save_enrollment quiet_pop_enrollment
  quiet_count_keypackages : within.

Lemma quiet_try_new id name hdl tm x cs kp tok : quiet_on (try_new id name hdl tm x cs kp tok).
Proof. unfold try_new, new_sign_key. solve_within. Qed.
Lemma quiet_find_refresh_token : quiet_on find_refresh_token.
Proof. unfold find_refresh_token. solve_within. Qed.
Lemma quiet_stash e : quiet_on (stash e).
Proof. unfold stash. solve_within. Qed.
Lemma quiet_stash_pop hdl : quiet_on (stash_pop hdl).
Proof. unfold stash_pop. solve_within. Qed.
Lemma quiet_extract_dp chain : quiet_on (extract_dp_on_init chain).
Proof. unfold extract_dp_on_init. solve_within. Qed.
Lemma quiet_find_deprecated cb : quiet_on (find_key_packages_to_remove cb).
Proof. unfold find_key_packages_to_remove. solve_within. Qed.
End enrollments.

#[export] Hint Resolve quiet_try_new quiet_find_refresh_token quiet_stash quiet_stash_pop
  quiet_extract_dp quiet_find_deprecated : within.

(** ** The calls *)

Section calls.
Context `{En : SqlEngine, Pr : Provider, Ty : OpenMlsTypes} `{!OpenMls, !OpenMlsLaws}.
Context `{!X509Lib, !IdCodecs, !F32Ln} {Ex : Exempt}.
Context `{Li : SchnellruLimits, Sc : Schnellru} `{!SchnellruLaws} `{!ConfigSerde, !ConfigSerdeLaws}.
Context `{Acme} `{!EnrollmentSerde}.
Implicit Types (c : MlsCentral) (id : bytes) (e : Enrollment).

Lemma keeps_set_client o : within keeps (st_modify (set_client o)).
Proof. apply within_modify; try typeclasses eauto. intros c (l & Hc). by exists l. Qed.

Lemma keeps_not_initialized : within keeps not_initialized.
Proof. apply within_looks; try typeclasses eauto. intros c. unfold not_initialized. by destruct c as [[]]. Qed.

#[local] Hint Resolve keeps_set_client keeps_not_initialized keeps_update_all : within.

Lemma keeps_mls_init i css n : within keeps (mls_init i css n).
Proof. unfold mls_init. cbv zeta. solve_keeps. Qed.
#[local] Hint Resolve keeps_mls_init : within.

Lemma keeps_enroll id name hdl tm x cs : within keeps (e2ei_new_enrollment id name hdl tm x cs).
Proof. unfold e2ei_new_enrollment. solve_keeps. Qed.
Lemma keeps_activate name hdl tm x cs : within keeps (e2ei_new_activation_enrollment name hdl tm x cs).
Proof. unfold e2ei_new_activation_enrollment. solve_keeps. Qed.
Lemma keeps_rotate_enroll name hdl tm x cs : within keeps (e2ei_new_rotate_enrollment name hdl tm x cs).
Proof. unfold e2ei_new_rotate_enrollment. solve_keeps. Qed.
Lemma keeps_stash e : within keeps (e2ei_enrollment_stash e).
Proof. unfold e2ei_enrollment_stash. solve_keeps. Qed.
Lemma keeps_stash_pop hdl : within keeps (e2ei_enrollment_stash_pop hdl).
Proof. unfold e2ei_enrollment_stash_pop. solve_keeps. Qed.
Lemma keeps_init_only e chain n : within keeps (e2ei_mls_init_only e chain n).
Proof. unfold e2ei_mls_init_only. solve_keeps. Qed.
Lemma keeps_rotate_all e chain n : within keeps (e2ei_rotate_all e chain n).
Proof. unfold e2ei_rotate_all. solve_keeps. Qed.
End calls.

#[export] Hint Resolve keeps_set_client keeps_not_initialized keeps_mls_init keeps_enroll keeps_activate
  keeps_rotate_enroll keeps_stash keeps_stash_pop keeps_init_only keeps_rotate_all : within.
