(* ===== verification/CentralSpec.v ===== *)
(** * What MlsCentral promises

    Any sequence of calls keeps the conversations in memory and those in the key store together,
    but for those that a step records as exempt; so the cache does not show; a conversation is made
    once and is gone when it is wiped. *)

From S2P Require Import Prelude KsError Sql SqlSpec Entity TableFrame.
From S2P Require Import MlsGroups MlsPending MlsKeys MlsCredentials E2eiEntities Keystore.
From S2P Require Import CcError Ids Backend GroupStore OpenMls Config CommitDelay Credential.
From S2P Require Import Certificates Acme Enrollment ClientOps Conversation Renew Decrypt Central E2eiCentral.
From S2P Require Import ConvFrame Durable Coherence ClientFrame CentralFrame CentralJoin CentralRotate.
Open Scope Z_scope.

Section calls.
Context `{En : SqlEngine, Pr : Provider, Ty : OpenMlsTypes} `{!OpenMls, !OpenMlsLaws}.
Context `{!X509Lib, !IdCodecs, !F32Ln} {Ex : Exempt}.
Context `{Li : SchnellruLimits, Sc : Schnellru} `{!SchnellruLaws} `{!ConfigSerde, !ConfigSerdeLaws}.
Context `{Acme} `{!EnrollmentSerde}.
Implicit Types (c : MlsCentral) (b : MlsCryptoProvider) (id : bytes).

Abbreviation cached c := (lru_contents (gs_lru (mls_groups c))).

(** ** Sequences of calls *)

(** The calls, but for the two whose steps have a condition. *)
Inductive central_call : forall A, cc MlsCentral A -> Prop :=
  | CGetAll : central_call _ get_all_conversations
  | CExists id : central_call _ (conversation_exists id)
  | CEpoch id : central_call _ (conversation_epoch id)
  | CNew id ct cfg : central_call _ (new_conversation id ct cfg)
  | CAdd id kps : central_call _ (add_members_to_conversation id kps)
  | CRemove id ids : central_call _ (remove_members_from_conversation id ids)
  | CUpdate id : central_call _ (central_update_keying_material id)
  | CCommitPending id : central_call _ (central_commit_pending_proposals id)
  | CEncrypt id m : central_call _ (central_encrypt_message id m)
  | CExport id n : central_call _ (central_export_secret_key id n)
  | CClientIds id : central_call _ (central_get_client_ids id)
  | CExternalSender id : central_call _ (central_get_external_sender id)
  | CConversationState id : central_call _ (central_e2ei_conversation_state id)
  | CClearProposal id r : central_call _ (central_clear_pending_proposal id r)
  | CClearCommit id : central_call _ (central_clear_pending_commit id)
  | CCommitAccepted id : central_call _ (central_commit_accepted id)
  | CProposal id p : central_call _ (new_proposal id p)
  | CExternalAdd id ep cs ct : central_call _ (new_external_add_proposal id ep cs ct)
  | CDecrypt id m : central_call _ (decrypt_message id m)
  | CWipe id : central_call _ (wipe_conversation id)
  | CWelcome w cfg : central_call _ (process_raw_welcome_message w cfg)
  | CJoin gi cfg ct : central_call _ (join_by_external_commit gi cfg ct)
  | CClearJoin id : central_call _ (clear_pending_group_from_external_commit id)
  | CRestore : central_call _ restore_from_disk
  | CDropAndRestore id : central_call _ (central_drop_and_restore id)
  | CInit i css n : central_call _ (mls_init i css n)
  | CKeypairs css : central_call _ (mls_generate_keypairs css)
  | CInitWithId id tmp css : central_call _ (mls_init_with_client_id id tmp css)
  | CKeypackages cs ct n : central_call _ (get_or_create_client_keypackages cs ct n)
  | CCountKeypackages cs ct : central_call _ (client_valid_key_packages_count cs ct)
  | CDeleteKeypackages refs : central_call _ (delete_keypackages refs)
  | CRegisterCa pem : central_call _ (with_backend (e2ei_register_acme_ca pem))
  | CRegisterIntermediate pem : central_call _ (with_backend (e2ei_register_intermediate_ca_pem pem))
  | CRegisterCrl dp der : central_call _ (with_backend (e2ei_register_crl dp der))
  | CEnroll id name hdl tm x cs : central_call _ (e2ei_new_enrollment id name hdl tm x cs)
  | CActivate name hdl tm x cs : central_call _ (e2ei_new_activation_enrollment name hdl tm x cs)
  | CRotateEnroll name hdl tm x cs : central_call _ (e2ei_new_rotate_enrollment name hdl tm x cs)
  | CStash e : central_call _ (e2ei_enrollment_stash e)
  | CStashPop hdl : central_call _ (e2ei_enrollment_stash_pop hdl)
  | CInitOnly e chain n : central_call _ (e2ei_mls_init_only e chain n)
  | CUpdateAll cb : central_call _ (e2ei_update_all cb)
  | CRotateAll e chain n : central_call _ (e2ei_rotate_all e chain n)
  | CCallbacks cb : central_call _ (st_modify (set_callbacks cb)).

#[local] Hint Resolve keeps_update_all keeps_get_all keeps_new_conversation
  keeps_process_raw_welcome keeps_join keeps_clear_pending_group keeps_restore_from_disk
  keeps_drop_and_restore : within.

Lemma central_call_keeps A m : central_call A m -> within keeps m.
Proof.
  destruct 1; try solve [eauto with within nocore];
    try (unfold mls_generate_keypairs, mls_init_with_client_id,
      get_or_create_client_keypackages, client_valid_key_packages_count, delete_keypackages;
      cbv zeta; solve [solve_keeps]).
  apply within_modify; try typeclasses eauto. intros c (l & Hc). by exists l.
Qed.

(** A fresh [MlsCentral] over a key store whose rows are groups. *)
Lemma try_new_coherent cfg b l c b' :
  groups_hold b l -> rows_ok l -> pending_ok b -> MlsCentral_try_new cfg b = (Ok c, b') -> coherent c.
Proof.
  intros Hg Hr Hp. unfold MlsCentral_try_new.
  cbv zeta. match goal with |- match ?x with _ => _ end = _ -> _ =>
    destruct x as [[[cl gs]|e] b1] eqn:Hx end; [|done]. intros [= <- <-].
  apply stm_bind_inv in Hx as (cl0 & b2 & Hx & Hy).
  apply stm_bind_inv in Hy as (gs0 & b3 & Hy & Hz).
  apply stm_bind_inv in Hz as ([] & b4 & Hz & [= <- <- <-]).
  assert (tables group_tables b b2) as Ht2.
  { assert (within (tables group_tables) (match cfg_client_id cfg with
      | Some id => client ← Client_init (IdBasic id) (ciphersuites cfg)
            (default INITIAL_KEYING_MATERIAL_COUNT (nb_init_key_packages cfg)); mret (Some client)
      | None => mret None end)) as Hm by solve_within. by eapply Hm. }
  pose proof (tables_groups _ _ _ Ht2 Hg) as Hg2.
  pose proof (tables_pending _ _ (proj1 Hg) Ht2 Hp) as Hp2.
  destruct (restore_groups_inv _ _ _ _ _ Hg2 Hr Hy) as [Ht3 Hgs].
  pose proof (quiet_init_pki_env _ _ _ Hz) as Ht4.
  exists l. pose proof (tables_trans _ _ _ _ Ht3 Ht4) as Ht. split_and!; [|done| |exact Hgs].
  - by eapply tables_groups.
  - eapply tables_pending; [apply Hg2|exact Ht|done].
Qed.

End calls.

Section steps.
Context `{En : SqlEngine, Pr : Provider, Ty : OpenMlsTypes} `{!OpenMls, !OpenMlsLaws}.
Context `{!X509Lib, !IdCodecs, !F32Ln}.
Context `{Li : SchnellruLimits, Sc : Schnellru} `{!SchnellruLaws} `{!ConfigSerde, !ConfigSerdeLaws}.
Context `{Acme} `{!EnrollmentSerde}.
Implicit Types (c : MlsCentral) (b : MlsCryptoProvider) (id : bytes).

Abbreviation cached c := (lru_contents (gs_lru (mls_groups c))).

(** A call, whatever it answers, and the conversations that are exempt after it: one that is marked
    as a child of itself is its own parent from then on; one may differ from its row from then on
    when marking it fails half way, or when it is in memory and rejoining it fails. *)
Definition own_parent_if (child parent : bytes) (E : Exempt) : Exempt :=
  if decide (parent = child) then add_own_parent child E else E.

Inductive central_step : relation (Exempt * MlsCentral) :=
  | step_call E c A (m : cc MlsCentral A) r c' :
      central_call A m -> m c = (r, c') -> central_step (E, c) (E, c')
  | step_marked E c child parent c' :
      mark_conversation_as_child_of child parent c = (Ok (), c') ->
      central_step (E, c) (own_parent_if child parent E, c')
  | step_mark_refused E c child parent e c' :
      mark_conversation_as_child_of child parent c = (Err e, c') ->
      e = Throw ParentGroupNotFound \/ e = Throw (ConversationNotFound child) ->
      central_step (E, c) (E, c')
  | step_mark_failed E c child parent e c' :
      mark_conversation_as_child_of child parent c = (Err e, c') ->
      e <> Throw ParentGroupNotFound -> e <> Throw (ConversationNotFound child) ->
      central_step (E, c) (add_torn child (own_parent_if child parent E), c')
  | step_merge E c id r c' :
      merge_pending_group_from_external_commit id c = (r, c') ->
      cached c !! id = None \/ is_ok r = true -> central_step (E, c) (E, c')
  | step_merge_failed E c id e c' :
      merge_pending_group_from_external_commit id c = (Err e, c') ->
      is_Some (cached c !! id) -> central_step (E, c) (add_torn id E, c').

Lemma coherent_exempt E E' c :
  @own_parents E ⊆ @own_parents E' -> @torn E ⊆ @torn E' ->
  coherent (Ex := E) c -> coherent (Ex := E') c.
Proof.
  intros Ho Ht (l & Hg & Hr & Hp & Hh). exists l. split; [done|]. split; [|split; [done|]].
  - intros e He. destruct (Hr e He) as [Hd Hpar]. split; [done|]. intros Hn. apply Hpar. set_solver.
  - eapply holds_impl; [|exact Hh]. intros k v (Hk & Hgk & Hs & Hpar & Hd). split_and!; [done..| |].
    + intros Hn. apply Hpar. set_solver.
    + intros Hn. apply Hd. unfold loose in *. set_solver.
Qed.

Lemma own_parent_if_sub child parent E :
  @own_parents E ⊆ @own_parents (own_parent_if child parent E) /\
  @torn (own_parent_if child parent E) = @torn E /\
  (child ∉ @own_parents (own_parent_if child parent E) -> parent <> child).
Proof.
  unfold own_parent_if. case_decide as Hd; [|done]. cbn. split; [set_solver|]. split; [done|].
  intros Hn. destruct Hn. set_solver.
Qed.

(** Marking, with the conversations that are exempt afterwards. *)
Lemma mark_step_coherent E E' c child parent r c' :
  coherent (Ex := E) c -> mark_conversation_as_child_of child parent c = (r, c') ->
  @own_parents (own_parent_if child parent E) ⊆ @own_parents E' -> @torn E ⊆ @torn E' ->
  r = Ok () \/ child ∈ @loose E' -> coherent (Ex := E') c'.
Proof.
  intros Hc Hx Ho Ht Hr. destruct (own_parent_if_sub child parent E) as (Hsub & _ & Hne).
  assert (coherent (Ex := E') c) as (l & Hl) by (eapply (coherent_exempt E); [set_solver|done|done]).
  eapply (mark_coherent (Ex := E')); [exact Hl|exact Hx|]. right. right. split; [|done].
  intros Hn. apply Hne. set_solver.
Qed.

Lemma central_step_coherent E c E' c' :
  central_step (E, c) (E', c') -> coherent (Ex := E) c -> coherent (Ex := E') c'.
Proof.
  intros Hs Hc. inversion Hs as [? ? A m r ? Hm Hx|? ? child parent ? Hx|? ? child parent e ? Hx Hr
    |? ? child parent e ? Hx _ _|? ? id r ? Hx Hr|? ? id e ? Hx _]; subst.
  - by eapply (central_call_keeps _ _ Hm).
  - destruct (own_parent_if_sub child parent E) as (_ & Ht & _).
    eapply mark_step_coherent; [exact Hc|exact Hx|done|by rewrite Ht|by left].
  - destruct Hc as (l & Hl). eapply mark_coherent; [exact Hl|exact Hx|].
    destruct Hr as [->| ->]; auto.
  - destruct (own_parent_if_sub child parent E) as (_ & Ht & _).
    eapply mark_step_coherent; [exact Hc|exact Hx|done|cbn; rewrite Ht; set_solver|right; apply loose_torn].
  - destruct Hc as (l & Hl). eapply merge_coherent; [exact Hl|exact Hx|]. destruct Hr; auto.
  - assert (coherent (Ex := add_torn id E) c) as (l & Hl).
    { eapply coherent_exempt; [..|exact Hc]; [done|cbn; set_solver]. }
    eapply (merge_coherent (Ex := add_torn id E)); [exact Hl|exact Hx|]. right. right. apply loose_torn.
Qed.

Lemma central_steps_coherent s s' :
  rtc central_step s s' -> coherent (Ex := s.1) s.2 -> coherent (Ex := s'.1) s'.2.
Proof.
  induction 1 as [|[E1 c1] [E2 c2] s3 Hs _ IH]; [done|]. intros Hc.
  apply IH. by apply (central_step_coherent E1 c1 E2 c2).
Qed.

(** C1: however [MlsCentral] is used from when it is made over a key store whose rows are groups -
    calls that fail, panic, evict conversations from the cache or read them back, in any order -
    every conversation that is in memory has its id and has a row in the store, and every row is a
    group with the id of the row. A conversation that is not marked as changed is exactly what its
    row says, but for those marked as a child of themselves, and those of which marking or, while
    they were in memory, rejoining has failed half way; and none is its own parent, in memory or in
    its row, but for those that were in the store to begin with ([own]) and those marked as a child
    of themselves. *)
Theorem central_coherent cfg b l own c0 b' E c :
  groups_hold b l -> rows_ok (Ex := MkExempt own ∅) l -> pending_ok b ->
  MlsCentral_try_new cfg b = (Ok c0, b') -> rtc central_step (MkExempt own ∅, c0) (E, c) ->
  coherent (Ex := E) c.
Proof.
  intros Hg Hr Hp Hn Hs. apply (central_steps_coherent (MkExempt own ∅, c0) (E, c)); [exact Hs|].
  by eapply (try_new_coherent (Ex := MkExempt own ∅)).
Qed.

End steps.

Section spec.
Context `{En : SqlEngine, Pr : Provider, Ty : OpenMlsTypes} `{!OpenMls, !OpenMlsLaws}.
Context `{!X509Lib, !IdCodecs, !F32Ln} {Ex : Exempt}.
Context `{Li : SchnellruLimits, Sc : Schnellru} `{!SchnellruLaws} `{!ConfigSerde, !ConfigSerdeLaws}.
Context `{Acme} `{!EnrollmentSerde}.
Implicit Types (c : MlsCentral) (b : MlsCryptoProvider) (id : bytes).

Abbreviation cached c := (lru_contents (gs_lru (mls_groups c))).

(** ** The cache does not show *)

(** What the row of an unmarked conversation stands for. *)
Lemma stored_conv_same l conv :
  on_disk l conv -> group_id (conv_group conv) = conv_id conv ->
  state_changed (conv_group conv) = Persisted ->
  exists conv0, stored_conv l (conv_id conv) = Some conv0 /\ conv_id conv0 = conv_id conv /\
    conv_group conv0 = conv_group conv /\ conv_parent_id conv0 = stored_parent (conv_parent_id conv).
Proof.
  intros (st & Hser & Hrow) Hgi Hst. unfold stored_conv. change (first _ l) with (row_of l (conv_id conv)) in Hrow.
  destruct (row_of l (conv_id conv)) as [e|]; [|done]. cbn [fmap option_fmap option_map] in Hrow.
  apply (inj Some) in Hrow. cbn [mbind option_bind]. rewrite Hrow. unfold from_serialized_state, deser. simpl.
  rewrite (group_from_to _ _ Hser). simpl. eexists. split; [done|]. simpl. rewrite set_state_id.
  split; [congruence|]. split; [rewrite <-Hst; apply set_state_self|].
  by destruct (conv_parent_id conv) as [[|]|].
Qed.

Definition empty_cache c : MlsCentral := set_groups (GroupStore_default (gs_cells (mls_groups c))) c.

(** What two ways of holding a conversation agree on: all but its configuration, and an empty
    parent id, which is none once it has been stored. *)
Definition same_conversation (conv conv0 : MlsConversation) : Prop :=
  conv_id conv0 = conv_id conv /\ conv_group conv0 = conv_group conv /\
  stored_parent (conv_parent_id conv0) = stored_parent (conv_parent_id conv).

(** C2: the cache is transparent. Whatever the cache has kept or forgotten, looking up a conversation
    gives what an empty cache over the same key store would give: the same error, or the same
    id, group and parent. This is so for a conversation that is not exempt from being what its row
    says, and whose group, if it is cached, has no unwritten changes; and there is one difference:
    a conversation that has become inactive is found as long as it is cached, and is not found
    otherwise. *)
Theorem cache_is_transparent c id :
  coherent c -> id ∉ loose ->
  (forall a conv, cached c !! id = Some a -> arc_read a (mls_groups c) = Some conv ->
     state_changed (conv_group conv) = Persisted) ->
  let '(r, c1) := get_conversation id c in
  let '(r0, c2) := get_conversation id (empty_cache c) in
  match r, r0 with
  | Ok a, Ok a0 => exists conv conv0, arc_read a (mls_groups c1) = Some conv /\
      arc_read a0 (mls_groups c2) = Some conv0 /\ same_conversation conv conv0
  | Err e, Err e0 => e = e0
  | Ok a, Err e0 => e0 = Throw (ConversationNotFound id) /\ cached c !! id = Some a /\
      exists conv, arc_read a (mls_groups c) = Some conv /\ is_active (conv_group conv) = false
  | Err _, Ok _ => False
  end.
Proof.
  intros (l & Hc) Hlo Hcond.
  assert (coherent_rows l (empty_cache c)) as Hc0.
  { apply set_groups_rows; [done|apply holds_default]. }
  destruct (get_conversation_run l c id Hc) as (o & c1 & -> & Ho).
  destruct (get_conversation_run l _ id Hc0) as (o0 & c2 & -> & Ho0).
  destruct Ho as (_ & _ & _ & _ & Hread & Ho). destruct Ho0 as (_ & _ & _ & _ & _ & Ho0).
  assert (cached (empty_cache c) !! id = None) as Hempty.
  { simpl. by rewrite lru_new_contents, lookup_empty. }
  destruct o as [a|].
  - destruct Ho as [[(conv & Hv & Hok) _] [Hin|(Hin & _ & Hf)]].
    + pose proof Hc as (_ & Hr & _ & Hh). destruct (Hh id a Hin) as (conv' & Hv' & Hok').
      pose proof (Hcond a conv' Hin Hv') as Hst.
      assert (conv_id conv' = id /\ group_id (conv_group conv') = id /\ on_disk l conv') as (Hid & Hgi & Hd).
      { destruct Hok' as (? & ? & _ & _ & Hd). split_and!; auto. }
      destruct (stored_conv_same l conv' Hd) as (conv0 & Hs & Hci & Hg & Hp); [congruence|done|].
      rewrite Hid in Hs.
      destruct (is_active (conv_group conv')) eqn:Hact.
      * assert (fetched l id = Some conv0) as Hf by (unfold fetched; rewrite Hs; simpl; by rewrite Hg, Hact).
        destruct o0 as [a0|]; [|destruct Ho0 as (_ & _ & Hn); congruence].
        destruct Ho0 as [_ [Hin0|(_ & _ & Hf0)]]; [congruence|].
        exists conv', conv0. split; [by apply Hread|]. split; [congruence|]. split_and!; [done..|].
        rewrite Hp. by destruct (conv_parent_id conv') as [[|]|].
      * assert (fetched l id = None) as Hf by (unfold fetched; rewrite Hs; simpl; by rewrite Hg, Hact).
        destruct o0 as [a0|]; [|by split_and!; [..|exists conv']].
        destruct Ho0 as [[(conv1 & Hv1 & _) _] [Hin0|(_ & _ & Hf0)]]; congruence.
    + destruct o0 as [a0|]; [|destruct Ho0 as (_ & _ & Hn); congruence].
      destruct Ho0 as [_ [Hin0|(_ & _ & Hf0)]]; [congruence|].
      exists conv, conv. split; [done|]. split; [congruence|done].
  - destruct Ho as (_ & _ & Hf). destruct o0 as [a0|]; [|done].
    destruct Ho0 as [[(conv & Hv & _) _] [Hin0|(_ & _ & Hf0)]]; congruence.
Qed.

(** ** Making and wiping *)

(** C31: a conversation is made once: [new_conversation] refuses an id that is in memory or that can
    be found in the store (its documentation says instead that the existing group will be
    overridden, which is so only for a row that is inactive), a call that fails leaves every row
    as it was, and one that succeeds leaves a row that decodes to a conversation with that id and no
    parent, the other rows as they were. And [wipe_conversation] leaves every other row as it is;
    when it succeeds there is no row and nothing in memory for the id, and looking the conversation
    up again finds nothing. *)
Theorem conversation_made_and_wiped l c id :
  coherent_rows l c ->
  (forall ct cfg r c', new_conversation id ct cfg c = (r, c') ->
     (is_Some (cached c !! id) \/ is_Some (fetched l id) -> r = Err (Throw (ConversationAlreadyExists id))) /\
     exists l', coherent_rows l' c' /\ others_same id l l' /\
       match r with
       | Ok () => exists conv, stored_conv l' id = Some conv /\ conv_id conv = id /\ conv_parent_id conv = None
       | Err _ => l' = l
       end) /\
  (forall r c', wipe_conversation id c = (r, c') ->
     exists l', coherent_rows l' c' /\ others_same id l l' /\
       (r = Ok () -> row_of l' id = None /\ cached c' !! id = None /\
          exists c'', get_conversation id c' = (Err (Throw (ConversationNotFound id)), c''))).
Proof.
  intros Hc. split.
  - intros ct cfg r c' Hx. destruct (new_conversation_inv _ _ _ _ _ _ _ Hc Hx) as (l' & Hc' & Ho & Hex & Hr).
    split; [done|]. exists l'. split; [done|]. split; [done|]. destruct r as [[]|e]; [|done].
    destruct Hr as (conv & (<- & Hgi & _) & Hpar & Hst & Hd).
    destruct (stored_conv_same _ _ Hd Hgi Hst) as (conv0 & Hs & Hci & _ & Hp). exists conv0.
    by rewrite Hp, Hpar.
  - intros r c' Hx. revert Hx. unfold wipe_conversation, mbind at 1, stm_bind at 1.
    destruct (get_conversation_run l c id Hc) as (o & c1 & -> & Hl).
    destruct Hl as (Hc1 & _ & _ & _ & _ & Ho). destruct o as [a|]; [|intros [= <- <-]; exists l; by split_and!].
    destruct Ho as [Hown _]. unfold mbind at 1, stm_bind at 1.
    destruct (with_conv a wipe_associated_entities c1) as [r1 c2] eqn:Hw.
    apply (with_conv_inv l id) in Hw as (l2 & Hc2 & Hown2 & Ho2); [|eauto with within nocore|done..].
    destruct r1 as [[]|e]; [|intros [= <- <-]; exists l2; by split_and!].
    intros Hx. destruct (delete_inv _ _ _ _ _ _ Hc2 Hown2 Hx) as (-> & Hc' & Hnone).
    exists (remove_keys pg_id [id] l2). split; [done|]. split.
    { intros k Hk. rewrite row_of_remove, decide_False by done. by apply Ho2. }
    intros _. assert (row_of (remove_keys pg_id [id] l2) id = None) as Hrow by by rewrite row_of_remove, decide_True.
    split; [done|]. split; [done|].
    destruct (get_conversation_run _ c' id Hc') as (o & c'' & Hg & Hl). exists c''. rewrite Hg.
    destruct Hl as (_ & _ & _ & _ & _ & Hlo). destruct o as [a'|]; [|done].
    destruct Hlo as [[(conv & _ & _ & _ & [e He] & _) _] _]. congruence.
Qed.
End spec.
