(* ===== verification/CentralLive.v ===== *)
(** * No call waits for ever

    A call of [MlsCentral] takes the lock of one conversation, and reads another one, the parent,
    while it holds it. It can only wait for itself: when a conversation is its own parent. None
    is, the invariant of [CentralFrame] says, but for those that were marked as a child of
    themselves; for all others every call comes to an end. *)

From S2P Require Import Prelude KsError Sql SqlSpec Entity TableFrame.
From S2P Require Import MlsGroups MlsPending MlsKeys MlsCredentials E2eiEntities Keystore.
From S2P Require Import CcError Ids Backend GroupStore OpenMls Config CommitDelay Credential.
From S2P Require Import Certificates Acme Enrollment ClientOps Conversation Renew Decrypt Central E2eiCentral.
From S2P Require Import ConvFrame Durable Coherence ClientFrame CentralFrame CentralJoin CentralRotate CentralSpec.
Open Scope Z_scope.

(** ** Computations that never deadlock *)

Definition never {S A} (m : cc S A) : Prop := forall s, (m s).1 <> Err Deadlock.

Section never.
Context {S : Type}.

Lemma never_ret {A} (a : A) : never (mret a : cc S A).
Proof. done. Qed.
Lemma never_throw {A} e : never (throw e : cc S A).
Proof. done. Qed.
Lemma never_lift {A} (r : CryptoResult A) : never (lift_res r : cc S A).
Proof. intros s. by destruct r. Qed.
Lemma never_some_or {A} e (o : option A) : never (some_or e o : cc S A).
Proof. intros s. by destruct o. Qed.
Lemma never_unwrap {A} (o : option A) : never (unwrap o : cc S A).
Proof. intros s. by destruct o. Qed.
Lemma never_modify (f : S -> S) : never (st_modify f : cc S ()).
Proof. done. Qed.
Lemma never_ok {A} (f : S -> A) : never ((fun s => (Ok (f s), s)) : cc S A).
Proof. done. Qed.

Lemma never_bind {A B} (m : cc S A) (f : A -> cc S B) :
  never m -> (forall a, never (f a)) -> never (m ≫= f).
Proof.
  intros Hm Hf s. unfold mbind, stm_bind. specialize (Hm s).
  destruct (m s) as [[a|e] s']; [apply Hf|simpl in *; congruence].
Qed.

Lemma never_attempt {A} (m : cc S A) : never m -> never (attempt m).
Proof. intros Hm s. unfold attempt. specialize (Hm s). destruct (m s) as [[a|[e| |]] s']; simpl in *; congruence. Qed.

Lemma never_st_map {A B} (f : A -> cc S B) l : (forall a, never (f a)) -> never (st_map f l).
Proof.
  intros Hf. induction l as [|a l IH]; simpl; [apply never_ret|].
  repeat (apply never_bind; [done|intros ?]). apply never_ret.
Qed.

Lemma never_st_iter {A} (f : A -> cc S ()) l : (forall a, never (f a)) -> never (st_iter f l).
Proof.
  intros Hf. induction l as [|a l IH]; simpl; [apply never_ret|].
  by repeat (apply never_bind; [done|intros ?]).
Qed.

Lemma never_on {T A} get set (m : cc T A) : never m -> never (on get set m : cc S A).
Proof. intros Hm s. unfold on. specialize (Hm (get s)). by destruct (m (get s)). Qed.
End never.

Lemma never_local_client `{En : SqlEngine, Pr : Provider, Ty : OpenMlsTypes, !OpenMls} {A} client
    (m : cc (MlsCryptoProvider * Client) A) :
  never m -> never (local_client client m).
Proof.
  intros Hm b. unfold local_client. specialize (Hm (b, client)).
  destruct (m (b, client)) as [[] []]; simpl in *; congruence.
Qed.

Create HintDb never.
#[export] Hint Resolve never_ret never_throw never_lift never_some_or never_unwrap never_modify
  never_on : never.

Ltac head_of t := match t with ?f _ => head_of f | _ => t end.

Ltac never_case := first [apply never_on | apply never_local_client].

(** What is not covered by a lemma is unfolded. *)
Ltac solve_never :=
  repeat match goal with
  | |- forall _, _ => intros ?
  | |- never (_ ≫= _) => apply never_bind
  | |- never (st_iter _ _) => apply never_st_iter
  | |- never (st_map _ _) => apply never_st_map
  | |- never (attempt _) => apply never_attempt
  | |- never (let _ := _ in _) => cbv zeta
  | |- never (match ?x with _ => _ end) => destruct x
  | |- never _ => solve [eauto with never nocore]
  | |- never _ => never_case
  | |- never ?m => let f := head_of m in unfold f
  end.

Section ops.
Context `{En : SqlEngine, Pr : Provider, Ty : OpenMlsTypes} `{!OpenMls}.
Context `{!X509Lib, !IdCodecs, !F32Ln} {Ex : Exempt}.
Context `{Li : SchnellruLimits, Sc : Schnellru} `{!ConfigSerde}.

(** ** The provider, clients and certificates *)

Lemma never_ks {A} (p : prog A) : never (ks p).
Proof. apply never_on. intros c. unfold st_map_err. by destruct (exec_prog p c) as [[]]. Qed.
Lemma never_on_conn {A} (p : prog A) : never (on_conn p).
Proof. intros c. unfold on_conn, st_map_err. by destruct (exec_prog p c) as [[]]. Qed.
Lemma never_ks_map f {A} (p : prog A) : never (ks_map f p).
Proof. apply never_on. intros c. unfold st_map_err. by destruct (exec_prog p c) as [[]]. Qed.
Lemma never_prov {E A} (f : E -> CryptoError) (m : stm MlsCryptoProvider E A) : never (prov f m).
Proof. intros b. unfold prov, st_map_err. by destruct (m b) as [[]]. Qed.
Lemma never_e2ei {A} (r : result ext_error A) : never (e2ei r : cc MlsCryptoProvider A).
Proof. apply never_lift. Qed.
Lemma never_get_client : never get_client.
Proof. done. Qed.
Lemma never_get_provider : never get_provider.
Proof. done. Qed.
Lemma never_push_identity sc cb : never (push_identity sc cb).
Proof.
  intros s. unfold push_identity, push_credential_bundle.
  destruct (_ && _); [done|]. destruct (_ !! _) as [cbs|]; [|done].
  by destruct (index_set_insert cb cbs) as [[]].
Qed.

#[local] Hint Resolve never_ks never_on_conn never_ks_map never_prov never_e2ei 
  never_get_client never_get_provider never_push_identity : never.


(** ** Conversations

    Only the parent that a message is checked against is read behind a lock. *)

Lemma never_get_conv : never get_conv.
Proof. done. Qed.
Lemma never_get_group : never get_group.
Proof. done. Qed.
Lemma never_get_backend : never get_backend.
Proof. done. Qed.
Lemma never_mod_group f : never (mod_group f).
Proof. done. Qed.
Lemma never_group_op {E A} (f : E -> CryptoError) (op : stm (MlsCryptoProvider * MlsGroup) E A) :
  never (group_op f op).
Proof. apply never_on. intros s. unfold st_map_err. by destruct (op s) as [[]]. Qed.

#[local] Hint Resolve never_get_conv never_get_group never_get_backend  never_mod_group
  never_group_op : never.


(** What needs that the parent is not the conversation that is held. *)
Lemma never_parent_clients {S} parent :
  parent <> Some ParentSelf -> never (parent_clients (S := S) parent).
Proof. intros Hp s. by destruct parent as [[]|]. Qed.
#[local] Hint Resolve never_parent_clients : never.

Lemma never_decrypt_with restore m parent client cb :
  never restore -> parent <> Some ParentSelf -> never (decrypt_with restore m parent client cb).
Proof. intros Hr Hp. solve_never. Qed.
#[local] Hint Resolve never_decrypt_with : never.

Lemma never_decrypt_pending client cb parent m :
  parent <> Some ParentSelf -> never (decrypt_pending client cb parent m).
Proof.
  intros Hp. unfold decrypt_pending. apply never_bind; [solve_never|]. intros c.
  intros s. unfold mbind at 1, stm_bind at 1. destruct (conv_parent_id c) as [i|].
  - destruct parent as [p|]; [|done]. simpl.
    apply (never_bind (decrypt_no_restore m (Some p) client cb)); solve_never.
  - apply (never_bind (decrypt_no_restore m None client cb)); solve_never.
Qed.
#[local] Hint Resolve never_decrypt_pending : never.

Lemma never_restore_pending client cb parent rj :
  parent <> Some ParentSelf -> never (restore_pending_messages client cb parent rj).
Proof. intros Hp. solve_never. Qed.
#[local] Hint Resolve never_restore_pending : never.

Lemma never_conv_decrypt m parent client cb r :
  parent <> Some ParentSelf -> never (conv_decrypt_message m parent client cb r).
Proof. intros Hp. unfold conv_decrypt_message. solve_never. Qed.
#[local] Hint Resolve never_conv_decrypt : never.

(** ** MlsCentral *)

Implicit Types (c : MlsCentral) (id : bytes) (a : Arc).

Lemma never_get_central : never get_central.
Proof. done. Qed.

Lemma never_in_store {A} (f : GroupStore MlsConversation -> A * GroupStore MlsConversation) :
  never (in_store f).
Proof. intros s. unfold in_store. by destruct (f s.2). Qed.

Lemma never_with_client {A} (m : cc (MlsCryptoProvider * Client) A) : never m -> never (with_client m).
Proof.
  intros Hm c. unfold with_client. destruct (mls_client c) as [cl|]; [|done].
  specialize (Hm (mls_backend c, cl)). by destruct (m _).
Qed.

Lemma never_with_conv {A} a (m : cc (MlsCryptoProvider * MlsConversation) A) :
  never m -> never (with_conv a m).
Proof.
  intros Hm c. unfold with_conv. destruct (arc_read a (mls_groups c)) as [conv|]; [|done].
  specialize (Hm (mls_backend c, conv)). by destruct (m _).
Qed.

Lemma never_local_conv {A} conv (m : cc (MlsCryptoProvider * MlsConversation) A) :
  never m -> never (local_conv conv m).
Proof.
  intros Hm c. unfold local_conv. specialize (Hm (mls_backend c, conv)).
  destruct (m (mls_backend c, conv)) as [[] []]; simpl in *; congruence.
Qed.

Lemma never_merge_local g : never (merge_local g).
Proof. intros c. unfold merge_local. by destruct (merge_pending_commit _) as [[[]|] []]. Qed.

Lemma never_read_conv a : never (read_conv a).
Proof. intros c. rewrite read_conv_run. by destruct (arc_read _ _). Qed.

#[local] Hint Resolve never_get_central never_in_store never_merge_local never_read_conv : never.
End ops.

Ltac never_case ::= first [apply never_on | apply never_local_client | apply never_with_client
  | apply never_with_conv | apply never_local_conv].

Section central.
Context `{En : SqlEngine, Pr : Provider, Ty : OpenMlsTypes} `{!OpenMls, !OpenMlsLaws}.
Context `{!X509Lib, !IdCodecs, !F32Ln} {Ex : Exempt}.
Context `{Li : SchnellruLimits, Sc : Schnellru} `{!SchnellruLaws} `{!ConfigSerde, !ConfigSerdeLaws}.
Context `{Acme} `{!EnrollmentSerde}.
Implicit Types (c : MlsCentral) (id : bytes) (a : Arc).

#[local] Hint Resolve never_ks never_on_conn never_ks_map never_prov never_e2ei
  never_get_client never_get_provider never_push_identity never_get_conv never_get_group
  never_get_backend never_mod_group never_group_op never_parent_clients never_decrypt_with
  never_decrypt_pending never_restore_pending never_conv_decrypt
  never_get_central never_in_store never_merge_local never_read_conv : never.

Lemma never_fetch id i : never (fetch_from_id (V := MlsConversation) id i).
Proof. change (never (conv_fetch_from_id id i)). solve_never. Qed.
Lemma never_fetch_all : never (fetch_all (V := MlsConversation)).
Proof. change (never conv_fetch_all). solve_never. Qed.
#[local] Hint Resolve never_fetch never_fetch_all : never.

Lemma never_get_conversation id : never (get_conversation id).
Proof. solve_never. Qed.
Lemma never_parent_local o : never (parent_ref None o).
Proof. solve_never. Qed.
#[local] Hint Resolve never_get_conversation never_parent_local : never.

(** ** A conversation is not its own parent *)

Lemma parent_differs id a c conv k o c' :
  id ∉ own_parents -> coherent_with id a c -> arc_read a (mls_groups c) = Some conv ->
  conv_parent_id conv = Some k -> get_conversation k c = (Ok o, c') -> o <> a.
Proof.
  intros Hn (l & Hc & Ho) Hv Hp Hx. pose proof Ho as [(conv' & Hv' & _ & _ & _ & Hpk & _) _].
  specialize (Hpk Hn). assert (k <> id) as Hk by congruence.
  destruct (get_conversation_run l c k Hc) as (o' & c1 & Hx' & Hl). rewrite Hx in Hx'.
  destruct o' as [a'|]; [|done]. injection Hx' as <- ->.
  eapply owned_differ; [exact Hk|eapply looked_up_owned; [exact Hl|by left|done]|]. by destruct Hl as (_ & _ & _ & _ & _ & Hl & _).
Qed.

Lemma parent_ref_other a o c p c' :
  o <> Some a -> parent_ref (Some a) o c = (Ok p, c') -> p <> Some ParentSelf.
Proof.
  unfold parent_ref. intros Ho. destruct o as [a'|]; [|by intros [= <- _]].
  rewrite bool_decide_eq_false_2 by congruence. unfold mbind, stm_bind. rewrite read_conv_run.
  destruct (arc_read _ _); [|done]. by intros [= <- _].
Qed.

Lemma restore_parent_differs id a c conv o c' :
  id ∉ own_parents -> coherent_with id a c -> arc_read a (mls_groups c) = Some conv ->
  restore_parent (conv_parent_id conv) c = (Ok o, c') -> o <> Some a.
Proof.
  intros Hn Hc Hv. unfold restore_parent. destruct (conv_parent_id conv) as [k|] eqn:Hp; [|by intros [= <- _]].
  unfold mbind, stm_bind, attempt. destruct (get_conversation k c) as [[a'|[]] c1] eqn:Hx; intros [= <- _]; [|done].
  intros [= ->]. by eapply (parent_differs id a c conv k).
Qed.

Lemma get_parent_differs id a c o c' :
  id ∉ own_parents -> coherent_with id a c -> get_parent_conversation a c = (Ok o, c') -> o <> Some a.
Proof.
  intros Hn Hc. unfold get_parent_conversation, mbind at 1, stm_bind at 1. rewrite read_conv_run.
  destruct (arc_read a (mls_groups c)) as [conv|] eqn:Hv; [|done].
  destruct (conv_parent_id conv) as [k|] eqn:Hp; [|by intros [= <- _]].
  unfold mbind, stm_bind, attempt. destruct (get_conversation k c) as [[a'|[]] c1] eqn:Hx; intros [= <- _].
  intros [= ->]. by eapply (parent_differs id a c conv k).
Qed.

(** ** Calls *)

(** From a given state. *)
Definition never_at {S A} (s : S) (m : cc S A) : Prop := (m s).1 <> Err Deadlock.

Lemma never_at_bind {S A B} (m : cc S A) (f : A -> cc S B) s :
  never_at s m -> (forall x s', m s = (Ok x, s') -> never_at s' (f x)) -> never_at s (m ≫= f).
Proof.
  intros Hm Hf. unfold never_at, mbind, stm_bind in *.
  destruct (m s) as [[x|e] s']; [by apply Hf|simpl in *; congruence].
Qed.

Lemma never_all {S A} (m : cc S A) s : never m -> never_at s m.
Proof. intros Hm. apply Hm. Qed.

Lemma never_parent_ref a o : o <> Some a -> never (parent_ref (Some a) o).
Proof.
  intros Ho. unfold parent_ref. destruct o as [a'|]; [|apply never_ret].
  rewrite bool_decide_eq_false_2 by congruence. solve_never.
Qed.

(** With a parent that is another conversation. *)
Lemma never_at_parent {A} a o (f : option ParentRef -> cc MlsCentral A) c :
  o <> Some a -> (forall p, p <> Some ParentSelf -> never (f p)) ->
  never_at c (parent_ref (Some a) o ≫= f).
Proof.
  intros Ho Hf. apply never_at_bind; [by apply never_all, never_parent_ref|]. intros p c' Hx.
  apply Hf. by eapply parent_ref_other.
Qed.

Lemma never_at_restore id a c rj :
  id ∉ own_parents -> coherent_with id a c -> never_at c (central_restore_pending_messages a rj).
Proof.
  intros Hn Hc. unfold central_restore_pending_messages. apply never_at_bind; [apply never_all; solve_never|].
  intros conv c1. rewrite read_conv_run. destruct (arc_read _ _) as [conv'|] eqn:Hv; [|done]. intros [= -> <-].
  apply never_at_bind; [apply never_all; solve_never|]. intros o c2 Hx. apply (restore_parent_differs id a) in Hx; [|done..].
  do 2 (apply never_at_bind; [apply never_all; solve_never|]; intros ? ? _).
  apply never_at_parent; [done|]. intros p Hp. solve_never.
Qed.

Lemma never_at_commit_accepted id c :
  id ∉ own_parents -> coherent c -> never_at c (central_commit_accepted id).
Proof.
  intros Hn (l & Hc). unfold central_commit_accepted. apply never_at_bind; [apply never_all; solve_never|]. intros a c1 Hx.
  assert (coherent_with id a c1) as Hc1.
  { destruct (get_conversation_run l c id Hc) as (o & c1' & Hx' & Hl). rewrite Hx in Hx'.
    destruct o as [a'|]; [|done]. injection Hx' as <- ->. destruct Hl as (Hl & _ & _ & _ & _ & Ho & _). by exists l. }
  apply never_at_bind; [apply never_all; solve_never|]. intros [] c2 Hy.
  assert (coherent_with id a c2) as Hc2.
  { eapply (keeps_arc_with_conv id a); [|exact Hy|exact Hc1]. eauto with within nocore. }
  apply never_at_bind; [by eapply never_at_restore|]. intros o c3 _. apply never_all. solve_never.
Qed.

Lemma never_at_decrypt id m c :
  id ∉ own_parents -> coherent c -> never_at c (decrypt_message id m).
Proof.
  intros Hn (l & Hc). unfold decrypt_message. apply never_at_bind; [apply never_all; solve_never|].
  intros msg c0 Hx. assert (c0 = c) as -> by (unfold lift_res, st_lift in Hx; destruct (map_err _ _); by injection Hx).
  apply never_at_bind; [apply never_all; solve_never|]. intros r c1 Hg.
  destruct (get_conversation_run l c id Hc) as (o & c1' & Hx' & Hl). unfold attempt in Hg. rewrite Hx' in Hg.
  destruct o as [a|]; injection Hg as <- <-; [|apply never_all; solve_never].
  assert (coherent_with id a c1') as Hc1 by (destruct Hl as (Hl & _ & _ & _ & _ & Ho & _); by exists l).
  apply never_at_bind; [apply never_all; solve_never|]. intros p c2 Hp. apply (get_parent_differs id) in Hp; [|done..].
  do 2 (apply never_at_bind; [apply never_all; solve_never|]; intros ? ? _).
  apply never_at_parent; [done|]. intros q Hq. solve_never.
Qed.

(** [persist] on a conversation that is a local variable. *)
Lemma never_persist_local b conv :
  (match persist_group_when_changed true (b, conv) with
   | (Ok (), (b', conversation)) => (Ok conversation, b')
   | (Err e, (b', _)) => (Err e, b')
   end).1 <> Err Deadlock.
Proof.
  assert (never (persist_group_when_changed true)) as Hn by solve_never. specialize (Hn (b, conv)).
  destruct (persist_group_when_changed true (b, conv)) as [[[]|e] []]; simpl in *; congruence.
Qed.

Lemma never_from_mls_group g cfg : never (from_mls_group g cfg).
Proof. intros b. apply never_persist_local. Qed.

Lemma never_create id ct cfg : never (create id ct cfg).
Proof.
  unfold create. cbv zeta. repeat (apply never_bind; [solve_never|intros ?]).
  apply never_on. intros b. apply never_persist_local.
Qed.
#[local] Hint Resolve never_from_mls_group never_create : never.

Lemma never_rotate_loop cb arcs : forall commits, never (rotate_loop cb arcs commits).
Proof. induction arcs as [|a arcs IH]; intros commits; cbn [rotate_loop]; solve_never. Qed.
#[local] Hint Resolve never_rotate_loop : never.

Lemma never_at_restore_local conv rj c : never_at c (local_restore_pending_messages conv rj).
Proof.
  unfold local_restore_pending_messages. do 3 (apply never_at_bind; [apply never_all; solve_never|]; intros ? ? _).
  apply never_at_bind; [apply never_all; solve_never|]. intros p c' Hp.
  assert (p <> Some ParentSelf) as Hs; [|apply never_all; solve_never].
  revert Hp. unfold parent_ref. destruct x as [a|]; [|by intros [= <- _]].
  rewrite bool_decide_eq_false_2 by done. unfold mbind, stm_bind. rewrite read_conv_run.
  destruct (arc_read _ _); [|done]. by intros [= <- _].
Qed.

Lemma never_restore_local conv rj : never (local_restore_pending_messages conv rj).
Proof. intros c. apply never_at_restore_local. Qed.
#[local] Hint Resolve never_restore_local : never.

(** The calls that read the parent of a conversation while they hold its lock. *)
Inductive reads_parent : forall A, cc MlsCentral A -> bytes -> Prop :=
  | reads_accepted id : reads_parent _ (central_commit_accepted id) id
  | reads_decrypt id m : reads_parent _ (decrypt_message id m) id.

(** A call that waits for a lock that it holds reads the parent of a conversation that may be its
    own parent. *)
Lemma deadlock_own_parent c A (m : cc MlsCentral A) :
  coherent c -> central_call A m -> (m c).1 = Err Deadlock ->
  exists id, reads_parent A m id /\ id ∈ own_parents.
Proof.
  intros Hc Hm Hd. destruct Hm.
  all: try match type of Hd with
  | (central_commit_accepted ?i ?s).1 = _ =>
      exists i; split; [constructor|]; destruct (decide (i ∈ own_parents)); [done|];
      destruct (never_at_commit_accepted i s); done
  | (decrypt_message ?i ?m ?s).1 = _ =>
      exists i; split; [constructor|]; destruct (decide (i ∈ own_parents)); [done|];
      destruct (never_at_decrypt i m s); done
  end.
  all: exfalso; revert Hd; match goal with |- (?m ?c).1 = _ -> _ => apply (never_all m c) end; solve_never.
Qed.

Lemma never_mark child parent : never (mark_conversation_as_child_of child parent).
Proof. solve_never. Qed.
Lemma never_merge id : never (merge_pending_group_from_external_commit id).
Proof. solve_never. Qed.
End central.

Section live.
Context `{En : SqlEngine, Pr : Provider, Ty : OpenMlsTypes} `{!OpenMls, !OpenMlsLaws}.
Context `{!X509Lib, !IdCodecs, !F32Ln}.
Context `{Li : SchnellruLimits, Sc : Schnellru} `{!SchnellruLaws} `{!ConfigSerde, !ConfigSerdeLaws}.
Context `{Acme} `{!EnrollmentSerde}.
Implicit Types (c : MlsCentral) (id : bytes).

(** C3: the one way for a call to wait for ever is a conversation that was marked as a child of
    itself. In every state that calls lead to, a call that waits for a lock that it holds is one of
    the two that read the parent of a conversation while they hold it, [commit_accepted] and
    [decrypt_message], for a conversation of which that was done, now or before the key store was
    opened ([own]); as long as no conversation is marked as a child of itself none waits. Marking and merging never do. (Every call that does not
    wait comes to an end: the definitions are total.) *)
Theorem no_call_waits_for_ever cfg b l own c0 b' E c :
  groups_hold b l -> rows_ok (Ex := MkExempt own ∅) l -> pending_ok b ->
  MlsCentral_try_new cfg b = (Ok c0, b') -> rtc central_step (MkExempt own ∅, c0) (E, c) ->
  (forall A (m : cc MlsCentral A), central_call A m -> (m c).1 = Err Deadlock ->
     exists id, reads_parent A m id /\ id ∈ @own_parents E) /\
  (forall child parent, (mark_conversation_as_child_of child parent c).1 <> Err Deadlock) /\
  (forall id, (merge_pending_group_from_external_commit id c).1 <> Err Deadlock).
Proof.
  intros Hg Hr Hp Hn Hs. split; [|split].
  - intros A m. apply deadlock_own_parent. apply (central_steps_coherent (MkExempt own ∅, c0) (E, c)); [exact Hs|].
    by eapply (try_new_coherent (Ex := MkExempt own ∅)).
  - intros child parent. apply never_mark.
  - intros id. apply never_merge.
Qed.
End live.
