(* ===== verification/DecryptSpec.v ===== *)
(** * What decrypting a message promises

    How the epoch moves, what a refused message leaves alone, when a message is reported as
    buffered, stale or a duplicate, what our own commits do when they come back, whose approval
    an external commit needs, and in which order and with what outcome buffered messages are
    restored. *)

From S2P Require Import Prelude KsError Sql SqlSpec Entity TableFrame.
From S2P Require Import MlsGroups MlsPending MlsKeys E2eiEntities Keystore.
From S2P Require Import CcError Ids Backend OpenMls Config CommitDelay Credential Conversation.
From S2P Require Import Renew Decrypt ConvFrame.
Open Scope Z_scope.

Section spec.
Context `{En : SqlEngine, Provider, OpenMlsTypes} `{!OpenMls, !OpenMlsLaws, !X509Lib, !IdCodecs, !F32Ln}.

Abbreviation ConvState := (MlsCryptoProvider * MlsConversation)%type.

(** ** Three relations every operation respects *)

(** The epoch never goes back. *)
Definition epoch_le (s s' : ConvState) : Prop := epoch (conv_group s.2) <= epoch (conv_group s'.2).

(** The conversation keeps its id, and its parent. *)
Definition same_conv (s s' : ConvState) : Prop :=
  conv_id s'.2 = conv_id s.2 /\ conv_parent_id s'.2 = conv_parent_id s.2.

(** The table of buffered messages. *)
Definition buffer_kept (s s' : ConvState) : Prop := tables ["mls_pending_messages"] s.1 s'.1.

#[export] Program Instance epoch_le_rel : ConvRel epoch_le.
Next Obligation. split; [intros s; unfold epoch_le; lia|intros ? ? ?; unfold epoch_le; lia]. Qed.
Next Obligation.
  intros E A f op Hop s r s' (t & Hx & ->)%on_inv. unfold st_map_err in Hx.
  destruct (op (s.1, conv_group s.2)) as [r1 t1] eqn:Ho. injection Hx as _ <-.
  by destruct (Hop _ _ _ Ho) as (_ & _ & _ & He & _).
Qed.
Next Obligation.
  intros s r s' [= _ <-]. unfold epoch_le. simpl.
  destruct (clear_pending_commit_none (conv_group s.2)) as (_ & -> & _). lia.
Qed.
Next Obligation.
  intros q s r s' [= _ <-]. unfold epoch_le. simpl.
  destruct (store_pending_proposal_same q (conv_group s.2)) as (-> & _). lia.
Qed.
Next Obligation.
  intros force s r s' [_ [E|E]]%(persist_inv [] _ _ _ _ (not_elem_of_nil _)); unfold epoch_le; rewrite E; simpl; [lia|].
  destruct (set_state_same Persisted (conv_group s.2)) as (-> & _). lia.
Qed.
Next Obligation. intros A m Hm s r s' (b & _ & ->)%on_inv. unfold epoch_le. simpl. lia. Qed.

#[export] Program Instance same_conv_rel : ConvRel same_conv.
Next Obligation. split; [done|intros s1 s2 s3 [] []; split; congruence]. Qed.
Next Obligation. by intros E A f op Hop s r s' (t & _ & ->)%on_inv. Qed.
Next Obligation. by intros s r s' [= _ <-]. Qed.
Next Obligation. by intros q s r s' [= _ <-]. Qed.
Next Obligation. by intros force s r s' [_ [E|E]]%(persist_inv [] _ _ _ _ (not_elem_of_nil _)); unfold same_conv; rewrite E. Qed.
Next Obligation. by intros A m Hm s r s' (b & _ & ->)%on_inv. Qed.

#[export] Program Instance buffer_kept_rel : ConvRel buffer_kept.
Next Obligation. split; [intros s; apply tables_refl|intros s1 s2 s3; apply tables_trans]. Qed.
Next Obligation.
  intros E A f op Hop s r s' (t & Hx & ->)%on_inv. unfold st_map_err in Hx.
  destruct (op (s.1, conv_group s.2)) as [r1 t1] eqn:Ho. injection Hx as _ <-.
  destruct (Hop _ _ _ Ho) as (Ht & _). eapply tables_sub; [|exact Ht]. unfold conv_tables. set_solver.
Qed.
Next Obligation. intros s r s' [= _ <-]. apply tables_refl. Qed.
Next Obligation. intros q s r s' [= _ <-]. apply tables_refl. Qed.
Next Obligation. by intros force s r s' [Ht _]%(persist_inv ["mls_pending_messages"]); [|set_solver]. Qed.
Next Obligation.
  intros A m Hm s r s' (b & Hx & ->)%on_inv. apply Hm in Hx.
  eapply tables_sub; [|exact Hx]. unfold conv_rows. set_solver.
Qed.

(** ** Parsing *)

Definition protocol_of (m : MlsMessageIn) : option ProtocolMessage :=
  match m with
  | MPublicMessage m => Some (PMPublic m)
  | MPrivateMessage m => Some (PMPrivate m)
  | _ => None
  end.

Definition pm_content_type (pm : ProtocolMessage) : ContentType :=
  match pm with PMPublic m => body_content_type (pub_body m) | PMPrivate m => prv_content_type m end.

(** Is a message one that the group has seen? Only of a public one can that be told. *)
Definition duplicate_of (s : ConvState) (pm : ProtocolMessage) : CryptoResult bool :=
  match pm with
  | PMPublic m => is_duplicate_message s.1 (conv_group s.2) m
  | PMPrivate _ => Ok false
  end.

(** What is the same before and after a message that has only been read: the tables of the
    conversation, and in memory all but the ratchets of the group. *)
Definition untouched (s s' : ConvState) : Prop :=
  tables conv_tables s.1 s'.1 /\ same_epoch (conv_group s.2) (conv_group s'.2) /\ same_conv s s'.

Lemma untouched_refl s : untouched s s.
Proof. by split_and!. Qed.

Lemma parse_message_run m pm dup s :
  protocol_of m = Some pm -> duplicate_of s pm = Ok dup ->
  let (r, t) := process_message pm (s.1, conv_group s.2) in
  parse_message m s =
    (match r with
     | Ok p => if dup : bool then Err (Throw DuplicateMessage) else Ok p
     | Err e => Err (Throw (parse_error dup (protocol_epoch pm) (epoch (conv_group s.2))
                              (pm_content_type pm) e))
     end, (t.1, set_group t.2 s.2)) /\
  untouched s (t.1, set_group t.2 s.2).
Proof.
  intros Hpm Hd. destruct (process_message pm (s.1, conv_group s.2)) as [r [b g]] eqn:Hp. split.
  - unfold parse_message. do 2 stm_ok.
    assert (forall p : ProtocolMessage * ContentType * bool, p = (pm, pm_content_type pm, dup) ->
      (let '(protocol_message, content_type, is_duplicate) := p in
       processed_msg ← group_op (parse_error is_duplicate (protocol_epoch protocol_message)
           (epoch (conv_group s.2)) content_type) (process_message protocol_message);
       if is_duplicate then throw DuplicateMessage else mret processed_msg) s =
      (match r with
       | Ok p => if dup : bool then Err (Throw DuplicateMessage) else Ok p
       | Err e => Err (Throw (parse_error dup (protocol_epoch pm) (epoch (conv_group s.2))
                              (pm_content_type pm) e))
       end, (b, set_group g s.2))) as Hrest.
    { intros ? ->. unfold mbind, stm_bind, group_op, on, st_map_err. rewrite Hp. simpl.
      destruct r; [|done]. by destruct dup. }
    destruct m; simplify_eq/=.
    + rewrite stm_bind_assoc. erewrite stm_bind_ok by (unfold lift_res, st_lift; rewrite Hd; reflexivity).
      stm_ok. by apply Hrest.
    + stm_ok. by apply Hrest.
  - destruct (process_message_framed pm _ _ _ Hp) as (Ht & _).
    split_and!; [exact Ht|exact (process_message_same _ _ _ _ _ _ Hp)|done].
Qed.

(** A message of another kind is refused before anything is looked at. *)
Lemma parse_message_inv m s r s' : parse_message m s = (r, s') -> untouched s s'.
Proof.
  destruct (protocol_of m) as [pm|] eqn:Hpm.
  - destruct (duplicate_of s pm) as [dup|e] eqn:Hd.
    + pose proof (parse_message_run m pm dup s Hpm Hd) as Hrun.
      destruct (process_message pm _) as [r0 t]. destruct Hrun as [-> Hu]. by intros [= _ <-].
    + destruct m; simplify_eq/=. unfold parse_message. do 2 stm_ok. rewrite stm_bind_assoc.
      unfold mbind, stm_bind at 1, lift_res, st_lift. rewrite Hd. intros [= _ <-].
      apply untouched_refl.
  - unfold parse_message. do 2 stm_ok. destruct m; try done; intros [= _ <-]; apply untouched_refl.
Qed.

(** What [decrypt_message] does once it is known not to be a commit of our own. *)
Lemma decrypt_message_parse_error m p client cb rp s e s' :
  maybe_self_member_commit (conv_group s.2) m = Ok None -> parse_message m s = (Err e, s') ->
  conv_decrypt_message m p client cb rp s = (Err e, s').
Proof.
  intros Hs Hp. unfold conv_decrypt_message, decrypt_with. stm_ok.
  erewrite stm_bind_ok by (unfold lift_res, st_lift; rewrite Hs; reflexivity).
  cbv iota beta. by erewrite stm_bind_err.
Qed.

(** ** Messages of another epoch, and duplicates *)

(** C18: a message that OpenMLS refuses because of its epoch is reported by where that epoch is:
    as one to buffer exactly when it is of the very next epoch, as a stale commit or proposal
    when it is of an earlier one, as of a wrong epoch otherwise; a public message the group has
    seen is a duplicate whatever its epoch. In each case the conversation is left as it was. *)
Theorem wrong_epoch_message m pm dup p client cb rp s :
  maybe_self_member_commit (conv_group s.2) m = Ok None ->
  protocol_of m = Some pm -> duplicate_of s pm = Ok dup ->
  (process_message pm (s.1, conv_group s.2)).1 = Err (ProcessValidationError ValidationWrongEpoch) ->
  let me := protocol_epoch pm in
  let ge := epoch (conv_group s.2) in
  let ct := pm_content_type pm in
  exists e s', conv_decrypt_message m p client cb rp s = (Err (Throw e), s') /\ untouched s s' /\
    (e = DuplicateMessage <-> dup = true) /\
    (e = BufferedFutureMessage <-> dup = false /\ me = ge + 1) /\
    (e = StaleCommit <-> dup = false /\ me < ge /\ ct = CTCommit) /\
    (e = StaleProposal <-> dup = false /\ me < ge /\ ct = CTProposal) /\
    (e = WrongEpoch <-> dup = false /\ (me < ge /\ ct = CTApplication \/ me = ge \/ ge + 1 < me)).
Proof.
  intros Hs Hpm Hd He me ge ct. pose proof (parse_message_run m pm dup s Hpm Hd) as Hrun.
  destruct (process_message pm _) as [r t]. simpl in He. subst r. destruct Hrun as [Hrun Hu].
  eexists _, _. split; [by eapply decrypt_message_parse_error|]. split; [exact Hu|].
  fold me ge ct. unfold parse_error. clear -En. clearbody me ge ct.
  destruct dup; [intuition congruence|].
  destruct (Z.eqb_spec me (ge + 1)); [intuition (congruence || lia)|].
  destruct (Z.ltb_spec me ge), ct; intuition (congruence || lia).
Qed.

(** A public message that the group has already seen (a commit with the confirmation tag of
    the current epoch, a proposal that is already pending) is never applied again: decrypting it
    is an error that leaves the conversation as it was, and the error is the one for duplicates
    when OpenMLS accepts the message. *)
Lemma duplicate_not_applied m pm p client cb rp s :
  maybe_self_member_commit (conv_group s.2) m = Ok None ->
  protocol_of m = Some pm -> duplicate_of s pm = Ok true ->
  exists e s', conv_decrypt_message m p client cb rp s = (Err (Throw e), s') /\ untouched s s' /\
    (is_ok (process_message pm (s.1, conv_group s.2)).1 = true -> e = DuplicateMessage).
Proof.
  intros Hs Hpm Hd. pose proof (parse_message_run m pm true s Hpm Hd) as Hrun.
  destruct (process_message pm _) as [r t]. destruct Hrun as [Hrun Hu].
  destruct r; eexists _, _; (split; [by eapply decrypt_message_parse_error|]); by split.
Qed.

(** When two commits have the same tag, or a proposal is pending: what a duplicate is. *)
Lemma duplicate_commit b g m i ct :
  pub_body m = BCommit -> pub_sender m = SMember i -> pub_confirmation_tag m = Some ct ->
  compute_confirmation_tag b g = Ok ct -> is_duplicate_message b g m = Ok true.
Proof.
  intros Hb Hs Hct Hg. unfold is_duplicate_message. rewrite Hb, Hs, Hct, Hg. simpl.
  by rewrite bool_decide_true.
Qed.

(** ** Commits of our own *)

Lemma persist_keeps_epoch force s r s' :
  persist_group_when_changed force s = (r, s') -> same_epoch (conv_group s.2) (conv_group s'.2).
Proof. intros [_ [->| ->]]%(persist_inv [] _ _ _ _ (not_elem_of_nil _)); [by split_and!|]. apply set_state_same. Qed.

Lemma st_iter_backend {A} (f : A -> cc MlsCryptoProvider ()) l s r s' :
  st_iter (fun a => attempt (backend (f a));; mret ()) l s = (r, s') -> s'.2 = s.2.
Proof.
  revert s. induction l as [|a l IH]; intros s; simpl; [by intros [= _ <-]|].
  unfold mbind at 1, stm_bind at 1. destruct ((attempt _ ≫= _) s) as [r1 s1] eqn:Hx.
  assert (s1.2 = s.2) as <-.
  { revert Hx. unfold mbind, stm_bind, attempt, backend, on. destruct (f a s.1) as [[|[]] b];
      by intros [= _ <-]. }
  destruct r1; [apply IH|by intros [= _ <-]].
Qed.

Lemma commit_accepted_epoch s s' :
  commit_accepted s = (Ok (), s') -> next_epoch (conv_group s.2) (conv_group s'.2).
Proof.
  unfold commit_accepted. stm_ok. intros (u & s1 & Hm & Hx)%stm_bind_inv.
  apply stm_bind_inv in Hx as ([] & s2 & Hp & Hi).
  apply st_iter_backend in Hi. rewrite Hi.
  apply on_inv in Hm as ([b g] & Hm & ->). unfold st_map_err in Hm.
  destruct (merge_pending_commit _) as [[[]|e] t] eqn:Hmp; [|done]. injection Hm as _ ->.
  apply merge_pending_commit_next in Hmp as [(E1 & E2 & E3) _].
  apply persist_keeps_epoch in Hp as (P1 & P2 & P3 & _). simpl in *.
  split_and!; congruence.
Qed.

Lemma merge_own_commit s d s' :
  conv_merge_pending_commit s = (Ok d, s') ->
  next_epoch (conv_group s.2) (conv_group s'.2) /\
  dm_has_epoch_changed d = true /\ dm_is_active d = is_active (conv_group s'.2).
Proof.
  unfold conv_merge_pending_commit. intros ([] & s1 & Hc & Hx)%stm_bind_inv.
  apply stm_bind_inv in Hx as (g & s2 & Hg & Hx). injection Hg as <- <-.
  apply stm_bind_inv in Hx as (leaf & s2 & Hl & Hx). injection Hl as _ <-.
  apply stm_bind_inv in Hx as (i & s2 & Hl & Hx). injection Hl as _ <-.
  injection Hx as <- <-. split; [by apply commit_accepted_epoch|done].
Qed.

(** C19: when a commit that we have sent comes back, it is merged if it is the pending one, and
    then the epoch is exactly one more and nothing is pending; if another commit of ours is pending it
    is an error, and if none is it is ignored, both without any change. *)
Theorem own_commit_comes_back msg ct p client cb rp s r s' :
  pub_body msg = BCommit -> pub_sender msg = SMember (own_leaf_index (conv_group s.2)) ->
  pub_confirmation_tag msg = Some ct ->
  conv_decrypt_message (MPublicMessage msg) p client cb rp s = (r, s') ->
  match pending_commit (conv_group s.2) with
  | None => r = Err (Throw SelfCommitIgnored) /\ s' = s
  | Some pending =>
      if bool_decide (confirmation_tag pending = ct) then
        forall d, r = Ok d -> next_epoch (conv_group s.2) (conv_group s'.2) /\
          dm_has_epoch_changed d = true /\ dm_is_active d = is_active (conv_group s'.2)
      else r = Err (Throw ClearingPendingCommitError) /\ s' = s
  end.
Proof.
  intros Hb Hs Hct. unfold conv_decrypt_message, decrypt_with. stm_ok.
  assert (maybe_self_member_commit (conv_group s.2) (MPublicMessage msg) = Ok (Some ct)) as Hself.
  { unfold maybe_self_member_commit. by rewrite Hb, Hs, !bool_decide_true, Hct. }
  erewrite stm_bind_ok by (unfold lift_res, st_lift; rewrite Hself; reflexivity). cbv iota beta.
  unfold handle_self_member_commit. stm_ok. unfold eq_pending_commit.
  destruct (pending_commit (conv_group s.2)) as [pc|]; [|by intros [= <- <-]].
  case_bool_decide; [|by intros [= <- <-]].
  intros Hx d ->. by apply merge_own_commit.
Qed.

(** ** External commits and proposals *)

(** The clients of the parent the application is told of; [None] when the parent cannot be read. *)
Definition parents_of (p : option ParentRef) : option (option (list bytes)) :=
  match p with
  | None => Some None
  | Some (ParentOther c) => Some (Some (get_client_ids c))
  | Some ParentSelf => None
  end.

(** The application is asked whether the user is in the group already, and whether it may join. *)
Definition approves_commit (cb : option CoreCryptoCallbacks) (c : MlsConversation) (sender : bytes)
    (p : option ParentRef) : Prop :=
  exists f parents, cb = Some f /\ parents_of p = Some parents /\
    client_is_existing_group_user f (conv_id c) sender (members_in_next_epoch c) parents = true /\
    user_authorize f (conv_id c) sender (members_in_next_epoch c) = true.

Definition approves_proposal (cb : option CoreCryptoCallbacks) (c : MlsConversation) (sender : bytes)
    (p : option ParentRef) : Prop :=
  exists f parents, cb = Some f /\ parents_of p = Some parents /\
    client_is_existing_group_user f (conv_id c) sender (members_in_next_epoch c) parents = true.

(** What has to be approved before a processed message may change the group. *)
Definition approved (cb : option CoreCryptoCallbacks) (c : MlsConversation) (msg : ProcessedMessage)
    (p : option ParentRef) : Prop :=
  match processed_content msg with
  | StagedCommitMessage commit =>
      is_external_init commit = true ->
      approves_commit cb c (identity (processed_credential msg)) p
  | ExternalJoinProposalMessage q =>
      forall kp, is_external q = true -> qp_proposal q = PAdd kp ->
      approves_proposal cb c (identity (leaf_credential (kp_leaf_node kp))) p
  | _ => True
  end.

Lemma parent_clients_run p (s : ConvState) :
  parent_clients p s = (match parents_of p with Some x => Ok x | None => Err Deadlock end, s).
Proof. by destruct p as [[]|]. Qed.

Lemma validate_commit_run c s : validate_commit c s = (Ok (), s).
Proof.
  unfold validate_commit. stm_ok. destruct (is_env_setup s.1); [|done]. by case_bool_decide.
Qed.

Lemma validate_external_commit_run c sender p cb s r s' :
  validate_external_commit c sender p cb s = (r, s') ->
  s' = s /\ (r = Ok () -> is_external_init c = true -> approves_commit cb s.2 sender p).
Proof.
  unfold validate_external_commit. stm_ok. destruct (is_external_init c).
  - destruct cb as [f|]; [|by intros [= <- <-]].
    unfold some_or, ok_or, lift_res, st_lift. simpl map_err. rewrite stm_bind_assoc. stm_ok.
    rewrite stm_bind_assoc. unfold mbind at 1, stm_bind at 1. rewrite parent_clients_run.
    destruct (parents_of p) as [parents|] eqn:Hp; [|by intros [= <- <-]].
    destruct (client_is_existing_group_user _ _ _ _ _) eqn:Hu1; [|by intros [= <- <-]].
    destruct (user_authorize _ _ _ _) eqn:Hu2; [|by intros [= <- <-]]. simpl. stm_ok.
    rewrite validate_commit_run. intros [= <- <-]. split; [done|]. intros _ _. by exists f, parents.
  - stm_ok. rewrite validate_commit_run. by intros [= <- <-].
Qed.

Lemma validate_external_proposal_run q p cb s r s' :
  validate_external_proposal q p cb s = (r, s') ->
  s' = s /\ (r = Ok () -> forall kp, is_external q = true -> qp_proposal q = PAdd kp ->
    approves_proposal cb s.2 (identity (leaf_credential (kp_leaf_node kp))) p).
Proof.
  unfold validate_external_proposal. stm_ok. destruct (is_external q); [|by intros [= <- <-]].
  destruct (qp_proposal q) as [add| | | |]; try by intros [= <- <-].
  destruct cb as [f|]; [|by intros [= <- <-]].
  unfold some_or, ok_or, lift_res, st_lift. simpl map_err. stm_ok.
  unfold mbind at 1, stm_bind at 1. rewrite parent_clients_run.
  destruct (parents_of p) as [parents|] eqn:Hp; [|by intros [= <- <-]].
  destruct (client_is_existing_group_user _ _ _ _ _) eqn:Hu1; [|by intros [= <- <-]].
  intros [= <- <-]. split; [done|]. intros _ kp _ [= <-]. by exists f, parents.
Qed.

(** C16: an external commit, by which a client adds itself to the group, is merged only if the application
    has set its callbacks and both of them approve, and an external proposal to add a client is
    kept only if the first does; otherwise decrypting is an error and the conversation is left
    as it was. *)
Theorem external_senders_need_approval m msg p client cb rp s s1 r s' :
  maybe_self_member_commit (conv_group s.2) m = Ok None -> parse_message m s = (Ok msg, s1) ->
  ~ approved cb s1.2 msg p -> conv_decrypt_message m p client cb rp s = (r, s') ->
  is_ok r = false /\ s' = s1 /\ untouched s s1.
Proof.
  intros Hs Hp Ha. pose proof (parse_message_inv _ _ _ _ Hp) as Hu.
  unfold conv_decrypt_message, decrypt_with. stm_ok.
  erewrite stm_bind_ok by (unfold lift_res, st_lift; rewrite Hs; reflexivity). cbv iota beta.
  erewrite stm_bind_ok by exact Hp. cbv zeta.
  destruct (extract_identity (processed_credential msg)) as [ident|e] eqn:Hi.
  2: { erewrite stm_bind_err by (unfold lift_res, st_lift; simpl; reflexivity). by intros [= <- <-]. }
  erewrite stm_bind_ok by (unfold lift_res, st_lift; simpl; reflexivity).
  unfold decrypt_content. unfold approved in Ha.
  destruct (processed_content msg) as [a|q|q|c]; try by destruct Ha.
  - unfold mbind at 1, stm_bind at 1. unfold mbind at 1, stm_bind at 1.
    destruct (validate_external_proposal _ _ _ _) as [[[]|e] s2] eqn:Hv;
      apply validate_external_proposal_run in Hv as [-> Hv]; [|by intros [= <- <-]].
    destruct Ha. by apply Hv.
  - unfold mbind at 1, stm_bind at 1. unfold mbind at 1, stm_bind at 1.
    destruct (validate_external_commit _ _ _ _ _) as [[[]|e] s2] eqn:Hv;
      apply validate_external_commit_run in Hv as [-> Hv]; [|by intros [= <- <-]].
    destruct Ha. by apply Hv.
Qed.

(** ** The epoch *)

Lemma epoch_le_remove id : within epoch_le (backend (ks (Connection_remove MlsPendingMessage id))).
Proof. intros s r s' (b & _ & ->)%on_inv. unfold epoch_le. simpl. lia. Qed.

Lemma same_conv_remove id : within same_conv (backend (ks (Connection_remove MlsPendingMessage id))).
Proof. by intros s r s' (b & _ & ->)%on_inv. Qed.

(** A merged commit moves the epoch, and nothing after it moves it back. *)
Lemma decrypt_commit_epoch restore client c i s d s' :
  within epoch_le restore -> decrypt_commit client c i restore s = (Ok d, s') ->
  epoch (conv_group s.2) < epoch (conv_group s'.2) /\ dm_has_epoch_changed d = true /\
  dm_is_active d = is_active (conv_group s'.2).
Proof.
  intros Hres. unfold decrypt_commit. stm_ok. cbv zeta.
  intros (x1 & s1 & E1 & Hx)%stm_bind_inv. injection E1 as _ <-.
  apply stm_bind_inv in Hx as (x2 & s1 & E1 & Hx). injection E1 as _ <-.
  apply stm_bind_inv in Hx as (x3 & s1 & E1 & Hx). apply on_inv in E1 as (b1 & _ & ->).
  apply stm_bind_inv in Hx as ([] & s2 & E2 & Hx). apply on_inv in E2 as ([b g] & E2 & ->).
  unfold st_map_err in E2. destruct (merge_staged_commit c _) as [[[]|e] t] eqn:Hm; [|done].
  injection E2 as ->. apply merge_staged_commit_next in Hm as [He _].
  apply stm_bind_inv in Hx as (g' & s3 & E3 & Hx). injection E3 as <- <-. simpl in Hx.
  destruct (renew _ _ _ _) as [ps nu].
  apply stm_bind_inv in Hx as (x4 & s4 & E4 & Hx).
  apply (within_renew_proposals epoch_le) in E4.
  apply stm_bind_inv in Hx as (x5 & s5 & E5 & Hx). apply Hres in E5.
  apply stm_bind_inv in Hx as (g5 & s6 & E6 & Hx). injection E6 as <- <-.
  injection Hx as <- <-. split_and!; [|done..]. unfold epoch_le in *. simpl in *. lia.
Qed.

Lemma decrypt_proposal_epoch q i s d s' :
  decrypt_proposal q i s = (Ok d, s') ->
  epoch (conv_group s'.2) = epoch (conv_group s.2) /\ dm_has_epoch_changed d = false.
Proof.
  unfold decrypt_proposal. intros (x1 & s1 & E1 & Hx)%stm_bind_inv. injection E1 as _ <-.
  apply stm_bind_inv in Hx as (x2 & s1 & E1 & Hx). apply on_inv in E1 as (b1 & _ & ->).
  apply stm_bind_inv in Hx as ([] & s2 & E2 & Hx). injection E2 as <-.
  apply stm_bind_inv in Hx as (g & s3 & E3 & Hx). injection E3 as <- <-. injection Hx as <- <-.
  split; [|done]. simpl. apply store_pending_proposal_same.
Qed.

Lemma decrypt_content_epoch restore client cb p sid i content s d s' :
  within epoch_le restore -> decrypt_content client cb p sid i content restore s = (Ok d, s') ->
  if dm_has_epoch_changed d then epoch (conv_group s.2) < epoch (conv_group s'.2)
  else epoch (conv_group s'.2) = epoch (conv_group s.2).
Proof.
  intros Hres. destruct content as [a|q|q|c]; cbn [decrypt_content].
  - by intros [= <- <-].
  - intros Hx. by apply decrypt_proposal_epoch in Hx as [Hx ->].
  - intros ([] & s1 & E1 & Hx)%stm_bind_inv. apply validate_external_proposal_run in E1 as [-> _].
    by apply decrypt_proposal_epoch in Hx as [Hx ->].
  - intros ([] & s1 & E1 & Hx)%stm_bind_inv. apply validate_external_commit_run in E1 as [-> _].
    apply stm_bind_inv in Hx as ([] & s1 & E1 & Hx). rewrite validate_commit_run in E1.
    injection E1 as <-. by apply (decrypt_commit_epoch _ _ _ _ _ _ _ Hres) in Hx as (Hx & -> & _).
Qed.

(** [has_epoch_changed] tells the truth: a message that is decrypted with it has moved the
    conversation to a later epoch, and one without has left it in the same epoch. Whatever a
    call answers, the epoch never goes back. *)
Lemma has_epoch_changed_spec m p client cb rp s r s' :
  conv_decrypt_message m p client cb rp s = (r, s') ->
  epoch (conv_group s.2) <= epoch (conv_group s'.2) /\
  match r with
  | Ok d => if dm_has_epoch_changed d then epoch (conv_group s.2) < epoch (conv_group s'.2)
            else epoch (conv_group s'.2) = epoch (conv_group s.2)
  | Err _ => True
  end.
Proof.
  intros Hx. split.
  { by apply (within_decrypt_message epoch_le epoch_le_remove) in Hx. }
  destruct r as [d|e]; [|done]. revert Hx. unfold conv_decrypt_message.
  assert (within epoch_le (if rp then restore_after_commit client cb p else mret None)) as Hres.
  { destruct rp; [|solve_within]. by apply (within_restore_after_commit epoch_le epoch_le_remove). }
  revert Hres. generalize (if rp then restore_after_commit client cb p else mret None) as restore.
  intros restore Hres. unfold decrypt_with. stm_ok. intros (sc & s1 & E1 & Hx)%stm_bind_inv.
  injection E1 as Hsc <-. destruct sc as [ct|].
  - unfold handle_self_member_commit in Hx.
    apply stm_bind_inv in Hx as (g & s1 & Hg & Hx). injection Hg as <- <-.
    destruct (pending_commit _); [|done]. destruct (eq_pending_commit _ _); [|done].
    apply merge_own_commit in Hx as ((He & _) & -> & _). lia.
  - apply stm_bind_inv in Hx as (msg & s1 & Hp & Hx).
    apply parse_message_inv in Hp as (_ & (He & _) & _).
    apply stm_bind_inv in Hx as (i & s2 & Hi & Hx). injection Hi as _ <-.
    apply stm_bind_inv in Hx as (d' & s2 & Hd & Hx).
    apply (decrypt_content_epoch _ _ _ _ _ _ _ _ _ _ Hres) in Hd.
    apply stm_bind_inv in Hx as ([] & s3 & Hpe & Hx). injection Hx as -> <-.
    apply persist_keeps_epoch in Hpe as (Hpe & _).
    destruct (dm_has_epoch_changed d); lia.
Qed.

(** ** Buffered messages *)

Definition buffer_holds (s : ConvState) (l : list MlsPendingMessage) : Prop :=
  healthy (key_store s.1) /\ rep MlsPendingMessage_layout (conn_view (key_store s.1)) l.

(** The messages of a conversation, and those of the others. *)
Definition mine (id : bytes) (l : list MlsPendingMessage) : list MlsPendingMessage :=
  List.filter (fun pm => bool_decide (pm_id pm = id)) l.
Definition others (id : bytes) (l : list MlsPendingMessage) : list MlsPendingMessage :=
  List.filter (fun pm => negb (bool_decide (pm_id pm = id))) l.

(** Applications first, then proposals, then commits, each in the order of the table. *)
Definition in_content_order (ps : list (Z * MlsMessageIn)) : list (Z * MlsMessageIn) :=
  let kind ct := List.filter (fun p => Z.eqb p.1 (ContentType_as_u8 ct)) ps in
  kind CTApplication ++ kind CTProposal ++ kind CTCommit.

Lemma buffer_kept_holds s s' l : buffer_holds s l -> buffer_kept s s' -> buffer_holds s' l.
Proof. intros [Hh Hl] Ht. eapply (tables_rep _ _ _ _ _ Hh Hl Ht). by left. Qed.

Lemma read_pending_key m x : read_pending m = Ok x -> x.1 = 1 \/ x.1 = 2 \/ x.1 = 3.
Proof.
  unfold read_pending, mbind, result_bind. destruct (mls_err _ _) as [msg|]; [|done].
  assert (forall ct, ContentType_as_u8 ct = 1 \/ ContentType_as_u8 ct = 2 \/ ContentType_as_u8 ct = 3)
    as Hct by (intros []; simpl; lia).
  destruct msg; try done; intros [= <-]; apply Hct.
Qed.

Lemma read_pending_keys l ps :
  try_map read_pending l = Ok ps ->
  length ps = length l /\ Forall (fun x => x.1 = 1 \/ x.1 = 2 \/ x.1 = 3) ps.
Proof.
  revert ps. induction l as [|m l IH]; intros ps; simpl; [by intros [= <-]|].
  unfold mbind, result_bind. destruct (read_pending m) as [x|] eqn:Hx; [|done].
  destruct (try_map read_pending l) as [xs|]; [|done]. intros [= <-].
  destruct (IH xs eq_refl) as [Hl Hf]. split; [by f_equal/=|]. constructor; [|done].
  by eapply read_pending_key.
Qed.

Lemma st_map_length {A B} (f : A -> cc ConvState B) l s bs s' :
  st_map f l s = (Ok bs, s') -> length bs = length l.
Proof.
  revert s bs. induction l as [|a l IH]; intros s bs; simpl; [by intros [= <- _]|].
  intros (b & s1 & _ & Hx)%stm_bind_inv. apply stm_bind_inv in Hx as (bs' & s2 & Hx & Hy).
  injection Hy as <- <-. simpl. f_equal. by eapply IH.
Qed.

Lemma mine_others id l : (length (others id l) < length l)%nat <-> mine id l <> [].
Proof.
  unfold mine, others. induction l as [|m l IH]; simpl; [split; [lia|done]|].
  destruct (bool_decide _); simpl; [|rewrite <-IH; lia]. split; [done|]. intros _.
  pose proof (List.filter_length_le (fun pm => negb (bool_decide (pm_id pm = id))) l). lia.
Qed.

Lemma decrypt_all_within (R : relation ConvState) `{!ConvRel R} client cb p (l : list (Z * MlsMessageIn)) :
  within R (st_map (fun x => decrypt_pending client cb p x.2) l).
Proof. apply (within_st_map R). intros x. apply (within_decrypt_pending R). Qed.

(** Reading and restoring the messages, without removing them. *)
Lemma restore_pending_run client cb p l s r s' :
  buffer_holds s l -> restore_pending_messages client cb p false s = (r, s') ->
  buffer_holds s' l /\ conv_id s'.2 = conv_id s.2 /\
  match r with
  | Ok None => mine (conv_id s.2) l = []
  | Ok (Some ms) => mine (conv_id s.2) l <> [] /\
      exists ps s1, try_map read_pending (mine (conv_id s.2) l) = Ok ps /\
        length ms = length (mine (conv_id s.2) l) /\
        st_map (fun x => decrypt_pending client cb p x.2) (in_content_order ps) s1 = (Ok ms, s')
  | Err _ => True
  end.
Proof.
  intros [Hh Hl]. unfold restore_pending_messages. stm_ok. cbv zeta.
  assert (run (Connection_find_all (E := MlsPendingMessage) EntityFindParams_default)
    (conn_view (key_store s.1)) = (Ok l, conn_view (key_store s.1))) as Hr.
  { exact (MlsPendingMessage_find_all_ok _ l EntityFindParams_default Hl). }
  destruct (ks_ok _ _ _ _ Hh Hr) as (c & Hk & Hv & Hh').
  erewrite stm_bind_ok by (unfold backend; rewrite (on_ok _ _ _ _ _ _ Hk); reflexivity).
  set (s1 := (set_key_store c s.1, s.2) : ConvState).
  assert (buffer_holds s1 l) as Hb1 by (by split; simpl; rewrite ?Hv).
  fold (mine (conv_id s.2) l).
  destruct (try_map read_pending (mine (conv_id s.2) l)) as [ps|e] eqn:Hps.
  2: { erewrite stm_bind_err by reflexivity. by intros [= <- <-]. }
  destruct (read_pending_keys _ _ Hps) as [Hlen Hkeys]. stm_ok.
  assert (stable_sort fst ps = in_content_order ps) as Hsort by exact (stable_sort_123 fst ps Hkeys).
  rewrite Hsort. unfold mbind, stm_bind.
  destruct (st_map (fun x => decrypt_pending client cb p x.2) (in_content_order ps) s1) as [r1 s2] eqn:Hm.
  pose proof (decrypt_all_within buffer_kept client cb p (in_content_order ps) _ _ _ Hm) as Hkept.
  pose proof (decrypt_all_within same_conv client cb p (in_content_order ps) _ _ _ Hm) as [Hid _].
  pose proof (buffer_kept_holds _ _ _ Hb1 Hkept) as Hb2.
  destruct r1 as [ms|e]; [|by intros [= <- <-]]. intros [= <- <-].
  assert (length ms = length (mine (conv_id s.2) l)) as Hms.
  { rewrite (st_map_length _ _ _ _ _ Hm), <-Hlen.
    rewrite <-(Permutation_length (stable_sort_perm fst ps)). by rewrite Hsort. }
  split; [done|]. split; [done|].
  destruct ms; [by apply nil_length_inv|]. split; [|by exists ps, s1]. intros Hn. by rewrite Hn in Hms.
Qed.

(** C17: after a commit the buffered messages of the conversation are decrypted, those that are
    applications first, then the proposals, then the commits, each in the order they came in;
    and they are removed, and only they, exactly when all of them could be decrypted. One that
    fails keeps them all, for the next commit to fail on. *)
Theorem restore_after_commit_spec client cb p l s r s' :
  buffer_holds s l -> restore_after_commit client cb p s = (r, s') ->
  match r with
  | Ok None => mine (conv_id s.2) l = [] /\ buffer_holds s' l
  | Ok (Some ms) => mine (conv_id s.2) l <> [] /\ buffer_holds s' (others (conv_id s.2) l) /\
      exists ps s1 s2, try_map read_pending (mine (conv_id s.2) l) = Ok ps /\
        length ms = length (mine (conv_id s.2) l) /\
        st_map (fun x => decrypt_pending client cb p x.2) (in_content_order ps) s1 = (Ok ms, s2)
  | Err _ => buffer_holds s' l
  end.
Proof.
  intros Hb. unfold restore_after_commit, mbind at 1, stm_bind at 1.
  destruct (restore_pending_messages client cb p false s) as [[[ms|]|e] s1] eqn:Hx;
    destruct (restore_pending_run _ _ _ _ _ _ _ Hb Hx) as (Hb1 & Hid & Hm);
    [|by intros [= <- <-]|by intros [= <- <-]].
  destruct Hm as (Hne & ps & s0 & Hps & Hlen & Hmap). stm_ok.
  destruct Hb1 as [Hh1 Hl1]. rewrite Hid.
  pose proof (MlsPendingMessage_delete_ok _ l [conv_id s.2] Hl1) as Hd.
  change (remove_keys pm_id [conv_id s.2] l) with (others (conv_id s.2) l) in Hd. cbv zeta in Hd.
  rewrite bool_decide_true in Hd by (by apply mine_others). destruct Hd as (v' & Hr & Hrep & _).
  assert (run (Connection_remove MlsPendingMessage (conv_id s.2)) (conn_view (key_store s1.1)) =
    (Ok (), v')) as Hr'.
  { unfold Connection_remove. by erewrite run_bind_ok by exact Hr. }
  destruct (ks_ok _ _ _ _ Hh1 Hr') as (c & Hk & Hv & Hh').
  erewrite stm_bind_ok by (unfold backend; rewrite (on_ok _ _ _ _ _ _ Hk); reflexivity).
  intros [= <- <-]. split; [done|]. split; [|by eauto 7]. split; [done|]. simpl. by rewrite Hv.
Qed.

(** ** Renewing what is not ours *)

(** When our own pending commit holds the update proposal of another member and another
    commit without it is accepted, that proposal is to be renewed as well, although it is not
    ours: its encryption key is not in our store, and renewing it fails with the missing-key
    error, with the conversation as the merge has left it. *)
Lemma renew_foreign_update_fails client self_index pending valid pc q leaf l s :
  queued_proposals pc = [q] -> qp_proposal q = PUpdate leaf -> is_external q = false ->
  (forall sender, (leaf, sender) ∉ update_proposals valid) ->
  healthy (key_store s.1) -> rep MlsEncryptionKeyPair_layout (conn_view (key_store s.1)) l ->
  first (with_key (leaf_encryption_key leaf)) l = None ->
  let (ps, needs_update) := renew self_index pending (Some pc) valid in
  ps = [q] /\
  exists b, renew_proposals_for_current_epoch client ps needs_update s =
    (Err (Throw (KeyStoreError (MissingKeyInStore MissingMlsEncryptionKeyPair))), (b, s.2)).
Proof.
  intros Hpc Hq Hext Hv Hh Hl Hf. unfold renew. rewrite Hpc. cbn -[is_proposal_renewable].
  assert (is_proposal_renewable q (Some valid) = Some q) as ->.
  { unfold is_proposal_renewable. rewrite Hq.
    destruct (existsb _ (update_proposals valid)) eqn:Hex; [|done].
    apply existsb_exists in Hex as ([lf sd] & Hin & Heq%bool_decide_eq_true).
    apply list_elem_of_In in Hin. simpl in Heq. subst lf. by destruct (Hv sd). }
  split; [done|]. unfold renew_proposals_for_current_epoch. simpl. rewrite Hext. simpl.
  pose proof (el_delete (E := MlsEncryptionKeyPair) _ l [leaf_encryption_key leaf] Hl) as Hd.
  specialize (Hd ltac:(done)). cbv zeta in Hd. rewrite remove_keys_one in Hd.
  assert (List.filter (fun e => negb (bool_decide (el_key e = leaf_encryption_key leaf))) l = l) as Hsame.
  { apply forallb_filter_id, forallb_forall. intros e He%list_elem_of_In.
    rewrite first_None in Hf. exact (f_equal negb (Hf e He)). }
  rewrite Hsame in Hd. rewrite bool_decide_false in Hd by (simpl; lia).
  assert (run (Connection_remove MlsEncryptionKeyPair (leaf_encryption_key leaf))
    (conn_view (key_store s.1)) = (Err (MissingKeyInStore MissingMlsEncryptionKeyPair),
    conn_view (key_store s.1))) as Hr.
  { unfold Connection_remove. by erewrite run_bind_err by exact Hd. }
  destruct (ks_err _ _ _ _ Hh Hr) as (c & Hk & _). exists (set_key_store c s.1).
  erewrite stm_bind_err; [done|]. erewrite stm_bind_err; [done|].
  unfold renew_one. rewrite Hq. unfold renew_update. erewrite stm_bind_err; [done|].
  unfold backend. by rewrite (on_err _ _ _ _ _ _ Hk).
Qed.
End spec.
