(* ===== verification/Witness.v ===== *)
(** * The theorems at work

    A conversation of Alice and Bob on the engine that never fails, with the instance of
    [Example]: the theorems about conversations, credentials and commit delays, applied to it. *)

From Stdlib.Strings Require Import Byte.
From S2P Require Import Prelude KsError Sql SqlSpec Entity TableFrame.
From S2P Require Import MlsGroups MlsPending MlsKeys E2eiEntities Keystore.
From S2P Require Import CcError Ids Backend OpenMls Config CommitDelay Credential Conversation.
From S2P Require Import Renew Decrypt Example ConvFrame Durable DecryptSpec.
Open Scope Z_scope.

(** ** Alice's conversation *)

Definition alice : ex_leaf := ((false, ascii_bytes "alice", []), ascii_bytes "ek-a", ascii_bytes "alice").
Definition bob : ex_leaf := ((false, ascii_bytes "bob", []), ascii_bytes "ek-b", ascii_bytes "bob").
Definition carol : ex_leaf := ((false, ascii_bytes "carol", []), ascii_bytes "ek-c", ascii_bytes "carol").

(** In epoch 3, with Bob's proposal to add Carol and with a pending commit that has nothing in it. *)
Definition alice_data (pc : option ex_commit) : ex_data :=
  (ascii_bytes "conv", 3, true, [(0, alice); (1, bob)],
   [((inl (inl carol), inl (inl 1), ascii_bytes "add") : ex_queued)], pc).

Definition alice_backend : @MlsCryptoProvider ref_engine example_provider :=
  MkProvider tt (fresh_conn : @conn ref_engine) None.

Definition alice_conv (pc : option ex_commit) (st : InnerState) : MlsConversation :=
  MkConversation (ascii_bytes "conv") None (ExGroup (alice_data pc) st : MlsGroup)
    MlsConversationConfiguration_default.

Definition alice_client : Client :=
  MkClient (ascii_bytes "alice")
    {[ 0 := [MkCredentialBundle (alice.1.1 : Credential) (MkSignatureKeyPair 0 (ascii_bytes "alice")
         (ascii_bytes "alice")) 0] ]} 0.

Definition empty_commit : ex_commit := ([], None, 4, []).

(** The conversation as it has just been made: not yet written. *)
Definition start : MlsCryptoProvider * MlsConversation :=
  (alice_backend, alice_conv (Some empty_commit) Changed).

(** The conversation with nothing of ours pending. *)
Definition calm_start : MlsCryptoProvider * MlsConversation := (alice_backend, alice_conv None Changed).

Lemma fresh_groups : groups_hold alice_backend [].
Proof. split_and!; [done|by apply rep_empty|constructor]. Qed.

Lemma start_durable : durable start.
Proof. exists []. split; [exact fresh_groups|]. by split. Qed.

Definition bob_commit_public (ep : Z) : PublicMessageIn :=
  MkPublicMessage (SMember 1) ep BCommit (Some (ep + 1 : ConfirmationTag)) [].
Definition bob_commit (ep : Z) : MlsMessageIn := MPublicMessage (bob_commit_public ep).

(** Bob's commit adds Carol: the first call. *)
Definition after_bob :=
  conv_decrypt_message (bob_commit 3) None alice_client None true start.

Lemma one_step `{En : SqlEngine, Provider, OpenMlsTypes} `{!OpenMls, !X509Lib, !IdCodecs, !F32Ln}
    {A} (m : cc (MlsCryptoProvider * MlsConversation) A) d s :
  durable_call A m d -> conv_steps s (m s).2.
Proof.
  intros Hc. destruct (m s) as [r s1] eqn:Hm. eapply steps_call; [exact Hc|exact Hm|apply steps_refl].
Defined.

Lemma bob_steps : conv_steps start after_bob.2.
Proof. exact (one_step _ _ start (DDecrypt (bob_commit 3) None alice_client None true)). Defined.

Ltac vm := vm_compute; reflexivity.

Lemma runs {S A} (m : cc S A) (s : S) : is_ok (m s).1 = true -> exists a, m s = (Ok a, (m s).2).
Proof. destruct (m s) as [[a|e] s']; [by exists a|done]. Defined.

(** Then she sends a message. *)
Definition after_message := encrypt_message alice_client (ascii_bytes "hello") after_bob.2.

Lemma durable_call_restores_witness :
  exists s'', drop_and_restore after_message.2 = (Ok (), s'') /\ durable s'' /\
    conv_id s''.2 = ascii_bytes "conv" /\ epoch (conv_group s''.2) = 4 /\
    conv_configuration s''.2 = restored_configuration (conv_group after_message.2.2).
Proof.
  assert (is_ok after_message.1 = true) as Hok by vm.
  destruct (runs _ _ Hok) as [a Ha].
  destruct (durable_call_restores start after_bob.2 start_durable bob_steps) as [Hcall _].
  destruct (Hcall _ _ _ a _ (DEncrypt alice_client (ascii_bytes "hello")) Ha (or_introl eq_refl))
    as (s'' & Hd & Hdur & Hc).
  exists s''. split; [exact Hd|]. split; [exact Hdur|]. rewrite Hc.
  split; [vm|]. split; [vm|reflexivity].
Defined.

Lemma unmarked_is_stored_witness :
  exists l, groups_hold after_bob.2.1 l /\ on_disk l after_bob.2.2.
Proof.
  assert (state_changed (conv_group after_bob.2.2) = Persisted) as Hc by vm.
  exact (unmarked_is_stored start after_bob.2 start_durable bob_steps Hc).
Defined.

Lemma mark_as_child_of_spec_witness :
  exists s', mark_as_child_of (ascii_bytes "parent") start =
    (Err (Throw ParentGroupNotFound), s') /\ s'.2 = start.2.
Proof.
  destruct (mark_as_child_of (ascii_bytes "parent") start) as [r s'] eqn:Hx.
  pose proof (mark_as_child_of_spec start [] (ascii_bytes "parent") r s' fresh_groups eq_refl
    (fun H => False_ind _ (Bool.diff_false_true (f_equal (fun x => bool_decide (x = Persisted)) H))) Hx) as Hs.
  destruct r as [[]|e]; [by destruct Hs as [[? ?] _]|].
  destruct Hs as [_ [(_ & -> & Hs)|[[? ?] _]]]; [|done]. by exists s'.
Defined.

(** ** Decrypting *)

Lemma wrong_epoch_message_witness :
  exists s', conv_decrypt_message (bob_commit 4) None alice_client None true start =
    (Err (Throw BufferedFutureMessage), s') /\ untouched start s'.
Proof.
  assert (maybe_self_member_commit (conv_group start.2) (bob_commit 4) = Ok None) as H1 by vm.
  assert (duplicate_of start (PMPublic (bob_commit_public 4)) = Ok false) as H2 by vm.
  assert ((process_message (PMPublic (bob_commit_public 4)) (start.1, conv_group start.2)).1 =
    Err (ProcessValidationError ValidationWrongEpoch)) as H3 by vm.
  destruct (wrong_epoch_message (bob_commit 4) _ false None alice_client None true start H1 eq_refl
    H2 H3) as (e & s' & Hx & Hu & _ & Hb & _).
  exists s'. rewrite Hx, (proj2 Hb) by by split. done.
Defined.

(** Bob's proposal to add Carol, which is pending already. *)
Definition bob_proposal : PublicMessageIn :=
  MkPublicMessage (SMember 1) 3 (BProposal (PAdd (carol : KeyPackage))) None [].

Lemma duplicate_not_applied_witness :
  exists s', conv_decrypt_message (MPublicMessage bob_proposal) None alice_client None true start =
    (Err (Throw DuplicateMessage), s') /\ untouched start s'.
Proof.
  assert (maybe_self_member_commit (conv_group start.2) (MPublicMessage bob_proposal) = Ok None) as H1
    by vm.
  assert (duplicate_of start (PMPublic bob_proposal) = Ok true) as H2 by vm.
  assert (is_ok (process_message (PMPublic bob_proposal) (start.1, conv_group start.2)).1 = true)
    as H3 by vm.
  destruct (duplicate_not_applied (MPublicMessage bob_proposal) _ None alice_client None true start H1
    eq_refl H2) as (e & s' & Hx & Hu & He).
  exists s'. by rewrite Hx, (He H3).
Defined.

(** The pending commit of Alice comes back. *)
Definition own_message : PublicMessageIn := MkPublicMessage (SMember 0) 3 BCommit (Some (4 : ConfirmationTag)) [].

Lemma own_commit_comes_back_witness :
  exists d s', conv_decrypt_message (MPublicMessage own_message) None alice_client None true start =
    (Ok d, s') /\ epoch (conv_group s'.2) = 4 /\ dm_has_epoch_changed d = true.
Proof.
  assert (is_ok (conv_decrypt_message (MPublicMessage own_message) None alice_client None true start).1
    = true) as Hok by vm.
  destruct (runs _ _ Hok) as [d Hd].
  eexists d, _. split; [exact Hd|].
  pose proof (own_commit_comes_back own_message 4 None alice_client None true start _ _ eq_refl eq_refl
    eq_refl Hd) as Hown.
  change (pending_commit (conv_group start.2)) with (Some (to_commit empty_commit)) in Hown.
  cbv beta iota in Hown. rewrite bool_decide_true in Hown by done.
  destruct (Hown d eq_refl) as ((He & _) & Hc & _). split; [exact He|exact Hc].
Defined.

(** Carol commits herself into the group, and no callbacks are set. *)
Definition carol_commit : MlsMessageIn :=
  MPublicMessage (MkPublicMessage SNewMemberCommit 3 BCommit (Some (9 : ConfirmationTag)) (ascii_bytes "carol")).

Lemma external_senders_need_approval_witness :
  let (r, s') := conv_decrypt_message carol_commit None alice_client None true start in
  is_ok r = false /\ untouched start s'.
Proof.
  destruct (conv_decrypt_message carol_commit None alice_client None true start) as [r s'] eqn:Hx.
  assert (is_ok (parse_message carol_commit start).1 = true) as Hok by vm.
  destruct (runs _ _ Hok) as [msg Hp].
  assert (processed_content msg = StagedCommitMessage (MkStagedCommit
    [MkQueuedProposal (PExternalInit []) SNewMemberCommit [];
     MkQueuedProposal (PAdd (carol : KeyPackage)) (SMember 1) (ascii_bytes "add")] None
      (4 : ConfirmationTag) [])) as Hc.
  { change (processed_content msg = match (parse_message carol_commit start).1 with
      | Ok m => processed_content m | Err _ => processed_content msg end). by rewrite Hp. }
  assert (maybe_self_member_commit (conv_group start.2) carol_commit = Ok None) as H1 by vm.
  destruct (external_senders_need_approval carol_commit msg None alice_client None true start _ r s'
    H1 Hp) as (Hr & -> & Hu); [|exact Hx|by split].
  unfold approved. rewrite Hc. intros Ha. by destruct (Ha ltac:(vm)) as (f & ? & Hf & _).
Defined.

Lemma has_epoch_changed_spec_witness : epoch (conv_group after_bob.2.2) > epoch (conv_group start.2).
Proof.
  assert (is_ok after_bob.1 = true) as Hok by vm. destruct (runs _ _ Hok) as [d Hd].
  assert (dm_has_epoch_changed d = true) as Hc.
  { assert (match after_bob.1 with Ok d => dm_has_epoch_changed d | Err _ => false end = true)
      as Ha by (vm_compute; reflexivity).
    unfold after_bob in Ha. by rewrite Hd in Ha. }
  destruct (has_epoch_changed_spec _ _ _ _ _ _ _ _ Hd) as [_ He]. rewrite Hc in He.
  unfold after_bob. lia.
Defined.

(** A message of Bob's that has been buffered. *)
Definition buffered : MlsPendingMessage :=
  MkMlsPendingMessage (ascii_bytes "conv") (x01 :: x03 :: ascii_bytes "hi").

Definition buffered_start : MlsCryptoProvider * MlsConversation :=
  ((ks (save buffered) alice_backend).2, start.2).

Lemma buffered_holds : buffer_holds buffered_start [buffered].
Proof.
  assert (rep MlsPendingMessage_layout (conn_view (key_store alice_backend)) []) as Hr
    by by apply rep_empty.
  destruct (MlsPendingMessage_save_ok _ _ buffered Hr eq_refl) as (v' & Hs & Hb & _).
  destruct (ks_ok (MlsPendingMessage_save buffered) alice_backend _ _ (eq_refl : healthy (key_store alice_backend)) Hs)
    as (c & Hk & <- & Hh).
  unfold buffered_start. change (save buffered) with (MlsPendingMessage_save buffered).
  rewrite Hk. by split.
Qed.

Lemma restore_after_commit_spec_witness :
  exists ms s', restore_after_commit alice_client None None buffered_start = (Ok (Some ms), s') /\
    length ms = 1%nat /\ buffer_holds s' [].
Proof.
  assert (match (restore_after_commit alice_client None None buffered_start).1 with
    | Ok (Some ms) => true | _ => false end = true) as Hok by vm.
  destruct (restore_after_commit alice_client None None buffered_start) as [r s'] eqn:Hx.
  destruct r as [[ms|]|e]; [|done..]. exists ms, s'. split; [done|].
  destruct (restore_after_commit_spec alice_client None None [buffered] buffered_start _ s'
    buffered_holds Hx) as (_ & Hb & ps & s1 & s2 & _ & Hl & _).
  split; [exact Hl|exact Hb].
Defined.

(** ** Renewing *)

(** Bob's update, in a commit of Alice that another one supersedes. *)
Definition bob_update : QueuedProposal :=
  MkQueuedProposal (PUpdate (bob : LeafNode)) (SMember 1) (ascii_bytes "upd").
Definition alice_commit : StagedCommit := MkStagedCommit [bob_update] None (4 : ConfirmationTag) [].
Definition other_commit : StagedCommit := MkStagedCommit [] None (4 : ConfirmationTag) [].

Lemma renew_foreign_update_fails_witness :
  let (ps, needs_update) := renew 0 [] (Some alice_commit) other_commit in
  ps = [bob_update] /\
  exists b, renew_proposals_for_current_epoch alice_client ps needs_update start =
    (Err (Throw (KeyStoreError (MissingKeyInStore MissingMlsEncryptionKeyPair))), (b, start.2)).
Proof.
  assert (rep MlsEncryptionKeyPair_layout (conn_view (key_store start.1)) []) as Hr
    by by apply rep_empty.
  exact (renew_foreign_update_fails alice_client 0 [] other_commit alice_commit bob_update bob []
    start eq_refl eq_refl eq_refl (fun s => not_elem_of_nil _) (eq_refl : healthy (key_store start.1)) Hr eq_refl).
Defined.

(** ** Credentials *)

(** Carol with a certificate that has been revoked. *)
Definition revoked_carol : Credential := ((true, ascii_bytes "carol", [ascii_bytes "cert"]) : ex_credential).
Definition pki_backend : @MlsCryptoProvider ref_engine example_provider :=
  MkProvider tt (fresh_conn : @conn ref_engine) (Some [ascii_bytes "cert"]).

Lemma revoked_credential_degrades_witness :
  validate_credential pki_backend (certificates revoked_carol) = AuthValid /\
  compute_state [revoked_carol] pki_backend X509 = NotVerified.
Proof.
  exact (revoked_credential_degrades pki_backend revoked_carol (ascii_bytes "cert") [ascii_bytes "cert"]
    [ascii_bytes "cert"] CertificateRevoked [revoked_carol] X509 eq_refl eq_refl eq_refl eq_refl
    (or_introl eq_refl) (list_elem_of_here _ _)).
Defined.

Lemma get_new_crl_distribution_points_spec_witness :
  exists c', get_new_crl_distribution_points [ascii_bytes "http://ca/crl"] alice_backend =
    (Ok (Some []), set_key_store c' alice_backend).
Proof.
  assert (rep (el_layout (E := E2eiCrl)) (conn_view (key_store alice_backend)) []) as Hr
    by by apply rep_empty.
  destruct (get_new_crl_distribution_points_spec alice_backend [] [ascii_bytes "http://ca/crl"]
    (eq_refl : healthy (key_store alice_backend)) Hr) as (c' & Hx & _).
  exists c'. exact Hx.
Defined.

Definition carol_bundle : CredentialBundle :=
  MkCredentialBundle (carol.1.1 : Credential) (MkSignatureKeyPair 0 [] []) 7.

Lemma push_credential_bundle_spec_witness :
  identities_ok ∅ /\ identities_ok (push_credential_bundle 0 carol_bundle ∅).2 /\
  find_most_recent_credential_bundle (push_credential_bundle 0 carol_bundle ∅).2 0 Basic = Some carol_bundle.
Proof.
  assert (identities_ok (∅ : gmap Z (list CredentialBundle))) as He by by intros ? ?.
  split; [exact He|].
  pose proof (push_credential_bundle_spec ∅ 0 carol_bundle He) as Hp.
  change (push_credential_bundle 0 carol_bundle ∅)
    with (Ok () : result Stop (), <[ 0 := [carol_bundle] ]> ∅ : gmap Z (list CredentialBundle)) in *.
  destruct Hp as (Hok & _ & Hf & _). split; [exact Hok|]. by rewrite Hf.
Defined.

(** ** Commit delays *)

Lemma calculate_delay_spec_witness : calculate_delay 3 5 8 <= calculate_delay 6 5 8.
Proof.
  assert (0 < 8 <= 2 ^ 63) as Hn by lia.
  pose proof (calculate_delay_spec (H := example_ln) 5 8 Hn) as (_ & _ & Hm & _).
  apply Hm. vm_compute. discriminate.
Defined.

(** Three members, of which the one in the middle is to be removed. *)
Definition three_group : MlsGroup :=
  ExGroup (ascii_bytes "conv", 3, true, [(0, alice); (1, bob); (2, carol)],
    [((inr (inl 1), inl (inl 0), []) : ex_queued)], None) Persisted.

Lemma commit_delay_positions_distinct_witness :
  let ms := members three_group in
  delay_position (post_commit_place 0 [1] ms).1 3 (post_commit_place 0 [1] ms).2 <>
  delay_position (post_commit_place 2 [1] ms).1 3 (post_commit_place 2 [1] ms).2.
Proof.
  assert (forall r, r ∈ [1] -> r ∈ leaves 3) as Hin.
  { intros r ->%list_elem_of_singleton. by apply (bool_decide_unpack _). }
  assert (Z.of_nat 0 ∉ [1] /\ Z.of_nat 2 ∉ [1]) as [H0 H2].
  { by split; intros ?%list_elem_of_singleton. }
  assert (Z.of_nat (length (members three_group)) <= 2 ^ 63) as Hmax by (apply Z.leb_le; reflexivity).
  exact (proj1 (commit_delay_positions_distinct three_group (members three_group) 0 2 eq_refl
    (NoDup_singleton 1) Hin Hmax ltac:(simpl; lia) ltac:(simpl; lia) ltac:(done) H0 H2)).
Defined.
