(* ===== verification/EnrollmentExample.v ===== *)
(** * Enrollments at work

    A certificate server that answers what it is asked, and JSON and URLs that are plain bytes:
    concrete functions for the parameters of [Acme] and [Enrollment], which satisfy the laws; and
    the theorems about enrollments on them. *)

From Stdlib.Strings Require Import Byte.
From S2P Require Import Prelude KsError Sql SqlSpec Entity TableFrame.
From S2P Require Import MlsGroups MlsPending MlsKeys MlsCredentials E2eiEntities Keystore.
From S2P Require Import CcError Ids Backend OpenMls Config CommitDelay Credential.
From S2P Require Import Acme Enrollment EnrollmentSpec Conversation Example Witness.
Open Scope Z_scope.

(** ** The server *)

#[export] Instance example_acme_types : AcmeTypes := {|
  RustyE2eIdentity := bytes;
  Url := bytes;
  Value := bytes;
  Authorizations := list bytes;
  E2eiAcmeAccount := bytes;
  E2eiAcmeOrder := bytes;
  E2eiAcmeFinalize := bytes;
|}.

(** Nothing is no answer. *)
Definition answer (v : bytes) : result ext_error bytes :=
  match v with [] => Err "empty" | _ => Ok v end.

Definition ex_challenge (v : bytes) : WireAcmeChallenge := MkWireChallenge v v v.

(** An authorization for a device starts with a zero. *)
Definition ex_authz (v : bytes) : result ext_error WireAcmeAuthorization :=
  match v with
  | [] => Err "empty"
  | x00 :: v => Ok (AuthzDevice v (ex_challenge v))
  | v => Ok (AuthzUser v v (ex_challenge v))
  end.

#[export] Instance example_acme : Acme := {|
  url_parse u := Ok u;
  url_to_string u := u;
  json_from_slice := answer;
  json_to_vec := answer;
  json_to_value b := Ok (array_text ((fun x => decimal (byte_val x)) <$> b));
  json_array := array_text;
  json_number := decimal;
  authorizations_list l := l;
  authorizations_try_from l := Some l;
  order_finalize_url o := o;
  finalize_certificate_url f := f;
  rusty_try_new _ k := Ok k;
  acme_directory_response _ v := Ok (MkWireDirectory v v v v);
  acme_new_account_request _ d n := Ok (wd_new_account d ++ n);
  acme_new_account_response _ v := Ok v;
  acme_new_order_request _ name id hdl x d a n := Ok (wd_new_order d ++ a ++ name ++ id ++ hdl ++ n);
  acme_new_order_response _ v := Ok (MkWireNewOrder v [v]);
  acme_new_authz_request _ u a n := Ok (u ++ a ++ n);
  acme_new_authz_response _ v := ex_authz v;
  new_dpop_token _ id name ch n hdl tm x := Ok (id ++ wch_url ch ++ n);
  acme_dpop_challenge_request _ t ch a n := Ok (t ++ wch_url ch ++ a ++ n);
  acme_new_challenge_response _ v := Ok ();
  acme_oidc_challenge_request _ t ch a n := Ok (t ++ wch_url ch ++ a ++ n);
  acme_check_order_request _ u a n := Ok (u ++ a ++ n);
  acme_check_order_response _ v := Ok v;
  acme_finalize_request _ o a n := Ok (o ++ a ++ n);
  acme_finalize_response _ v := Ok v;
  acme_x509_certificate_request _ f a n := Ok (f ++ a ++ n);
  acme_x509_certificate_response _ c o := Ok [c];
|}.

#[export] Instance example_acme_laws : AcmeLaws.
Proof.
  split; [done| | | | |done].
  - intros [|x v] b; [done|]. by intros [= <-].
  - done.
  - intros n _. unfold json_to_vec, json_number. cbn. unfold decimal. by destruct (Z.ltb n 10), (Z.ltb n 100).
  - intros vs ts Hvs. unfold json_to_vec, json_array. cbn. unfold array_text. do 4 f_equal.
    induction Hvs as [|[|x v] t vs ts Hv _ IH]; [done|done|]. injection Hv as <-. by f_equal.
Qed.

(** ** An enrollment as JSON

    A list of its fields, each a list of strings. *)

Definition ex_suites : list Ciphersuite :=
  [MLS_128_DHKEMX25519_AES128GCM_SHA256_Ed25519; MLS_128_DHKEMP256_AES128GCM_SHA256_P256;
   MLS_128_DHKEMX25519_CHACHA20POLY1305_SHA256_Ed25519; MLS_256_DHKEMX448_AES256GCM_SHA512_Ed448;
   MLS_256_DHKEMP521_AES256GCM_SHA512_P521; MLS_256_DHKEMX448_CHACHA20POLY1305_SHA512_Ed448;
   MLS_256_DHKEMP384_AES256GCM_SHA384_P384; MLS_128_X25519KYBER768DRAFT00_AES128GCM_SHA256_Ed25519].

Definition ex_suite_bytes (cs : Ciphersuite) : bytes :=
  match list_find (eq cs) ex_suites with Some (n, _) => replicate n x00 | None => [] end.
Definition ex_suite_of (b : bytes) : Ciphersuite :=
  default MLS_128_DHKEMX25519_AES128GCM_SHA256_Ed25519 (ex_suites !! length b).

Lemma ex_suite_back cs : ex_suite_of (ex_suite_bytes cs) = cs.
Proof. by destruct cs. Qed.

Definition of_option (o : option bytes) : list bytes := option_list o.
Definition to_option (l : list bytes) : option bytes := head l.

Lemma to_of_option o : to_option (of_option o) = o.
Proof. by destruct o. Qed.

Definition of_directory (o : option E2eiAcmeDirectory) : list bytes :=
  match o with Some (MkDirectory n a o r) => [n; a; o; r] | None => [] end.
Definition to_directory (l : list bytes) : option E2eiAcmeDirectory :=
  match l with [n; a; o; r] => Some (MkDirectory n a o r) | _ => None end.

Definition of_authz (o : option WireAcmeAuthorization) : list bytes :=
  match o with
  | Some (AuthzUser i k (MkWireChallenge d u t)) => [i; d; u; t; k]
  | Some (AuthzDevice i (MkWireChallenge d u t)) => [i; d; u; t]
  | None => []
  end.
Definition to_authz (l : list bytes) : option WireAcmeAuthorization :=
  match l with
  | [i; d; u; t; k] => Some (AuthzUser i k (MkWireChallenge d u t))
  | [i; d; u; t] => Some (AuthzDevice i (MkWireChallenge d u t))
  | _ => None
  end.

Lemma to_of_authz o : to_authz (of_authz o) = o.
Proof. by destruct o as [[i k []|i []]|]. Qed.

Definition ex_fields (e : Enrollment) : list (list bytes) :=
  [[delegate e; sign_sk e; enr_client_id e; display_name e; handle e;
    encode_bytes (expiry e); ex_suite_bytes (enr_ciphersuite e)];
   of_option (team e); of_directory (directory e); of_option (account e); of_authz (user_authz e);
   of_authz (device_authz e); of_option (valid_order e); of_option (finalize e);
   of_option (refresh_token e)].

Definition ex_enrollment (l : list (list bytes)) : option Enrollment :=
  match l with
  | [[d; sk; id; name; hdl; x; cs]; tm; dir; acc; ua; da; vo; fi; rt] =>
      x ← decode_bytes x;
      Some (MkEnrollment d sk id name hdl (to_option tm) x (to_directory dir) (to_option acc)
        (to_authz ua) (to_authz da) (to_option vo) (to_option fi) (ex_suite_of cs) (to_option rt))
  | _ => None
  end.

Lemma ex_enrollment_fields e : ex_enrollment (ex_fields e) = Some e.
Proof.
  unfold ex_enrollment, ex_fields. rewrite decode_encode_bytes. cbn [mbind option_bind].
  rewrite !to_of_option, !to_of_authz, ex_suite_back. by destruct e as [? ? ? ? ? ? ? [[]|]].
Qed.

#[export] Instance example_enrollment_serde : EnrollmentSerde := {|
  enr_to_vec e := Ok (encode_bytes (ex_fields e));
  enr_from_slice b := match decode_bytes b ≫= ex_enrollment with Some e => Ok e | None => Err "enrollment" end;
|}.

#[export] Instance example_enrollment_laws : EnrollmentSerdeLaws.
Proof. intros e b [= <-]. simpl. rewrite decode_encode_bytes. cbn [mbind option_bind]. by rewrite ex_enrollment_fields. Qed.

(** ** Types *)

Definition ex_order : WireNewAcmeOrder := @MkWireNewOrder example_acme_types [x03] [[x04]].
Definition ex_user : WireAcmeAuthorization :=
  @AuthzUser example_acme_types [x01] [x02] (@MkWireChallenge example_acme_types [x03] [x04] [x05]).

Lemma acme_types_roundtrip_witness :
  WireAcmeAuthorization_try_from (MkNewAuthz [x01] (Some [x02]) (MkChallenge [x03] [x04] [x05])) = Ok ex_user /\
  WireNewAcmeOrder_try_from (MkNewOrder [x03] [[x04]]) <> Ok ex_order.
Proof.
  destruct acme_types_roundtrip as (_ & _ & Ha & Ho). split.
  - by apply Ha.
  - by destruct (Ho ex_order (MkNewOrder [x03] [[x04]]) eq_refl) as (b & _ & _ & Hx).
Defined.

(** ** An enrollment of Alice's *)

Definition alice_id : bytes := uuid_hyphenated (replicate 16 x2a) ++ [COLON] ++ ascii_bytes "1234@wire.com".

Definition enroll (cs : Ciphersuite) (keys : option (bytes * bytes)) :=
  try_new alice_id (ascii_bytes "Alice") (ascii_bytes "alice") None 3600 cs
    (E2eiSignatureKeypair_from <$> keys) None.

Abbreviation ed25519 := MLS_128_DHKEMX25519_AES128GCM_SHA256_Ed25519.
Abbreviation p256 := MLS_128_DHKEMP256_AES128GCM_SHA256_P256.

Definition ex_keys (n m : nat) : bytes * bytes := (replicate n x01, replicate m x02).

Lemma enroll_ok cs keys : is_ok (enroll cs keys alice_backend).1 = true ->
  exists e, enroll cs keys alice_backend = (Ok e, (enroll cs keys alice_backend).2) /\ enrolled e.
Proof.
  intros [e He]%runs. exists e. split; [done|].
  by exists alice_backend, alice_id, (ascii_bytes "Alice"), (ascii_bytes "alice"), None, 3600, cs,
    (E2eiSignatureKeypair_from <$> keys), None, (enroll cs keys alice_backend).2.
Qed.

(** A step of an enrollment. *)
Abbreviation did c s := (exec c s).2.

(** It is too early to finalize. *)
Lemma enrollment_calls_in_order_witness :
  exists e, enrolled e /\
    (exec (CFinalizeRequest [x01]) (did (CDirectoryResponse [x01]) (alice_backend, e))).1 =
      Err (OutOfOrderEnrollment need_account).
Proof.
  destruct (enroll_ok ed25519 None) as (e & He & Hen); [vm|]. exists e. split; [exact Hen|].
  pose proof (enrollment_calls_in_order e alice_backend (alice_backend, e) Hen (rtc_refl _ _)) as [Hf Hc].
  destruct (enrollment_calls_in_order e alice_backend (did (CDirectoryResponse [x01]) (alice_backend, e)) Hen
    (rtc_once _ _ (enr_call _ (CDirectoryResponse [x01])))) as [_ Hd].
  destruct (Hd (CFinalizeRequest [x01])) as [Hm _].
  assert (missing (CFinalizeRequest [x01]) (progress_of (did (CDirectoryResponse [x01]) (alice_backend, e)).2)
    = Some need_account) as Hmiss.
  { pose proof (Hc (CDirectoryResponse [x01])) as [_ Ho].
    change (progress_of (alice_backend, e).2) with (progress_of e) in Ho. rewrite Hf in Ho.
    apply list_elem_of_singleton in Ho. rewrite Ho. reflexivity. }
  rewrite Hmiss in Hm. destruct Hm as (err & Hr & Herr). rewrite Hr. by rewrite Herr.
Defined.

Lemma enrollment_well_typed_witness :
  exists e, enrolled e /\ well_kinded (did (CNewAuthzResponse [x00; x01]) (alice_backend, e)).2.
Proof.
  destruct (enroll_ok ed25519 None) as (e & He & Hen); [vm|]. exists e. split; [exact Hen|].
  exact (proj1 (enrollment_well_typed e alice_backend _ (CDpopToken 0 []) Hen
    (rtc_once _ _ (enr_call (alice_backend, e) (CNewAuthzResponse [x00; x01]))))).
Defined.

(** An account, an order that is finalized, and two requests for a certificate: one fails. *)
Definition ex_calls : list EnrollmentCall :=
  [CNewAccountResponse [x01]; CCheckOrderResponse [x01]; CFinalizeResponse [x01];
   CCertificateRequest [x01]; CCertificateRequest [x01]].

Lemma one_certificate_per_account_witness :
  exists e, enrolled e /\ count_calls is_account_response (run_calls ex_calls (alice_backend, e)).1 = 1%nat /\
    (count_calls is_certificate (run_calls ex_calls (alice_backend, e)).1 <= 1)%nat.
Proof.
  destruct (enroll_ok ed25519 None) as (e & He & Hen); [vm|]. exists e. split; [exact Hen|].
  pose proof (one_certificate_per_account e alice_backend ex_calls [] [] Hen) as Hc.
  destruct (run_calls ex_calls (alice_backend, e)) as [tr s] eqn:Hr.
  assert (count_calls is_account_response tr = 1%nat) as Ha.
  { destruct e. revert Hr. by intros [= <- _]. }
  split; [exact Ha|]. destruct Hc as [Hc _]. rewrite Ha in Hc. exact Hc.
Defined.

(** An enrollment for P256 is made, and of no use. *)
Lemma sign_key_for_mls_spec_witness :
  (exists e, enrolled e /\ get_sign_key_for_mls e = Ok (replicate 32 x01)) /\
  (exists e, enrolled e /\ get_sign_key_for_mls e = Err (E2eiError InvalidSignatureKey)).
Proof.
  split.
  - destruct (enroll_ok ed25519 (Some (ex_keys 32 32))) as (e & He & Hen); [vm|]. exists e. split; [exact Hen|].
    exact (proj1 (sign_key_for_mls_spec alice_backend _ _ _ _ _ _ (ex_keys 32 32) _ _ e _
      (or_introl eq_refl) He) eq_refl eq_refl).
  - destruct (enroll_ok p256 (Some (ex_keys 32 65))) as (e & He & Hen); [vm|]. exists e. split; [exact Hen|].
    exact (proj1 (proj2 (sign_key_for_mls_spec alice_backend _ _ _ _ _ _ (ex_keys 32 65) _ _ e _
      (or_introl eq_refl) He)) (or_introl (conj eq_refl eq_refl))).
Defined.

(** One that has an authorization and an account. *)
Definition half_done : Enrollment :=
  @MkEnrollment example_acme_types [x01] [x01] alice_id (ascii_bytes "Alice") (ascii_bytes "alice") None 3600
    (Some (MkDirectory [x01] [x02] [x03] [x04])) (Some [x05]) (Some ex_user) None None None ed25519 (Some [x06]).

Lemma stash_pop_roundtrip_witness :
  exists hdl b1 b2, stash half_done alice_backend = (Ok hdl, b1) /\ stash_pop hdl b1 = (Ok half_done, b2).
Proof.
  assert (is_ok (stash half_done alice_backend).1 = true) as Hok by vm.
  destruct (runs _ _ Hok) as [hdl Hs].
  assert (healthy (key_store alice_backend)) as Hh by by split.
  assert (rep E2eiEnrollment_layout (conn_view (key_store alice_backend)) []) as Hl by by apply rep_empty.
  destruct (stash_pop_roundtrip alice_backend [] half_done hdl _ Hh Hl (NoDup_nil_2) Hs) as (_ & b2 & Hp & _).
  exact (ex_intro _ hdl (ex_intro _ _ (ex_intro _ b2 (conj Hs Hp)))).
Defined.
