(* ===== verification/CentralExample.v ===== *)
(** * MlsCentral at work

    Concrete functions for the cache, the limiters and the configuration's encoding, which satisfy
    the laws; and the theorems about the group store, certificates and [MlsCentral] on the
    instance of [Example]. *)

From Stdlib.Strings Require Import Byte.
From S2P Require Import Prelude KsError Sql SqlSpec Entity TableFrame.
From S2P Require Import MlsGroups MlsPending MlsKeys MlsCredentials E2eiEntities Keystore.
From S2P Require Import CcError Ids Backend GroupStore OpenMls Config CommitDelay Credential.
From S2P Require Import Certificates Acme Enrollment ClientOps Conversation Renew Decrypt Central E2eiCentral Example.
From S2P Require Import ConvFrame Durable Coherence ClientFrame CentralFrame CentralJoin CentralRotate CentralSpec.
From S2P Require Import CentralLive DecryptSpec Witness EnrollmentExample.
Open Scope Z_scope.

(** ** A cache

    A list of entries, the most recent one first. An entry that is too much pushes out the last
    one. *)

Definition ex_limiter (over : Z -> bool) : Limiter := {|
  is_over_the_limit := over;
  on_insert := fun _ k a => Some (k, a);
  on_replace := fun _ _ _ _ _ => true;
  on_grow := fun _ => true;
|}.

#[export] Instance example_limits : SchnellruLimits := {|
  ByLength := Z;
  ByLength_new n := n;
  ByLength_limiter n := ex_limiter (Z.ltb n);
  ByMemoryUsage := Z;
  ByMemoryUsage_new n := n;
  ByMemoryUsage_limiter _ := ex_limiter (fun _ => false);
  available_memory := 0;
|}.

Record ex_lru := ExLru { ex_limit : Limiter; ex_entries : list (bytes * Arc) }.

Definition ex_contents (m : ex_lru) : gmap bytes Arc := list_to_map (ex_entries m).
Definition ex_without (k : bytes) (l : list (bytes * Arc)) : list (bytes * Arc) :=
  List.filter (fun p => negb (bool_decide (p.1 = k))) l.
Definition ex_over (m : ex_lru) (entries : list (bytes * Arc)) : bool :=
  is_over_the_limit (ex_limit m) (Z.of_nat (size (list_to_map entries : gmap bytes Arc))).
Definition ex_put (k : bytes) (a : Arc) (m : ex_lru) : list (bytes * Arc) :=
  (k, a) :: ex_without k (ex_entries m).

Definition ex_lru_get (k : bytes) (m : ex_lru) : option Arc * ex_lru :=
  match ex_contents m !! k with
  | Some a => (Some a, ExLru (ex_limit m) (ex_put k a m))
  | None => (None, m)
  end.

Definition ex_lru_try_insert (k : bytes) (a : Arc) (m : ex_lru) : bool * ex_lru :=
  if ex_over m (ex_put k a m) then (false, m) else (true, ExLru (ex_limit m) (ex_put k a m)).

Definition ex_lru_insert (k : bytes) (a : Arc) (m : ex_lru) : bool * ex_lru :=
  if ex_over m (ex_put k a m) then
    match ex_contents m !! k, list.last (ex_entries m) with
    | Some _, _ => (true, ExLru (ex_limit m) (ex_put k a m))
    | None, Some (k0, _) => (true, ExLru (ex_limit m) ((k, a) :: ex_without k (ex_without k0 (ex_entries m))))
    | None, None => (false, m)
    end
  else (true, ExLru (ex_limit m) (ex_put k a m)).

#[export] Instance example_lru : Schnellru := {|
  LruMap := ex_lru;
  lru_new l := ExLru l [];
  lru_peek k m := ex_contents m !! k;
  lru_get := ex_lru_get;
  lru_insert := ex_lru_insert;
  lru_try_insert := ex_lru_try_insert;
  lru_remove k m := (ex_contents m !! k, ExLru (ex_limit m) (ex_without k (ex_entries m)));
|}.

Lemma ex_without_contents k l :
  list_to_map (ex_without k l) = delete k (list_to_map l : gmap bytes Arc).
Proof.
  induction l as [|[k' a] l IH]; simpl; [by rewrite delete_empty|].
  case_bool_decide as Hk; simpl.
  - subst. by rewrite delete_insert_eq.
  - by rewrite delete_insert_ne, IH by done.
Qed.

Lemma ex_put_contents k a m : list_to_map (ex_put k a m) = <[k := a]> (ex_contents m).
Proof. unfold ex_put. simpl. rewrite ex_without_contents. apply insert_delete_eq. Qed.

Lemma ex_last_key m k a : list.last (ex_entries m) = Some (k, a) -> is_Some (ex_contents m !! k).
Proof.
  intros Hl%last_Some_elem_of. destruct (ex_contents m !! k) eqn:Hk; [by eexists|].
  apply not_elem_of_list_to_map_2 in Hk. destruct Hk. apply list_elem_of_fmap. by exists (k, a).
Qed.

Lemma ex_insert_contents k a m : let (ok, m') := ex_lru_insert k a m in
  ex_contents m' ⊆ <[k := a]> (ex_contents m) /\
  ex_contents m' !! k = (if ok then Some a else None) /\ ex_limit m' = ex_limit m /\
  (is_over_the_limit (ex_limit m) (Z.of_nat (size (ex_contents m))) = false ->
   is_over_the_limit (ex_limit m) (Z.of_nat (size (ex_contents m'))) = false).
Proof.
  unfold ex_lru_insert.
  assert (forall over, (over = false \/ is_Some (ex_contents m !! k)) -> ex_over m (ex_put k a m) = over ->
    let m' := ExLru (ex_limit m) (ex_put k a m) in
    ex_contents m' ⊆ <[k := a]> (ex_contents m) /\ ex_contents m' !! k = Some a /\ ex_limit m' = ex_limit m /\
    (is_over_the_limit (ex_limit m) (Z.of_nat (size (ex_contents m))) = false ->
     is_over_the_limit (ex_limit m) (Z.of_nat (size (ex_contents m'))) = false)) as Hput.
  { intros over Ho Hov m'. change (ex_contents m') with (list_to_map (ex_put k a m) : gmap bytes Arc).
    unfold ex_over in Hov. rewrite ex_put_contents in *. rewrite lookup_insert_eq. split_and!; [done..|].
    destruct Ho as [->|Ho]; [done|]. by rewrite (map_size_insert_Some _ _ _ Ho). }
  destruct (ex_over m (ex_put k a m)) eqn:Ho; [|apply (Hput false); auto].
  destruct (ex_contents m !! k) as [x|] eqn:Hk; [apply (Hput true); rewrite ?Hk; eauto|].
  destruct (list.last (ex_entries m)) as [[k0 a0]|] eqn:Hl; [|split; [by apply insert_subseteq|done]].
  destruct (ex_last_key _ _ _ Hl) as [x Hx].
  assert (ex_contents (ExLru (ex_limit m) ((k, a) :: ex_without k (ex_without k0 (ex_entries m)))) =
    <[k := a]> (delete k0 (ex_contents m))) as Hc.
  { unfold ex_contents. simpl. by rewrite !ex_without_contents, insert_delete_eq. }
  rewrite Hc, lookup_insert_eq. split; [by apply insert_mono, delete_subseteq|].
  split; [done|]. split; [done|]. simpl. rewrite map_size_insert_None, map_size_delete_Some by
    (rewrite ?lookup_delete_ne by congruence; eauto).
  assert (size (ex_contents m) <> 0%nat) by (intros E%map_size_empty_iff; by rewrite E in Hx).
  intros Hs. rewrite <-Hs. do 2 f_equal. lia.
Qed.

#[export] Program Instance example_lru_laws : SchnellruLaws := {|
  lru_contents := ex_contents;
  lru_limiter := ex_limit;
|}.
Solve Obligations with done.
Next Obligation.
  intros k m. simpl. unfold ex_lru_get. destruct (ex_contents m !! k) as [a|] eqn:Hk; [|done]. simpl.
  split; [done|]. split; [|done]. unfold ex_contents at 1. simpl ex_entries. rewrite ex_put_contents.
  by apply insert_id.
Qed.
Next Obligation.
  intros k a m. pose proof (ex_insert_contents k a m) as Hi. simpl. destruct (ex_lru_insert k a m). tauto.
Qed.
Next Obligation.
  intros k a m. pose proof (ex_insert_contents k a m) as Hi. simpl. destruct (ex_lru_insert k a m). tauto.
Qed.
Next Obligation.
  intros k a m. simpl. unfold ex_lru_try_insert. destruct (ex_over _ _); [done|]. split; [|done].
  apply ex_put_contents.
Qed.
Next Obligation.
  intros k a m. simpl. unfold ex_lru_try_insert. destruct (ex_over _ _) eqn:Ho; done.
Qed.
Next Obligation. intros k m. split; [done|]. split; [|done]. apply ex_without_contents. Qed.

(** ** The configuration

    What does not fit into a value of the key store is refused. *)
#[export] Instance MlsWirePolicy_eq_dec : EqDecision MlsWirePolicy.
Proof. solve_decision. Defined.

Definition ex_cfg_data (cfg : MlsCustomConfiguration) : option Z * bool * Z * Z :=
  (key_rotation_span cfg, bool_decide (wire_policy cfg = Ciphertext), out_of_order_tolerance cfg,
   maximum_forward_distance cfg).

#[export] Instance example_config_serde : ConfigSerde := {|
  cfg_to_vec cfg := let b := encode_bytes (ex_cfg_data cfg) in
    if Z.leb (blen b) i32_max then Ok b else Err "too big";
  cfg_from_slice b := match decode_bytes (A := option Z * bool * Z * Z) b with
    | Some (s, w, o, m) => Ok (MkCustomConfiguration s (if w : bool then Ciphertext else Plaintext) o m)
    | None => Err "configuration"
    end;
|}.

#[export] Instance example_config_laws : ConfigSerdeLaws.
Proof. intros cfg b. simpl. destruct (Z.leb_spec (blen (encode_bytes (ex_cfg_data cfg))) i32_max); [|done]. by intros [= <-]. Qed.

(** ** The group store *)

Abbreviation conv_key := (ascii_bytes "conv").
Abbreviation ex_store := (GroupStore MlsConversation).
Abbreviation cached gs := (lru_contents (gs_lru gs)).

(** Alice's conversation is put in the cache, another value in its place, and it is removed. *)
Definition ex_inserted : conn * ex_store :=
  (fresh_conn : @conn ref_engine,
   gs_insert conv_key (alice_conv None Persisted) (GroupStore_default [])).

Lemma group_store_bounded_witness :
  Z.of_nat (size (cached ex_inserted.2)) <= ITEM_LIMIT /\ cached ex_inserted.2 !! conv_key = Some 0%nat /\
  is_Some (arc_read 0 ex_inserted.2).
Proof.
  destruct (group_store_bounded [] (fresh_conn : @conn ref_engine) ex_inserted) as [Hs Hc].
  - apply rtc_once. exact (step_insert _ _ _ _).
  - assert (cached ex_inserted.2 !! conv_key = Some 0%nat) as Hk by (vm_compute; reflexivity).
    split; [exact Hs|]. split; [exact Hk|]. exact (Hc _ _ Hk).
Defined.

(** ** Certificates *)

Lemma fresh_pki (env : option (list bytes)) :
  pki_tables (MkProvider tt (fresh_conn : @conn ref_engine) env : MlsCryptoProvider) None [] [].
Proof. split_and!; [done|by split|by apply rep_empty..]. Qed.

Abbreviation ca_crl := (ascii_bytes "http://ca/crl").

Lemma e2ei_register_crl_spec_witness :
  exists reg b', e2ei_register_crl ca_crl (ascii_bytes "der") pki_backend = (Ok reg, b') /\
    dirty reg = false /\ pki_tables b' None [] [MkE2eiCrl ca_crl []].
Proof.
  assert (is_ok (e2ei_register_crl ca_crl (ascii_bytes "der") pki_backend).1 = true) as Hok by vm.
  destruct (runs _ _ Hok) as [reg Hr]. eexists reg, _. split; [exact Hr|].
  destruct (e2ei_register_crl_spec pki_backend None [] [] ca_crl (ascii_bytes "der") _ _
    (fresh_pki _) ltac:(vm) Hr) as [[? _]|(env & crl & content & _ & _ & Hc & [Ht _] & _ & Hd)]; [done|].
  split; [|].
  - destruct (dirty reg); [|done]. by destruct (proj1 Hd eq_refl) as (? & ? & ? & _).
  - injection Hc as <-. exact Ht.
Defined.

Lemma e2ei_register_ca_spec_witness :
  exists b', e2ei_register_acme_ca (ascii_bytes "root") alice_backend = (Ok (), b') /\
    pki_tables b' (Some (ascii_bytes "root")) [] [] /\
    exists b'', e2ei_register_acme_ca (ascii_bytes "other") b' =
      (Err (Throw (E2eiError TrustAnchorAlreadyRegistered)), b'').
Proof.
  assert (is_ok (e2ei_register_acme_ca (ascii_bytes "root") alice_backend).1 = true) as Hok by vm.
  destruct (runs _ _ Hok) as [[] Hr]. eexists _. split; [exact Hr|].
  destruct (proj1 (e2ei_register_ca_spec alice_backend None [] [] (fresh_pki _)) _ _ _ Hr)
    as [[? _]|(env & root & der & _ & Hp & _ & Hd & [Ht _])]; [done|].
  injection Hp as <-. injection Hd as <-. split; [exact Ht|].
  destruct (e2ei_register_acme_ca (ascii_bytes "other") _) as [r b''] eqn:Hx. exists b''.
  destruct (proj1 (e2ei_register_ca_spec _ _ [] [] Ht) _ _ _ Hx) as [-> _]. reflexivity.
Defined.

(** No conversation is its own parent, or may differ from its row. *)
#[local] Existing Instance no_exempt.

(** ** Alice's MlsCentral

    It is made with her as the client, and then she makes a conversation. *)

Definition alice_configuration : MlsCentralConfiguration := {|
  store_path := []; identity_key := []; cfg_client_id := Some (ascii_bytes "alice");
  ciphersuites := [MLS_128_DHKEMX25519_AES128GCM_SHA256_Ed25519]; external_entropy := None;
  nb_init_key_packages := Some 1;
|}.

Definition alice_made := MlsCentral_try_new alice_configuration alice_backend.

Definition alice_central : MlsCentral :=
  MkCentral (Some alice_client) alice_backend (GroupStore_default []) None.

Abbreviation make_conv := (new_conversation conv_key Basic MlsConversationConfiguration_default).

Definition after_making : MlsCentral := (make_conv alice_central).2.

Lemma fresh_rows : rows_ok [].
Proof. intros e He. by apply not_elem_of_nil in He. Qed.

Lemma fresh_pending : pending_ok alice_backend.
Proof. exists []. split; [by apply rep_empty|]. split; [constructor|]. intros p g Hp. by apply not_elem_of_nil in Hp. Qed.

Lemma alice_rows : coherent_rows [] alice_central.
Proof.
  split_and!; [exact fresh_groups|exact fresh_rows|exact fresh_pending|].
  apply holds_default.
Qed.

Lemma after_making_coherent : coherent after_making.
Proof.
  apply (central_step_coherent no_exempt alice_central); [|by exists []; exact alice_rows].
  exact (step_call _ _ _ make_conv _ _ (CNew _ _ _) (surjective_pairing (make_conv alice_central))).
Qed.

(** She marks her conversation as a child of itself, which nothing refuses. *)
Abbreviation mark_itself := (mark_conversation_as_child_of conv_key conv_key).

(** The application allows everyone. *)
Definition allow_all : CoreCryptoCallbacks := MkCallbacks (fun _ _ => true) (fun _ _ _ => true) (fun _ _ _ _ => true).

Definition after_marking c0 : MlsCentral := set_callbacks allow_all (mark_itself (make_conv c0).2).2.

Lemma made_and_marked c0 :
  is_ok (mark_itself (make_conv c0).2).1 = true ->
  rtc central_step (no_exempt, c0) (add_own_parent conv_key no_exempt, after_marking c0).
Proof.
  intros Hok. eapply rtc_l, rtc_l, rtc_once.
  - exact (step_call _ _ _ make_conv _ _ (CNew _ _ _) (surjective_pairing (make_conv c0))).
  - apply runs in Hok as [[] Hr]. pose proof (step_marked no_exempt _ conv_key conv_key _ Hr) as Hs.
    unfold own_parent_if in Hs. by rewrite decide_True in Hs by done.
  - exact (step_call _ _ _ _ _ _ (CCallbacks allow_all) eq_refl).
Qed.

Lemma central_coherent_witness :
  exists c0 b', alice_made = (Ok c0, b') /\
    coherent (Ex := add_own_parent conv_key no_exempt) (after_marking c0).
Proof.
  assert (is_ok alice_made.1 = true) as Hok by vm.
  assert (match alice_made with (Ok c0, _) => is_ok (mark_itself (make_conv c0).2).1 | _ => false end = true)
    as Hm by vm.
  destruct (runs _ _ Hok) as [c0 Hc]. unfold alice_made in *. rewrite Hc in Hm.
  eexists c0, _. split; [exact Hc|].
  exact (central_coherent alice_configuration alice_backend [] ∅ c0 _ _ _ fresh_groups fresh_rows
    fresh_pending Hc (made_and_marked c0 Hm)).
Defined.

(** The conversation she made is in the cache; an empty cache reads the same one back. *)
Lemma cache_is_transparent_witness :
  exists a a0 conv conv0, (get_conversation conv_key after_making).1 = Ok a /\
    (get_conversation conv_key (empty_cache after_making)).1 = Ok a0 /\ a <> a0 /\
    same_conversation conv conv0 /\ conv_id conv0 = conv_key.
Proof.
  assert (cached (mls_groups after_making) !! conv_key = Some 0%nat) as Hk by vm.
  assert (match arc_read 0 (mls_groups after_making) with
    | Some conv => bool_decide (state_changed (conv_group conv) = Persisted) && is_active (conv_group conv)
        && bool_decide (conv_id conv = conv_key)
    | None => false end = true) as Hconv by vm.
  assert ((get_conversation conv_key after_making).1 = Ok 0%nat) as H1 by vm.
  assert ((get_conversation conv_key (empty_cache after_making)).1 = Ok 1%nat) as H2 by vm.
  assert (match arc_read 0 (mls_groups (get_conversation conv_key after_making).2) with
    | Some conv => bool_decide (conv_id conv = conv_key) | None => false end = true) as Hid by vm.
  assert (forall a conv, cached (mls_groups after_making) !! conv_key = Some a ->
    arc_read a (mls_groups after_making) = Some conv ->
    state_changed (conv_group conv) = Persisted) as Hcond.
  { intros a conv Ha Hr. rewrite Hk in Ha. injection Ha as <-. rewrite Hr in Hconv.
    apply andb_prop in Hconv as [[Hs%bool_decide_eq_true Hact]%andb_prop _]. exact Hs. }
  pose proof (cache_is_transparent after_making conv_key after_making_coherent (not_elem_of_empty conv_key) Hcond) as Ht.
  destruct (get_conversation conv_key after_making) as [r c1].
  destruct (get_conversation conv_key (empty_cache after_making)) as [r0 c2].
  simpl in H1, H2, Hid. subst r r0. destruct Ht as (conv & conv0 & Hv & _ & Hs).
  rewrite Hv in Hid. exists 0%nat, 1%nat, conv, conv0.
  apply bool_decide_eq_true in Hid. pose proof Hs as [Hs1 _]. rewrite Hid in Hs1.
  exact (conj eq_refl (conj eq_refl (conj (fun E => O_S 0 E) (conj Hs Hs1)))).
Defined.

Lemma conversation_made_and_wiped_witness :
  exists c', make_conv alice_central = (Ok (), c') /\
    exists l conv, coherent_rows l c' /\ stored_conv l conv_key = Some conv /\ conv_id conv = conv_key.
Proof.
  assert (is_ok (make_conv alice_central).1 = true) as Hok by vm. destruct (runs _ _ Hok) as [[] Hr].
  eexists. split; [exact Hr|].
  destruct (proj1 (conversation_made_and_wiped [] alice_central conv_key alice_rows) _ _ _ _ Hr)
    as [_ (l & Hl & _ & conv & Hs & Hid & _)].
  exact (ex_intro _ l (ex_intro _ conv (conj Hl (conj Hs Hid)))).
Defined.

(** Someone joins the conversation that is its own parent by an external commit: decrypting it waits
    for ever; and it is one of the calls, and the conversation one of those, that the theorem names. *)
Lemma waits {A} (r : result Stop A) :
  match r with Err Deadlock => true | _ => false end = true -> r = Err Deadlock.
Proof. by destruct r as [|[]]. Qed.

Abbreviation decrypt_join := (decrypt_message conv_key [x04; x00; x01]).

Lemma no_call_waits_for_ever_witness :
  exists c0 b', alice_made = (Ok c0, b') /\ (decrypt_join (after_marking c0)).1 = Err Deadlock /\
    exists id, reads_parent _ decrypt_join id /\ id ∈ @own_parents (add_own_parent conv_key no_exempt).
Proof.
  assert (is_ok alice_made.1 = true) as Hok by vm.
  assert (match alice_made with (Ok c0, _) => is_ok (mark_itself (make_conv c0).2).1 | _ => false end = true)
    as Hm by vm.
  assert (match alice_made with
    | (Ok c0, _) => match (decrypt_join (after_marking c0)).1 with Err Deadlock => true | _ => false end
    | _ => false end = true) as Hd by vm.
  destruct (runs _ _ Hok) as [c0 Hc]. unfold alice_made in *. rewrite Hc in Hm, Hd.
  eexists c0, _. split; [exact Hc|].
  destruct (no_call_waits_for_ever alice_configuration alice_backend [] ∅ c0 _ _ _ fresh_groups fresh_rows
    fresh_pending Hc (made_and_marked c0 Hm)) as (Hw & _).
  specialize (Hw _ decrypt_join (CDecrypt conv_key [x04; x00; x01])).
  apply waits in Hd. exact (conj Hd (Hw Hd)).
Defined.

(** Alice gets a certificate. *)
Definition alice_certified : CredentialBundle :=
  MkCredentialBundle ((true, ascii_bytes "alice", [ascii_bytes "cert"]) : Credential)
    (MkSignatureKeyPair 0 [x07] [x07]) 1.

Lemma some_if {A} (o : option A) : (if o then true else false) = true -> exists x, o = Some x.
Proof. destruct o as [x|]; [|done]. by exists x. Qed.

Lemma update_all_everywhere_witness :
  exists commits c', e2ei_update_all alice_certified after_making = (Ok commits, c') /\
    is_Some (commits !! conv_key) /\
    exists l l' conv, coherent_rows l after_making /\ fetched l conv_key = Some conv /\ coherent_rows l' c'.
Proof.
  assert (is_ok (e2ei_update_all alice_certified after_making).1 = true) as Hok by vm.
  destruct (runs _ _ Hok) as [commits Hr].
  destruct after_making_coherent as [l Hl].
  assert ((if mls_client after_making then true else false) = true) as Hcl by vm.
  apply some_if in Hcl as [cl Hcl].
  assert (match (e2ei_update_all alice_certified after_making).1 with
    | Ok m => bool_decide (is_Some (m !! conv_key)) | Err _ => false end = true) as Hin by vm.
  rewrite Hr in Hin. apply bool_decide_eq_true in Hin.
  destruct (update_all_everywhere l alice_certified cl after_making _ _ Hl Hcl Hr) as (l' & Hl' & _ & Hall).
  specialize (Hall conv_key). destruct (fetched l conv_key) as [conv|] eqn:Hf.
  - exact (ex_intro _ commits (ex_intro _ _ (conj Hr (conj Hin (ex_intro _ l (ex_intro _ l'
      (ex_intro _ conv (conj Hl (conj Hf Hl'))))))))).
  - destruct Hin as [x Hx]. rewrite Hx in Hall. discriminate.
Defined.
