(* ===== verification/ProteusExample.v ===== *)
(** * A Proteus client at work

    Concrete functions for the crate [proteus-wasm], which satisfy the laws, and the theorems about
    [ProteusCentral] on a fresh key store: a session outlives a restart of the client. *)

From Stdlib.Strings Require Import Byte.
From S2P Require Import Prelude KsError Sql SqlSpec Entity TableFrame ProteusEntities Keystore KeystoreSpec.
From S2P Require Import CcError Backend GroupStore Proteus ProteusSpec ProteusRefinement Cryptobox.
From S2P Require Import Coherence.
From S2P Require Import Central CentralFrame CoreCrypto Example Witness CentralExample.
Open Scope Z_scope.

(** ** The crate

    An identity is a byte. A session counts the messages that were sent; a message starts with its
    number, the first one with the identity of its sender and the id of the prekey that was used. *)

Record ex_session := ExSession { ex_me : Byte.byte; ex_peer : Byte.byte; ex_sent : Byte.byte }.

#[export] Instance example_proteus_types : ProteusTypes := {|
  IdentityKeyPair := Byte.byte;
  IdentityKey := Byte.byte;
  ProteusSessionState := ex_session;
  PreKey := Z;
  PreKeyBundle := Byte.byte * Z;
  Envelope := bytes;
  OsRng := Z;
|}.

Definition ex_next (s : ex_session) : ex_session :=
  ExSession (ex_me s) (ex_peer s) (byte_of (byte_val (ex_sent s) + 1)).

Definition ex_session_of (me : Byte.byte) (b : bytes) : result Z ex_session :=
  match b with
  | [o; p; n] => if bool_decide (o = me) then Ok (ExSession o p n) else Err 1
  | _ => Err 2
  end.

Definition ex_prekey_of (b : bytes) : result Z Z :=
  match b with [x; y] => Ok (u16_from_le_bytes x y) | _ => Err 3 end.

Definition ex_init_from_message (me : Byte.byte) (e : bytes) (os : Z) :
    prekey_prog (result Z (ex_session * bytes) * Z) :=
  match e with
  | peer :: x :: y :: plaintext =>
      let id := u16_from_le_bytes x y in
      PkPrekey id (fun r => match r with
        | Ok (Some _) => PkRemove id (fun _ => PkRet (Ok (ExSession me peer x00, plaintext), os))
        | _ => PkRet (Err 4, os)
        end)
  | _ => PkRet (Err 5, os)
  end.

#[export] Instance example_proteus : ProteusLib := {|
  IdentityKeyPair_new os := (byte_of os, os + 1);
  from_raw_key_pair sk pk := match sk with b :: _ => Ok b | [] => Err 6 end;
  public_key kp := kp;
  to_keypair_bytes kp := replicate (Z.to_nat SK_KEY_SIZE) kp;
  public_key_bytes k := replicate (Z.to_nat PK_KEY_SIZE) k;
  key_fingerprint k := [k];
  Session_deserialise := ex_session_of;
  Session_serialise s := Ok [ex_me s; ex_peer s; ex_sent s];
  init_from_prekey me bundle os := (Ok (ExSession me bundle.1 x00), os);
  init_from_message := ex_init_from_message;
  Session_encrypt s m os := (Ok (ex_sent s :: m), ex_next s, os);
  Session_decrypt s e os := PkRet (match e with _ :: m => Ok m | [] => Err 7 end, s, os);
  local_identity := ex_me;
  remote_identity := ex_peer;
  Envelope_serialise e := Ok e;
  Envelope_deserialise b := Ok b;
  PreKey_new id os := (id, os);
  PreKey_last_resort os := (u16_max, os);
  PreKey_serialise id := Ok (u16_to_le_bytes id);
  PreKey_deserialise := ex_prekey_of;
  PreKeyBundle_new k id := (k, id);
  PreKeyBundle_serialise b := Ok (b.1 :: u16_to_le_bytes b.2);
  PreKeyBundle_deserialise b := match b with k :: b => (fun id => (k, id)) <$> ex_prekey_of b | [] => Err 8 end;
  bundle_identity_key := fst;
  MAX_PREKEY_ID := u16_max;
|}.

#[export] Program Instance example_proteus_laws : ProteusLaws := {| session_owner := ex_me |}.
Next Obligation. by intros me key os s os' [= <- _]. Qed.
Next Obligation.
  intros me e os. simpl. unfold ex_init_from_message. destruct e as [|peer [|x [|y m]]]; try done.
  cbn [pk_all]. intros r. destruct r as [[b|]|]; cbn [pk_all]; [|done..]. intros r s m' [= <- _]. done.
Qed.
Next Obligation. done. Qed.
Next Obligation. done. Qed.
Next Obligation.
  intros me b s. simpl. unfold ex_session_of. destruct b as [|o [|p [|n [|]]]]; try done.
  case_bool_decide as Ho; [|done]. by intros [= <-].
Qed.
Next Obligation. intros [me p n] b [= <-]. simpl. by rewrite bool_decide_eq_true_2. Qed.
Next Obligation. intros kp. split; unfold blen; simpl; by rewrite ?length_replicate. Qed.
Next Obligation. done. Qed.
Next Obligation. by intros pk b [= <-]. Qed.
Next Obligation. done. Qed.

(** ** A life *)

Definition rng (n : Z) : OsRng := n.
Definition nobody : IdentityKeyPair := x00.
Definition no_sessions : ProteusAbs := @MkAbs example_proteus_types x07 ∅ ∅ 8.

(** The client starts; the identity is the first number the generator gives. *)
Lemma proteus_starts_witness :
  exists central c', ProteusCentral_try_new (fresh, rng 7) = (Ok central, (c', rng 8)) /\
    refines no_sessions (MkProteusState c' (rng 8) central).
Proof.
  assert (rep ProteusIdentity_layout (conn_view fresh) []) as Hi by by apply rep_empty.
  assert (rep ProteusSession_layout (conn_view fresh) []) as Hs by by apply rep_empty.
  assert (rep ProteusPrekey_layout (conn_view fresh) []) as Hp by by apply rep_empty.
  exact (proj1 (proteus_starts fresh (rng 7) eq_refl) Hi Hs Hp).
Defined.

Definition start_over (c : conn) (os : OsRng) : ProteusState :=
  match ProteusCentral_try_new (c, os) with
  | (Ok central, (c, os)) => MkProteusState c os central
  | (Err _, (c, os)) => MkProteusState c os (MkProteusCentral nobody (GroupStore_default []))
  end.

Definition client : ProteusState := start_over fresh (rng 7).

Lemma client_refines : refines no_sessions client.
Proof.
  assert (exists central c', ProteusCentral_try_new (fresh, rng 7) = (Ok central, (c', rng 8)) /\
    refines no_sessions (MkProteusState c' (rng 8) central)) as (central & c' & Hx & Hr).
  { assert (rep ProteusIdentity_layout (conn_view fresh) []) as Hi by by apply rep_empty.
    assert (rep ProteusSession_layout (conn_view fresh) []) as Hs by by apply rep_empty.
    assert (rep ProteusPrekey_layout (conn_view fresh) []) as Hp by by apply rep_empty.
    exact (start_fresh fresh (rng 7) eq_refl Hi Hs Hp). }
  unfold client, start_over. by rewrite Hx.
Qed.

Definition bob : bytes := ascii_bytes "bob".
Definition hello : bytes := ascii_bytes "hello".

(** A session from Bob's prekey, and two messages with a restart between them. *)
Definition bob_prekey : bytes := x09 :: u16_to_le_bytes 3.
Definition with_bob : ProteusState := (exec_call (CallFromPrekey bob bob_prekey) client).2.
Definition one_sent : ProteusState := (exec_call (CallEncrypt bob hello) with_bob).2.
Definition back_again : ProteusState := start_over (st_conn one_sent) (rng 50).
Definition two_sent : ProteusState := (exec_call (CallEncrypt bob hello) back_again).2.

Lemma answers {S A} (m : cc S A) s a : (m s).1 = Ok a -> m s = (Ok a, (m s).2).
Proof. destruct (m s). by intros [= ->]. Qed.

Lemma made_session : exec_call (CallFromPrekey bob bob_prekey) client = (Ok (()), with_bob).
Proof.
  assert ((exec_call (CallFromPrekey bob bob_prekey) client).1 = Ok (())) as Ha by vm. unfold with_bob. exact (answers _ _ _ Ha).
Qed.
Lemma first_message : exec_call (CallEncrypt bob hello) with_bob = (Ok (x00 :: hello), one_sent).
Proof.
  assert ((exec_call (CallEncrypt bob hello) with_bob).1 = Ok (x00 :: hello)) as Ha by vm. unfold one_sent. exact (answers _ _ _ Ha).
Qed.
Lemma second_message : exec_call (CallEncrypt bob hello) back_again = (Ok (x01 :: hello), two_sent).
Proof.
  assert ((exec_call (CallEncrypt bob hello) back_again).1 = Ok (x01 :: hello)) as Ha by vm. unfold two_sent. exact (answers _ _ _ Ha).
Qed.

Lemma start_life tr s os s' :
  is_ok (ProteusCentral_try_new (st_conn s, os)).1 = true ->
  life tr (start_over (st_conn s) os) s' -> life tr s s'.
Proof.
  unfold start_over. destruct (ProteusCentral_try_new (st_conn s, os)) as [[central|e] [c os']] eqn:Hx; [|done].
  intros _ Hl. by eapply life_restart.
Qed.

Lemma restarted tr s' : life tr back_again s' -> life tr one_sent s'.
Proof. apply (start_life tr one_sent (rng 50)). vm. Qed.

Lemma first_prekey : new_prekey_auto client = (Ok (1, x07 :: u16_to_le_bytes 1), (new_prekey_auto client).2).
Proof.
  assert ((new_prekey_auto client).1 = Ok (1, x07 :: u16_to_le_bytes 1)) as Ha by vm. exact (answers _ _ _ Ha).
Qed.

#[local] Opaque client with_bob one_sent back_again two_sent.

Lemma proteus_call_refines_witness :
  exists ab', on_disk ab' with_bob /\ refines ab' with_bob /\
    ab_sessions ab' !! bob = Some (ExSession x07 x09 x00).
Proof.
  destruct (proteus_call_refines (CallFromPrekey bob bob_prekey) no_sessions client _ _ eq_refl client_refines made_session)
    as [[_ Hp]|(ab' & Hs & Hd & Hr)]; [discriminate Hp|].
  exists ab'. split; [exact Hd|]. split; [exact (Hr eq_refl)|].
  assert (spec_call (CallFromPrekey bob bob_prekey) no_sessions =
    (Ok (), put_session bob (ExSession x07 x09 x00) no_sessions)) as Hs' by reflexivity.
  rewrite Hs' in Hs. injection Hs as <-. reflexivity.
Defined.

(** A message that is not one is refused; the session in memory is still that of the key store. *)
Definition refused : ProteusState := (exec_call (CallDecrypt bob []) two_sent).2.

Lemma message_refused :
  exec_call (CallDecrypt bob []) two_sent = (Err (Throw (ProteusErrorC (ProteusSessionError 7))), refused).
Proof.
  assert ((exec_call (CallDecrypt bob []) two_sent).1 = Err (Throw (ProteusErrorC (ProteusSessionError 7)))) as Ha by vm.
  unfold refused. destruct (exec_call (CallDecrypt bob []) two_sent). by f_equal.
Qed.

Definition cached : list (bytes * nat) := map_to_list (lru_contents (gs_lru (st_sessions refused))).

Lemma cached_bob : cached = [(bob, 0%nat)].
Proof. vm. Qed.

Definition bob_cell : result Stop (option ProteusConversationSession) :=
  (session_fetch_from_id bob (Some (proteus_identity (st_central refused))) (st_conn refused)).1.

Lemma bob_fetched : bob_cell = Ok (arc_read 0%nat (st_sessions refused)).
Proof. vm. Qed.

Lemma bob_there : is_Some (arc_read 0%nat (st_sessions refused)).
Proof.
  apply not_eq_None_Some. intros Hn.
  assert (is_ok (unwrap (S := ()) (arc_read 0%nat (st_sessions refused)) ()).1 = true) as Hk by vm.
  by rewrite Hn in Hk.
Qed.

(** A session that is not there has no fingerprint. *)
Definition asked : ProteusState := (exec_call (CallFingerprintLocal [x43]) refused).2.

Lemma no_fingerprint :
  exec_call (CallFingerprintLocal [x43]) refused = (Err (Throw (ConversationNotFound [x43])), asked).
Proof.
  assert ((exec_call (CallFingerprintLocal [x43]) refused).1 = Err (Throw (ConversationNotFound [x43]))) as Ha by vm.
  unfold asked. destruct (exec_call (CallFingerprintLocal [x43]) refused). by f_equal.
Qed.

#[local] Opaque refused.

Lemma refused_in_step : in_step refused.
Proof.
  intros id a Ha%elem_of_map_to_list. change ((id, a) ∈ cached) in Ha. rewrite cached_bob in Ha.
  apply list_elem_of_singleton in Ha as [= -> ->]. split; [vm|].
  destruct bob_there as [c Hc]. exists c. split; [exact Hc|]. rewrite <-Hc. exact bob_fetched.
Qed.

Definition two_messages : list answer :=
  [answered (CallFromPrekey bob bob_prekey) (Ok ()); answered (CallEncrypt bob hello) (Ok (x00 :: hello));
   answered (CallEncrypt bob hello) (Ok (x01 :: hello));
   answered (CallDecrypt bob []) (Err (Throw (ProteusErrorC (ProteusSessionError 7))));
   answered (CallFingerprintLocal [x43]) (Err (Throw (ConversationNotFound [x43])))].

Lemma two_messages_life : life two_messages client asked.
Proof.
  apply (life_call (CallFromPrekey bob bob_prekey) () _ client with_bob); [vm|exact made_session|].
  apply (life_call (CallEncrypt bob hello) (x00 :: hello) _ with_bob one_sent); [vm|exact first_message|].
  apply restarted.
  apply (life_call (CallEncrypt bob hello) (x01 :: hello) _ back_again two_sent); [vm|exact second_message|].
  apply (life_failed (CallDecrypt bob []) _ _ two_sent refused refused);
    [vm|exact message_refused|exact (goes_on_in_step _ refused_in_step)|].
  apply (life_steady (CallFingerprintLocal [x43]) _ [] refused asked); [vm|vm|exact no_fingerprint|].
  apply life_refl.
Qed.

Lemma proteus_life_refines_witness :
  exists ab', abstract_life two_messages no_sessions ab' /\ refines ab' asked.
Proof. exact (proteus_life_refines two_messages client asked no_sessions client_refines two_messages_life). Defined.

Lemma new_prekey_auto_spec_witness :
  exists b os, refines (set_os os (set_prekeys (<[1 := b]> ∅) no_sessions)) (new_prekey_auto client).2.
Proof.
  destruct (new_prekey_auto_spec no_sessions client _ _ client_refines first_prekey) as (_ & _ & _ & b & os & Hr).
  exists b, os. exact Hr.
Defined.

(** ** A Cryptobox

    A file system is a list of files. *)

#[export] Instance example_cryptobox : CryptoboxLib := {|
  IdentityKeyPair_deserialise b := match b with [k] => Ok k | _ => Err 9 end;
  Identity_deserialise b := match b with [k] => Ok (inl k) | _ => Err 9 end;
|}.

Definition ex_name (n : bytes) : bytes := if utf8_valid n then n else [].
Definition ex_entry (dir : list bytes) (f : list bytes * bytes) : option DirEntry :=
  match rev f.1 with
  | n :: d => if bool_decide (rev d = dir) then Some (MkEntry (ex_name n) f.1) else None
  | [] => None
  end.

#[export] Instance example_files : Files := {|
  Fs := list (list bytes * bytes);
  fs_exists p fs := existsb (fun f => bool_decide (take (length p) f.1 = p)) fs;
  fs_read p fs := match first (fun f => bool_decide (f.1 = p)) fs with
    | Some f => if Z.leb (blen f.2) i32_max then Some f.2 else None
    | None => None
    end;
  fs_read_dir p fs := Some (Some <$> omap (M := list) (ex_entry p) fs);
  fs_remove_file p fs := Some (List.filter (fun f => negb (bool_decide (f.1 = p))) fs);
|}.

#[export] Instance example_files_laws : FilesLaws.
Proof.
  split.
  - intros p fs es e [= <-] (e' & [= <-] & Hin)%list_elem_of_fmap.
    apply list_elem_of_omap in Hin as (f & _ & He). unfold ex_entry in He.
    destruct (rev f.1) as [|n d]; [done|]. case_bool_decide; [|done]. injection He as <-. simpl.
    unfold ex_name. by destruct (utf8_valid n) eqn:Hn.
  - intros p fs b. simpl. destruct (first _ fs) as [f|]; [|done].
    destruct (Z.leb_spec (blen f.2) i32_max); [|done]. by intros [= <-].
Qed.

(** Alice's old directory: her identity, her session with Bob, a prekey, and a file that is none. *)
Definition box : bytes := ascii_bytes "box".
Definition old_files : Fs :=
  [([box; ascii_bytes "identities"; ascii_bytes "local"], [x07]);
   ([box; ascii_bytes "sessions"; bob], [x07; x09; x05]);
   ([box; ascii_bytes "sessions"; ascii_bytes "other"], [x08; x09; x05]);
   ([box; ascii_bytes "prekeys"; ascii_bytes "12"], u16_to_le_bytes 12)].

Definition after_migration : result Stop () * (conn * Fs) := cryptobox_migrate_impl box (fresh, old_files).

Lemma nothing_there : nothing_yet no_sessions (conn_view fresh).
Proof. split_and!; [done|done|by apply rep_empty..]. Qed.

Lemma migration_done : cryptobox_migrate_impl box (fresh, old_files) = (Ok (), (after_migration.2.1, after_migration.2.2)).
Proof.
  assert (after_migration.1 = Ok ()) as Ha by vm. unfold after_migration in *.
  destruct (cryptobox_migrate_impl box (fresh, old_files)) as [r [c fs]]. cbn [fst snd] in *. by rewrite Ha.
Qed.

Lemma sessions_taken :
  (exec_prog (ProteusSession_find_one bob) after_migration.2.1).1 = Ok (Some (MkProteusSession bob [x07; x09; x05])) /\
  (exec_prog (ProteusSession_find_one (ascii_bytes "other")) after_migration.2.1).1 = Ok None.
Proof. split; vm. Qed.

#[local] Opaque after_migration.

Lemma cryptobox_migrate_spec_witness :
  exists me ab', stored ab' (conn_view after_migration.2.1) /\ ab_identity ab' = me /\
    forall r2 s2, cryptobox_migrate_impl box (after_migration.2.1, after_migration.2.2) = (r2, s2) ->
      conn_view s2.1 = conn_view after_migration.2.1.
Proof.
  destruct (cryptobox_migrate_spec no_sessions box fresh old_files _ _ _ eq_refl (or_intror nothing_there) migration_done)
    as (_ & _ & Hm).
  destruct (Hm eq_refl) as (me & ab' & Hst & (Hid & _) & Hagain). exists me, ab'.
  split; [exact Hst|]. split; [exact Hid|exact Hagain].
Defined.

(** ** With the MLS client *)

(** Alice has a conversation; then she starts the Proteus client. *)
Definition alice_core : CoreCrypto := CoreCrypto_from after_making (rng 7).
Definition alice_both : CoreCrypto := (proteus_init alice_core).2.

Lemma init_answers : proteus_init alice_core = (Ok (), alice_both).
Proof.
  assert ((proteus_init alice_core).1 = Ok ()) as Ha by vm. unfold alice_both. exact (answers _ _ _ Ha).
Qed.

#[local] Opaque alice_core alice_both after_making.
#[local] Existing Instance no_exempt.

Lemma proteus_keeps_mls_witness :
  coherent (mls alice_both) /\ mls_groups (mls alice_both) = mls_groups (mls alice_core).
Proof.
  destruct (proteus_keeps_mls _ _ alice_core _ _ PInit after_making_coherent init_answers) as (Hc & Hg & _).
  split; [exact Hc|exact Hg].
Defined.

(** The key store of the Proteus client, under a new program. *)
Definition later_core : CoreCrypto := CoreCrypto_from (set_keystore (st_conn client) alice_central) (rng 60).

Lemma later_stored : healthy (borrow_keystore later_core) /\ stored no_sessions (conn_view (borrow_keystore later_core)).
Proof. destruct client_refines as [(Hh & _ & _ & Hst) _]. split; [exact Hh|exact Hst]. Qed.

Lemma later_init : proteus_init later_core = (Ok (), (proteus_init later_core).2).
Proof.
  assert ((proteus_init later_core).1 = Ok ()) as Ha by vm. exact (answers _ _ _ Ha).
Qed.

#[local] Opaque later_core.

Lemma proteus_init_spec_witness :
  exists ab', served ab' (proteus_init later_core).2 /\ ab_identity ab' = x07 /\ ab_sessions ab' = ∅ /\
    is_Some (ab_prekeys ab' !! last_resort_prekey_id).
Proof.
  destruct later_stored as [Hh Hst].
  destruct (proteus_init_spec later_core no_sessions _ _ Hh Hst later_init) as (ab' & Hs & Hi & Hss & Hp & _).
  exists ab'. split; [exact Hs|]. split; [exact Hi|]. split; [exact Hss|exact Hp].
Defined.
