(* ===== verification/BrowserCryptoboxExample.v ===== *)
(** * A Cryptobox of a browser

    The old database of a browser as a list of stores, with the crate of [ProteusExample] and the
    browser of [BrowserExample]: Alice's identity, her session with Bob and a prekey are taken. *)

From Stdlib.Strings Require Import Byte.
From S2P Require Import Prelude KsError Entity ProteusEntities.
From S2P Require Import Browser BrowserEntity BrowserMap BrowserProteus BrowserExample.
From S2P Require Import CcError Backend Proteus ProteusSpec Cryptobox BrowserCryptobox ProteusExample.
Open Scope Z_scope.

(** A key is a string or not; a value is an object; the base64 of bytes is a letter and the
    bytes. *)
#[export] Instance example_cryptobox_db : CryptoboxDb := {|
  SourceDb := list (string * list (option bytes * gmap string Json));
  SourceKey := option bytes;
  SourceValue := gmap string Json;
  source_build path := if bool_decide (path = ascii_bytes "box") then Some
    [("keys", [(Some (ascii_bytes "local_identity"), {["serialised" := JString [x62; x07]]})]);
     ("prekeys", [(Some (ascii_bytes "12"), {["serialised" := JString (x62 :: u16_to_le_bytes 12)]})]);
     ("sessions", [(Some (ascii_bytes "bob"), {["serialised" := JString [x62; x07; x09; x05]]});
                   (Some (ascii_bytes "other"), {["serialised" := JString [x62; x08; x09; x05]]})])]
    else Some [];
  source_store_names db := fst <$> db;
  source_get db name k := Some (
    s ← first (fun s : string * list (option bytes * gmap string Json) => String.eqb name s.1) db;
    snd <$> first (fun e : option bytes * gmap string Json =>
      bool_decide (e.1 = Some (ascii_bytes k))) s.2);
  source_get_all db name :=
    snd <$> first (fun s : string * list (option bytes * gmap string Json) => String.eqb name s.1) db;
  as_string k := k;
  source_from_value := Some;
  base64_decode b := match b with x62 :: b => Some b | _ => None end;
|}.

Definition old_box : bytes := ascii_bytes "box".

Definition browser_after : result BrowserStop () * Browser :=
  browser_cryptobox_migrate_impl old_box ex_persistent.

Lemma ex_proteus_holds : proteus_holds ex_persistent ∅ ∅ ∅.
Proof. split; apply ex_persistent_holds. Qed.

Lemma browser_migration_ok : browser_after.1 = Ok ().
Proof. by vm_compute. Qed.

(** Bob's session is there, that of somebody else is not. *)
Example browser_sessions_taken :
  (WasmConnection_find (E := ProteusSession) (ascii_bytes "bob") browser_after.2).1 =
    Ok (Some (MkProteusSession (ascii_bytes "bob") [x07; x09; x05])) /\
  (WasmConnection_find (E := ProteusSession) (ascii_bytes "other") browser_after.2).1 = Ok None.
Proof. split; by vm_compute. Qed.

(** A database of another shape is refused. *)
Example browser_no_box :
  (browser_cryptobox_migrate_impl (ascii_bytes "elsewhere") ex_persistent).1 =
  Err (BThrow (CryptoboxMigrationErrorC (ProvidedPathDoesNotExist (ascii_bytes "elsewhere")))).
Proof. by vm_compute. Qed.

Lemma browser_migrate_spec_witness :
  exists me mi' ms' mp', proteus_holds browser_after.2 mi' ms' mp' /\ identity_stored mi' me /\
    forall r2 b2, browser_cryptobox_migrate_impl old_box browser_after.2 = (r2, b2) ->
      proteus_holds b2 mi' ms' mp'.
Proof.
  destruct (browser_migrate_spec old_box ex_persistent ∅ ∅ ∅ browser_after.1 browser_after.2
    ex_proteus_holds (surjective_pairing _)) as (mi' & ms' & mp' & Hh & _ & (_ & _ & _ & Hm) & Hagain).
  rewrite browser_migration_ok in *. destruct (Hm eq_refl) as (db & me & _ & Hid & _).
  exists me, mi', ms', mp'. split_and!; [exact Hh|exact Hid|exact (Hagain eq_refl)].
Defined.
